(* ===== verification/_CoqProject ===== *)
-Q . S2P
Prelude.v
TimeSet.v
Text.v
Config.v
Log.v
Dump.v
Json.v
JsonLaws.v
Md5.v
Files.v
MySql.v
DbTests.v
Quic.v
Asio.v
Mains.v
Buffer.v
Wire.v
Character.v
Protocol.v
Packet.v
ObjectPool.v
SharedPool.v
CommandQueue.v
PacketQueue.v
System.v
Certify.v
Connector.v
Network.v
NetFrame.v
Duplex.v
SvrState.v
Session.v
Server.v
SvrFrame.v
Client.v
Main.v
Life.v
Reports.v
ServerLaws.v
ThreadLaws.v
SessionLaws.v
SvrInv.v
CommandLaws.v
ClientLaws.v
Reach.v
EndToEnd.v
ClientConn.v
Broadcast.v
Entry.v
Game.v
Locks.v
