(* ===== verification/Prelude.v ===== *)
(** * project_pl: a game server and its client, verified

    The development models the C++ 20 program of project_pl: a Winsock
    completion-port framework (src/project_pl_cpp_20/_framework), the library
    below it (_lib), the game server (svr) and the console client (cli).  It is
    a shallow embedding: a C++ function is a Rocq function of the same name,
    reading and writing an explicit state.

    ** The program

    A client connects, authenticates and sends framed packets: a head (check
    key, length), a 32-bit type and a payload, and a tail (check key, sequence
    number, time), all of 32-bit words.  The network threads of the server post overlapped receives and sends,
    cut frames out of a ring per connection and push them on a packet queue.
    The process thread pops one packet at a time and calls the handler of its
    type for the session of the connection; handlers answer directly or queue
    commands (broadcasts, a disconnection, the list of characters) that the
    update thread runs before it looks after the heartbeat of every session and
    releases the sessions that have lost their connection.  The client keeps a copy of the characters it is told of.

    ** How C++ is represented

    Prelude.v: [outcome] is a result or a [fault] - behaviour that C++ or the C
    runtime leaves undefined, or a handler that ends the program.  [st S A] is
    code on a state [S].  Integers are Z, wrapped to their width by [u8] ... [i64]
    where the code's types wrap.  Memory is a block of bytes with offsets;
    [peek], [poke], [aget] and [aset] fault outside it.  Objects that outlive a
    call (connectors, sessions, zones, packets, commands, JSON nodes, database
    connections, QUIC handles) sit behind addresses in a finite map, so that aliasing, use
    after destruction and double destruction are visible.  Loops whose end is
    not structural have fuel and end in the fault [OutOfFuel] without it; the
    theorems about them say that the fuel the definition gives suffices (the
    length of the text in Text and Json, the number of bytes in Md5, Files and
    Buffer, the number of fields in TimeSet, the digits in Client).  Prelude also
    has the three notions the larger proofs walk over the code with:
    [respects R m] (a run changes the state along a preorder), [hoare F P m Q]
    and [keeps F P m] (triples whose faults are in [F]), each with a hint
    database and a tactic.

    Parameters, never defined here: Winsock and the clock (class [OS] in
    System.v; laws a theorem needs are in [OSLaws]), the JSON library of the
    configuration ([RapidJson] in Config.v), the profile functions of Windows
    (Config.v), the answers of the MySQL libraries (MySql.v), the outcome of the calls
    into msquic and the events it may deliver (Quic.v), the completions of asio
    (Asio.v), the time zone
    (TimeSet.v).  Theorems hold for all their values; witnesses instantiate
    them.

    ** Files, and the code they model

    - TimeSet: _lib/util_time.  Text: _lib/util_String, strncmp, atoi and the
      string searches.  Config: _lib/config_loader, _framework/default_config,
      svr/config, cli/config.  Log: _lib/log.  Dump:
      _lib/exception_report, GetFileName.  Json, JsonLaws: _lib/_json.
      Md5, Files: _external/md5, _lib/util_file.  MySql, DbTests: _lib/MySQL and
      its self-tests.
    - Quic: the callbacks of svr_quic and cli_quic.  Asio: the objects of
      svr_asio.  Mains: the main functions of the three.
    - Buffer: _framework/buffer (BufferBase, Serializer, CircleBuffer,
      NetworkBuffer).  Wire: the serializable-object interface as a class with
      laws.  Character: _framework/character_base.  Protocol:
      packet_protocol_cs, packet_protocol_sc.  Packet: _framework/packet and
      the constants of _common.h.
    - ObjectPool, SharedPool: _lib/object_pool_mgr.  CommandQueue: _lib/command_unit_base.
      PacketQueue: _framework/packet_data_queue.  Certify:
      _framework/certifyData.
    - System: the operating system and the state of the framework's
      singletons.  Connector: _framework/connector, connector_impl,
      connector_mgr.  Network: _framework/network and
      svr/network_impl; the thread functions are their preparation and one
      iteration of their loop.  NetFrame: what the network layer leaves alone.
      Duplex: the two directions of a connection.
    - SvrState, Session, Server: svr/user_session, user_session_mgr, zone,
      zone_mgr, connector_impl, command_unit_process, process.  SvrFrame: what
      the server's code leaves alone.  Client: cli/user_session,
      user_session_mgr, character, connector_impl, process.  Main: main of both
      programs up to their threads.  Life: the threads of both programs from
      start to stop.  Reports: what the pools, the managers and the connectors
      report, and who writes it to the log.
    - ServerLaws, ThreadLaws, SessionLaws, CommandLaws, ClientLaws: theorems
      about the components above.  SvrInv: the invariant of the server and that
      every primitive, handler, command and thread keeps it.  Reach: the server
      as a transition system.  EndToEnd: client and server joined by the
      kernel.  ClientConn: a client on its connection, under every order of
      events.  Broadcast, Entry: a move and an entry, from one client through
      the server to the others.  Game: any sequence of messages, and what
      becomes of the clients' pictures.
      Locks: _lib/safe_lock and the order of acquisition.

    ** The theorems

    - End to end: after any sequence of messages of the game, each processed
      when the one before has run its passes, every client of the zone ends up
      with every character where the server has it ([Game.zone_agrees]); this
      fails when an entry and a move share a pass ([Game.move_overtakes_enter])
      and for those who left while one was away ([Game.ghost_stays]).  A move one client
      says is seen by every client of the zone ([Broadcast.move_seen_by_zone]),
      whatever happens on their connections meanwhile, and all of it arrives after a bounded number of completions
      ([Broadcast.told_arrives]); one who enters is seen by every client of the
      zone and sees them all ([Entry.enter_seen_by_zone]); every message the client sends is handled
      once and in order ([EndToEnd.messages_handled]).  They compose the framing
      ([Packet.MakeNetworkPacket_spec], [Packet.ParseNetworkData_segmented]),
      the two directions of a connection ([Duplex.connection_duplex]), the
      packet queue ([PacketQueue.one_consumer_fifo]), the process thread
      ([ThreadLaws.ProcessThread_frame], [Session.MessageProcess_dispatch]), the
      two ticks of a broadcast ([ServerLaws.move_reaches_zone]), the list of
      characters ([CommandLaws.SendCharacterList_one_each]) and the client
      ([ClientConn.client_connection]), which refines an automaton over messages.
    - The invariant of the server over every interleaving of its threads'
      iterations ([Reach.server_invariant]), and that no packet, whatever its
      bytes, and no update reaches a destroyed object
      ([Reach.no_dangling_access]).
    - Refinements: the ring is a FIFO of bytes, a tick of the command
      queue runs what was queued when it began, the client's picture of the world the
      abstract one ([ClientLaws.client_view_refines]), MD5 by pieces the reference
      function.
    - The game: who hears a movement, an authentication, a chat, a departure;
      heartbeats disconnect a silent client.
    - Start and stop: behind /exit some thread can always go on, for a bounded
      number of steps, until the program ends - which it does in
      std::terminate, never by returning ([Life.server_shutdown],
      [Life.client_shutdown]).
    - Reports: none is too long for the log, and the counts of a manager's add
      up ([Reports.report_adds_up]).
    - Locks: without C2S_Auth the acquisitions follow one order and never
      deadlock; with it two threads can.
    - Round trips and equivalences: serialization ([Wire]'s laws), the
      certification text, dates, and the JSON reader on printed documents.
    - Ownership: pools hand out no object twice, a database wrapper owns exactly
      the connection it holds, the QUIC callbacks close and free once.
    - Behaviour on bad input: frames that are split between receives, bad tails, oversized
      echo texts, a second authentication, unreachable databases.  The findings
      of the manifest name the theorem that shows each.

    ** Assumptions

    An iteration of a thread is atomic in Reach, EndToEnd, ClientConn, Broadcast, Entry and Game; what the code
    protects by locks is interleaved at a finer grain where it matters
    (CommandQueue, PacketQueue, Log, two writers in Network), Locks treats
    the locks themselves, and Life the blocking of the threads in start, stop
    and join.  A join of a thread that has been joined throws, in Life also
    when both began before the thread had ended.  Memory allocation succeeds.  Addresses of new
    objects are fresh where a theorem says so.  The processor is a
    little-endian x86-64.

    ** Not modelled

    Console output and the printf family, except the formats of the log, of
    the dump files, of the dates and of the reports; what a
    minidump holds; that RegistrationClose of msquic may wait; the C# projects,
    the SQL scripts and the vendored libraries other than md5.cpp. *)
From Stdlib Require Import ZArith Lia.
From stdpp Require Export base numbers list gmap sorting.
#[global] Set Default Goal Selector "!".

(** ** Outcomes

    A C++ call either completes or runs into behaviour the language (or the
    C runtime) leaves undefined, or that ends the program.  The second case is a value of the model, so
    that "this never happens" and "this happens" are both statements. *)
Inductive fault : Set :=
| OutOfBounds        (** access outside the object *)
| NullDeref          (** dereference of a null pointer *)
| UseAfterFree       (** access through a pointer to a destroyed object *)
| InvalidParameter   (** CRT invalid-parameter handler of the _s functions *)
| EmptyContainer     (** front/back/pop of an empty standard container *)
| Assertion          (** a failed assertion of a library *)
| UncaughtException  (** an exception out of a destructor: std::terminate *)
| OutOfFuel.         (** the bound given to a loop of the model was too small *)

Inductive outcome (A : Type) : Type :=
| Ok (a : A)
| Fault (f : fault).
Arguments Ok {A} a.
Arguments Fault {A} f.

#[global] Instance outcome_ret : MRet outcome := @Ok.
#[global] Instance outcome_bind : MBind outcome := λ A B k m,
  match m with Ok a => k a | Fault f => Fault f end.
#[global] Instance outcome_fmap : FMap outcome := λ A B g m,
  match m with Ok a => Ok (g a) | Fault f => Fault f end.

#[global] Instance fault_eq_dec : EqDecision fault.
Proof. solve_decision. Defined.

Lemma bind_ok {A B} (a : A) (k : A → outcome B) : (Ok a ≫= k) = k a.
Proof. reflexivity. Qed.
Lemma bind_fault {A B} f (k : A → outcome B) : (Fault f ≫= k) = Fault f.
Proof. reflexivity. Qed.

Lemma bind_ok_inv {A B} (m : outcome A) (k : A → outcome B) b :
  (m ≫= k) = Ok b → ∃ a, m = Ok a ∧ k a = Ok b.
Proof. destruct m; simpl; [eauto|discriminate]. Qed.

Definition is_ok {A} (m : outcome A) : bool :=
  match m with Ok _ => true | Fault _ => false end.

(** [fold_outcome f a l] is the range-for loop: it stops at the first fault. *)
Fixpoint fold_outcome {A S} (f : S → A → outcome S) (s : S) (l : list A) : outcome S :=
  match l with
  | [] => Ok s
  | x :: l' => s' ← f s x; fold_outcome f s' l'
  end.

Lemma fold_outcome_app {A S} (f : S → A → outcome S) s l1 l2 :
  fold_outcome f s (l1 ++ l2) = (s' ← fold_outcome f s l1; fold_outcome f s' l2).
Proof.
  revert s; induction l1 as [|x l1 IH]; intros s; [done|simpl].
  destruct (f s x); simpl; [apply IH|done].
Qed.

Lemma fold_outcome_inv {A S} (f : S → A → outcome S) (P : S → Prop) l s s' :
  (∀ s x s', x ∈ l → P s → f s x = Ok s' → P s') →
  P s → fold_outcome f s l = Ok s' → P s'.
Proof.
  revert s; induction l as [|x l IH]; simpl; intros s Hf HP Hrun; [congruence|].
  apply bind_ok_inv in Hrun as (s1 & H1 & H2).
  apply (IH s1); [|eapply Hf; eauto; set_solver|done].
  intros; eapply Hf; eauto; set_solver.
Qed.

(** ** Stateful code

    [st S A] threads a state through code that may fault. *)
Definition st (S A : Type) : Type := S → outcome (A * S).
#[global] Instance st_ret {S} : MRet (st S) := λ A a s, Ok (a, s).
#[global] Instance st_bind {S} : MBind (st S) := λ A B k m s,
  match m s with Ok (a, s') => k a s' | Fault f => Fault f end.

Definition st_lift {S A} (m : outcome A) : st S A := λ s,
  match m with Ok a => Ok (a, s) | Fault f => Fault f end.
Definition st_gets {S A} (g : S → A) : st S A := λ s, Ok (g s, s).
Definition st_modify {S} (g : S → S) : st S unit := λ s, Ok (tt, g s).
Definition st_skip {S} : st S unit := λ s, Ok (tt, s).
(** Run code that knows only a part of the state. *)
Definition st_zoom {S T A} (get : S → T) (put : T → S → S) (m : st T A) : st S A := λ s,
  match m (get s) with Ok (a, t) => Ok (a, put t s) | Fault f => Fault f end.
Definition st_when {S} (b : bool) (m : st S unit) : st S unit := if b then m else st_skip.
Fixpoint st_each {S A} (f : A → st S unit) (l : list A) : st S unit :=
  match l with
  | [] => st_skip
  | x :: l' => λ s, match f x s with Ok (_, s') => st_each f l' s' | Fault e => Fault e end
  end.

Lemma st_bind_ok {S A B} (m : st S A) (k : A → st S B) s a s' :
  m s = Ok (a, s') → mbind (M := st S) k m s = k a s'.
Proof. unfold mbind, st_bind. by intros ->. Qed.
Lemma st_bind_fault {S A B} (m : st S A) (k : A → st S B) s f :
  m s = Fault f → mbind (M := st S) k m s = Fault f.
Proof. unfold mbind, st_bind. by intros ->. Qed.
Lemma st_bind_inv {S A B} (m : st S A) (k : A → st S B) s b s' :
  mbind (M := st S) k m s = Ok (b, s') → ∃ a s1, m s = Ok (a, s1) ∧ k a s1 = Ok (b, s').
Proof. unfold mbind, st_bind. destruct (m s) as [[a s1]|f]; [eauto|done]. Qed.

(** An invariant kept by every call of the body is kept by the loop. *)
Lemma st_each_inv {S A} (f : A → st S unit) (P : S → Prop) l s u s' :
  (∀ s x u s', x ∈ l → P s → f x s = Ok (u, s') → P s') →
  P s → st_each f l s = Ok (u, s') → P s'.
Proof.
  revert s; induction l as [|x l IH]; simpl; intros s Hf HP Hrun.
  { unfold st_skip in Hrun. congruence. }
  destruct (f x s) as [[u1 s1]|] eqn:E; [|done].
  apply (IH s1); [intros; eapply Hf; eauto; set_solver| |done].
  eapply Hf; eauto; set_solver.
Qed.

(** ** What a run leaves alone

    [respects R m]: every run of [m] that completes relates the state before
    to the state after by the preorder [R].  The goals the code gives are
    discharged by walking over it, with one hint per function called. *)
Definition respects {S A} (R : S → S → Prop) (m : st S A) : Prop :=
  ∀ s a s', m s = Ok (a, s') → R s s'.

Section Respects.
Context {S : Type} (R : S → S → Prop) `{!PreOrder R}.

Lemma respects_ret {A} (a : A) : respects R (mret (M := st S) a).
Proof. by intros s b s' [= <- <-]. Qed.
Lemma respects_skip : respects R (@st_skip S).
Proof. by intros s b s' [= <- <-]. Qed.
Lemma respects_lift {A} (m : outcome A) : respects R (st_lift (S := S) m).
Proof. intros s b s'. unfold st_lift. destruct m; [|done]. by intros [= <- <-]. Qed.
Lemma respects_gets {A} (g : S → A) : respects R (st_gets g).
Proof. by intros s b s' [= <- <-]. Qed.
Lemma respects_fault {A} f : respects R (λ _ : S, @Fault (A * S) f).
Proof. by intros s b s'. Qed.
Lemma respects_modify (g : S → S) : (∀ s, R s (g s)) → respects R (st_modify g).
Proof. intros Hg s b s' [= <- <-]. apply Hg. Qed.
Lemma respects_bind {A B} (m : st S A) (k : A → st S B) :
  respects R m → (∀ a, respects R (k a)) → respects R (mbind (M := st S) k m).
Proof.
  intros Hm Hk s b s' E. apply st_bind_inv in E as (a & s1 & E1 & E2).
  etrans; [by eapply Hm|by eapply Hk].
Qed.
Lemma respects_each {A} (f : A → st S unit) l :
  (∀ x, x ∈ l → respects R (f x)) → respects R (st_each f l).
Proof.
  intros Hf s a s' E. apply (st_each_inv f (R s) l s a s'); [|done|done].
  intros s1 x u s2 Hx H1 E1. etrans; [done|]. by eapply Hf.
Qed.
Lemma respects_weaken {A} (R' : S → S → Prop) (m : st S A) :
  (∀ s s', R s s' → R' s s') → respects R m → respects R' m.
Proof. intros HR Hm s a s' E. by eapply HR, Hm. Qed.
End Respects.
Lemma respects_zoom {S T A} (R : S → S → Prop) (R' : T → T → Prop) (get : S → T) (put : T → S → S)
    (m : st T A) :
  respects R' m → (∀ s t, R' (get s) t → R s (put t s)) → respects R (st_zoom get put m).
Proof.
  intros Hm HR s a s' E. unfold st_zoom in E. destruct (m (get s)) as [[b t]|] eqn:Em; [|done].
  injection E as <- <-. by eapply HR, Hm.
Qed.

Create HintDb respects.
#[export] Hint Resolve respects_ret respects_skip respects_lift respects_gets respects_fault : respects.
#[export] Hint Extern 1 (PreOrder _) => apply _ : respects.
(** One step of the walk; a match is split once its branches are reached. *)
Ltac respects_step :=
  first
    [ progress eauto with respects
    | apply respects_bind; [apply _| |intros ?]
    | apply respects_each; [apply _|intros ? ?]
    | match goal with
      | |- respects _ (if ?b then _ else _) => destruct b
      | |- respects _ (match ?x with _ => _ end) => destruct x
      end ].
Ltac respects_tac := repeat respects_step.

(** ** Faults and triples

    [faults F m]: if [m] faults, its fault is in [F].  [hoare F P m Q]: run
    from a state in [P], [m] ends in [Q] or with a fault in [F]; [keeps F P m]
    is the triple whose post-condition is the pre-condition. *)
Definition faults {A} (F : fault → Prop) (m : outcome A) : Prop :=
  match m with Ok _ => True | Fault f => F f end.
Definition hoare {S A} (F : fault → Prop) (P : S → Prop) (m : st S A) (Q : A → S → Prop) : Prop :=
  ∀ s, P s → match m s with Ok (a, s') => Q a s' | Fault f => F f end.
Definition keeps {S A} (F : fault → Prop) (P : S → Prop) (m : st S A) : Prop := hoare F P m (λ _, P).
(** Any fault; any fault but an access to a destroyed object. *)
Definition any_fault (f : fault) : Prop := True.
Definition no_dangling (f : fault) : Prop := f ≠ UseAfterFree.

Section Triples.
Context {S : Type} (F : fault → Prop).
Implicit Types (P : S → Prop).

Lemma faults_bind {A B} (m : outcome A) (k : A → outcome B) :
  faults F m → (∀ a, m = Ok a → faults F (k a)) → faults F (m ≫= k).
Proof. destruct m; simpl; auto. Qed.
Lemma faults_ok {A} (a : A) : faults F (Ok a).
Proof. done. Qed.
Lemma faults_fault {A} f : F f → faults F (@Fault A f).
Proof. done. Qed.
Lemma hoare_bind {A B} P (m : st S A) (Q : A → S → Prop) (k : A → st S B) R :
  hoare F P m Q → (∀ a, hoare F (Q a) (k a) R) → hoare F P (mbind (M := st S) k m) R.
Proof.
  intros Hm Hk s Hs. unfold mbind, st_bind. specialize (Hm s Hs). destruct (m s) as [[a s']|f]; [|done].
  exact (Hk a s' Hm).
Qed.
Lemma hoare_conseq {A} P P' (m : st S A) (Q Q' : A → S → Prop) :
  (∀ s, P s → P' s) → (∀ a s, Q' a s → Q a s) → hoare F P' m Q' → hoare F P m Q.
Proof.
  intros HP HQ Hm s Hs. specialize (Hm s (HP s Hs)). destruct (m s) as [[a s']|f]; [by apply HQ|done].
Qed.
Lemma hoare_weaken {A} (F' : fault → Prop) P (m : st S A) Q :
  (∀ f, F f → F' f) → hoare F P m Q → hoare F' P m Q.
Proof. intros HF Hm s Hs. specialize (Hm s Hs). destruct (m s) as [[a s']|f]; auto. Qed.
Lemma keeps_bind {A B} P (m : st S A) (k : A → st S B) :
  keeps F P m → (∀ a, keeps F P (k a)) → keeps F P (mbind (M := st S) k m).
Proof. apply hoare_bind. Qed.
Lemma keeps_ret {A} P (a : A) : keeps F P (mret (M := st S) a).
Proof. by intros s Hs. Qed.
Lemma keeps_skip P : keeps F P (@st_skip S).
Proof. by intros s Hs. Qed.
Lemma keeps_gets {A} P (g : S → A) : keeps F P (st_gets g).
Proof. by intros s Hs. Qed.
Lemma keeps_lift {A} P (m : outcome A) : faults F m → keeps F P (st_lift (S := S) m).
Proof. intros Hm s Hs. unfold st_lift. by destruct m. Qed.
Lemma keeps_modify P (g : S → S) : (∀ s, P s → P (g s)) → keeps F P (st_modify g).
Proof. intros Hg s Hs. by apply Hg. Qed.
Lemma keeps_each {A} P (f : A → st S unit) l : (∀ x, x ∈ l → keeps F P (f x)) → keeps F P (st_each f l).
Proof.
  intros Hf. induction l as [|x l IH]; intros s Hs; [done|]. cbn [st_each].
  pose proof (Hf x ltac:(set_solver) s Hs) as Hx. destruct (f x s) as [[u s']|e]; [|done].
  apply IH; [set_solver|done].
Qed.
(** A loop whose invariant follows the elements it has been through. *)
Lemma hoare_each_from {A} (I : list A → S → Prop) (f : A → st S unit) rest : ∀ pre,
  (∀ xs x ys, pre ++ rest = xs ++ x :: ys → hoare F (I xs) (f x) (λ _, I (xs ++ [x]))) →
  hoare F (I pre) (st_each f rest) (λ _, I (pre ++ rest)).
Proof.
  induction rest as [|x rest IH]; intros pre Hf s Hs; [by rewrite app_nil_r|]. cbn [st_each].
  pose proof (Hf pre x rest eq_refl s Hs) as Hx. destruct (f x s) as [[u s']|e]; [|done].
  rewrite (cons_middle x pre rest), app_assoc in Hf |- *. exact (IH (pre ++ [x]) Hf s' Hx).
Qed.
Lemma hoare_each {A} (I : list A → S → Prop) (f : A → st S unit) l :
  (∀ xs x ys, l = xs ++ x :: ys → hoare F (I xs) (f x) (λ _, I (xs ++ [x]))) →
  hoare F (I []) (st_each f l) (λ _, I l).
Proof. apply (hoare_each_from I f l []). Qed.
End Triples.
Lemma hoare_zoom {S T A} (F : fault → Prop) (get : S → T) (put : T → S → S) (m : st T A)
    (P : T → Prop) (Q : A → T → Prop) (P' : S → Prop) (Q' : A → S → Prop) :
  hoare F P m Q → (∀ s, P' s → P (get s)) →
  (∀ s a t, P' s → m (get s) = Ok (a, t) → Q a t → Q' a (put t s)) → hoare F P' (st_zoom get put m) Q'.
Proof.
  intros Hm HP HQ s Hs. unfold st_zoom. specialize (Hm _ (HP s Hs)).
  destruct (m (get s)) as [[a t]|f] eqn:E; [|done]. by apply HQ.
Qed.

Create HintDb keeps.
#[export] Hint Resolve keeps_ret keeps_skip keeps_gets faults_ok faults_fault : keeps.
#[export] Hint Extern 2 (keeps _ _ (st_lift _)) => apply keeps_lift : keeps.
#[export] Hint Extern 1 (any_fault _) => exact I : keeps.
#[export] Hint Extern 1 (no_dangling _) => discriminate : keeps.
Lemma faults_any {A} (m : outcome A) : faults any_fault m.
Proof. by destruct m. Qed.
#[export] Hint Resolve faults_any : keeps.
Ltac keeps_step :=
  first
    [ progress eauto with keeps
    | apply keeps_bind; [|intros ?]
    | apply faults_bind; [|intros ? ?]
    | apply keeps_each; intros ? ?
    | match goal with
      | |- keeps _ _ (if ?b then _ else _) => destruct b
      | |- keeps _ _ (match ?x with _ => _ end) => destruct x
      | |- faults _ (if ?b then _ else _) => destruct b
      | |- faults _ (match ?x with _ => _ end) => destruct x
      end ].
Ltac keeps_tac := repeat keeps_step.

(** ** Machine integers

    Values are kept in Z with the wrap-around of their width written out. *)
Open Scope Z_scope.

Definition wrapu (w z : Z) : Z := z mod 2 ^ w.
Definition wraps (w z : Z) : Z := (z + 2 ^ (w - 1)) mod 2 ^ w - 2 ^ (w - 1).

Abbreviation u8 := (wrapu 8).
Abbreviation u16 := (wrapu 16).
Abbreviation u32 := (wrapu 32).
Abbreviation u64 := (wrapu 64).
Abbreviation i8 := (wraps 8).
Abbreviation i16 := (wraps 16).
Abbreviation i32 := (wraps 32).
Abbreviation i64 := (wraps 64).

Definition in_u (w z : Z) : Prop := 0 ≤ z < 2 ^ w.
Definition in_s (w z : Z) : Prop := - 2 ^ (w - 1) ≤ z < 2 ^ (w - 1).
#[global] Instance in_u_dec w z : Decision (in_u w z) := _.
#[global] Instance in_s_dec w z : Decision (in_s w z) := _.

(** Range conditions at the concrete widths. *)
Ltac zrange :=
  unfold in_s, in_u in *;
  change (2 ^ (8 - 1)) with 128 in *; change (2 ^ (16 - 1)) with 32768 in *;
  change (2 ^ (32 - 1)) with 2147483648 in *;
  change (2 ^ (64 - 1)) with 9223372036854775808 in *; lia.

Lemma wrapu_small w z : in_u w z → wrapu w z = z.
Proof. intros ?. by apply Z.mod_small. Qed.
Lemma wrapu_neg w z : 0 ≤ w → - 2 ^ w ≤ z < 0 → wrapu w z = z + 2 ^ w.
Proof.
  intros Hw ?. unfold wrapu. rewrite <-(Z.mod_small (z + 2 ^ w) (2 ^ w)) by lia.
  replace (z + 2 ^ w) with (z + 1 * 2 ^ w) by lia. rewrite Z.mod_add; [done|].
  apply Z.pow_nonzero; lia.
Qed.
Lemma wrapu_range w z : 0 ≤ w → in_u w (wrapu w z).
Proof. intros ?. apply Z.mod_pos_bound, Z.pow_pos_nonneg; lia. Qed.
Lemma pow2_half w : 0 < w → 2 ^ w = 2 * 2 ^ (w - 1).
Proof. intros ?. rewrite <-Z.pow_succ_r by lia. f_equal; lia. Qed.
Lemma wraps_small w z : 0 < w → in_s w z → wraps w z = z.
Proof.
  intros Hw [??]. unfold wraps. rewrite Z.mod_small; [lia|].
  rewrite (pow2_half w) by done. lia.
Qed.
Lemma wraps_range w z : 0 < w → in_s w (wraps w z).
Proof.
  intros Hw. unfold wraps, in_s. pose proof (pow2_half w Hw).
  pose proof (Z.mod_pos_bound (z + 2 ^ (w - 1)) (2 ^ w)).
  assert (0 < 2 ^ (w - 1)) by (apply Z.pow_pos_nonneg; lia). lia.
Qed.

(** Reading back the unsigned representation of a signed value. *)
Lemma wraps_mod w z : 0 < w → wraps w (z mod 2 ^ w) = wraps w z.
Proof.
  intros Hw. unfold wraps. by rewrite Z.add_mod_idemp_l by (apply Z.pow_nonzero; lia).
Qed.

(** ** Little-endian representation of integers (x86-64) *)
Fixpoint le_enc (n : nat) (z : Z) : list Z :=
  match n with
  | O => []
  | S n => z mod 256 :: le_enc n (z / 256)
  end.
Fixpoint le_dec (bs : list Z) : Z :=
  match bs with
  | [] => 0
  | b :: bs => b + 256 * le_dec bs
  end.

Definition is_byte (b : Z) : Prop := 0 ≤ b < 256.
#[global] Instance is_byte_dec b : Decision (is_byte b) := _.

Lemma length_le_enc n z : length (le_enc n z) = n.
Proof. revert z; induction n; simpl; auto. Qed.

Lemma le_enc_bytes n z : Forall is_byte (le_enc n z).
Proof.
  revert z; induction n as [|n IH]; intros z; simpl; constructor; [|apply IH].
  apply Z.mod_pos_bound; lia.
Qed.

Lemma le_dec_enc n z : le_dec (le_enc n z) = z mod 2 ^ (8 * Z.of_nat n).
Proof.
  revert z; induction n as [|n IH]; intros z; [by rewrite Z.mod_1_r|].
  cbn [le_enc le_dec]. rewrite IH.
  replace (8 * Z.of_nat (S n)) with (8 + 8 * Z.of_nat n) by lia.
  rewrite Z.pow_add_r by lia. change (2 ^ 8) with 256.
  rewrite Z.rem_mul_r by (try apply Z.pow_nonzero; lia). lia.
Qed.

Lemma le_dec_bound bs :
  Forall is_byte bs → 0 ≤ le_dec bs < 2 ^ (8 * Z.of_nat (length bs)).
Proof.
  induction 1 as [|b bs Hb _ IH]; [done|]. cbn [le_dec length]. unfold is_byte in Hb.
  replace (8 * Z.of_nat (S (length bs))) with (8 + 8 * Z.of_nat (length bs)) by lia.
  rewrite Z.pow_add_r by lia. change (2 ^ 8) with 256. lia.
Qed.

Lemma le_enc_dec bs : Forall is_byte bs → le_enc (length bs) (le_dec bs) = bs.
Proof.
  induction 1 as [|b bs Hb _ IH]; [done|]. unfold is_byte in Hb.
  cbn [le_dec length le_enc].
  rewrite (Z.mul_comm 256), Z.mod_add, Z.div_add, Z.mod_small, Z.div_small by lia.
  by rewrite Z.add_0_l, IH.
Qed.

Lemma mod_lxor x y n : 0 ≤ n → Z.lxor x y mod 2 ^ n = Z.lxor (x mod 2 ^ n) (y mod 2 ^ n).
Proof.
  intros Hn. rewrite <-!Z.land_ones by done. apply Z.bits_inj'. intros k Hk.
  rewrite !Z.land_spec, !Z.lxor_spec, !Z.land_spec.
  by destruct (Z.testbit x k), (Z.testbit y k), (Z.testbit (Z.ones n) k).
Qed.
Lemma le_enc_lxor n x y : le_enc n (Z.lxor x y) = zip_with Z.lxor (le_enc n x) (le_enc n y).
Proof.
  revert x y; induction n as [|n IH]; intros x y; [done|]. cbn [le_enc zip_with]. f_equal.
  - by apply (mod_lxor x y 8).
  - rewrite <-IH. f_equal. change 256 with (2 ^ 8). by rewrite <-!Z.shiftr_div_pow2, Z.shiftr_lxor.
Qed.
Lemma le_enc_mod n z : le_enc n (z mod 2 ^ (8 * Z.of_nat n)) = le_enc n z.
Proof.
  rewrite <-le_dec_enc. rewrite <-(length_le_enc n z) at 1. apply le_enc_dec, le_enc_bytes.
Qed.
(** Only the low bytes matter, so the signed reading of a word does not. *)
Lemma le_enc_wraps n z : le_enc n (wraps (8 * Z.of_nat n) z) = le_enc n z.
Proof.
  rewrite <-le_enc_mod, <-(le_enc_mod n z). f_equal. unfold wraps. set (m := 2 ^ _). set (h := 2 ^ _).
  rewrite Zminus_mod_idemp_l. f_equal. lia.
Qed.

#[global] Opaque le_enc le_dec.
#[global] Arguments wrapu : simpl never.
#[global] Arguments wraps : simpl never.

(** ** Memory blocks

    A block is the list of its bytes; a pointer into it is an offset.  [peek]
    and [poke] are the two sides of memcpy: they fault outside the block. *)
Definition zlen {A} (l : list A) : Z := Z.of_nat (length l).
Definition sub {A} (m : list A) (off n : Z) : list A :=
  take (Z.to_nat n) (drop (Z.to_nat off) m).
Definition splice {A} (m : list A) (off : Z) (d : list A) : list A :=
  take (Z.to_nat off) m ++ d ++ drop (Z.to_nat (off + zlen d)) m.
Definition get {A} (m : list A) (i : Z) : option A := m !! Z.to_nat i.

Definition peek {A} (m : list A) (off n : Z) : outcome (list A) :=
  if bool_decide (0 ≤ off ∧ 0 ≤ n ∧ off + n ≤ zlen m)
  then Ok (sub m off n) else Fault OutOfBounds.
Definition poke {A} (m : list A) (off : Z) (d : list A) : outcome (list A) :=
  if bool_decide (0 ≤ off ∧ off + zlen d ≤ zlen m)
  then Ok (splice m off d) else Fault OutOfBounds.

(** Indexing a fixed array, [a[i]]. *)
Definition aget {A} (a : list A) (i : Z) : outcome A :=
  if bool_decide (0 ≤ i) then
    match get a i with Some x => Ok x | None => Fault OutOfBounds end
  else Fault OutOfBounds.
Definition aset {A} (a : list A) (i : Z) (x : A) : outcome (list A) :=
  poke a i [x].

Lemma faults_peek {A} F (m : list A) off n : F OutOfBounds → faults F (peek m off n).
Proof. intros. unfold peek. by case_bool_decide. Qed.
Lemma faults_poke {A} F (m : list A) off d : F OutOfBounds → faults F (poke m off d).
Proof. intros. unfold poke. by case_bool_decide. Qed.
Lemma faults_aget {A} F (m : list A) i : F OutOfBounds → faults F (aget m i).
Proof. intros. unfold aget. case_bool_decide; [|done]. by destruct (get m i). Qed.
#[export] Hint Resolve faults_peek faults_poke faults_aget : keeps.

Ltac zn := unfold zlen in *; rewrite ?length_app, ?length_take, ?length_drop,
  ?length_replicate in *; cbn [length] in *; lia.

Section Blocks.
Context {A : Type}.
Implicit Types (m d : list A) (off n i : Z).

Lemma zlen_nonneg m : 0 ≤ zlen m.
Proof. zn. Qed.
Lemma zlen_app m d : zlen (m ++ d) = zlen m + zlen d.
Proof. zn. Qed.
Lemma zlen_nil : zlen (@nil A) = 0.
Proof. done. Qed.
Lemma zlen_cons x m : zlen (x :: m) = 1 + zlen m.
Proof. zn. Qed.
Lemma zlen_replicate k (x : A) : zlen (replicate k x) = Z.of_nat k.
Proof. zn. Qed.
Lemma zlen_take k m : zlen (take k m) = Z.min (Z.of_nat k) (zlen m).
Proof. zn. Qed.
Lemma zlen_drop k m : zlen (drop k m) = Z.max 0 (zlen m - Z.of_nat k).
Proof. zn. Qed.
Lemma zlen_zero_nil m : zlen m ≤ 0 → m = [].
Proof. destruct m; [done|]; zn. Qed.

Lemma zlen_sub m off n :
  0 ≤ off → 0 ≤ n → off + n ≤ zlen m → zlen (sub m off n) = n.
Proof. intros; unfold sub; zn. Qed.
Lemma zlen_splice m off d :
  0 ≤ off → off + zlen d ≤ zlen m → zlen (splice m off d) = zlen m.
Proof. intros; unfold splice; zn. Qed.

Lemma peek_ok m off n :
  0 ≤ off → 0 ≤ n → off + n ≤ zlen m → peek m off n = Ok (sub m off n).
Proof. intros; unfold peek; by rewrite bool_decide_true. Qed.
Lemma peek_fault m off n :
  ¬ (0 ≤ off ∧ 0 ≤ n ∧ off + n ≤ zlen m) → peek m off n = Fault OutOfBounds.
Proof. intros; unfold peek; by rewrite bool_decide_false. Qed.
Lemma poke_ok m off d :
  0 ≤ off → off + zlen d ≤ zlen m → poke m off d = Ok (splice m off d).
Proof. intros; unfold poke; by rewrite bool_decide_true. Qed.
Lemma poke_fault m off d :
  ¬ (0 ≤ off ∧ off + zlen d ≤ zlen m) → poke m off d = Fault OutOfBounds.
Proof. intros; unfold poke; by rewrite bool_decide_false. Qed.
Lemma poke_length m off d m' : poke m off d = Ok m' → zlen m' = zlen m.
Proof.
  unfold poke. case_bool_decide; [|done]. intros [= <-].
  destruct_and!. by apply zlen_splice.
Qed.

Lemma get_sub m off n i :
  0 ≤ off → 0 ≤ i < n → get (sub m off n) i = get m (off + i).
Proof.
  intros. unfold get, sub. rewrite lookup_take_lt by lia.
  rewrite lookup_drop. f_equal. lia.
Qed.

Lemma get_splice m off d i :
  0 ≤ i → 0 ≤ off → off + zlen d ≤ zlen m →
  get (splice m off d) i =
    if bool_decide (off ≤ i < off + zlen d) then get d (i - off) else get m i.
Proof.
  intros. unfold get, splice.
  destruct (decide (i < off)).
  - rewrite bool_decide_false by lia.
    rewrite lookup_app_l by zn. by rewrite lookup_take_lt by lia.
  - rewrite lookup_app_r by zn. rewrite length_take.
    case_bool_decide.
    + rewrite lookup_app_l by zn. f_equal. zn.
    + rewrite lookup_app_r by zn. rewrite lookup_drop. f_equal. zn.
Qed.

Lemma get_app_l m d i : 0 ≤ i < zlen m → get (m ++ d) i = get m i.
Proof. intros. unfold get. apply lookup_app_l. zn. Qed.
Lemma get_app_r m d i : zlen m ≤ i → get (m ++ d) i = get d (i - zlen m).
Proof. intros. unfold get. rewrite lookup_app_r by zn. f_equal. zn. Qed.
Lemma get_None m i : zlen m ≤ i → get m i = None.
Proof. intros. unfold get. apply lookup_ge_None. zn. Qed.
Lemma get_Some_lt m i x : 0 ≤ i → get m i = Some x → i < zlen m.
Proof. intros ? ?%lookup_lt_Some. zn. Qed.
Lemma get_is_Some m i : 0 ≤ i < zlen m → is_Some (get m i).
Proof. intros. apply lookup_lt_is_Some. zn. Qed.

Lemma blocks_eq m d :
  zlen m = zlen d → (∀ i, 0 ≤ i < zlen m → get m i = get d i) → m = d.
Proof.
  intros Hl Hg. apply (list_eq_same_length _ _ (length m)); [zn|done|].
  intros k x y Hk Hx Hy. specialize (Hg (Z.of_nat k)). unfold get in Hg.
  rewrite Nat2Z.id, Hx, Hy in Hg. assert (Some x = Some y) by (apply Hg; zn). congruence.
Qed.

Lemma sub_splice_same m off d :
  0 ≤ off → off + zlen d ≤ zlen m → sub (splice m off d) off (zlen d) = d.
Proof.
  intros. pose proof (zlen_nonneg d).
  apply blocks_eq; [rewrite zlen_sub; rewrite ?zlen_splice; lia|].
  rewrite zlen_sub by (rewrite ?zlen_splice; lia). intros i Hi.
  rewrite get_sub, get_splice, bool_decide_true by lia. f_equal. lia.
Qed.

Lemma sub_splice_disjoint m off d o n :
  0 ≤ off → off + zlen d ≤ zlen m → 0 ≤ o → 0 ≤ n → o + n ≤ zlen m →
  o + n ≤ off ∨ off + zlen d ≤ o →
  sub (splice m off d) o n = sub m o n.
Proof.
  intros. apply blocks_eq; [rewrite !zlen_sub; rewrite ?zlen_splice; lia|].
  rewrite zlen_sub by (rewrite ?zlen_splice; lia). intros i Hi.
  rewrite !get_sub, get_splice, bool_decide_false by lia. done.
Qed.

Lemma sub_app m off a b :
  0 ≤ off → 0 ≤ a → 0 ≤ b → off + a + b ≤ zlen m →
  sub m off (a + b) = sub m off a ++ sub m (off + a) b.
Proof.
  intros. apply blocks_eq.
  - rewrite zlen_app, !zlen_sub by lia. lia.
  - rewrite zlen_sub by lia. intros i Hi. rewrite get_sub by lia.
    destruct (decide (i < a)).
    + rewrite get_app_l by (rewrite zlen_sub; lia). by rewrite get_sub by lia.
    + rewrite get_app_r by (rewrite zlen_sub; lia). rewrite zlen_sub by lia.
      rewrite get_sub by lia. f_equal. lia.
Qed.

Lemma sub_all m : sub m 0 (zlen m) = m.
Proof. unfold sub. rewrite drop_0. apply take_ge. zn. Qed.
Lemma sub_nil m off : sub m off 0 = [].
Proof. done. Qed.
Lemma sub_app_here m d k : k = zlen d → sub (d ++ m) 0 k = d.
Proof. intros ->. unfold sub, zlen. rewrite drop_0, Nat2Z.id. apply take_app_length. Qed.
Lemma sub_app_skip m d off n :
  zlen d ≤ off → sub (d ++ m) off n = sub m (off - zlen d) n.
Proof.
  intros. unfold sub. rewrite drop_app_ge by zn. do 2 f_equal. zn.
Qed.
Lemma sub_app_prefix m d off n :
  0 ≤ off → 0 ≤ n → off + n ≤ zlen d → sub (d ++ m) off n = sub d off n.
Proof.
  intros. unfold sub. rewrite drop_app_le by zn. rewrite take_app_le by zn. done.
Qed.
Lemma sub_sub m o1 n1 o2 n2 :
  0 ≤ o1 → 0 ≤ o2 → 0 ≤ n2 → o2 + n2 ≤ n1 →
  sub (sub m o1 n1) o2 n2 = sub m (o1 + o2) n2.
Proof.
  intros. unfold sub. rewrite skipn_firstn_comm, take_take, drop_drop.
  f_equal; [lia|f_equal; lia].
Qed.
Lemma splice_whole m d : zlen d = zlen m → splice m 0 d = d.
Proof.
  intros. unfold splice. rewrite drop_ge by zn. by rewrite app_nil_r.
Qed.
End Blocks.

Lemma sub_Forall {A} (P : A → Prop) m off n : Forall P m → Forall P (sub m off n).
Proof. intros. by apply Forall_take, Forall_drop. Qed.
Lemma splice_Forall {A} (P : A → Prop) (m d : list A) off :
  Forall P m → Forall P d → Forall P (splice m off d).
Proof. intros. apply Forall_app; split; [by apply Forall_take|].
  apply Forall_app; split; [done|by apply Forall_drop]. Qed.

Create HintDb blocks.
Create HintDb params.
Create HintDb locality.
Create Rewrite HintDb blocks.
#[export] Hint Resolve zlen_nonneg : blocks.
#[export] Hint Resolve sub_Forall splice_Forall le_enc_bytes : blocks.
#[export] Hint Rewrite @zlen_app @zlen_nil @zlen_cons @zlen_replicate @zlen_take @zlen_drop : blocks.

(** ** std::map with 64-bit keys

    [insert] leaves an existing entry alone; iteration follows the key order. *)
Definition std_insert {V} (k : Z) (v : V) (m : gmap Z V) : gmap Z V :=
  match m !! k with Some _ => m | None => <[k := v]> m end.
Definition key_le {V} (x y : Z * V) : Prop := x.1 ≤ y.1.
#[global] Instance key_le_dec {V} : RelDecision (@key_le V) := λ x y, decide (x.1 ≤ y.1).
Definition std_items {V} (m : gmap Z V) : list (Z * V) :=
  merge_sort key_le (map_to_list m).

Lemma std_items_perm {V} (m : gmap Z V) : std_items m ≡ₚ map_to_list m.
Proof. apply merge_sort_Permutation. Qed.
Lemma elem_of_std_items {V} (m : gmap Z V) k v : (k, v) ∈ std_items m ↔ m !! k = Some v.
Proof. rewrite std_items_perm. apply elem_of_map_to_list. Qed.
Lemma std_items_NoDup {V} (m : gmap Z V) : NoDup (std_items m).*1.
Proof. rewrite std_items_perm. apply NoDup_fst_map_to_list. Qed.
Lemma std_insert_lookup {V} k (v : V) m k' :
  std_insert k v m !! k' =
    if decide (k' = k) then Some (default v (m !! k)) else m !! k'.
Proof.
  unfold std_insert. destruct (m !! k) eqn:E; case_decide; subst; simpl; try done.
  - by rewrite lookup_insert_eq.
  - by rewrite lookup_insert_ne.
Qed.

(** Case analysis on the boolean comparisons of the code. *)
Ltac zcases :=
  repeat match goal with
  | |- context [?x <? ?y] => destruct (Z.ltb_spec x y)
  | |- context [?x <=? ?y] => destruct (Z.leb_spec x y)
  | |- context [?x =? ?y] => destruct (Z.eqb_spec x y)
  | |- context [?x >=? ?y] => destruct (Z.geb_spec x y)
  | |- context [?x >? ?y] => destruct (Z.gtb_spec x y)
  end; try lia.

Ltac zbool :=
  repeat match goal with
  | |- context [?x <? ?y] =>
      first [ rewrite (proj2 (Z.ltb_lt x y)) by lia
            | rewrite (proj2 (Z.ltb_ge x y)) by lia ]
  | |- context [?x <=? ?y] =>
      first [ rewrite (proj2 (Z.leb_le x y)) by lia
            | rewrite (proj2 (Z.leb_gt x y)) by lia ]
  | |- context [?x =? ?y] =>
      first [ rewrite (proj2 (Z.eqb_eq x y)) by lia
            | rewrite (proj2 (Z.eqb_neq x y)) by lia ]
  end.

(** Side conditions on block lengths. *)
Ltac blia :=
  repeat first [ rewrite zlen_app | rewrite zlen_nil | rewrite zlen_cons
               | rewrite zlen_splice by blia | rewrite zlen_sub by blia ]; lia.

Section Arrays.
Context {A : Type}.
Implicit Types (a d : list A) (i : Z) (x : A).

Lemma aget_ok a i x : 0 ≤ i → get a i = Some x → aget a i = Ok x.
Proof. intros ? Hg. unfold aget. rewrite bool_decide_true by done. by rewrite Hg. Qed.
Lemma aget_fault a i : ¬ (0 ≤ i < zlen a) → aget a i = Fault OutOfBounds.
Proof.
  intros Hi. unfold aget. case_bool_decide; [|done]. by rewrite get_None by lia.
Qed.
Lemma aset_ok a i x : 0 ≤ i < zlen a → aset a i x = Ok (splice a i [x]).
Proof. intros. unfold aset. apply poke_ok; zn. Qed.
Lemma splice_get_same a i x : 0 ≤ i → get a i = Some x → splice a i [x] = a.
Proof.
  intros Hi Hg. pose proof (get_Some_lt _ _ _ Hi Hg).
  apply blocks_eq; [blia|]. intros j Hj. rewrite zlen_splice in Hj by zn.
  rewrite get_splice by zn. case_bool_decide; [|done].
  rewrite zlen_cons, zlen_nil in *. replace j with i by lia. rewrite Z.sub_diag.
  by rewrite Hg.
Qed.
Lemma sub_cons_get a i k x :
  0 ≤ i → 0 ≤ k → i + (1 + k) ≤ zlen a → get a i = Some x →
  sub a i (1 + k) = x :: sub a (i + 1) k.
Proof.
  intros ??? Hg. rewrite sub_app by lia. change (x :: ?l) with ([x] ++ l). f_equal.
  apply blocks_eq; [blia|]. rewrite zlen_sub by lia. intros j Hj.
  rewrite get_sub by lia. replace j with 0 by lia. by rewrite Z.add_0_r, Hg.
Qed.
Lemma splice_splice_cons a i x d :
  0 ≤ i → i + 1 + zlen d ≤ zlen a →
  splice (splice a i [x]) (i + 1) d = splice a i (x :: d).
Proof.
  intros. pose proof (zlen_nonneg d). apply blocks_eq; [blia|].
  rewrite !zlen_splice by blia. intros j Hj.
  repeat (rewrite get_splice by blia). rewrite !zlen_cons, zlen_nil.
  repeat case_bool_decide; try lia; try done.
  - unfold get. replace (Z.to_nat (j - i)) with (S (Z.to_nat (j - (i + 1)))) by lia. done.
  - replace (j - i) with 0 by lia. done.
Qed.
Lemma splice_splice_app a i d e :
  0 ≤ i → i + zlen d + zlen e ≤ zlen a →
  splice (splice a i d) (i + zlen d) e = splice a i (d ++ e).
Proof.
  intros. pose proof (zlen_nonneg d). pose proof (zlen_nonneg e). apply blocks_eq; [blia|].
  rewrite !zlen_splice by blia. intros j Hj. rewrite get_splice by blia.
  rewrite !get_splice by blia. rewrite zlen_app.
  repeat case_bool_decide; try lia; try done.
  - rewrite get_app_r by lia. f_equal. lia.
  - by rewrite get_app_l by lia.
Qed.
Lemma get_default (z : A) a i : 0 ≤ i < zlen a → get a i = Some (default z (get a i)).
Proof. intros H. destruct (get_is_Some a i H) as [y ->]. done. Qed.
Lemma get_splice1 a i x j :
  0 ≤ i < zlen a → 0 ≤ j → get (splice a i [x]) j = if decide (j = i) then Some x else get a j.
Proof.
  intros Hi Hj. rewrite get_splice by blia. rewrite zlen_cons, zlen_nil.
  destruct (decide (j = i)) as [->|Hne]; case_bool_decide; try lia; [|done].
  by rewrite Z.sub_diag.
Qed.
Lemma sub_split a k : 0 ≤ k ≤ zlen a → sub a 0 k ++ sub a k (zlen a - k) = a.
Proof.
  intros. transitivity (sub a 0 (zlen a)); [|apply sub_all].
  replace (zlen a) with (k + (zlen a - k)) at 2 by lia. by rewrite (sub_app a 0) by lia.
Qed.
Lemma sub_splice_prefix a d k : k = zlen d → k ≤ zlen a → sub (splice a 0 d) 0 k = d.
Proof. intros -> ?. apply sub_splice_same; lia. Qed.
Lemma aget_default (z : A) a i : 0 ≤ i < zlen a → aget a i = Ok (default z (get a i)).
Proof. intros. apply aget_ok; [lia|]. by apply get_default. Qed.
End Arrays.

(** ** Counting loops

    [for (offset = start; offset < limit; offset += step) body], with fuel for
    the number of iterations. *)
Fixpoint for_loop {S} (fuel : nat) (step limit offset : Z) (body : Z → S → outcome S) (s : S) : outcome S :=
  if offset <? limit then
    match fuel with
    | O => Fault OutOfFuel
    | S fuel' => s' ← body offset s; for_loop fuel' step limit (offset + step) body s'
    end
  else Ok s.

Section Loops.
Context {S : Type} (step limit : Z) (body : Z → S → outcome S) (P : Z → S → Prop).

(** [k] iterations that keep [P]; the loop goes on behind them. *)
Lemma for_loop_steps (k : nat) : ∀ fuel start i s,
  0 ≤ step → start + (Z.of_nat k - 1) * step < limit →
  (∀ j s, i ≤ j < i + Z.of_nat k → P j s → ∃ s', body (start + (j - i) * step) s = Ok s' ∧ P (j + 1) s') →
  P i s →
  ∃ s', for_loop (k + fuel) step limit start body s =
          for_loop fuel step limit (start + Z.of_nat k * step) body s' ∧ P (i + Z.of_nat k) s'.
Proof.
  induction k as [|k IH]; intros fuel start i s Hstep Hlim Hbody HP.
  { exists s. cbn [Nat.add]. split; [f_equal; lia|]. by rewrite Z.add_0_r. }
  cbn [Nat.add for_loop]. rewrite (proj2 (Z.ltb_lt _ _)) by lia.
  destruct (Hbody i s) as (s1 & E1 & H1); [lia|done|].
  rewrite Z.sub_diag, Z.mul_0_l, Z.add_0_r in E1. rewrite E1. cbn [mbind outcome_bind].
  destruct (IH fuel (start + step) (i + 1) s1) as (s' & E & H); [done|lia| |done|].
  - intros j s' Hj Hs'. destruct (Hbody j s') as (s2 & E2 & H2); [lia|done|].
    exists s2. split; [|done]. rewrite <-E2. f_equal. lia.
  - exists s'. rewrite E. split; [f_equal; lia|]. by replace (i + Z.of_nat (Datatypes.S k)) with (i + 1 + Z.of_nat k) by lia.
Qed.

Lemma for_loop_done fuel start s : limit ≤ start → for_loop fuel step limit start body s = Ok s.
Proof. intros. destruct fuel; cbn [for_loop]; by rewrite (proj2 (Z.ltb_ge _ _)). Qed.

Lemma for_loop_all (k : nat) fuel start s :
  0 ≤ step → start + (Z.of_nat k - 1) * step < limit ≤ start + Z.of_nat k * step → (k ≤ fuel)%nat →
  (∀ j s, 0 ≤ j < Z.of_nat k → P j s → ∃ s', body (start + j * step) s = Ok s' ∧ P (j + 1) s') →
  P 0 s → ∃ s', for_loop fuel step limit start body s = Ok s' ∧ P (Z.of_nat k) s'.
Proof.
  intros Hstep [Hlo Hhi] Hfuel Hbody HP.
  destruct (for_loop_steps k (fuel - k) start 0 s) as (s' & E & H); [done|done| |done|].
  { intros j s' Hj. rewrite Z.sub_0_r. apply Hbody. lia. }
  exists s'. split; [|done]. replace fuel with (k + (fuel - k))%nat by lia.
  rewrite E. by apply for_loop_done.
Qed.
End Loops.
