(* ===== verification/TimeSet.v ===== *)
(** * Time: _lib/util_time.h, util_time.cpp
    The constants the timers of the program use, and [CTimeSet]: a moment kept
    as GMT and as local time, each as seconds and broken down.  The calendar
    functions of the C runtime are the Gregorian calendar; the time zone is a
    parameter. *)
From S2P Require Import Prelude.

Definition SEC_A_SEC : Z := 1.
Definition SEC_A_MIN : Z := SEC_A_SEC * 60.
Definition SEC_A_HOUR : Z := SEC_A_MIN * 60.
Definition SEC_A_DAY : Z := SEC_A_HOUR * 24.
Definition SEC_A_WEEK : Z := SEC_A_DAY * 7.
Definition SEC_A_YEAR : Z := SEC_A_DAY * 365.

Definition MILLISEC_A_SEC : Z := 1000.
Definition MILLISEC_A_MIN : Z := MILLISEC_A_SEC * 60.
Definition MILLISEC_A_HOUR : Z := MILLISEC_A_MIN * 60.
Definition MILLISEC_A_DAY : Z := MILLISEC_A_HOUR * 24.
Definition MILLISEC_A_WEEK : Z := MILLISEC_A_DAY * 7.
Definition MILLISEC_A_YEAR : Z := MILLISEC_A_DAY * 365.

(** [GetTimeSec] and [GetTimeMilliSec] of a clock reading. *)
Definition GetTimeSec (time millitm : Z) : Z := i32 time.
Definition GetTimeMilliSec (time millitm : Z) : Z := i64 (time * 1000 + millitm).

(** ** The calendar of the C runtime *)
Record tm := mkTm { tm_year : Z; tm_mon : Z; tm_mday : Z; tm_hour : Z; tm_min : Z; tm_sec : Z }.
#[global] Instance tm_eq_dec : EqDecision tm.
Proof. solve_decision. Defined.

(** Days since 1970-01-01 of the day [d] of the month [m] (1 to 12), and back.
    The year starts in March, so that the leap day is its last. *)
Definition days_from_civil (y m d : Z) : Z :=
  let y := if m <=? 2 then y - 1 else y in
  let era := y / 400 in
  let yoe := y mod 400 in
  let mp := if 2 <? m then m - 3 else m + 9 in
  let doy := (153 * mp + 2) / 5 + d - 1 in
  era * 146097 + (yoe * 365 + yoe / 4 - yoe / 100 + doy) - 719468.
Definition year_of_era (doe : Z) : Z := (doe - doe / 1460 + doe / 36524 - doe / 146096) / 365.
Definition civil_from_days (z : Z) : Z * Z * Z :=
  let z := z + 719468 in
  let era := z / 146097 in
  let doe := z mod 146097 in
  let yoe := year_of_era doe in
  let doy := doe - (365 * yoe + yoe / 4 - yoe / 100) in
  let mp := (5 * doy + 2) / 153 in
  let d := doy - (153 * mp + 2) / 5 + 1 in
  let m := if mp <? 10 then mp + 3 else mp - 9 in
  (yoe + era * 400 + (if m <=? 2 then 1 else 0), m, d).

(** 3000-12-31 23:59:59, the last moment the 64-bit functions accept. *)
Definition MAX_TIME64 : Z := 32535215999.
Definition in_time64 (t : Z) : Prop := 0 ≤ t ≤ MAX_TIME64.
#[global] Instance in_time64_dec t : Decision (in_time64 t) := _.

(** [_gmtime64_s]: all fields are -1 for a moment out of range. *)
Definition gmtime64 (t : Z) : tm :=
  if bool_decide (in_time64 t) then
    let '(y, m, d) := civil_from_days (t / 86400) in
    let s := t mod 86400 in
    mkTm (y - 1900) (m - 1) d (s / 3600) (s mod 3600 / 60) (s mod 60)
  else mkTm (-1) (-1) (-1) (-1) (-1) (-1).
(** [_mkgmtime64]: fields out of their range carry over. *)
Definition mkgmtime64 (t : tm) : Z :=
  let y := tm_year t + 1900 + tm_mon t / 12 in
  let r := days_from_civil y (tm_mon t mod 12 + 1) 1 * 86400 + (tm_mday t - 1) * 86400 +
           tm_hour t * 3600 + tm_min t * 60 + tm_sec t in
  if bool_decide (in_time64 r) then r else -1.

(** The time zone: seconds west of Greenwich, and the daylight-saving bias at a
    moment of GMT and at a local time. *)
Class TimeZone := {
  tz_seconds : Z;
  tz_bias : Z → Z;
  tz_local_bias : Z → Z }.

(** ** CTimeSet *)
Record CTimeSet := mkCTimeSet {
  _tzSec : Z;
  _tGMT : Z;
  _tLocalT : Z;
  _tmGMT : tm;
  _tmLocalT : tm }.

Section CTimeSet.
Context `{TimeZone}.
Implicit Types (c : CTimeSet) (t : Z) (bLocal : bool).

Definition localtime64 t : tm := gmtime64 (t - tz_seconds + tz_bias t).
Definition mktime64 (t : tm) : Z := mkgmtime64 t + tz_seconds - tz_local_bias (mkgmtime64 t).

Definition SetTimeZone c : CTimeSet := mkCTimeSet tz_seconds (_tGMT c) (_tLocalT c) (_tmGMT c) (_tmLocalT c).
(** [SetTime()] at the moment [now]. *)
Definition SetTime_now (now : Z) c : CTimeSet :=
  let tmLocal := localtime64 now in
  mkCTimeSet (_tzSec c) now (mkgmtime64 tmLocal) (gmtime64 now) tmLocal.
Definition SetTime_time (tTime : Z) bLocal c : CTimeSet :=
  if bLocal then
    let g := i64 (tTime + _tzSec c) in mkCTimeSet (_tzSec c) g tTime (gmtime64 g) (gmtime64 tTime)
  else
    let l := i64 (tTime - _tzSec c) in mkCTimeSet (_tzSec c) tTime l (gmtime64 tTime) (gmtime64 l).
Definition SetTime_fields (nYear nMon nDay nHour nMin nSec : Z) bLocal c : CTimeSet :=
  let tmTime := mkTm (nYear - 1900) (nMon - 1) nDay nHour nMin nSec in
  let g := if bLocal then let tTime := mkgmtime64 tmTime in i64 (tTime + _tzSec c) else mktime64 tmTime in
  let tmLocal := localtime64 g in
  mkCTimeSet (_tzSec c) g (mkgmtime64 tmLocal) (gmtime64 g) tmLocal.

(** The loop over the list: it stops when [idx] has reached both the size of the
    list and 6. *)
Fixpoint copy_fields (fuel : nat) (idx : Z) (yyMMddhhmmss t : list Z) : outcome (list Z) :=
  if (idx <? zlen yyMMddhhmmss) || (idx <? 6) then
    match fuel with
    | O => Fault OutOfFuel
    | S fuel' =>
        x ← aget yyMMddhhmmss idx;
        t ← aset t idx x;
        copy_fields fuel' (idx + 1) yyMMddhhmmss t
    end
  else Ok t.
Definition SetTime_list (yyMMddhhmmss : list Z) bLocal c : outcome CTimeSet :=
  t ← copy_fields 7 0 yyMMddhhmmss [1900; 1; 0; 0; 0; 0];
  y ← aget t 0; mo ← aget t 1; d ← aget t 2; h ← aget t 3; mi ← aget t 4; s ← aget t 5;
  Ok (SetTime_fields y mo d h mi s bLocal c).
Definition SetTime_db (year month day hour minute second : Z) bLocal c : outcome CTimeSet :=
  SetTime_list [year; month; day; hour; minute; second] bLocal c.

(** The constructors. *)
Definition CTimeSet_zero : CTimeSet := mkCTimeSet 0 0 0 (mkTm 0 0 0 0 0 0) (mkTm 0 0 0 0 0 0).
Definition CTimeSet_new (now : Z) : CTimeSet := SetTime_now now (SetTimeZone CTimeSet_zero).
Definition CTimeSet_time (tTime : Z) bLocal : CTimeSet := SetTime_time tTime bLocal (SetTimeZone CTimeSet_zero).
Definition CTimeSet_list (l : list Z) bLocal : outcome CTimeSet := SetTime_list l bLocal (SetTimeZone CTimeSet_zero).
Definition CTimeSet_fields (nYear nMon nDay nHour nMin nSec : Z) bLocal : CTimeSet :=
  SetTime_fields nYear nMon nDay nHour nMin nSec bLocal (SetTimeZone CTimeSet_zero).

Definition CTimeSet_timestamp (year month day hour minute second : Z) bLocal : CTimeSet :=
  SetTime_fields year month day hour minute second bLocal (SetTimeZone CTimeSet_zero).
Definition ConvertLC2GM (tTime : Z) c : Z := i64 (tTime + _tzSec c).
Definition ConvertLC2GM_tm (tmLocal : tm) c : Z := i64 (mkgmtime64 tmLocal + _tzSec c).
Definition GetTime (local : bool) c : Z := if local then _tLocalT c else _tGMT c.
Definition GetTimeTM (local : bool) c : tm := if local then _tmLocalT c else _tmGMT c.
Definition GetYear bLocal c : Z := tm_year (GetTimeTM bLocal c) + 1900.
Definition GetMonth bLocal c : Z := tm_mon (GetTimeTM bLocal c) + 1.
Definition GetDay bLocal c : Z := tm_mday (GetTimeTM bLocal c).
Definition GetHour bLocal c : Z := tm_hour (GetTimeTM bLocal c).
Definition GetMin bLocal c : Z := tm_min (GetTimeTM bLocal c).
Definition GetSec bLocal c : Z := tm_sec (GetTimeTM bLocal c).
End CTimeSet.

(** ** The calendar is one *)
Lemma year_of_era_mono x y : 0 ≤ x ≤ y → y < 146097 → year_of_era x ≤ year_of_era y.
Proof.
  intros Hx Hy. unfold year_of_era. apply Z.div_le_mono; [done|].
  assert (∀ n z, 0 ≤ z → z < 146096 →
    z - z / 1460 + z / 36524 - z / 146096 ≤ (z + Z.of_nat n) - (z + Z.of_nat n) / 1460 + (z + Z.of_nat n) / 36524 - (z + Z.of_nat n) / 146096 ∨ 146096 < z + Z.of_nat n) as H.
  { intros n z. Z.div_mod_to_equations. lia. }
  destruct (decide (x = y)) as [->|]; [done|].
  destruct (H (Z.to_nat (y - x)) x) as [E|E]; [lia..| |lia].
  by replace (x + Z.of_nat (Z.to_nat (y - x))) with y in E by lia.
Qed.

(** First and last day of a year of the era. *)
Definition year_start (y : Z) : Z := 365 * y + y / 4 - y / 100.
Definition year_last (y : Z) : Z := if y =? 399 then 146096 else year_start (y + 1) - 1.
Lemma year_ends y : 0 ≤ y < 400 → year_of_era (year_start y) = y ∧ year_of_era (year_last y) = y.
Proof.
  intros Hy. assert (Forall (λ y, year_of_era (year_start y) = y ∧ year_of_era (year_last y) = y) (seqZ 0 400)) as H.
  { apply (bool_decide_unpack _). vm_compute. exact I. }
  rewrite Forall_forall in H. apply H, elem_of_seqZ. lia.
Qed.
Lemma year_of_era_at y doe : 0 ≤ y < 400 → year_start y ≤ doe ≤ year_last y → year_of_era doe = y.
Proof.
  intros Hy Hd. destruct (year_ends y Hy) as [E1 E2].
  assert (0 ≤ year_start y) by (unfold year_start; Z.div_mod_to_equations; lia).
  assert (year_last y < 146097) by (unfold year_last, year_start; destruct (Z.eqb_spec y 399); Z.div_mod_to_equations; lia).
  pose proof (year_of_era_mono (year_start y) doe). pose proof (year_of_era_mono doe (year_last y)). lia.
Qed.
Lemma year_of_era_bounds doe :
  0 ≤ doe < 146097 → 0 ≤ year_of_era doe < 400 ∧ year_start (year_of_era doe) ≤ doe ≤ year_last (year_of_era doe).
Proof.
  intros Hd. pose proof (year_of_era_mono 0 doe) as H0. pose proof (year_of_era_mono doe 146096) as H1.
  change (year_of_era 0) with 0 in H0. change (year_of_era 146096) with 399 in H1.
  assert (0 ≤ year_of_era doe < 400) as Hy by lia. split; [done|]. set (y := year_of_era doe) in *.
  destruct (year_ends y Hy) as [E1 E2].
  assert (0 ≤ year_start y ∧ year_start y < 146097 ∧ 0 ≤ year_last y < 146097) as (? & ? & ?).
  { unfold year_last, year_start. destruct (Z.eqb_spec y 399); Z.div_mod_to_equations; lia. }
  split.
  - destruct (Z_le_gt_dec (year_start y) doe); [done|]. exfalso.
    destruct (decide (y = 0)) as [E0|]; [rewrite E0 in *; change (year_start 0) with 0 in *; lia|].
    destruct (year_ends (y - 1)) as [_ E3]; [lia|].
    assert (year_last (y - 1) = year_start y - 1) as E4.
    { unfold year_last. rewrite (proj2 (Z.eqb_neq _ _)) by lia. do 2 f_equal. lia. }
    assert (y ≤ year_of_era (year_last (y - 1))) by (apply year_of_era_mono; lia). lia.
  - destruct (Z_le_gt_dec doe (year_last y)); [done|]. exfalso.
    destruct (decide (y = 399)) as [E0|]; [rewrite E0 in *; change (year_last 399) with 146096 in *; lia|].
    destruct (year_ends (y + 1)) as [E3 _]; [lia|].
    assert (year_last y = year_start (y + 1) - 1) as E4.
    { unfold year_last. by rewrite (proj2 (Z.eqb_neq _ _)) by lia. }
    assert (year_of_era (year_start (y + 1)) ≤ y) by (apply year_of_era_mono; lia). lia.
Qed.
Lemma day_of_year y doe : 0 ≤ y < 400 → year_start y ≤ doe ≤ year_last y → 0 ≤ doe - year_start y ≤ 365.
Proof.
  unfold year_last, year_start. intros ??. destruct (Z.eqb_spec y 399); Z.div_mod_to_equations; lia.
Qed.

Lemma days_civil z : let '(y, m, d) := civil_from_days z in days_from_civil y m d = z.
Proof.
  unfold civil_from_days. cbv zeta. set (era := (z + 719468) / 146097). set (doe := (z + 719468) mod 146097).
  pose proof (Z.mod_pos_bound (z + 719468) 146097 ltac:(done)) as Hdoe. fold doe in Hdoe.
  destruct (year_of_era_bounds doe Hdoe) as [Hy Hs]. pose proof (day_of_year _ _ Hy Hs) as Hdoy.
  set (yoe := year_of_era doe) in *. change (365 * yoe + yoe / 4 - yoe / 100) with (year_start yoe).
  set (doy := doe - year_start yoe) in *. set (mp := (5 * doy + 2) / 153).
  assert (0 ≤ mp ≤ 11) as Hmp by (unfold mp; Z.div_mod_to_equations; lia).
  assert (z = era * 146097 + doe - 719468) as Hz.
  { pose proof (Z.div_mod (z + 719468) 146097 ltac:(done)). fold era doe in H. lia. }
  assert (∀ m, m = (if mp <? 10 then mp + 3 else mp - 9) →
    (if 2 <? m then m - 3 else m + 9) = mp ∧ (if m <=? 2 then yoe + era * 400 + (if m <=? 2 then 1 else 0) - 1
       else yoe + era * 400 + (if m <=? 2 then 1 else 0)) = yoe + era * 400) as Hm.
  { intros m ->. destruct (Z.ltb_spec mp 10); zcases. }
  unfold days_from_civil. destruct (Hm _ eq_refl) as [E1 E2]. rewrite E2, E1.
  rewrite Z.div_add, Z.mod_add, Z.div_small, Z.mod_small by lia. rewrite Hz.
  unfold doy, year_start. lia.
Qed.

Definition is_leap (y : Z) : bool := (y mod 4 =? 0) && (negb (y mod 100 =? 0) || (y mod 400 =? 0)).
Definition days_in_month (y m : Z) : Z :=
  if m =? 2 then (if is_leap y then 29 else 28)
  else if (m =? 4) || (m =? 6) || (m =? 9) || (m =? 11) then 30 else 31.
Definition valid_date (y m d : Z) : Prop := 1 ≤ m ≤ 12 ∧ 1 ≤ d ≤ days_in_month y m.

Lemma civil_days y m d : valid_date y m d → civil_from_days (days_from_civil y m d) = (y, m, d).
Proof.
  intros [Hm Hd]. unfold days_from_civil. cbv zeta. set (y' := if m <=? 2 then y - 1 else y).
  set (mp := if 2 <? m then m - 3 else m + 9). set (era := y' / 400). set (yoe := y' mod 400).
  change (yoe * 365 + yoe / 4 - yoe / 100) with (yoe * 365 + yoe / 4 - yoe / 100).
  set (doy := (153 * mp + 2) / 5 + d - 1).
  assert (0 ≤ yoe < 400) as Hyoe by (apply Z.mod_pos_bound; lia).
  assert ((if m <=? 2 then y - 1 else y) = era * 400 + yoe) as Hy'.
  { fold y'. pose proof (Z.div_mod y' 400 ltac:(done)) as Hdm. fold era yoe in Hdm. lia. }
  clearbody era yoe. clear y'.
  assert (0 ≤ doy ∧ year_start yoe + doy ≤ year_last yoe ∧ (5 * doy + 2) / 153 = mp) as (H0 & H1 & Hmp).
  { unfold days_in_month, is_leap in Hd.
    assert (m = 1 ∨ m = 2 ∨ m = 3 ∨ m = 4 ∨ m = 5 ∨ m = 6 ∨ m = 7 ∨ m = 8 ∨ m = 9 ∨ m = 10 ∨ m = 11 ∨ m = 12) as HC by lia.
    unfold year_last, year_start, doy, mp. clear doy mp.
    destruct HC as [->|[->|[->|[->|[->|[->|[->|[->|[->|[->|[->| ->]]]]]]]]]]]; cbn in Hd, Hy' |- *.
    2:{ destruct (Z.eqb_spec (y mod 4) 0), (Z.eqb_spec (y mod 100) 0), (Z.eqb_spec (y mod 400) 0); cbn [andb orb negb] in Hd;
        destruct (Z.eqb_spec yoe 399); Z.div_mod_to_equations; lia. }
    all: destruct (Z.eqb_spec yoe 399); Z.div_mod_to_equations; lia. }
  unfold civil_from_days. cbv zeta.
  replace (era * 146097 + (yoe * 365 + yoe / 4 - yoe / 100 + doy) - 719468 + 719468)
    with (year_start yoe + doy + era * 146097) by (unfold year_start; lia).
  assert (0 ≤ year_start yoe ∧ year_last yoe < 146097) as [? ?].
  { unfold year_last, year_start. destruct (Z.eqb_spec yoe 399); Z.div_mod_to_equations; lia. }
  rewrite Z.div_add, Z.mod_add, Z.div_small, Z.mod_small by lia.
  rewrite (year_of_era_at yoe) by lia.
  replace (year_start yoe + doy - (365 * yoe + yoe / 4 - yoe / 100)) with doy by (unfold year_start; lia).
  rewrite Hmp. assert ((if mp <? 10 then mp + 3 else mp - 9) = m) as -> by (unfold mp; zcases).
  f_equal; [f_equal|unfold doy; lia].
  destruct (Z.leb_spec m 2); lia.
Qed.

(** ** Broken-down time *)
Lemma days_from_civil_day y m d : days_from_civil y m d = days_from_civil y m 1 + (d - 1).
Proof. unfold days_from_civil. lia. Qed.
Lemma civil_month z : let '(_, m, _) := civil_from_days z in 1 ≤ m ≤ 12.
Proof.
  unfold civil_from_days. cbv zeta.
  pose proof (Z.mod_pos_bound (z + 719468) 146097 ltac:(done)) as Hdoe. set (doe := (z + 719468) mod 146097) in *.
  destruct (year_of_era_bounds doe Hdoe) as [Hy Hs]. pose proof (day_of_year _ _ Hy Hs) as Hdoy.
  set (yoe := year_of_era doe) in *. change (365 * yoe + yoe / 4 - yoe / 100) with (year_start yoe).
  set (mp := (5 * (doe - year_start yoe) + 2) / 153).
  assert (0 ≤ mp ≤ 11) by (unfold mp; Z.div_mod_to_equations; lia). destruct (Z.ltb_spec mp 10); lia.
Qed.
Lemma mkgmtime_gmtime t : in_time64 t → mkgmtime64 (gmtime64 t) = t.
Proof.
  intros Ht. unfold gmtime64. rewrite bool_decide_true by done.
  pose proof (days_civil (t / 86400)) as Hd. pose proof (civil_month (t / 86400)) as Hm.
  destruct (civil_from_days (t / 86400)) as [[y m] d]. unfold mkgmtime64. cbn [tm_year tm_mon tm_mday tm_hour tm_min tm_sec].
  assert ((m - 1) / 12 = 0) as -> by (Z.div_mod_to_equations; lia).
  assert ((m - 1) mod 12 + 1 = m) as -> by (Z.div_mod_to_equations; lia).
  replace (y - 1900 + 1900 + 0) with y by lia. rewrite days_from_civil_day in Hd.
  set (r := _ + t mod 86400 mod 60). assert (r = t) as ->.
  { unfold r. clear r. set (D := days_from_civil y m 1) in *. clearbody D. Z.div_mod_to_equations. lia. }
  by rewrite bool_decide_true.
Qed.
Definition valid_time (h mi s : Z) : Prop := 0 ≤ h < 24 ∧ 0 ≤ mi < 60 ∧ 0 ≤ s < 60.
Lemma gmtime_mkgmtime y m d h mi s :
  valid_date y m d → valid_time h mi s →
  let t := mkTm (y - 1900) (m - 1) d h mi s in
  in_time64 (mkgmtime64 t) → gmtime64 (mkgmtime64 t) = t.
Proof.
  intros Hd (Hh & Hmi & Hs) t Ht. unfold mkgmtime64, t in *. clear t.
  cbn [tm_year tm_mon tm_mday tm_hour tm_min tm_sec] in *. destruct Hd as [Hm Hdd].
  assert ((m - 1) / 12 = 0) as E1 by (Z.div_mod_to_equations; lia).
  assert ((m - 1) mod 12 + 1 = m) as E2 by (Z.div_mod_to_equations; lia).
  rewrite E1, E2 in *. replace (y - 1900 + 1900 + 0) with y in * by lia.
  pose proof (days_from_civil_day y m d) as Hdc. pose proof (civil_days y m d (conj Hm Hdd)) as Hc.
  set (D := days_from_civil y m d) in *. set (D1 := days_from_civil y m 1) in *. clearbody D D1. clear E1 E2.
  case_bool_decide as Hr; [|by destruct Ht; lia].
  unfold gmtime64. rewrite bool_decide_true by done.
  set (r := D1 * 86400 + (d - 1) * 86400 + h * 3600 + mi * 60 + s) in *.
  assert (r / 86400 = D ∧ r mod 86400 = h * 3600 + mi * 60 + s) as [-> ->].
  { unfold r. split; Z.div_mod_to_equations; lia. }
  rewrite Hc. f_equal; Z.div_mod_to_equations; lia.
Qed.

(** ** The members agree *)
Section Consistent.
Context `{TimeZone}.

(** A time zone without daylight saving, as Korea's. *)
Definition no_dst : Prop := ∀ t, tz_bias t = 0 ∧ tz_local_bias t = 0.
Hypothesis Hdst : no_dst.
Hypothesis Htz : - 86400 ≤ tz_seconds ≤ 86400.

Record consistent (c : CTimeSet) : Prop := {
  ct_zone : _tzSec c = tz_seconds;
  ct_local : _tLocalT c = _tGMT c - tz_seconds;
  ct_tmGMT : _tmGMT c = gmtime64 (_tGMT c);
  ct_tmLocal : _tmLocalT c = gmtime64 (_tLocalT c) }.

(** The ways to set the time, and the moments they are used for: both the
    moment and the local time are in the range of the runtime. *)
Inductive time_op :=
| OpNow (now : Z)
| OpTime (t : Z) (local : bool)
| OpFields (y mo d h mi s : Z) (local : bool)
| OpList (l : list Z) (local : bool).
Definition time_exec (c : CTimeSet) (op : time_op) : outcome CTimeSet :=
  match op with
  | OpNow now => Ok (SetTime_now now c)
  | OpTime t local => Ok (SetTime_time t local c)
  | OpFields y mo d h mi s local => Ok (SetTime_fields y mo d h mi s local c)
  | OpList l local => SetTime_list l local c
  end.
Definition moment_ok (g : Z) : Prop := in_time64 g ∧ in_time64 (g - tz_seconds).
Definition fields_moment (y mo d h mi s : Z) : Z := mkgmtime64 (mkTm (y - 1900) (mo - 1) d h mi s) + tz_seconds.
Definition op_ok (op : time_op) : Prop :=
  match op with
  | OpNow now => moment_ok now
  | OpTime t local => moment_ok (if local then t + tz_seconds else t)
  | OpFields y mo d h mi s _ => moment_ok (fields_moment y mo d h mi s)
  | OpList [y; mo; d; h; mi; s] _ => moment_ok (fields_moment y mo d h mi s)
  | OpList _ _ => False
  end.

Lemma i64_moment g : in_time64 g → i64 g = g.
Proof. intros []. unfold MAX_TIME64 in *. apply wraps_small; [done|zrange]. Qed.
Lemma local_moment g : moment_ok g → localtime64 g = gmtime64 (g - tz_seconds) ∧ mkgmtime64 (localtime64 g) = g - tz_seconds.
Proof.
  intros [_ Hl]. unfold localtime64. destruct (Hdst g) as [-> _]. rewrite Z.add_0_r. split; [done|]. by apply mkgmtime_gmtime.
Qed.
Lemma SetTime_now_ok g c : _tzSec c = tz_seconds → moment_ok g → consistent (SetTime_now g c).
Proof.
  intros Hz Hg. destruct (local_moment g Hg) as [E1 E2]. unfold SetTime_now. rewrite E2, E1. by split.
Qed.
(** Without daylight saving the flag makes no difference. *)
Lemma SetTime_fields_eq y mo d h mi s local c :
  _tzSec c = tz_seconds → moment_ok (fields_moment y mo d h mi s) →
  SetTime_fields y mo d h mi s local c = SetTime_now (fields_moment y mo d h mi s) c.
Proof.
  intros Hz Hg. unfold SetTime_fields. cbv zeta. set (t := mkTm _ _ _ _ _ _).
  assert ((if local then i64 (mkgmtime64 t + _tzSec c) else mktime64 t) = fields_moment y mo d h mi s) as ->; [|done].
  unfold fields_moment in *. fold t in Hg |- *. destruct local.
  - rewrite Hz. by apply i64_moment, Hg.
  - unfold mktime64. destruct (Hdst (mkgmtime64 t)) as [_ ->]. lia.
Qed.
Lemma SetTime_time_ok t (local : bool) c :
  _tzSec c = tz_seconds → moment_ok (if local then t + tz_seconds else t) → consistent (SetTime_time t local c).
Proof.
  intros Hz [Hg Hl]. unfold SetTime_time. rewrite Hz. destruct local; cbv zeta; rewrite i64_moment by done; split; try done; cbn; lia.
Qed.

Lemma copy_fields_step fuel idx l t x t' :
  (idx <? zlen l) || (idx <? 6) = true → aget l idx = Ok x → aset t idx x = Ok t' →
  copy_fields (S fuel) idx l t = copy_fields fuel (idx + 1) l t'.
Proof. intros E1 E2 E3. cbn [copy_fields]. rewrite E1, E2. cbn [mbind outcome_bind]. by rewrite E3. Qed.
Lemma copy_fields_six a b c d e f t0 t1 t2 t3 t4 t5 :
  copy_fields 7 0 [a; b; c; d; e; f] [t0; t1; t2; t3; t4; t5] = Ok [a; b; c; d; e; f].
Proof. reflexivity. Qed.
Lemma SetTime_list_six y mo d h mi s local c : SetTime_list [y; mo; d; h; mi; s] local c = Ok (SetTime_fields y mo d h mi s local c).
Proof. reflexivity. Qed.

Lemma time_exec_ok c op : consistent c → op_ok op → ∃ c', time_exec c op = Ok c' ∧ consistent c'.
Proof.
  intros Hc Hop. pose proof (ct_zone _ Hc) as Hz. destruct op as [now|t local|y mo d h mi s local|l local]; cbn [op_ok time_exec] in Hop |- *.
  - eexists. split; [done|]. by apply SetTime_now_ok.
  - eexists. split; [done|]. by apply SetTime_time_ok.
  - eexists. split; [done|]. rewrite SetTime_fields_eq by done. by apply SetTime_now_ok.
  - destruct l as [|y [|mo [|d [|h [|mi [|s [|? ?]]]]]]]; try done.
    rewrite SetTime_list_six. eexists. split; [done|]. rewrite SetTime_fields_eq by done. by apply SetTime_now_ok.
Qed.
Lemma time_run_ok ops c : consistent c → Forall op_ok ops → ∃ c', fold_outcome time_exec c ops = Ok c' ∧ consistent c'.
Proof.
  intros Hc Hops. revert c Hc. induction Hops as [|op ops Hop _ IH]; intros c Hc; [eauto|].
  destruct (time_exec_ok c op Hc Hop) as (c1 & E & Hc1). cbn [fold_outcome]. rewrite E. by apply IH.
Qed.
End Consistent.

(** C35: a [CTimeSet] is one moment.  In a time zone without daylight saving,
    however the object is set, any number of times, its local time is GMT less
    the zone's offset, and both broken-down times are those of their seconds. *)
Theorem CTimeSet_consistent `{TimeZone} now ops :
  no_dst → moment_ok now → Forall op_ok ops →
  ∃ c, fold_outcome time_exec (CTimeSet_new now) ops = Ok c ∧ consistent c ∧
    ConvertLC2GM (GetTime true c) c = i64 (GetTime false c).
Proof.
  intros Hd Hn Hops. destruct (time_run_ok Hd ops (CTimeSet_new now)) as (c & E & Hc); [|done|].
  { by apply SetTime_now_ok. }
  exists c. split; [done|]. split; [done|]. destruct Hc as [Hz Hl _ _].
  unfold ConvertLC2GM, GetTime. rewrite Hz, Hl. f_equal. lia.
Qed.

(** setting a date and time and reading it back.  The local getters return
    the arguments for every valid date of the runtime's range.  They do so for
    both values of the flag: a date given as GMT is taken as local, because the
    code reads it with _mktime64. *)
Theorem SetTime_fields_roundtrip `{TimeZone} y mo d h mi s bLocal :
  no_dst → valid_date y mo d → valid_time h mi s → moment_ok (fields_moment y mo d h mi s) →
  let c := CTimeSet_fields y mo d h mi s bLocal in
  (GetYear true c, GetMonth true c, GetDay true c, GetHour true c, GetMin true c, GetSec true c) = (y, mo, d, h, mi, s) ∧
  GetTime false c = mkgmtime64 (mkTm (y - 1900) (mo - 1) d h mi s) + tz_seconds.
Proof.
  intros Hd Hv Ht Hm c. unfold c, CTimeSet_fields. rewrite SetTime_fields_eq by done. split; [|done].
  assert (gmtime64 (fields_moment y mo d h mi s - tz_seconds) = mkTm (y - 1900) (mo - 1) d h mi s) as E.
  { unfold fields_moment in *. rewrite Z.add_simpl_r. apply gmtime_mkgmtime; [done|done|].
    destruct Hm as [_ Hm]. by rewrite Z.add_simpl_r in Hm. }
  unfold GetYear, GetMonth, GetDay, GetHour, GetMin, GetSec, GetTimeTM, SetTime_now.
  destruct (local_moment Hd _ Hm) as [E1 _]. cbn [_tmLocalT]. rewrite E1, E. cbn. repeat f_equal; lia.
Qed.

(** the initializer list must have exactly six numbers.  The loop runs while
    the index is below the size or below six: a shorter list is read behind its
    end, a longer one makes it write behind the six defaults. *)
Theorem SetTime_list_spec `{TimeZone} l bLocal c :
  SetTime_list l bLocal c =
    match l with
    | [y; mo; d; h; mi; s] => Ok (SetTime_fields y mo d h mi s bLocal c)
    | _ => Fault OutOfBounds
    end.
Proof.
  destruct l as [|y [|mo [|d [|h [|mi [|s [|x l]]]]]]]; try reflexivity.
  unfold SetTime_list. pose proof (zlen_nonneg l).
  assert (∀ i, i ≤ 6 → (i <? zlen (y :: mo :: d :: h :: mi :: s :: x :: l)) || (i <? 6) = true) as Hlt.
  { intros i Hi. rewrite (proj2 (Z.ltb_lt i (zlen _))); [done|]. rewrite !zlen_cons. lia. }
  rewrite (copy_fields_step _ _ _ _ y [y; 1; 0; 0; 0; 0]) by first [by apply Hlt | reflexivity].
  rewrite (copy_fields_step _ _ _ _ mo [y; mo; 0; 0; 0; 0]) by first [by apply Hlt | reflexivity].
  rewrite (copy_fields_step _ _ _ _ d [y; mo; d; 0; 0; 0]) by first [by apply Hlt | reflexivity].
  rewrite (copy_fields_step _ _ _ _ h [y; mo; d; h; 0; 0]) by first [by apply Hlt | reflexivity].
  rewrite (copy_fields_step _ _ _ _ mi [y; mo; d; h; mi; 0]) by first [by apply Hlt | reflexivity].
  rewrite (copy_fields_step _ _ _ _ s [y; mo; d; h; mi; s]) by first [by apply Hlt | reflexivity].
  cbn [copy_fields]. by rewrite Hlt.
Qed.

(** ** Instances *)
#[local] Instance korea : TimeZone := {| tz_seconds := -32400; tz_bias := λ _, 0; tz_local_bias := λ _, 0 |}.
Lemma CTimeSet_consistent_witness :
  ∃ c, fold_outcome time_exec (CTimeSet_new 1700000000) [OpTime 1700000000 true; OpList [2025; 2; 14; 9; 0; 0] true] = Ok c ∧
    consistent c ∧ ConvertLC2GM (GetTime true c) c = i64 (GetTime false c).
Proof.
  apply (CTimeSet_consistent 1700000000 [OpTime 1700000000 true; OpList [2025; 2; 14; 9; 0; 0] true]).
  - done.
  - split; apply (bool_decide_unpack _); vm_compute; exact I.
  - repeat constructor; vm_compute; discriminate.
Defined.
Lemma SetTime_fields_roundtrip_witness :
  let c := CTimeSet_fields 2025 2 14 9 0 0 true in
  (GetYear true c, GetMonth true c, GetDay true c, GetHour true c, GetMin true c, GetSec true c) = (2025, 2, 14, 9, 0, 0) ∧
  GetTime false c = mkgmtime64 (mkTm (2025 - 1900) (2 - 1) 14 9 0 0) + tz_seconds.
Proof.
  apply (SetTime_fields_roundtrip 2025 2 14 9 0 0 true).
  - done.
  - split; vm_compute; intuition discriminate.
  - repeat split; discriminate.
  - repeat split; vm_compute; discriminate.
Defined.
