(* ===== verification/Text.v ===== *)
(** * Text: _lib/util_String.cpp, and strncmp of the C runtime
    Strings are lists of character codes; positions are size_t. *)
From Stdlib Require Import String Ascii.
From S2P Require Import Prelude.

(** A string literal as its character codes. *)
Fixpoint str (s : String.string) : list Z :=
  match s with
  | String.EmptyString => []
  | String.String a s' => Z.of_N (N_of_ascii a) :: str s'
  end.
(** The string a char array holds. *)
Fixpoint c_string (s : list Z) : list Z :=
  match s with
  | [] => []
  | c :: s' => if c =? 0 then [] else c :: c_string s'
  end.

(** FormatA and FormatW: the text a format gives, in a buffer of [BUFFER_MAX]
    characters.  The size given to [_vsnprintf_s] is its count, too, so that a
    text without room for its terminator is not cut but refused. *)
Definition BUFFER_MAX : Z := 1024 * 10.
Definition FormatA (formatted : list Z) : outcome (list Z) :=
  if BUFFER_MAX <=? zlen formatted then Fault InvalidParameter else Ok (c_string formatted).
Definition FormatW (formatted : list Z) : outcome (list Z) :=
  if BUFFER_MAX <=? zlen formatted then Fault InvalidParameter else Ok (c_string formatted).
Definition no_nul (s : list Z) : Prop := Forall (λ c, c ≠ 0) s.
Lemma c_string_no_nul s : no_nul (c_string s).
Proof. induction s as [|c s IH]; [constructor|]. cbn. destruct (Z.eqb_spec c 0); by constructor. Qed.
Lemma c_string_id s : no_nul s → c_string s = s.
Proof. induction 1 as [|c s Hc _ IH]; [done|]. cbn. rewrite (proj2 (Z.eqb_neq c 0)) by done. by rewrite IH. Qed.
Lemma zlen_c_string s : zlen (c_string s) ≤ zlen s.
Proof. unfold zlen. induction s as [|c s IH]; cbn; [lia|]. destruct (c =? 0); cbn; lia. Qed.

Definition npos : Z := u64 (-1).

(** ** std::string *)
Section Strings.
Context (delimiter : list Z).
Definition is_delim (c : Z) : bool := bool_decide (c ∈ delimiter).

Fixpoint find_idx (P : Z → bool) (s : list Z) (i : Z) : Z :=
  match s with
  | [] => npos
  | c :: s' => if P c then i else find_idx P s' (i + 1)
  end.
(** The part of a string from a position on: empty behind its end. *)
Definition from (pos : Z) (str : list Z) : list Z := drop (Z.to_nat (Z.min pos (zlen str))) str.
Definition find_first_not_of (str : list Z) (pos : Z) : Z :=
  find_idx (λ c, negb (is_delim c)) (from pos str) pos.
Definition find_first_of (str : list Z) (pos : Z) : Z := find_idx is_delim (from pos str) pos.
(** [substr] throws when the position is behind the end. *)
Definition substr (str : list Z) (pos n : Z) : outcome (list Z) :=
  if zlen str <? pos then Fault OutOfBounds else Ok (sub str pos (Z.min n (zlen str - pos))).

(** ** TokenizeA (and TokenizeW: the same code on wide strings)
    The fuel bounds the iterations of the loop. *)
Fixpoint Tokenize_loop (fuel : nat) (str : list Z) (lastPos pos : Z) (tokens : list (list Z)) :
    outcome (list (list Z)) :=
  match fuel with
  | O => Fault OutOfFuel
  | S fuel' =>
      if negb (npos =? pos) || negb (npos =? lastPos) then
        token ← substr str lastPos (u64 (pos - lastPos));
        let lastPos := find_first_not_of str pos in
        let pos := find_first_of str lastPos in
        Tokenize_loop fuel' str lastPos pos (tokens ++ [token])
      else Ok tokens
  end.
Definition TokenizeA (str : list Z) (tokens : list (list Z)) : outcome (list (list Z)) :=
  let lastPos := find_first_not_of str 0 in
  let pos := find_first_of str lastPos in
  Tokenize_loop (S (length str)) str lastPos pos tokens.

(** The specification: the maximal runs of other characters, in order. *)
Fixpoint words (cur : list Z) (s : list Z) : list (list Z) :=
  match s with
  | [] => if bool_decide (cur = []) then [] else [cur]
  | c :: s' =>
      if is_delim c then (if bool_decide (cur = []) then [] else [cur]) ++ words [] s'
      else words (cur ++ [c]) s'
  end.

Implicit Types (s ds w r str : list Z).
Definition delims ds : Prop := Forall (λ c, is_delim c = true) ds.
Definition plain w : Prop := Forall (λ c, is_delim c = false) w.
Definition at_delim r : Prop := match r with [] => True | c :: _ => is_delim c = true end.

Lemma split_run s : ∃ w r, s = w ++ r ∧ plain w ∧ at_delim r.
Proof.
  induction s as [|c s (w & r & -> & Hw & Hr)].
  { exists [], []. split_and!; [done|constructor|done]. }
  destruct (is_delim c) eqn:Hc.
  - exists [], (c :: w ++ r). split_and!; [done|constructor|done].
  - exists (c :: w), r. split_and!; [done|by constructor|done].
Qed.
Lemma split_delims s : ∃ ds r, s = ds ++ r ∧ delims ds ∧ match r with [] => True | c :: _ => is_delim c = false end.
Proof.
  induction s as [|c s (ds & r & -> & Hd & Hr)].
  { exists [], []. split_and!; [done|constructor|done]. }
  destruct (is_delim c) eqn:Hc.
  - exists (c :: ds), r. split_and!; [done|by constructor|done].
  - exists [], (c :: ds ++ r). split_and!; [done|constructor|done].
Qed.

Lemma words_delims ds s : delims ds → words [] (ds ++ s) = words [] s.
Proof. induction 1 as [|c ds Hc _ IH]; [done|]. cbn [app words]. by rewrite Hc. Qed.
Lemma words_plain cur w r :
  plain w → at_delim r → words cur (w ++ r) = (if bool_decide (cur ++ w = []) then [] else [cur ++ w]) ++ words [] r.
Proof.
  intros Hw Hr. revert cur. induction Hw as [|c w Hc _ IH]; intros cur; cbn [app words].
  - rewrite app_nil_r. destruct r as [|c r]; cbn [words]; [by rewrite app_nil_r|].
    cbn in Hr. by rewrite Hr.
  - rewrite Hc, IH, <-app_assoc. done.
Qed.

Lemma find_idx_skip P ds s i : Forall (λ c, P c = false) ds → find_idx P (ds ++ s) i = find_idx P s (i + zlen ds).
Proof.
  intros H. revert i. induction H as [|c ds Hc _ IH]; intros i; cbn [app find_idx]; [by rewrite zlen_nil, Z.add_0_r|].
  rewrite Hc, IH, zlen_cons. f_equal. lia.
Qed.
Lemma find_not_delims ds s i : delims ds → find_idx (λ c, negb (is_delim c)) (ds ++ s) i =
  find_idx (λ c, negb (is_delim c)) s (i + zlen ds).
Proof. intros H. apply find_idx_skip. eapply Forall_impl; [exact H|]. by intros c ->. Qed.

Lemma drop_prefix pre s : from (zlen pre) (pre ++ s) = s.
Proof.
  unfold from. rewrite zlen_app. pose proof (zlen_nonneg s). rewrite Z.min_l by lia.
  unfold zlen. rewrite Nat2Z.id. apply drop_app_length.
Qed.
Lemma drop_npos s : zlen s < npos → from npos s = [].
Proof. intros. unfold from. apply drop_ge. rewrite Z.min_r by lia. zn. Qed.

(** One turn of the loop, from the first unread character. *)
Lemma Tokenize_loop_ok fuel : ∀ pre rest tokens,
  zlen (pre ++ rest) < npos → (length rest < fuel)%nat →
  let str := pre ++ rest in
  let lastPos := find_first_not_of str (zlen pre) in
  Tokenize_loop fuel str lastPos (find_first_of str lastPos) tokens = Ok (tokens ++ words [] rest).
Proof.
  induction fuel as [|fuel IH]; intros pre rest tokens Hlen Hf; [lia|].
  cbn zeta. assert (find_first_not_of (pre ++ rest) (zlen pre) =
    find_idx (λ c, negb (is_delim c)) rest (zlen pre)) as ->.
  { unfold find_first_not_of. by rewrite drop_prefix. }
  destruct (split_delims rest) as (ds & r1 & -> & Hds & Hr1).
  rewrite !(find_not_delims ds) by exact Hds. rewrite words_delims by exact Hds.
  destruct r1 as [|c r1].
  { cbn [find_idx]. unfold find_first_of. rewrite drop_npos by done. cbn [Tokenize_loop find_idx].
    rewrite Z.eqb_refl. cbn [negb orb words]. rewrite bool_decide_true by done. by rewrite app_nil_r. }
  cbn [find_idx]. rewrite Hr1. cbn [negb].
  destruct (split_run (c :: r1)) as (w & r & E & Hw & Hr). rewrite E in *.
  destruct w as [|c' w]; [cbn in E; subst r; cbn in Hr; congruence|].
  set (w0 := c' :: w) in *. assert (0 < zlen w0) by (unfold w0; rewrite zlen_cons; pose proof (zlen_nonneg w); lia).
  rewrite words_plain by done. cbn [app]. rewrite bool_decide_false by done. clear E Hr1.
  rewrite !zlen_app in Hlen. rewrite !length_app in Hf.
  pose proof (zlen_nonneg pre). pose proof (zlen_nonneg ds). pose proof (zlen_nonneg r).
  set (lp := zlen pre + zlen ds).
  assert (lp = zlen (pre ++ ds)) as Hlp by (by rewrite zlen_app).
  assert (find_first_of (pre ++ ds ++ w0 ++ r) lp =
          match r with [] => npos | _ => lp + zlen w0 end) as Hpos.
  { unfold find_first_of. rewrite Hlp, app_assoc, drop_prefix, find_idx_skip by done.
    destruct r as [|d r']; [done|]. cbn [find_idx]. cbn in Hr. by rewrite Hr. }
  rewrite Hpos. cbn [Tokenize_loop].
  assert (npos = 2 ^ 64 - 1) as Hn by reflexivity.
  rewrite (proj2 (Z.eqb_neq npos lp)) by lia. cbn [negb]. rewrite orb_true_r.
  unfold substr. rewrite !zlen_app. destruct (Z.ltb_spec (zlen pre + (zlen ds + (zlen w0 + zlen r))) lp); [lia|].
  cbn [mbind outcome_bind].
  assert (sub (pre ++ ds ++ w0 ++ r) lp (zlen w0) = w0) as Hsub.
  { rewrite Hlp, app_assoc, sub_app_skip by lia. rewrite Z.sub_diag. by apply sub_app_here. }
  destruct r as [|d r'].
  - rewrite (wrapu_small 64) by (split; lia). rewrite zlen_nil.
    replace (Z.min _ _) with (zlen w0) by lia. rewrite Hsub.
    unfold find_first_not_of, find_first_of.
    rewrite drop_npos by (rewrite !zlen_app, zlen_nil; lia). cbn [find_idx].
    rewrite drop_npos by (rewrite !zlen_app, zlen_nil; lia). cbn [find_idx].
    destruct fuel as [|fuel]; [unfold w0 in Hf; cbn [length] in Hf; lia|].
    cbn [Tokenize_loop]. rewrite Z.eqb_refl. done.
  - rewrite (wrapu_small 64) by (split; lia). replace (lp + zlen w0 - lp) with (zlen w0) by lia.
    replace (Z.min _ _) with (zlen w0) by lia. rewrite Hsub.
    specialize (IH (pre ++ ds ++ w0) (d :: r') (tokens ++ [w0])). cbn zeta in IH.
    rewrite <-!app_assoc in IH. rewrite !zlen_app in IH.
    replace (zlen pre + (zlen ds + zlen w0)) with (lp + zlen w0) in IH by lia.
    rewrite IH; [done|lia|]. unfold w0 in Hf. cbn [length] in Hf |- *. lia.
Qed.
End Strings.

(** ** What a search finds *)
Lemma from_end pos s : zlen s ≤ pos → from pos s = [].
Proof. intros. unfold from. apply drop_ge. rewrite Z.min_r by lia. zn. Qed.
Lemma from_split pos s : 0 ≤ pos ≤ zlen s → ∃ pre, s = pre ++ from pos s ∧ zlen pre = pos.
Proof.
  intros. exists (take (Z.to_nat pos) s). unfold from. rewrite Z.min_l by lia.
  rewrite take_drop. split; [done|zn].
Qed.
(** The first position from [pos] on that satisfies [P], or [npos]. *)
Definition found_at (P : Z → bool) (s : list Z) (pos r : Z) : Prop :=
  (r = npos ∧ ∀ i c, pos ≤ i → get s i = Some c → P c = false) ∨
  (pos ≤ r < zlen s ∧ (∃ c, get s r = Some c ∧ P c = true) ∧ ∀ i c, pos ≤ i < r → get s i = Some c → P c = false).
Lemma find_idx_found P t : ∀ pre, zlen (pre ++ t) < npos → found_at P (pre ++ t) (zlen pre) (find_idx P t (zlen pre)).
Proof.
  induction t as [|c t IH]; intros pre Hl; cbn [find_idx].
  { left. split; [done|]. intros i c Hi Hc. apply get_Some_lt in Hc; [|pose proof (zlen_nonneg pre); lia].
    rewrite app_nil_r in Hc. lia. }
  pose proof (zlen_nonneg pre). pose proof (zlen_nonneg t).
  assert (get (pre ++ c :: t) (zlen pre) = Some c) as Hc.
  { rewrite get_app_r by lia. by rewrite Z.sub_diag. }
  destruct (P c) eqn:HP.
  - right. split_and!; [lia|rewrite zlen_app, zlen_cons; lia|by exists c|]. intros i c' ?; lia.
  - specialize (IH (pre ++ [c])). rewrite <-app_assoc in IH. cbn [app] in IH.
    rewrite (zlen_app pre [c]) in IH. change (zlen [c]) with 1 in IH.
    destruct (IH Hl) as [[-> Hno]|(Hr & Hat & Hno)].
    + left. split; [done|]. intros i c' Hi Hc'. destruct (decide (i = zlen pre)) as [->|]; [congruence|].
      apply (Hno i); [lia|done].
    + right. split_and!; [lia|lia|done|]. intros i c' Hi Hc'. destruct (decide (i = zlen pre)) as [->|]; [congruence|].
      apply (Hno i); [lia|done].
Qed.
Lemma find_found P s pos : zlen s < npos → 0 ≤ pos → found_at P s pos (find_idx P (from pos s) pos).
Proof.
  intros Hl Hp. destruct (Z.le_gt_cases (zlen s) pos) as [Hge|Hlt].
  - rewrite from_end by done. left. split; [done|]. intros i c Hi Hc. apply get_Some_lt in Hc; lia.
  - destruct (from_split pos s) as (pre & E & Hz); [lia|]. rewrite <-Hz in *. rewrite E at 1. rewrite E in Hl.
    by apply find_idx_found.
Qed.
Lemma found_unique P s pos r r' : found_at P s pos r → found_at P s pos r' → r = r'.
Proof.
  intros [[-> Hn]|(Hr & (c & Hc & HP) & Hn)] [[-> Hn']|(Hr' & (c' & Hc' & HP') & Hn')]; [done|..].
  - rewrite (Hn r' c') in HP'; [done|lia|done].
  - rewrite (Hn' r c) in HP; [done|lia|done].
  - destruct (Z.lt_trichotomy r r') as [?|[?|?]]; [|done|].
    + rewrite (Hn' r c) in HP; [done|lia|done].
    + rewrite (Hn r' c') in HP'; [done|lia|done].
Qed.
(** Nothing found before a later position: the search may start there. *)
Lemma found_later P s pos pos' r :
  pos ≤ pos' → (∀ i c, pos ≤ i < pos' → get s i = Some c → P c = false) → found_at P s pos' r → found_at P s pos r.
Proof.
  intros Hle Hno [[-> Hn]|(Hr & Hat & Hn)]; [left|right]; split_and?; try done; try lia.
  - intros i c Hi Hc. destruct (Z.lt_ge_cases i pos'); [apply (Hno i); [lia|done]|apply (Hn i); [lia|done]].
  - intros i c Hi Hc. destruct (Z.lt_ge_cases i pos'); [apply (Hno i); [lia|done]|apply (Hn i); [lia|done]].
Qed.

(** C31: tokenizing terminates, never leaves the string, and gives exactly the
    maximal runs of characters that are not delimiters, in order. *)
Theorem TokenizeA_spec delimiter str tokens :
  zlen str < npos → TokenizeA delimiter str tokens = Ok (tokens ++ words delimiter [] str).
Proof. intros. apply (Tokenize_loop_ok delimiter _ [] str); [done|lia]. Qed.
Lemma TokenizeA_spec_witness :
  TokenizeA [32] [32; 47; 109; 32; 32; 49; 50] [] = Ok ([] ++ [[47; 109]; [49; 50]]).
Proof. apply (TokenizeA_spec [32] [32; 47; 109; 32; 32; 49; 50] []). reflexivity. Defined.

(** ** strncmp *)
Fixpoint strncmp (n : nat) (a b : list Z) : Z :=
  match n with
  | O => 0
  | S n' =>
      let x := default 0 (head a) in
      let y := default 0 (head b) in
      if negb (x =? y) then (if x <? y then -1 else 1)
      else if x =? 0 then 0
      else strncmp n' (tail a) (tail b)
  end.
(** [0 == strncmp(a.c_str(), b, a.length())]: [a] is a prefix of [b]. *)
Lemma strncmp_prefix a b :
  Forall (λ c, c ≠ 0) a → strncmp (length a) a b = 0 ↔ a `prefix_of` b.
Proof.
  intros Ha. revert b. induction Ha as [|c a Hc _ IH]; intros b.
  { split; [intros _; apply prefix_nil|done]. }
  cbn [length strncmp head tail default id]. destruct b as [|d b]; cbn [head default tail id].
  - split.
    + destruct (Z.eqb_spec c 0); [done|]. cbn [negb]. by destruct (c <? 0).
    + intros [k Hk]. discriminate.
  - destruct (Z.eqb_spec c d) as [->|Hne]; cbn [negb].
    + destruct (Z.eqb_spec d 0); [done|]. rewrite IH. split; [apply prefix_cons|apply prefix_cons_inv_2].
    + split; [by destruct (c <? d)|]. by intros ?%prefix_cons_inv_1.
Qed.

Lemma strncmp_prefix_r a b :
  Forall (λ c, c ≠ 0) a → strncmp (length a) b a = 0 ↔ a `prefix_of` b.
Proof.
  intros Ha. revert b. induction Ha as [|c a Hc _ IH]; intros b.
  { split; [intros _; apply prefix_nil|done]. }
  cbn [length strncmp head tail default id]. destruct b as [|d b]; cbn [head default tail id].
  - split.
    + destruct (Z.eqb_spec 0 c); [done|]. cbn [negb]. by destruct (0 <? c).
    + intros [k Hk]. discriminate.
  - destruct (Z.eqb_spec d c) as [->|Hne]; cbn [negb].
    + destruct (Z.eqb_spec c 0); [done|]. rewrite IH. split; [apply prefix_cons|apply prefix_cons_inv_2].
    + split; [by destruct (d <? c)|]. by intros ?%prefix_cons_inv_1.
Qed.

(** [0 == strncmp(t.c_str(), b, t.length())]. *)
Definition matches (t b : list Z) : bool := strncmp (length t) t b =? 0.
Lemma matches_spec t b : Forall (λ c, c ≠ 0) t → matches t b = true ↔ t `prefix_of` b.
Proof. intros Ht. unfold matches. rewrite Z.eqb_eq. by apply strncmp_prefix. Qed.

(** ** atoi: blanks, a sign, digits; out-of-range values are clamped *)
Definition is_space (c : Z) : bool := (c =? 32) || ((9 <=? c) && (c <=? 13)).
Fixpoint skip_spaces (s : list Z) : list Z :=
  match s with
  | c :: s' => if is_space c then skip_spaces s' else s
  | [] => []
  end.
Fixpoint digits_value (s : list Z) (n : Z) : Z :=
  match s with
  | c :: s' => if (48 <=? c) && (c <=? 57) then digits_value s' (n * 10 + (c - 48)) else n
  | [] => n
  end.
Definition signed_value (s : list Z) : Z :=
  let s := skip_spaces s in
  match s with
  | 45 :: s' => - digits_value s' 0
  | 43 :: s' => digits_value s' 0
  | _ => digits_value s 0
  end.
Definition atoi (s : list Z) : Z := Z.max (- 2 ^ 31) (Z.min (2 ^ 31 - 1) (signed_value s)).
Definition wtoi64 (s : list Z) : Z := Z.max (- 2 ^ 63) (Z.min (2 ^ 63 - 1) (signed_value s)).
