(* ===== verification/Config.v ===== *)
(** * Configuration: _lib/config_loader.h, config_loader.cpp, the SetConfig
    functions of _framework/network.cpp, svr/config.cpp and cli/config.cpp, and
    _framework/default_config.cpp
    The JSON library is a parameter: a document is parsed from a text, its
    values have a kind and, when they are objects, members. *)
From Stdlib Require Import String.
From S2P Require Import Prelude Text.
#[local] Open Scope string_scope.
#[local] Open Scope list_scope.
#[local] Open Scope Z_scope.

(** ** rapidjson *)
Class RapidJson := {
  Value : Type;
  rj_null : Value;                          (** a default-constructed document *)
  rj_parse : list Z → Value;                (** [Parse]; Null when it fails *)
  IsObject : Value → bool;
  IsInt : Value → bool;
  IsBool : Value → bool;
  IsString : Value → bool;
  rj_find : Value → list Z → option Value;  (** the member of an object *)
  GetInt_value : Value → Z;
  GetBool_value : Value → bool;
  GetString_value : Value → list Z }.

(** ** The structures *)
Record ServerInfo := mkServerInfo { si_id : Z; si_name : list Z; si_ip : list Z; si_port : Z }.
Definition ServerInfo_new : ServerInfo := mkServerInfo 0 [] [] 0.
Record NetworkConfig := mkNetworkConfig {
  cfg_id : Z;
  cfg_name : list Z;
  workerThreadCount : Z;
  doListen : bool;
  useAcceptEx : bool;
  nAcceptPrepareCount : Z;
  listenClient : ServerInfo;
  listenStream : ServerInfo;
  listenWeb : ServerInfo;
  DbServer : ServerInfo }.
Definition NetworkConfig_new : NetworkConfig :=
  mkNetworkConfig 0 [] 4 false false 10 ServerInfo_new ServerInfo_new ServerInfo_new ServerInfo_new.
Record ServerConfig := mkServerConfig { sc_id : Z; sc_name : list Z }.
Record ClientConfig := mkClientConfig {
  cc_id : Z; cc_userName : list Z; cc_userPass : list Z; serverInfo : ServerInfo }.
Definition ClientConfig_new : ClientConfig := mkClientConfig 0 [] [] ServerInfo_new.

Section Config.
Context `{RapidJson}.
Implicit Types (doc v : Value) (key : list Z).

(** [HasMember] and [operator[]] assert that the value is an object, and the
    latter that there is such a member. *)
Definition HasMember v key : outcome bool :=
  if IsObject v then Ok (bool_decide (is_Some (rj_find v key))) else Fault Assertion.
Definition rj_member v key : outcome Value :=
  if IsObject v then match rj_find v key with Some m => Ok m | None => Fault Assertion end else Fault Assertion.

(** ** ConfigLoader; the state is [_doc] *)

(** [ifs] is the content of the file, when it can be opened; [Parse] reads a C
    string.  The exception is caught, its only effect is the result. *)
Definition LoadConfig (ifs : option (list Z)) doc : Value * bool :=
  match ifs with
  | None => (doc, false)
  | Some json => let d := rj_parse (c_string json) in (d, IsObject d)
  end.
Definition GetInt doc key (defaultValue : Z) : outcome Z :=
  h ← HasMember doc key;
  if (h : bool) then v ← rj_member doc key; Ok (if IsInt v then GetInt_value v else defaultValue)
  else Ok defaultValue.
Definition GetBool doc key (defaultValue : bool) : outcome bool :=
  h ← HasMember doc key;
  if (h : bool) then v ← rj_member doc key; Ok (if IsBool v then GetBool_value v else defaultValue)
  else Ok defaultValue.
Definition GetString doc key (defaultValue : list Z) : outcome (list Z) :=
  h ← HasMember doc key;
  if (h : bool) then v ← rj_member doc key; Ok (if IsString v then GetString_value v else defaultValue)
  else Ok defaultValue.

(** One of the four members of [server_info]. *)
Definition info_field (info : Value) key (is_kind : Value → bool) (set : Value → ServerInfo → ServerInfo)
    (serverInfo : ServerInfo) : outcome ServerInfo :=
  h ← HasMember info key;
  if (h : bool) then v ← rj_member info key; Ok (if is_kind v then set v serverInfo else serverInfo)
  else Ok serverInfo.
Definition GetServerInfo doc key (serverInfo : ServerInfo) : outcome (ServerInfo * bool) :=
  h ← HasMember doc key;
  if (h : bool) then
    v ← rj_member doc key;
    h ← HasMember v (str "server_info");
    if (h : bool) then
      info ← rj_member v (str "server_info");
      s ← info_field info (str "id") IsInt
            (λ v s, mkServerInfo (GetInt_value v) (si_name s) (si_ip s) (si_port s)) serverInfo;
      s ← info_field info (str "name") IsString
            (λ v s, mkServerInfo (si_id s) (GetString_value v) (si_ip s) (si_port s)) s;
      s ← info_field info (str "ip") IsString
            (λ v s, mkServerInfo (si_id s) (si_name s) (GetString_value v) (si_port s)) s;
      s ← info_field info (str "port") IsInt
            (λ v s, mkServerInfo (si_id s) (si_name s) (si_ip s) (u16 (GetInt_value v))) s;
      Ok (s, true)
    else Ok (serverInfo, true)
  else Ok (serverInfo, false).

(** ** SetConfig *)
Definition NetworkConfig_SetConfig doc (c : NetworkConfig) : outcome NetworkConfig :=
  id ← GetInt doc (str "id") 0;
  name ← GetString doc (str "name") [];
  threads ← GetInt doc (str "network_thread") 2;
  listen ← GetBool doc (str "listener") false;
  '(acceptEx, prepare) ← (if (listen : bool) then
      mode ← GetBool doc (str "listner_mode") true;
      n ← GetInt doc (str "listener_prepare") 10;
      Ok (negb mode, n)
    else Ok (useAcceptEx c, nAcceptPrepareCount c));
  '(client, _) ← GetServerInfo doc (str "client_session") (listenClient c);
  '(stream, _) ← GetServerInfo doc (str "stream_session") (listenStream c);
  '(web, _) ← GetServerInfo doc (str "web_session") (listenWeb c);
  '(db, _) ← GetServerInfo doc (str "db_server") (DbServer c);
  Ok (mkNetworkConfig id name threads listen acceptEx prepare client stream web db).
Definition ServerConfig_SetConfig doc : outcome (ServerConfig * bool) :=
  id ← GetInt doc (str "id") 0;
  name ← GetString doc (str "name") [];
  Ok (mkServerConfig id name, true).
Definition ClientConfig_SetConfig doc (c : ClientConfig) : outcome (ClientConfig * bool) :=
  id ← GetInt doc (str "id") 1;
  name ← GetString doc (str "user_name") [];
  pass ← GetString doc (str "user_pass") [];
  '(info, ok) ← GetServerInfo doc (str "server_info") (serverInfo c);
  Ok (mkClientConfig id name pass info, ok).
End Config.

(** ** IniFile: the profile functions of Windows are arguments *)
Record IniFile := mkIniFile { _wstrConfigFileName : list Z }.
Definition IniFile_new (file_name : list Z) : IniFile := mkIniFile (str "./config/" ++ file_name ++ str ".ini").
Definition SetConfigFile (wstrFileName : list Z) (i : IniFile) : IniFile := mkIniFile wstrFileName.
Section IniFile.
(** [GetPrivateProfileIntW app key default file], and the string it finds. *)
Context (profile_int : list Z → list Z → Z → list Z → Z).
Context (profile_string : list Z → list Z → list Z → list Z).
Implicit Types (app key : list Z) (i : IniFile).
Definition GetValue_INT app key (nDefaultValue : Z) i : Z :=
  i32 (profile_int app key nDefaultValue (_wstrConfigFileName i)).
Definition GetValue_WORD app key (wDefaultValue : Z) i : Z :=
  let tempValue := i32 (profile_int app key wDefaultValue (_wstrConfigFileName i)) in
  if 65535 <? tempValue then wDefaultValue else u16 tempValue.
(** The buffer takes 24 characters and the terminator. *)
Definition GetValue_INT64 app key (biDefaultValue : Z) i : Z :=
  let wcsTempString := take 24 (profile_string app key (_wstrConfigFileName i)) in
  if 20 <? zlen wcsTempString then biDefaultValue else wtoi64 wcsTempString.
Definition GetValue_string app key (dwResultLen : Z) i : list Z :=
  take (Z.to_nat (dwResultLen - 1)) (profile_string app key (_wstrConfigFileName i)).
End IniFile.

(** ** What SetConfig reads *)
Section ConfigLaws.
Context `{RapidJson}.
Implicit Types (doc v : Value) (key : list Z).

Definition find_with {A} (is_kind : Value → bool) (get_value : Value → A) doc key (d : A) : A :=
  match rj_find doc key with Some v => if is_kind v then get_value v else d | None => d end.
Definition find_int := find_with IsInt GetInt_value.
Definition find_bool := find_with IsBool GetBool_value.
Definition find_string := find_with IsString GetString_value.

Lemma HasMember_ok v key : IsObject v = true → HasMember v key = Ok (bool_decide (is_Some (rj_find v key))).
Proof. unfold HasMember. by intros ->. Qed.
Lemma rj_member_ok v key x : IsObject v = true → rj_find v key = Some x → rj_member v key = Ok x.
Proof. unfold rj_member. by intros -> ->. Qed.
Lemma member_find {A} v key (k : Value → A) (d : A) :
  IsObject v = true →
  (h ← HasMember v key; if (h : bool) then x ← rj_member v key; Ok (k x) else Ok d) =
    Ok (match rj_find v key with Some x => k x | None => d end).
Proof.
  intros Hv. rewrite HasMember_ok by done. cbn [mbind outcome_bind]. unfold rj_member. rewrite Hv.
  destruct (rj_find v key); [by rewrite bool_decide_true|by rewrite bool_decide_false by (by intros [])].
Qed.
Lemma GetInt_ok doc key d : IsObject doc = true → GetInt doc key d = Ok (find_int doc key d).
Proof. intros. by apply (member_find doc key (λ v, if IsInt v then GetInt_value v else d)). Qed.
Lemma GetBool_ok doc key d : IsObject doc = true → GetBool doc key d = Ok (find_bool doc key d).
Proof. intros. by apply (member_find doc key (λ v, if IsBool v then GetBool_value v else d)). Qed.
Lemma GetString_ok doc key d : IsObject doc = true → GetString doc key d = Ok (find_string doc key d).
Proof. intros. by apply (member_find doc key (λ v, if IsString v then GetString_value v else d)). Qed.

(** The part of a document [GetServerInfo] looks into. *)
Definition section_info doc key : option Value := rj_find doc key ≫= λ v, rj_find v (str "server_info").
Definition section_ok doc key : bool :=
  match rj_find doc key with
  | None => true
  | Some v => IsObject v && match rj_find v (str "server_info") with Some i => IsObject i | None => true end
  end.
Definition read_info (info : option Value) (s : ServerInfo) : ServerInfo :=
  match info with
  | None => s
  | Some i => mkServerInfo (find_int i (str "id") (si_id s)) (find_string i (str "name") (si_name s))
      (find_string i (str "ip") (si_ip s))
      (match rj_find i (str "port") with Some v => if IsInt v then u16 (GetInt_value v) else si_port s | None => si_port s end)
  end.
Lemma GetServerInfo_eq doc key s :
  IsObject doc = true →
  GetServerInfo doc key s =
    if section_ok doc key then Ok (read_info (section_info doc key) s, bool_decide (is_Some (rj_find doc key)))
    else Fault Assertion.
Proof.
  intros Hd. unfold GetServerInfo, section_ok, section_info. rewrite HasMember_ok by done. cbn [mbind outcome_bind].
  destruct (rj_find doc key) as [v|] eqn:Ev; cbn [option_bind mbind].
  2:{ by rewrite bool_decide_false by (by intros []). }
  rewrite bool_decide_true, (rj_member_ok doc key v) by done. cbn [mbind outcome_bind].
  destruct (IsObject v) eqn:Hv; [|unfold HasMember; by rewrite Hv].
  rewrite HasMember_ok by done. cbn [mbind outcome_bind andb].
  destruct (rj_find v _) as [i|] eqn:Ei; [|by rewrite bool_decide_false by (by intros [])].
  rewrite (rj_member_ok v _ i) by done.
  rewrite bool_decide_true by done. cbn [mbind outcome_bind]. destruct (IsObject i) eqn:Hi.
  2:{ unfold info_field, HasMember. rewrite Hi. reflexivity. }
  unfold info_field. rewrite member_find by done. cbn [mbind outcome_bind]. rewrite member_find by done.
  cbn [mbind outcome_bind]. rewrite member_find by done. cbn [mbind outcome_bind]. rewrite member_find by done.
  cbn [mbind outcome_bind]. f_equal. f_equal. unfold read_info, find_int, find_string, find_with. destruct s.
  by repeat (destruct (rj_find i _) as [?v|]; [match goal with |- context [if ?b then _ else _] => destruct b end|]).
Qed.

Definition sections : list (list Z) := [str "client_session"; str "stream_session"; str "web_session"; str "db_server"].
Definition read_config doc (c : NetworkConfig) : NetworkConfig :=
  let listen := find_bool doc (str "listener") false in
  mkNetworkConfig (find_int doc (str "id") 0) (find_string doc (str "name") [])
    (find_int doc (str "network_thread") 2) listen
    (if listen then negb (find_bool doc (str "listner_mode") true) else useAcceptEx c)
    (if listen then find_int doc (str "listener_prepare") 10 else nAcceptPrepareCount c)
    (read_info (section_info doc (str "client_session")) (listenClient c))
    (read_info (section_info doc (str "stream_session")) (listenStream c))
    (read_info (section_info doc (str "web_session")) (listenWeb c))
    (read_info (section_info doc (str "db_server")) (DbServer c)).
Lemma NetworkConfig_SetConfig_eq doc c :
  IsObject doc = true →
  NetworkConfig_SetConfig doc c = if forallb (section_ok doc) sections then Ok (read_config doc c) else Fault Assertion.
Proof.
  intros Hd. unfold NetworkConfig_SetConfig, read_config, sections.
  rewrite !GetInt_ok, !GetString_ok, !GetBool_ok by done. cbn [mbind outcome_bind forallb].
  rewrite !GetServerInfo_eq by done.
  destruct (find_bool doc (str "listener") false); cbn [mbind outcome_bind];
    (destruct (section_ok doc (str "client_session")); [cbn [mbind outcome_bind andb]|done]);
    (destruct (section_ok doc (str "stream_session")); [cbn [mbind outcome_bind andb]|done]);
    (destruct (section_ok doc (str "web_session")); [cbn [mbind outcome_bind andb]|done]);
    by destruct (section_ok doc (str "db_server")).
Qed.
End ConfigLaws.

(** what a configuration does.  Reading an object into a fresh
    [NetworkConfig] fails an assertion exactly when one of the four sections is
    not an object or its "server_info" is not one; otherwise the listening port
    is the configured number modulo 2^16, accept requests are posted with
    AcceptEx exactly when the listener is on and a member "listner_mode" is the
    value false, and a member "listener_mode" has no effect. *)
Theorem SetConfig_spec `{RapidJson} doc :
  IsObject doc = true →
  (NetworkConfig_SetConfig doc NetworkConfig_new = Fault Assertion ↔
     ∃ key, key ∈ sections ∧ section_ok doc key = false) ∧
  ∀ cfg, NetworkConfig_SetConfig doc NetworkConfig_new = Ok cfg →
    (∀ i p, section_info doc (str "client_session") = Some i → rj_find i (str "port") = Some p → IsInt p = true →
       si_port (listenClient cfg) = u16 (GetInt_value p)) ∧
    (useAcceptEx cfg = true ↔ find_bool doc (str "listener") false = true ∧
       ∃ v, rj_find doc (str "listner_mode") = Some v ∧ IsBool v = true ∧ GetBool_value v = false) ∧
    ∀ doc', IsObject doc' = true → (∀ key, key ≠ str "listener_mode" → rj_find doc' key = rj_find doc key) →
      NetworkConfig_SetConfig doc' NetworkConfig_new = Ok cfg.
Proof.
  intros Hd. rewrite NetworkConfig_SetConfig_eq by done. split.
  { destruct (forallb (section_ok doc) sections) eqn:E; (split; [intros|]); try done.
    - intros (key & Hin & Hk). rewrite forallb_forall in E. rewrite E in Hk by (by apply list_elem_of_In). done.
    - apply not_true_iff_false in E. rewrite forallb_forall in E.
      destruct (Exists_dec (λ key, section_ok doc key = false) sections) as [Hex|Hno]; [by apply Exists_exists in Hex|].
      exfalso. apply E. intros key Hin. apply not_false_iff_true. intros Hk. apply Hno, Exists_exists.
      exists key. split; [by apply list_elem_of_In|done]. }
  intros cfg. destruct (forallb (section_ok doc) sections) eqn:E; [intros [= <-]|done]. split_and!.
  - intros i p Hi Hp Hint. cbn [listenClient read_config]. rewrite Hi. cbn [read_info si_port]. by rewrite Hp, Hint.
  - cbn [useAcceptEx read_config]. destruct (find_bool doc (str "listener") false); [|by split; [|intros []]].
    unfold find_bool, find_with. destruct (rj_find doc _) as [v|]; [destruct (IsBool v) eqn:Hb|].
    + destruct (GetBool_value v) eqn:Hv; split; try done.
      * intros (_ & v' & [= <-] & _ & ?). congruence.
      * intros _. split; [done|]. by exists v.
    + split; [done|]. intros (_ & v' & [= <-] & ? & _). congruence.
    + split; [done|]. by intros (_ & v' & ? & _).
  - intros doc' Hd' Hsame. rewrite NetworkConfig_SetConfig_eq by done.
    assert (∀ A is_kind (get_value : Value → A) key d, key ≠ str "listener_mode" →
      find_with is_kind get_value doc' key d = find_with is_kind get_value doc key d) as Hf.
    { intros A is_kind get_value key d Hk. unfold find_with. by rewrite Hsame. }
    assert (∀ key, key ≠ str "listener_mode" → section_ok doc' key = section_ok doc key) as Hok.
    { intros key Hk. unfold section_ok. by rewrite Hsame. }
    assert (∀ key, key ≠ str "listener_mode" → section_info doc' key = section_info doc key) as Hinfo.
    { intros key Hk. unfold section_info. by rewrite Hsame. }
    assert (forallb (section_ok doc') sections = true) as ->.
    { rewrite <-E. unfold sections. cbn [forallb]. by rewrite !Hok by done. }
    f_equal. unfold read_config, find_int, find_bool, find_string. by rewrite !Hinfo, !Hf by done.
Qed.

(** ** Instances *)

(** JSON values as trees, and the document of config_svr.json. *)
Inductive tree :=
| TNull
| TInt (z : Z)
| TBool (b : bool)
| TString (s : list Z)
| TObject (l : list (list Z * tree)).
Definition tree_find (v : tree) (key : list Z) : option tree :=
  match v with TObject l => (λ m, m.2.2) <$> list_find (λ m, m.1 = key) l | _ => None end.
#[local] Instance tree_json : RapidJson := {|
  Value := tree; rj_null := TNull; rj_parse := λ _, TNull;
  IsObject := λ v, match v with TObject _ => true | _ => false end;
  IsInt := λ v, match v with TInt _ => true | _ => false end;
  IsBool := λ v, match v with TBool _ => true | _ => false end;
  IsString := λ v, match v with TString _ => true | _ => false end;
  rj_find := tree_find;
  GetInt_value := λ v, match v with TInt z => z | _ => 0 end;
  GetBool_value := λ v, match v with TBool b => b | _ => false end;
  GetString_value := λ v, match v with TString s => s | _ => [] end |}.
Definition address (ip : String.string) (port : Z) : tree :=
  TObject [(str "server_info", TObject [(str "ip", TString (str ip)); (str "port", TInt port)])].
Definition config_svr : @Value tree_json := TObject
  [ (str "id", TInt 1); (str "name", TString (str "world_01")); (str "network_thread", TInt 4);
    (str "listener", TBool true); (str "listener_mode", TInt 2); (str "listener_prepare", TInt 10);
    (str "client_session", address "127.0.0.1" 16101); (str "stream_session", address "127.0.0.1" 16201);
    (str "web_session", address "127.0.0.1" 17001); (str "db_server", address "127.0.0.1" 20001) ].
Lemma SetConfig_spec_witness :
  IsObject config_svr = true ∧
  (NetworkConfig_SetConfig config_svr NetworkConfig_new = Fault Assertion ↔
     ∃ key, key ∈ sections ∧ section_ok config_svr key = false) ∧
  ∀ cfg, NetworkConfig_SetConfig config_svr NetworkConfig_new = Ok cfg →
    (∀ i p, section_info config_svr (str "client_session") = Some i → rj_find i (str "port") = Some p → IsInt p = true →
       si_port (listenClient cfg) = u16 (GetInt_value p)) ∧
    (useAcceptEx cfg = true ↔ find_bool config_svr (str "listener") false = true ∧
       ∃ v, rj_find config_svr (str "listner_mode") = Some v ∧ IsBool v = true ∧ GetBool_value v = false) ∧
    ∀ doc', IsObject doc' = true → (∀ key, key ≠ str "listener_mode" → rj_find doc' key = rj_find config_svr key) →
      NetworkConfig_SetConfig doc' NetworkConfig_new = Ok cfg.
Proof. split; [reflexivity|]. apply (SetConfig_spec config_svr). reflexivity. Defined.
