(* ===== verification/Log.v ===== *)
(** * The log: _lib/log.h, log.cpp
    [FileLogger] keeps messages in a queue and writes them in batches to a file
    named after the date.  The disk is a map from file names to lines; whether
    a file can be written or opened is a parameter. *)
From Stdlib Require Import String.
From S2P Require Import Prelude TimeSet Text.
#[local] Open Scope string_scope.
#[local] Open Scope list_scope.
#[local] Open Scope Z_scope.

Inductive eLogDivideType : Set := Day | Hour | Min.
Inductive eLogLevel : Set := Debug_level | Info_level | Normal_level | Warning_level | Error_level | Crirical_level.
Definition level_value (l : eLogLevel) : Z :=
  match l with
  | Debug_level => 0 | Info_level => 1 | Normal_level => 2 | Warning_level => 3 | Error_level => 4 | Crirical_level => 5
  end.

(** A file name: the base name and the numbers of the date put into it. *)
Abbreviation log_file := (list Z * list Z)%type.
Record FileLogger := mkFileLogger {
  _wstrFileName : list Z;
  _eDivideType : eLogDivideType;
  _msgQueue : list (list Z);
  _maxQueueSize : Z;
  _logLevel : eLogLevel }.
Definition FileLogger_new (file_name : list Z) : FileLogger := mkFileLogger file_name Day [] 20 Debug_level.

(** The logger, the files and the console. *)
Record LogWorld := mkLogWorld {
  lw_logger : FileLogger;
  lw_files : gmap log_file (list (list Z));
  lw_console : list (list Z) }.
Definition set_logger v w := mkLogWorld v (lw_files w) (lw_console w).
Definition set_files v w := mkLogWorld (lw_logger w) v (lw_console w).
Definition set_queue q (l : FileLogger) := mkFileLogger (_wstrFileName l) (_eDivideType l) q (_maxQueueSize l) (_logLevel l).
Definition SetLogFile (wstrFileName : list Z) w : LogWorld :=
  let l := lw_logger w in
  set_logger (mkFileLogger wstrFileName (_eDivideType l) (_msgQueue l) (_maxQueueSize l) (_logLevel l)) w.
Definition SetLogLevel (logLevel : eLogLevel) w : LogWorld :=
  let l := lw_logger w in
  set_logger (mkFileLogger (_wstrFileName l) (_eDivideType l) (_msgQueue l) (_maxQueueSize l) logLevel) w.

Section Log.
Context `{TimeZone}.
(** [_waccess_s(name, 2) == 0] for a file of the disk, and whether a file can be
    opened for writing ([true]: from the start) or for appending. *)
Context (log_access : log_file → bool) (log_open : log_file → bool → bool).
Implicit Types (w : LogWorld) (now : Z).

Definition ConsoleWrite (logLevel : eLogLevel) (wstr : list Z) w : LogWorld :=
  if level_value logLevel <? level_value (_logLevel (lw_logger w)) then w
  else mkLogWorld (lw_logger w) (lw_files w) (lw_console w ++ [wstr]).

(** The name of the file of a moment. *)
Definition log_file_name now (l : FileLogger) : log_file :=
  let t := CTimeSet_new now in
  let day := [GetYear true t; GetMonth true t; GetDay true t] in
  (_wstrFileName l,
   match _eDivideType l with
   | Day => day
   | Hour => day ++ [GetHour true t]
   | Min => day ++ [GetHour true t; GetMin true t]
   end).

Definition FileWrite_list now (list : list (list Z)) w : LogWorld :=
  let f := log_file_name now (lw_logger w) in
  let exists_f := bool_decide (is_Some (lw_files w !! f)) && log_access f in
  if negb exists_f then
    if log_open f true then set_files (<[f := list]> (lw_files w)) w
    else ConsoleWrite Error_level (str "error: FileLogger::FileWrite(): log file open fail") w
  else if log_open f false then set_files (<[f := default [] (lw_files w !! f) ++ list]> (lw_files w)) w
  else ConsoleWrite Error_level (str "error: FileLogger::FileWrite(): log file open fail") w.
Definition FileWrite now (wstr : list Z) w : LogWorld := FileWrite_list now [wstr] w.

Definition Flush now (bForce : bool) w : LogWorld :=
  let q := _msgQueue (lw_logger w) in
  if negb bForce && (zlen q <? _maxQueueSize (lw_logger w)) then w
  else FileWrite_list now q (set_logger (set_queue [] (lw_logger w)) w).
Definition AddMessage now (wstr : list Z) w : LogWorld :=
  if _maxQueueSize (lw_logger w) <=? 1 then FileWrite now wstr w
  else Flush now false (set_logger (set_queue (_msgQueue (lw_logger w) ++ [wstr]) (lw_logger w)) w).
(** The destructor. *)
Definition FileLogger_destroy now w : LogWorld := Flush now false w.

(** [%02d] of a number of at most two digits. *)
Definition two_digits (n : Z) : list Z := [48 + n / 10; 48 + n mod 10].
Definition time_prefix now : list Z :=
  let t := CTimeSet_new now in
  two_digits (GetHour true t) ++ str ":" ++ two_digits (GetMin true t) ++ str ":" ++ two_digits (GetSec true t) ++ str " ".
Definition Write now (logLevel : eLogLevel) (text : list Z) w : outcome LogWorld :=
  wstrLogText ← FormatW (time_prefix now ++ c_string text);
  Ok (ConsoleWrite logLevel wstrLogText (AddMessage now wstrLogText w)).
(** For wide strings. *)
Definition Write_w now (logLevel : eLogLevel) (text : list Z) w : outcome LogWorld :=
  wstrLogText ← FormatW (time_prefix now ++ c_string text);
  Ok (ConsoleWrite logLevel wstrLogText (AddMessage now wstrLogText w)).

(** The global functions, on [g_Log]; [PerformanceLog] on [g_PerformanceLog]. *)
Definition Log now (text : list Z) w := m ← FormatA (str "[normal  ] " ++ c_string text); Write now Normal_level m w.
Definition Log_w now (text : list Z) w := m ← FormatW (str "[normal  ] " ++ c_string text); Write_w now Normal_level m w.
Definition LogDebug now (text : list Z) w := m ← FormatA (str "[debug   ] " ++ c_string text); Write now Debug_level m w.
Definition LogDebug_w now (text : list Z) w := m ← FormatW (str "[debug   ] " ++ c_string text); Write_w now Debug_level m w.
Definition LogInfo now (text : list Z) w := m ← FormatA (str "[info    ] " ++ c_string text); Write now Info_level m w.
Definition LogError now (text loc : list Z) w :=
  m ← FormatA (str "[error   ] " ++ c_string text ++ str " " ++ c_string loc); Write now Error_level m w.
Definition PerformanceLog now (text : list Z) w := m ← FormatA (str "[performance] " ++ c_string text); Write now Info_level m w.
Definition PerformanceLog_w now (text : list Z) w := m ← FormatW (str "[performance] " ++ c_string text); Write_w now Info_level m w.
(** [PacketLog], of a packet of at most 1024 bytes; of a longer one the first
    six bytes.  [format_char] is what [format] makes of a char under
    ["{0:02X}"], which differs between versions of the library. *)
Definition PacketLog_text (format_char : Z → list Z) (text data : list Z) : list Z :=
  if 1024 <? zlen data
  then text ++ mjoin (format_char <$> take 6 data) ++ str ". connot write packetlog. too long."
  else text ++ mjoin (format_char <$> data).
Definition PacketLog (format_char : Z → list Z) now (text data : list Z) w := LogDebug now (PacketLog_text format_char text data) w.

(** ** What is too long to be logged *)
Lemma zlen_time_prefix now : zlen (time_prefix now) = 9.
Proof. reflexivity. Qed.
Lemma no_nul_app s1 s2 : no_nul s1 → no_nul s2 → no_nul (s1 ++ s2).
Proof. intros. by apply Forall_app. Qed.
Lemma two_digits_no_nul n : 0 ≤ n → no_nul (two_digits n).
Proof. intros Hn. pose proof (Z.div_pos n 10 Hn ltac:(lia)). pose proof (Z.mod_pos_bound n 10 ltac:(lia)). repeat constructor; lia. Qed.
Definition clock_ok now : Prop :=
  let t := CTimeSet_new now in 0 ≤ GetHour true t ∧ 0 ≤ GetMin true t ∧ 0 ≤ GetSec true t.
Lemma Write_spec now logLevel text w : clock_ok now →
  Write now logLevel text w =
    if BUFFER_MAX <=? 9 + zlen (c_string text) then Fault InvalidParameter
    else let m := time_prefix now ++ c_string text in Ok (ConsoleWrite logLevel m (AddMessage now m w)).
Proof.
  intros (Hh & Hm & Hs). unfold Write, FormatW. rewrite zlen_app, zlen_time_prefix. destruct (_ <=? _); [done|]. cbn [mbind outcome_bind].
  rewrite c_string_id; [done|]. unfold time_prefix. repeat apply no_nul_app.
  all: first [by apply two_digits_no_nul|by apply c_string_no_nul|repeat constructor; done].
Qed.
Lemma FormatA_spec prefix text : no_nul prefix →
  FormatA (prefix ++ c_string text) =
    if BUFFER_MAX <=? zlen prefix + zlen (c_string text) then Fault InvalidParameter else Ok (prefix ++ c_string text).
Proof.
  intros Hp. unfold FormatA. rewrite zlen_app. destruct (_ <=? _); [done|].
  rewrite c_string_id; [done|]. apply no_nul_app; [done|apply c_string_no_nul].
Qed.
(** A message is logged with its level and time, up to its first NUL, or is
    refused with the invalid parameter handler when it has 10220 characters. *)
Theorem Log_spec now text w : clock_ok now →
  Log now text w =
    if BUFFER_MAX <=? 20 + zlen (c_string text) then Fault InvalidParameter
    else let m := time_prefix now ++ str "[normal  ] " ++ c_string text in Ok (ConsoleWrite Normal_level m (AddMessage now m w)).
Proof.
  intros Hc. unfold Log. rewrite FormatA_spec by (repeat constructor; done). change (zlen (str "[normal  ] ")) with 11.
  pose proof (zlen_nonneg (c_string text)). destruct (Z.leb_spec BUFFER_MAX (11 + zlen (c_string text))).
  { by rewrite (proj2 (Z.leb_le _ _)) by lia. }
  cbn [mbind outcome_bind]. rewrite Write_spec by done.
  rewrite (c_string_id (_ ++ _)) by (apply no_nul_app; [repeat constructor; done|apply c_string_no_nul]).
  rewrite zlen_app. change (zlen (str "[normal  ] ")) with 11. by replace (9 + (11 + zlen (c_string text))) with (20 + zlen (c_string text)) by lia.
Qed.
(** The text of a packet always fits. *)
Lemma zlen_join_le (f : Z → list Z) l k : (∀ c, zlen (f c) ≤ k) → 0 ≤ k → zlen (mjoin (f <$> l)) ≤ k * zlen l.
Proof.
  intros Hf Hk. induction l as [|x l IH]; [by rewrite Z.mul_0_r|]. cbn [fmap list_fmap]. change (mjoin (f x :: (f <$> l))) with (f x ++ mjoin (f <$> l)).
  rewrite zlen_app, zlen_cons. specialize (Hf x). lia.
Qed.
Theorem PacketLog_fits format_char now text data w : clock_ok now → (∀ c, zlen (format_char c) ≤ 3) → zlen text ≤ 4096 →
  ∃ w', PacketLog format_char now text data w = Ok w'.
Proof.
  intros Hc Hf Ht. unfold PacketLog, LogDebug. set (t := PacketLog_text format_char text data).
  assert (zlen t ≤ 8000) as Hl.
  { unfold t, PacketLog_text. destruct (Z.ltb_spec 1024 (zlen data)).
    - rewrite !zlen_app. pose proof (zlen_join_le format_char (take 6 data) 3 Hf ltac:(lia)) as Hj.
      assert (zlen (take 6 data) ≤ 6) by (unfold zlen; rewrite length_take; lia).
      change (zlen (str ". connot write packetlog. too long.")) with 35. lia.
    - rewrite zlen_app. pose proof (zlen_join_le format_char data 3 Hf ltac:(lia)). lia. }
  pose proof (zlen_c_string t). rewrite FormatA_spec by (repeat constructor; done). change (zlen (str "[debug   ] ")) with 11.
  rewrite (proj2 (Z.leb_gt BUFFER_MAX _)) by (unfold BUFFER_MAX; lia). cbn [mbind outcome_bind]. rewrite Write_spec by done.
  rewrite (c_string_id (_ ++ _)) by (apply no_nul_app; [repeat constructor; done|apply c_string_no_nul]).
  rewrite zlen_app. change (zlen (str "[debug   ] ")) with 11.
  rewrite (proj2 (Z.leb_gt BUFFER_MAX _)) by (unfold BUFFER_MAX; lia). by eexists.
Qed.

(** ** One thread *)
Hypothesis log_access_ok : ∀ f, log_access f = true.
Hypothesis log_open_ok : ∀ f b, log_open f b = true.

(** The lines of a file; a file that is not there has none. *)
Definition lines w f : list (list Z) := default [] (lw_files w !! f).
Lemma FileWrite_list_ok now l w :
  let f := log_file_name now (lw_logger w) in
  FileWrite_list now l w = set_files (<[f := lines w f ++ l]> (lw_files w)) w.
Proof.
  cbn zeta. unfold FileWrite_list. rewrite log_access_ok, !log_open_ok. unfold lines.
  destruct (lw_files w !! _) eqn:E; [by rewrite bool_decide_true|].
  by rewrite bool_decide_false by (by intros []).
Qed.
Lemma lines_write now l w f :
  f = log_file_name now (lw_logger w) → lines (FileWrite_list now l w) f = lines w f ++ l.
Proof. intros ->. rewrite FileWrite_list_ok. unfold lines at 1. cbn. by rewrite lookup_insert_eq. Qed.
Lemma logger_write now l w : lw_logger (FileWrite_list now l w) = lw_logger w.
Proof. by rewrite FileWrite_list_ok. Qed.

(** What has been written and what waits. *)
Definition batches (n : Z) (msgs : list (list Z)) : Z := zlen msgs / n * n.
Lemma batches_bounds n msgs : 0 < n → 0 ≤ batches n msgs ≤ zlen msgs ∧ zlen msgs - batches n msgs < n.
Proof.
  intros Hn. unfold batches. pose proof (zlen_nonneg msgs). pose proof (Z.div_mod (zlen msgs) n ltac:(lia)).
  pose proof (Z.mod_pos_bound (zlen msgs) n Hn). pose proof (Z.div_pos (zlen msgs) n). nia.
Qed.
Lemma AddMessage_ok now f m w old msgs :
  f = log_file_name now (lw_logger w) → 1 < _maxQueueSize (lw_logger w) →
  let n := _maxQueueSize (lw_logger w) in
  lines w f = old ++ sub msgs 0 (batches n msgs) ∧ _msgQueue (lw_logger w) = sub msgs (batches n msgs) (zlen msgs - batches n msgs) →
  let w' := AddMessage now m w in
  (∀ t, log_file_name t (lw_logger w') = log_file_name t (lw_logger w)) ∧ _maxQueueSize (lw_logger w') = n ∧
  lines w' f = old ++ sub (msgs ++ [m]) 0 (batches n (msgs ++ [m])) ∧
  _msgQueue (lw_logger w') = sub (msgs ++ [m]) (batches n (msgs ++ [m])) (zlen (msgs ++ [m]) - batches n (msgs ++ [m])).
Proof.
  intros Hf Hn n [Hl Hq] w'. unfold w', AddMessage. fold n. rewrite (proj2 (Z.leb_gt _ _)) by lia.
  unfold Flush. cbn [negb andb lw_logger set_logger _msgQueue set_queue _maxQueueSize]. fold n.
  pose proof (zlen_nonneg msgs) as Hz. set (k := batches n msgs) in *.
  assert (0 ≤ k ≤ zlen msgs ∧ zlen msgs - k < n) as [Hk Hkn] by (apply batches_bounds; lia).
  assert (zlen (msgs ++ [m]) = zlen msgs + 1) as Hz1 by (rewrite zlen_app; done).
  assert (sub (msgs ++ [m]) k (zlen msgs - k + 1) = sub msgs k (zlen msgs - k) ++ [m]) as Htail.
  { rewrite sub_app by lia. rewrite sub_app_prefix by lia. f_equal.
    replace (k + (zlen msgs - k)) with (zlen msgs) by lia. rewrite sub_app_skip by lia. by rewrite Z.sub_diag. }
  rewrite Hq, <-Htail. rewrite zlen_sub by lia.
  destruct (Z.ltb_spec (zlen msgs - k + 1) n) as [Hlt|Hge].
  - assert (batches n (msgs ++ [m]) = k) as ->.
    { unfold batches, k in *. rewrite Hz1. unfold batches in *. f_equal.
      symmetry. apply (Z.div_unique _ _ _ (zlen msgs - zlen msgs / n * n + 1)); nia. }
    split_and!; try done.
    + unfold lines. cbn [lw_files set_logger]. fold (lines w f). rewrite Hl. by rewrite sub_app_prefix by lia.
    + cbn. f_equal. lia.
  - assert (batches n (msgs ++ [m]) = k + n) as ->.
    { unfold batches, k in *. rewrite Hz1. unfold batches in *.
      assert ((zlen msgs + 1) / n = zlen msgs / n + 1) as ->; [|lia].
      symmetry. apply (Z.div_unique _ _ _ 0); nia. }
    assert (zlen msgs + 1 = k + n) as E by lia.
    rewrite lines_write by done. rewrite logger_write. cbn [lw_logger set_logger].
    split_and!; try done.
    + unfold lines. cbn [lw_files set_logger]. fold (lines w f). rewrite Hl.
      rewrite (sub_app (msgs ++ [m]) 0 k n) by lia. rewrite Z.add_0_l, (sub_app_prefix [m] msgs 0 k) by lia.
      rewrite <-app_assoc. do 3 f_equal. lia.
    + cbn. by rewrite Hz1, E, Z.sub_diag.
Qed.

(** Messages, each with the moment it is added at. *)
Definition add_all (msgs : list (Z * list Z)) w : LogWorld := foldl (λ w m, AddMessage m.1 m.2 w) w msgs.
Lemma add_all_ok f w msgs :
  let n := _maxQueueSize (lw_logger w) in
  1 < n → _msgQueue (lw_logger w) = [] → Forall (λ m, log_file_name m.1 (lw_logger w) = f) msgs →
  let w' := add_all msgs w in
  (∀ t, log_file_name t (lw_logger w') = log_file_name t (lw_logger w)) ∧ _maxQueueSize (lw_logger w') = n ∧
  lines w' f = lines w f ++ sub msgs.*2 0 (batches n msgs.*2) ∧
  _msgQueue (lw_logger w') = sub msgs.*2 (batches n msgs.*2) (zlen msgs.*2 - batches n msgs.*2).
Proof.
  cbn zeta. intros Hn Hq. induction msgs as [|[now m] msgs IH] using rev_ind; intros Hf.
  { cbn. rewrite app_nil_r. done. }
  apply Forall_app in Hf as [Hf Hm]. destruct (IH Hf) as (Hname & Hmax & Hl & Hw). clear IH.
  apply Forall_cons in Hm as [Hm _]. cbn [fst] in Hm. unfold add_all in *. rewrite foldl_app. cbn [foldl fst snd].
  destruct (AddMessage_ok now f m (foldl (λ w m, AddMessage m.1 m.2 w) w msgs) (lines w f) msgs.*2)
    as (Hname' & Hmax' & Hl' & Hw').
  { rewrite Hname. by symmetry. }
  { by rewrite Hmax. }
  { rewrite Hmax. done. }
  rewrite fmap_app. cbn [fmap list_fmap snd]. rewrite Hmax in *. split_and!; try done. intros t. by rewrite Hname', Hname.
Qed.
Lemma destroy_ok now w : zlen (_msgQueue (lw_logger w)) < _maxQueueSize (lw_logger w) → FileLogger_destroy now w = w.
Proof. intros Hq. unfold FileLogger_destroy, Flush. cbn [negb andb]. by rewrite (proj2 (Z.ltb_lt _ _)). Qed.

End Log.

(** ** Several threads

    [AddMessage] takes [_msgLock] to append, reads the size of the queue
    without it, takes it again to swap the queue with a local list, and then
    takes [_fileLock] to write the list; between these a thread can be
    interrupted.  A logger without a queue only takes [_fileLock].  Every write
    has its own moment, and finds the disk in a state of its own. *)
Record disk := mkDisk { dk_access : log_file → bool; dk_open : log_file → bool → bool }.
Inductive lg_pc :=
| Lg_idle
| Lg_pushed                         (** before the test of the size *)
| Lg_tested                         (** after it, before the swap *)
| Lg_holding (l : list (list Z)).   (** with the list to write *)
Inductive lg_event :=
| EvPush (i : nat) (m : list Z)
| EvTest (i : nat)
| EvTake (i : nat)
| EvStore (i : nat) (now : Z) (d : disk).

Section Threads.
Context `{TimeZone}.
Implicit Types (w : LogWorld) (now : Z) (d : disk).

(** The lines a write loses: its own when the file cannot be opened, the old
    ones of a file that is there, cannot be accessed and is opened afresh. *)
Definition lost_lines now d (l : list (list Z)) w : list (list Z) :=
  let f := log_file_name now (lw_logger w) in
  if bool_decide (is_Some (lw_files w !! f)) && dk_access d f
  then if dk_open d f false then [] else l
  else if dk_open d f true then lines w f else l.

(** [ls_added] and [ls_lost] are history: what was logged, what writes lost. *)
Record lg_sys := mkLgSys { ls_world : LogWorld; ls_threads : list lg_pc; ls_added : list (list Z); ls_lost : list (list Z) }.

(** One step; [None] when it cannot happen. *)
Definition lg_exec (s : lg_sys) (e : lg_event) : option lg_sys :=
  let w := ls_world s in let l := lw_logger w in
  match e with
  | EvPush i m =>
      match ls_threads s !! i with
      | Some Lg_idle => Some (
          if _maxQueueSize l <=? 1
          then mkLgSys w (<[i := Lg_holding [m]]> (ls_threads s)) (ls_added s ++ [m]) (ls_lost s)
          else mkLgSys (set_logger (set_queue (_msgQueue l ++ [m]) l) w)
                 (<[i := Lg_pushed]> (ls_threads s)) (ls_added s ++ [m]) (ls_lost s))
      | _ => None
      end
  | EvTest i =>
      match ls_threads s !! i with
      | Some Lg_pushed => Some (mkLgSys w
          (<[i := if zlen (_msgQueue l) <? _maxQueueSize l then Lg_idle else Lg_tested]> (ls_threads s)) (ls_added s) (ls_lost s))
      | _ => None
      end
  | EvTake i =>
      match ls_threads s !! i with
      | Some Lg_tested => Some (mkLgSys (set_logger (set_queue [] l) w)
                                  (<[i := Lg_holding (_msgQueue l)]> (ls_threads s)) (ls_added s) (ls_lost s))
      | _ => None
      end
  | EvStore i now d =>
      match ls_threads s !! i with
      | Some (Lg_holding q) => Some (mkLgSys (FileWrite_list (dk_access d) (dk_open d) now q w)
                                       (<[i := Lg_idle]> (ls_threads s)) (ls_added s) (ls_lost s ++ lost_lines now d q w))
      | _ => None
      end
  end.
Fixpoint lg_run (s : lg_sys) (es : list lg_event) : option lg_sys :=
  match es with
  | [] => Some s
  | e :: es' => s' ← lg_exec s e; lg_run s' es'
  end.
Definition pc_lines (p : lg_pc) : list (list Z) := match p with Lg_holding l => l | _ => [] end.
Definition held (l : list lg_pc) : list (list Z) := l ≫= pc_lines.

Lemma held_insert l i p q :
  l !! i = Some p → pc_lines p ++ held (<[i := q]> l) ≡ₚ pc_lines q ++ held l.
Proof.
  revert i. induction l as [|x l IH]; intros [|i] Hi; cbn in Hi; try done.
  - injection Hi as ->. cbn. rewrite !app_assoc. by rewrite (Permutation_app_comm (pc_lines p)).
  - cbn. specialize (IH i Hi). rewrite !app_assoc. rewrite (Permutation_app_comm (pc_lines p)), (Permutation_app_comm (pc_lines q)).
    rewrite <-!app_assoc. by rewrite IH.
Qed.
Lemma held_set l i p q : l !! i = Some p → pc_lines p = pc_lines q → held (<[i := q]> l) ≡ₚ held l.
Proof. intros Hi Hpq. apply (Permutation_app_inv_l (pc_lines p)). rewrite (held_insert l i p q Hi). by rewrite Hpq. Qed.

(** All that is on the disk. *)
Definition file_lines (files : gmap log_file (list (list Z))) : list (list Z) := mjoin (map_to_list files).*2.
Definition all_lines w : list (list Z) := file_lines (lw_files w).
Lemma file_lines_new files f l : files !! f = None → file_lines (<[f := l]> files) ≡ₚ l ++ file_lines files.
Proof. intros Hf. unfold file_lines. by rewrite (map_to_list_insert _ _ _ Hf). Qed.
Lemma all_lines_set w f l :
  all_lines (set_files (<[f := l]> (lw_files w)) w) ++ lines w f ≡ₚ l ++ all_lines w.
Proof.
  unfold all_lines, lines. cbn [lw_files set_files]. rewrite <-insert_delete_eq, file_lines_new by apply lookup_delete_eq.
  destruct (lw_files w !! f) as [old|] eqn:E; cbn [default from_option].
  - pose proof (file_lines_new (delete f (lw_files w)) f old (lookup_delete_eq _ _)) as Hold.
    rewrite insert_delete_eq, insert_id in Hold by done. rewrite Hold. solve_Permutation.
  - by rewrite app_nil_r, delete_id.
Qed.
(** A write puts its lines on the disk, but for what it loses. *)
Lemma FileWrite_list_keeps now d l w :
  all_lines (FileWrite_list (dk_access d) (dk_open d) now l w) ++ lost_lines now d l w ≡ₚ l ++ all_lines w.
Proof.
  assert (∀ v t, all_lines (ConsoleWrite v t w) = all_lines w) as Hc by (intros; unfold ConsoleWrite; by destruct (_ <? _)).
  unfold FileWrite_list, lost_lines. set (f := log_file_name now (lw_logger w)).
  destruct (_ && _); cbn [negb].
  - destruct (dk_open d f false); [|by rewrite Hc, Permutation_app_comm].
    apply (Permutation_app_inv_r (lines w f)). rewrite app_nil_r, all_lines_set, <-!app_assoc.
    solve_Permutation.
  - destruct (dk_open d f true); [apply all_lines_set|by rewrite Hc, Permutation_app_comm].
Qed.
Lemma FileWrite_list_logger now d l w : lw_logger (FileWrite_list (dk_access d) (dk_open d) now l w) = lw_logger w.
Proof. unfold FileWrite_list, ConsoleWrite. by repeat case_match. Qed.

(** What every step keeps: nothing else is lost and nothing is written twice. *)
Definition lg_inv (old : list (list Z)) (s : lg_sys) : Prop :=
  all_lines (ls_world s) ++ held (ls_threads s) ++ _msgQueue (lw_logger (ls_world s)) ++ ls_lost s ≡ₚ old ++ ls_added s.
Lemma lg_exec_inv old s e s' : lg_inv old s → lg_exec s e = Some s' → lg_inv old s'.
Proof.
  unfold lg_inv. intros Hinv E. destruct s as [w ths added lost]. cbn [ls_world ls_threads ls_added ls_lost] in *.
  destruct e as [i m|i|i|i now d]; cbn in E; destruct (ths !! i) as [[| | |q]|] eqn:Hi; try done; injection E as <-.
  - destruct (_ <=? _); cbn [ls_world ls_threads ls_added ls_lost].
    + pose proof (held_insert ths i Lg_idle (Lg_holding [m]) Hi) as Hh. cbn [pc_lines app] in Hh. rewrite Hh.
      rewrite (app_assoc old), <-Hinv. cbn [app]. rewrite Permutation_middle. solve_Permutation.
    + change (all_lines (set_logger _ w)) with (all_lines w). cbn [lw_logger set_logger _msgQueue set_queue].
      rewrite (held_set _ _ Lg_idle Lg_pushed) by done. rewrite (app_assoc old), <-Hinv. solve_Permutation.
  - cbn [ls_world ls_threads ls_added ls_lost]. by rewrite (held_set _ _ Lg_pushed) by (done || by destruct (_ <? _)).
  - cbn [ls_world ls_threads ls_added ls_lost].
    change (all_lines (set_logger _ w)) with (all_lines w). cbn [lw_logger set_logger _msgQueue set_queue app].
    pose proof (held_insert ths i Lg_tested (Lg_holding (_msgQueue (lw_logger w))) Hi) as Hh. cbn [pc_lines app] in Hh.
    rewrite Hh, <-Hinv. solve_Permutation.
  - cbn [ls_world ls_threads ls_added ls_lost]. rewrite FileWrite_list_logger.
    pose proof (held_insert ths i (Lg_holding q) Lg_idle Hi) as Hh. cbn [pc_lines app] in Hh.
    pose proof (FileWrite_list_keeps now d q w) as Hw. rewrite <-Hinv, <-Hh. 
    transitivity ((all_lines (FileWrite_list (dk_access d) (dk_open d) now q w) ++ lost_lines now d q w) ++
      held (<[i:=Lg_idle]> ths) ++ _msgQueue (lw_logger w) ++ lost); [|rewrite Hw]; solve_Permutation.
Qed.
Lemma lg_run_inv old es s s' : lg_inv old s → lg_run s es = Some s' → lg_inv old s'.
Proof.
  revert s. induction es as [|e es IH]; intros s Hinv E; cbn in E; [by injection E as <-|].
  destruct (lg_exec s e) as [s1|] eqn:E1; [|done]. cbn in E. apply (IH s1); [|done]. by eapply lg_exec_inv.
Qed.
(** A disk on which every file can be accessed and opened loses nothing. *)
Definition disk_ok (e : lg_event) : Prop :=
  match e with EvStore _ _ d => (∀ f, dk_access d f = true) ∧ (∀ f b, dk_open d f b = true) | _ => True end.
Lemma disk_ok_lost now d l w : (∀ f, dk_access d f = true) → (∀ f b, dk_open d f b = true) → lost_lines now d l w = [].
Proof.
  intros Ha Ho. unfold lost_lines, lines. rewrite Ha, !Ho. case_bool_decide as Hf; [done|]. cbn.
  by rewrite (proj2 (eq_None_not_Some _) Hf).
Qed.
Lemma lg_run_lost es s s' : Forall disk_ok es → lg_run s es = Some s' → ls_lost s' = ls_lost s.
Proof.
  intros Hd. revert s. induction Hd as [|e es He Hd IH]; intros s E; cbn in E; [by injection E as <-|].
  destruct (lg_exec s e) as [s1|] eqn:E1; [|done]. cbn in E. rewrite (IH s1 E). clear IH E.
  destruct e as [i m|i|i|i now d]; cbn in E1; destruct (ls_threads s !! i) as [[| | |q]|]; try done; injection E1 as <-; try done.
  - by destruct (_ <=? _).
  - cbn. destruct He. by rewrite disk_ok_lost, app_nil_r.
Qed.
(** One thread, one message: the steps are [AddMessage]. *)
Lemma lg_run_AddMessage d now w m added lost :
  let n := _maxQueueSize (lw_logger w) in
  ls_world <$> lg_run (mkLgSys w [Lg_idle] added lost)
    (EvPush 0 m :: if n <=? 1 then [EvStore 0 now d]
     else EvTest 0 :: if zlen (_msgQueue (lw_logger w)) + 1 <? n then [] else [EvTake 0; EvStore 0 now d]) =
  Some (AddMessage (dk_access d) (dk_open d) now m w).
Proof.
  cbn zeta. unfold AddMessage, Flush, FileWrite. destruct (Z.leb_spec (_maxQueueSize (lw_logger w)) 1).
  - cbn. by rewrite (proj2 (Z.leb_le _ _)).
  - cbn [lg_run lg_exec ls_threads lookup list_lookup]. rewrite (proj2 (Z.leb_gt _ _)) by done.
    cbn [lg_run lg_exec ls_threads lookup list_lookup mbind option_bind ls_world insert list_insert ls_added
       negb andb lw_logger set_logger _msgQueue set_queue _maxQueueSize].
    rewrite zlen_app. change (zlen [m]) with 1.
    by destruct (Z.ltb_spec (zlen (_msgQueue (lw_logger w)) + 1) (_maxQueueSize (lw_logger w))).
Qed.
End Threads.

(** C36: nothing is lost but by the disk, and nothing is written twice.  However
    the threads that log are interleaved, whatever the moments they write at
    and whichever files can be opened then: the lines of all files, the lists
    taken and not yet written, the queue and what writes have lost are together
    the messages there were and those logged since, each once.  A write loses
    its list when the file cannot be opened, and the lines of a file it finds
    not accessible and opens afresh; where every file can be accessed and opened,
    nothing is lost.  (A batch may be written behind a later one.) *)
Theorem log_no_loss `{TimeZone} w n es s' :
  lg_run (mkLgSys w (replicate n Lg_idle) [] []) es = Some s' →
  all_lines (ls_world s') ++ held (ls_threads s') ++ _msgQueue (lw_logger (ls_world s')) ++ ls_lost s' ≡ₚ
    (all_lines w ++ _msgQueue (lw_logger w)) ++ ls_added s' ∧
  (Forall disk_ok es → ls_lost s' = []).
Proof.
  intros E. split; [|intros Hd; exact (lg_run_lost es _ _ Hd E)].
  apply (lg_run_inv _ es (mkLgSys w (replicate n Lg_idle) [] [])); [|done].
  unfold lg_inv. cbn [ls_world ls_threads ls_added ls_lost]. rewrite !app_nil_r.
  assert (held (replicate n Lg_idle) = []) as -> by (clear; induction n; done). done.
Qed.

(** the end of the program loses the last messages.  The destructor calls
    [Flush] without force, which writes nothing while fewer than twenty
    messages wait: of the messages logged on one day only the first twenty
    times k arrive in the file. *)
Theorem log_destructor_drops `{TimeZone} log_access log_open now f w msgs :
  (∀ f, log_access f = true) → (∀ f b, log_open f b = true) →
  1 < _maxQueueSize (lw_logger w) → _msgQueue (lw_logger w) = [] →
  Forall (λ m, log_file_name m.1 (lw_logger w) = f) msgs →
  lines (FileLogger_destroy log_access log_open now (add_all log_access log_open msgs w)) f =
    lines w f ++ sub msgs.*2 0 (zlen msgs / _maxQueueSize (lw_logger w) * _maxQueueSize (lw_logger w)).
Proof.
  intros Ha Ho Hn Hq Hf. destruct (add_all_ok log_access log_open Ha Ho f w msgs Hn Hq Hf) as (_ & Hmax & Hl & Hw).
  pose proof (batches_bounds (_maxQueueSize (lw_logger w)) msgs.*2 ltac:(lia)) as [Hb1 Hb2].
  rewrite destroy_ok by (rewrite Hw, Hmax, zlen_sub by lia; lia).
  rewrite Hl. unfold batches, zlen. by rewrite length_fmap.
Qed.

(** ** Instances *)
#[local] Instance greenwich : TimeZone := {| tz_seconds := 0; tz_bias := λ _, 0; tz_local_bias := λ _, 0 |}.
Definition demo_log : LogWorld := mkLogWorld (FileLogger_new (str "svr")) ∅ [].
(** Two threads log: nineteen messages wait when both add one and find the
    queue full.  The second takes all of them, the first an empty list, and
    both write. *)
Definition good_disk : disk := mkDisk (λ _, true) (λ _ _, true).
Definition demo_log_schedule : list lg_event :=
  mjoin (replicate 19 [EvPush 0 [64]; EvTest 0]) ++
  [EvPush 0 [65]; EvPush 1 [66]; EvTest 1; EvTest 0; EvTake 1; EvTake 0; EvStore 0 5 good_disk; EvStore 1 5 good_disk; EvPush 0 [67]].
Definition demo_full_disk : disk := mkDisk (λ _, false) (λ _ _, false).
Lemma log_no_loss_witness :
  ∃ s', lg_run (mkLgSys demo_log (replicate 2 Lg_idle) [] []) demo_log_schedule = Some s' ∧
    zlen (all_lines (ls_world s')) = 21 ∧ _msgQueue (lw_logger (ls_world s')) = [[67]] ∧
    all_lines (ls_world s') ++ held (ls_threads s') ++ _msgQueue (lw_logger (ls_world s')) ++ ls_lost s' ≡ₚ
      (all_lines demo_log ++ _msgQueue (lw_logger demo_log)) ++ ls_added s' ∧ ls_lost s' = [].
Proof.
  destruct (lg_run (mkLgSys demo_log (replicate 2 Lg_idle) [] []) demo_log_schedule) as [s'|] eqn:E.
  - destruct (log_no_loss demo_log 2 demo_log_schedule s' E) as [H1 H2]. exists s'. split_and!.
    + done.
    + vm_compute in E. injection E as <-. vm_compute. reflexivity.
    + vm_compute in E. injection E as <-. reflexivity.
    + exact H1.
    + apply H2. repeat constructor.
  - exfalso. vm_compute in E. discriminate E.
Defined.
(** A disk that is full: the list taken is gone. *)
Theorem full_disk_drops now w l :
  lw_files (FileWrite_list (dk_access demo_full_disk) (dk_open demo_full_disk) now l w) = lw_files w ∧
  lost_lines now demo_full_disk l w = l.
Proof.
  unfold FileWrite_list, lost_lines, ConsoleWrite. cbn. rewrite andb_false_r. cbn. by destruct (_ <? _).
Qed.
Lemma log_destructor_drops_witness :
  lines (FileLogger_destroy (λ _, true) (λ _ _, true) 5
    (add_all (λ _, true) (λ _ _, true) (replicate 21 (5, [65])) demo_log)) (log_file_name 5 (lw_logger demo_log)) =
  lines demo_log (log_file_name 5 (lw_logger demo_log)) ++ sub (replicate 21 (5, [65])).*2 0 (zlen (replicate 21 (5, [65])) / 20 * 20).
Proof.
  apply (log_destructor_drops (λ _, true) (λ _ _, true) 5 (log_file_name 5 (lw_logger demo_log)) demo_log).
  - reflexivity.
  - reflexivity.
  - reflexivity.
  - reflexivity.
  - by apply Forall_replicate.
Defined.
