(* ===== verification/Dump.v ===== *)
(** * Crash dumps: _lib/exception_report.cpp, and GetFileName of _lib/util_common.cpp
    The filter for unhandled exceptions writes a minidump into a file named
    after the program and the local time.  The path of the executable, and
    whether the system creates the file, are arguments. *)
From Stdlib Require Import String.
From S2P Require Import Prelude.
From S2P Require Import TimeSet.
From S2P Require Import Text.
From S2P Require Import Log.

(** ** GetFileName: the name of the executable without directory and extension *)
(** The last character with a property, with what is before and behind it. *)
Fixpoint last_split (P : Z → bool) (s : list Z) : option (list Z * Z * list Z) :=
  match s with
  | [] => None
  | c :: s' =>
      match last_split P s' with
      | Some (a, x, b) => Some (c :: a, x, b)
      | None => if P c then Some ([], c, s') else None
      end
  end.
Definition is_slash (c : Z) : bool := (c =? 92) || (c =? 47).
Definition is_dot (c : Z) : bool := c =? 46.
(** [_wsplitpath_s]: drive, directory, file name, extension. *)
Definition splitpath (path : list Z) : list Z * list Z * list Z * list Z :=
  let '(drive, rest) := match path with c :: 58 :: rest => ([c; 58], rest) | _ => ([], path) end in
  let '(dir, file) := match last_split is_slash rest with Some (a, x, b) => (a ++ [x], b) | None => ([], rest) end in
  let '(fname, ext) := match last_split is_dot file with Some (a, x, b) => (a, x :: b) | None => (file, []) end in
  (drive, dir, fname, ext).
(** GetModuleFileNameW cuts the path to its buffer; _wsplitpath_s empties all
    of its buffers when one of them is too small. *)
Definition GetFileName (module : list Z) : list Z :=
  let '(drive, dir, fname, ext) := splitpath (take 512 module) in
  if (zlen drive <? 9) && (zlen dir <? 513) && (zlen fname <? 129) && (zlen ext <? 33) then fname else [].

Lemma last_split_none P s : Forall (λ c, P c = false) s → last_split P s = None.
Proof. induction 1 as [|c s Hc _ IH]; [done|]. cbn. by rewrite IH, Hc. Qed.
Lemma last_split_some P a x b : P x = true → Forall (λ c, P c = false) b → last_split P (a ++ x :: b) = Some (a, x, b).
Proof.
  intros Hx Hb. induction a as [|c a IH]; cbn; [by rewrite last_split_none, Hx|by rewrite IH].
Qed.
(** A path of a drive, a directory, a name and an extension is taken apart. *)
Theorem GetFileName_spec d dir slash name ext :
  is_slash slash = true → Forall (λ c, is_slash c = false) (name ++ 46 :: ext) → Forall (λ c, is_dot c = false) ext →
  zlen name < 129 → zlen ext < 32 → zlen dir + zlen name + zlen ext ≤ 508 →
  GetFileName (d :: 58 :: dir ++ slash :: name ++ 46 :: ext) = name.
Proof.
  intros Hs Hns Hnd Hn He Hl. unfold GetFileName. rewrite take_ge by (unfold zlen in Hl; cbn; rewrite length_app; cbn; rewrite length_app; cbn; lia).
  unfold splitpath. rewrite last_split_some by done. rewrite last_split_some by done.
  rewrite !zlen_app, !zlen_cons. change (zlen (@nil Z)) with 0.
  pose proof (zlen_nonneg dir). pose proof (zlen_nonneg ext). pose proof (zlen_nonneg name).
  by rewrite !(proj2 (Z.ltb_lt _ _)) by lia.
Qed.

(** ** makeDump *)
Definition EXCEPTION_EXECUTE_HANDLER : Z := 1.
Inductive dump_event := CreateFile (name : list Z) | MiniDumpWriteDump | CloseHandle.
Section Dump.
Context `{TimeZone}.
(** [{:04d}] of a year of four digits. *)
Definition four_digits (n : Z) : list Z := two_digits (n / 100) ++ two_digits (n mod 100).
Definition dumpFileName (module : list Z) (now : Z) : list Z :=
  let t := CTimeSet_new now in
  c_string (GetFileName module) ++ str "_" ++ four_digits (GetYear true t) ++ str "-" ++ two_digits (GetMonth true t) ++ str "-" ++
  two_digits (GetDay true t) ++ str "_" ++ two_digits (GetHour true t) ++ str "-" ++ two_digits (GetMin true t) ++ str "-" ++
  two_digits (GetSec true t) ++ str ".dmp".
(** The calls it makes; whether the dump is written makes no difference. *)
Definition makeDump (module : list Z) (now : Z) (created : bool) : Z * list dump_event :=
  (EXCEPTION_EXECUTE_HANDLER,
   CreateFile (dumpFileName module now) :: (if created then [MiniDumpWriteDump; CloseHandle] else [])).
Definition makeFullDump (module : list Z) (now : Z) (created : bool) : Z * list dump_event := makeDump module now created.
(** The process's filter, which the programs set first of all. *)
Definition exception_filter : Type := list Z → Z → bool → Z * list dump_event.
Definition ExceptionHandlerBegin (filter : option exception_filter) : Z * option exception_filter := (0, Some makeFullDump).

Definition date_ok (now : Z) : Prop :=
  let t := CTimeSet_new now in
  0 ≤ GetYear true t < 10000 ∧ 0 ≤ GetMonth true t < 100 ∧ 0 ≤ GetDay true t < 100 ∧
  0 ≤ GetHour true t < 100 ∧ 0 ≤ GetMin true t < 100 ∧ 0 ≤ GetSec true t < 100.
Lemma two_digits_inj a b : 0 ≤ a < 100 → 0 ≤ b < 100 → two_digits a = two_digits b → a = b.
Proof.
  unfold two_digits. intros Ha Hb [= H1 H2]. pose proof (Z.div_mod a 10 ltac:(lia)). pose proof (Z.div_mod b 10 ltac:(lia)). lia.
Qed.
Lemma four_digits_inj a b : 0 ≤ a < 10000 → 0 ≤ b < 10000 → four_digits a = four_digits b → a = b.
Proof.
  unfold four_digits. intros Ha Hb E. apply app_inj_1 in E as [E1 E2]; [|done].
  apply two_digits_inj in E1; [|split; [apply Z.div_pos; lia|apply Z.div_lt_upper_bound; lia]..].
  apply two_digits_inj in E2; [|apply Z.mod_pos_bound; lia..].
  rewrite (Z.div_mod a 100), (Z.div_mod b 100) by lia. by rewrite E1, E2.
Qed.
(** Two dumps of a program get the same file exactly when their local times
    agree to the second: the later one then overwrites the earlier. *)
Theorem dumpFileName_same module t1 t2 : date_ok t1 → date_ok t2 →
  dumpFileName module t1 = dumpFileName module t2 ↔ _tmLocalT (CTimeSet_new t1) = _tmLocalT (CTimeSet_new t2).
Proof.
  intros (Y1 & M1 & D1 & H1 & I1 & S1) (Y2 & M2 & D2 & H2 & I2 & S2). split.
  - unfold dumpFileName. intros E. apply app_inv_head in E.
    repeat (first [apply app_inv_head in E | apply app_inj_1 in E as [?E E]; [|reflexivity]]).
    apply four_digits_inj in E0; [|done..].
    repeat match goal with Hd : two_digits _ = two_digits _ |- _ => apply two_digits_inj in Hd; [|done..] end.
    unfold GetYear, GetMonth, GetDay, GetHour, GetMin, GetSec, GetTimeTM in *.
    destruct (_tmLocalT (CTimeSet_new t1)), (_tmLocalT (CTimeSet_new t2)). cbn in *. f_equal; lia.
  - intros E. unfold dumpFileName, GetYear, GetMonth, GetDay, GetHour, GetMin, GetSec, GetTimeTM. by rewrite E.
Qed.
End Dump.
