(* ===== verification/Json.v ===== *)
(** * The simple JSON reader: _lib/_json.h, _json.cpp
    Nodes are objects behind their addresses, because a node keeps a pointer to
    its parent and its children are kept twice, in the parent and in the list
    of the parser that deletes them; the member [node_first] has address 0.
    Positions are size_t, with [npos] for none. *)
From Stdlib Require Import String.
From S2P Require Import Prelude Text.

Definition delimiter_family_start : list Z := str "{".
Definition delimiter_family_end : list Z := str "}".
Definition delimiter_node : list Z := str ",".
Definition delimiter_key : list Z := str ":".
Definition delimiter_space : list Z := str " ".

(** ** node *)
Record node := mkNode {
  nd_dept : Z;
  nd_key : list Z;
  nd_value : list Z;
  nd_parent : option Z;
  nd_list : list Z }.
Definition node_new : node := mkNode 0 [] [] None [].

(** The last position up to [pos] with a character that is no delimiter. *)
Fixpoint find_last (P : Z → bool) (s : list Z) (i found : Z) : Z :=
  match s with
  | [] => found
  | c :: s' => find_last P s' (i + 1) (if P c then i else found)
  end.
Definition find_last_not_of (delimiter : list Z) (s : list Z) (pos : Z) : Z :=
  find_last (λ c, negb (is_delim delimiter c)) (take (Z.to_nat (Z.min (pos + 1) (zlen s))) s) 0 npos.

(** [tolower] of the C locale; a quote becomes a space. *)
Definition normal_char (c : Z) : Z :=
  if c =? 34 then 32 else if (65 <=? c) && (c <=? 90) then c + 32 else c.

Definition node_set (n : node) (s : list Z) (dept : Z) : outcome node :=
  let n := mkNode dept (nd_key n) (nd_value n) (nd_parent n) (nd_list n) in
  let s := normal_char <$> s in
  let key_s := find_first_not_of delimiter_space s 0 in
  let key_e := find_first_of delimiter_key s key_s in
  let val_s := find_first_not_of delimiter_key s key_e in
  let val_e := find_last_not_of delimiter_space s npos in
  let key_e := find_last_not_of delimiter_key s key_e in
  let key_e := find_last_not_of delimiter_space s key_e in
  if (npos =? key_s) || (npos =? key_e) then Ok n
  else
    key ← substr s key_s (u64 (key_e - key_s + 1));
    let n := mkNode (nd_dept n) key (nd_value n) (nd_parent n) (nd_list n) in
    let val_s := find_first_not_of delimiter_space s val_s in
    if (npos =? val_s) || (npos =? val_e) then Ok n
    else
      value ← substr s val_s (u64 (val_e - val_s + 1));
      Ok (mkNode (nd_dept n) key value (nd_parent n) (nd_list n)).
Definition checkKey (n : node) (key : list Z) : bool := bool_decide (nd_key n = key).
Definition getParent (n : node) : option Z := nd_parent n.
Definition getKey (n : node) : list Z := nd_key n.
Definition getValue (n : node) : list Z := nd_value n.

(** ** json_parser_simple *)
Record json_parser := mkParser {
  json_data : list Z;
  jp_list : list Z;          (** [node_list] *)
  jp_nodes : gmap Z node;    (** the nodes alive, [node_first] at 0 *)
  jp_next : Z }.
Definition node_first : Z := 0.
Definition json_parser_new (data : list Z) : json_parser :=
  mkParser data [] {[ node_first := node_new ]} 1.
Definition setData (data : list Z) (p : json_parser) : json_parser * Z :=
  (mkParser data (jp_list p) (jp_nodes p) (jp_next p), zlen data).
Definition getFirstNode : Z := node_first.

Definition node_get (p : json_parser) (a : Z) : outcome node :=
  match jp_nodes p !! a with Some n => Ok n | None => Fault UseAfterFree end.
(** Through a pointer that may be null. *)
Definition node_deref (p : json_parser) (a : option Z) : outcome (Z * node) :=
  match a with None => Fault NullDeref | Some a => n ← node_get p a; Ok (a, n) end.

Definition addChild (p : json_parser) (self : option Z) (data : Z) : outcome json_parser :=
  '(a, parent) ← node_deref p self;
  child ← node_get p data;
  let h := <[data := mkNode (nd_dept child) (nd_key child) (nd_value child) (Some a) (nd_list child)]> (jp_nodes p) in
  let h := <[a := mkNode (nd_dept parent) (nd_key parent) (nd_value parent) (nd_parent parent) (nd_list parent ++ [data])]> h in
  Ok (mkParser (json_data p) (jp_list p) h (jp_next p)).

(** [new node; set; node_list.push_back; pCurrent->addChild]. *)
Definition new_child (p : json_parser) (pCurrent : option Z) (text : list Z) (dept : Z) :
    outcome (json_parser * Z) :=
  n ← node_set node_new text dept;
  let a := jp_next p in
  p' ← addChild (mkParser (json_data p) (jp_list p ++ [a]) (<[a := n]> (jp_nodes p)) (a + 1)) pCurrent a;
  Ok (p', a).

(** The colons counted for [reserve]. *)
Fixpoint count_nodes (fuel : nat) (s : list Z) (pos node_count : Z) : outcome Z :=
  match fuel with
  | O => Fault OutOfFuel
  | S fuel =>
      let pos := find_first_of delimiter_key s (pos + 1) in
      let node_count := i32 (node_count + 1) in
      if npos =? pos then Ok node_count else count_nodes fuel s pos node_count
  end.

(** The families that end before the next comma. *)
Fixpoint end_families (fuel : nat) (p : json_parser) (node_end : Z) (dept : Z) (pCurrent : option Z) (family_end : Z) :
    outcome (Z * option Z * Z) :=
  match fuel with
  | O => Fault OutOfFuel
  | S fuel =>
      if (1 <=? dept) && (family_end <? node_end) then
        '(_, n) ← node_deref p pCurrent;
        end_families fuel p node_end (dept - 1) (getParent n)
          (find_first_of delimiter_family_end (json_data p) (family_end + 1))
      else Ok (dept, pCurrent, family_end)
  end.

(** The main loop; its state is the locals of [parse]. *)
Fixpoint parse_loop (fuel : nat) (p : json_parser) (dept pos node_end family_start family_end : Z)
    (pCurrent : option Z) : outcome json_parser :=
  match fuel with
  | O => Fault OutOfFuel
  | S fuel =>
      let s := json_data p in
      if (0 <=? dept) && negb (npos =? pos) then
        if family_start <? node_end then
          text ← substr s pos (u64 (family_start - pos));
          '(p, pData) ← new_child p pCurrent text dept;
          let pos := find_first_not_of delimiter_family_start s family_start in
          parse_loop fuel p (dept + 1) pos (find_first_of delimiter_node s pos)
            (find_first_of delimiter_family_start s pos) (find_first_of delimiter_family_end s pos) (Some pData)
        else if family_end <? node_end then
          text ← substr s pos (u64 (family_end - pos));
          '(p, pData) ← new_child p pCurrent text dept;
          let node_end := find_first_of delimiter_node s family_end in
          '(dept, pCurrent, _) ← end_families (S (List.length s)) p node_end dept pCurrent family_end;
          let node_end := find_first_of delimiter_node s pos in
          let pos := find_first_not_of delimiter_node s node_end in
          parse_loop fuel p dept pos (find_first_of delimiter_node s pos)
            (find_first_of delimiter_family_start s pos) (find_first_of delimiter_family_end s pos) pCurrent
        else
          text ← substr s pos (u64 (node_end - pos));
          '(p, pData) ← new_child p pCurrent text dept;
          let pos := find_first_not_of delimiter_node s node_end in
          parse_loop fuel p dept pos (find_first_of delimiter_node s pos) family_start family_end pCurrent
      else Ok p
  end.
Definition json_parse (p : json_parser) : outcome (json_parser * Z) :=
  let s := json_data p in
  _ ← count_nodes (S (S (List.length s))) s 0 0;
  let pos := find_first_not_of delimiter_family_start s 0 in
  p ← parse_loop (S (List.length s)) p 1 pos (find_first_of delimiter_node s pos)
        (find_first_of delimiter_family_start s pos) npos (Some node_first);
  Ok (p, zlen (jp_list p)).

(** [node::find]: the child with that key. *)
Fixpoint find_child (p : json_parser) (findkey : list Z) (l : list Z) : outcome (option Z) :=
  match l with
  | [] => Ok None
  | pCurrent :: l =>
      n ← node_get p pCurrent;
      if checkKey n findkey then Ok (Some pCurrent) else find_child p findkey l
  end.
Definition node_find (p : json_parser) (self : Z) (findkey : list Z) : outcome (option Z) :=
  n ← node_get p self;
  if 0 >=? zlen findkey then Ok None
  else if 0 >=? zlen (nd_list n) then Ok None
  else find_child p findkey (nd_list n).

(** The destructor: [delete] of every node of the list. *)
Definition delete_node (h : gmap Z node) (a : Z) : outcome (gmap Z node) :=
  match h !! a with Some _ => Ok (delete a h) | None => Fault UseAfterFree end.
Definition json_parser_destroy (p : json_parser) : outcome (gmap Z node) :=
  fold_outcome delete_node (jp_nodes p) (jp_list p).

(** [_test]: its document, without the doubled quotes, which C++ joins to
    nothing. *)
Definition _test_msg : list Z := str "{value0:{value2:{result:000}}, value1:001}".
Definition json_test : outcome (json_parser * Z) := json_parse (json_parser_new _test_msg).

(** ** Searching never leaves the text *)
Lemma found_bound P s pos r : found_at P s pos r → r ≠ npos → pos ≤ r < zlen s.
Proof. intros [[-> ?]|[? ?]] ?; [done|lia]. Qed.
Lemma find_of_bound d s pos :
  zlen s < npos → 0 ≤ pos → find_first_of d s pos ≠ npos → pos ≤ find_first_of d s pos < zlen s.
Proof. intros Hl Hp. apply (found_bound (is_delim d)). by apply find_found. Qed.
Lemma find_not_bound d s pos :
  zlen s < npos → 0 ≤ pos → find_first_not_of d s pos ≠ npos → pos ≤ find_first_not_of d s pos < zlen s.
Proof. intros Hl Hp. apply (found_bound (λ c, negb (is_delim d c))). by apply find_found. Qed.
Lemma npos_pos : 0 ≤ npos.
Proof. vm_compute. discriminate. Qed.
Lemma find_of_nonneg d s pos : zlen s < npos → 0 ≤ pos → 0 ≤ find_first_of d s pos.
Proof.
  intros Hl Hp. pose proof npos_pos. destruct (decide (find_first_of d s pos = npos)) as [->|Hne]; [done|].
  apply find_of_bound in Hne; [lia|done|done].
Qed.
Lemma find_not_nonneg d s pos : zlen s < npos → 0 ≤ pos → 0 ≤ find_first_not_of d s pos.
Proof.
  intros Hl Hp. pose proof npos_pos. destruct (decide (find_first_not_of d s pos = npos)) as [->|Hne]; [done|].
  apply find_not_bound in Hne; [lia|done|done].
Qed.
Lemma substr_ok s pos n : 0 ≤ pos ≤ zlen s → ∃ t, substr s pos n = Ok t ∧ zlen t ≤ zlen s.
Proof.
  intros. unfold substr. destruct (Z.ltb_spec (zlen s) pos); [lia|]. eexists. split; [done|]. unfold sub. zn.
Qed.

(** [set] takes any text and changes neither the parent nor the children. *)
Lemma node_set_ok n s dept :
  zlen s < npos → ∃ key value, node_set n s dept = Ok (mkNode dept key value (nd_parent n) (nd_list n)).
Proof.
  intros Hl. unfold node_set. cbn [nd_dept nd_key nd_value nd_parent nd_list].
  set (s' := normal_char <$> s). assert (zlen s' < npos) as Hl' by (unfold s', zlen; by rewrite length_fmap).
  pose proof npos_pos. set (ks := find_first_not_of delimiter_space s' 0).
  set (ke := find_last_not_of delimiter_space s' _).
  set (vs0 := find_first_not_of delimiter_key s' _).
  assert (0 ≤ vs0) as Hvs0 by (apply find_not_nonneg, find_of_nonneg, find_not_nonneg; done || lia).
  destruct ((npos =? ks) || (npos =? ke)) eqn:E1; [by eexists _, _|].
  apply orb_false_iff in E1 as [Hks%Z.eqb_neq _].
  destruct (substr_ok s' ks (u64 (ke - ks + 1))) as (key & -> & _).
  { enough (0 ≤ ks < zlen s') by lia. apply find_not_bound; [done|lia|by apply not_eq_sym]. }
  cbn [mbind outcome_bind].
  set (vs := find_first_not_of delimiter_space s' vs0). set (ve := find_last_not_of delimiter_space s' npos).
  destruct ((npos =? vs) || (npos =? ve)) eqn:E2; [by eexists _, _|].
  apply orb_false_iff in E2 as [Hvs%Z.eqb_neq _].
  destruct (substr_ok s' vs (u64 (ve - vs + 1))) as (value & -> & _).
  { enough (vs0 ≤ vs < zlen s') by lia. apply find_not_bound; [done|lia|by apply not_eq_sym]. }
  by eexists _, _.
Qed.

(** ** The tree of nodes

    Every node but the first is the child of an older node, one level below
    it, and points back to it. *)
Record wf_parser (p : json_parser) : Prop := mkWf {
  wf_first : is_Some (jp_nodes p !! node_first);
  wf_nodup : NoDup (jp_list p);
  wf_range : ∀ a, a ∈ jp_list p → 0 < a < jp_next p;
  wf_next : 0 < jp_next p;
  wf_dom : ∀ a, is_Some (jp_nodes p !! a) → a = node_first ∨ a ∈ jp_list p;
  wf_child : ∀ a n c, jp_nodes p !! a = Some n → c ∈ nd_list n →
    c ∈ jp_list p ∧ ∃ m, jp_nodes p !! c = Some m ∧ nd_parent m = Some a ∧ nd_dept m = nd_dept n + 1;
  wf_parent : ∀ c, c ∈ jp_list p → ∃ m a n, jp_nodes p !! c = Some m ∧ nd_parent m = Some a ∧
    jp_nodes p !! a = Some n ∧ c ∈ nd_list n ∧ a < c }.

(** The way from the current node up: its depth counts the parents. *)
Inductive chain (h : gmap Z node) : Z → option Z → Prop :=
| chain_out : chain h 0 None
| chain_in a n : h !! a = Some n → chain h (nd_dept n) (nd_parent n) → 0 ≤ nd_dept n → chain h (nd_dept n + 1) (Some a).

Lemma wf_new data : wf_parser (json_parser_new data).
Proof.
  split; cbn [json_parser_new jp_nodes jp_list jp_next]; try by intros ? ?%elem_of_nil.
  - by rewrite lookup_singleton_eq.
  - constructor.
  - lia.
  - intros a [n [<- _]%lookup_singleton_Some]. by left.
  - intros a n c [_ <-]%lookup_singleton_Some Hc%elem_of_nil. done.
Qed.
Lemma chain_first data : chain (jp_nodes (json_parser_new data)) 1 (Some node_first).
Proof. apply (chain_in _ node_first node_new); [apply lookup_singleton_eq|constructor|done]. Qed.

(** Growing a heap keeps the ways up. *)
Lemma chain_grow h h' d cur :
  (∀ a n, h !! a = Some n → ∃ n', h' !! a = Some n' ∧ nd_parent n' = nd_parent n ∧ nd_dept n' = nd_dept n) →
  chain h d cur → chain h' d cur.
Proof.
  intros Hg. induction 1 as [|a n Ha _ IH Hd]; [constructor|].
  destruct (Hg a n Ha) as (n' & Ha' & Hp & Hd'). rewrite <-Hp, <-Hd' in IH. rewrite <-Hd' in Hd |- *.
  by apply chain_in.
Qed.
Lemma wf_fresh p : wf_parser p → jp_nodes p !! jp_next p = None.
Proof.
  intros Hw. destruct (jp_nodes p !! jp_next p) eqn:E; [|done].
  destruct (wf_dom p Hw (jp_next p)) as [Hz|Hin]; [by eexists|..].
  - pose proof (wf_next p Hw). unfold node_first in Hz. lia.
  - pose proof (wf_range p Hw _ Hin). lia.
Qed.
Definition grows (h h' : gmap Z node) : Prop :=
  ∀ a n, h !! a = Some n → ∃ n', h' !! a = Some n' ∧ nd_parent n' = nd_parent n ∧ nd_dept n' = nd_dept n.

(** The heap and the parser after a node is added below [a]. *)
Definition hang (p : json_parser) (a : Z) (parent child : node) : json_parser :=
  mkParser (json_data p) (jp_list p ++ [jp_next p])
    (<[a := mkNode (nd_dept parent) (nd_key parent) (nd_value parent) (nd_parent parent)
              (nd_list parent ++ [jp_next p])]>
      (<[jp_next p := mkNode (nd_dept child) (nd_key child) (nd_value child) (Some a) (nd_list child)]> (jp_nodes p)))
    (jp_next p + 1).
Lemma hang_grows p a parent child :
  wf_parser p → jp_nodes p !! a = Some parent → grows (jp_nodes p) (jp_nodes (hang p a parent child)).
Proof.
  intros Hw Ha b n Hb. pose proof (wf_fresh p Hw). cbn [hang jp_nodes].
  assert (b ≠ jp_next p) by congruence. destruct (decide (b = a)) as [->|].
  - rewrite lookup_insert_eq. eexists. split; [done|]. by simplify_eq/=.
  - rewrite !lookup_insert_ne by done. by exists n.
Qed.
Lemma hang_wf p a parent child :
  wf_parser p → jp_nodes p !! a = Some parent → nd_list child = [] → nd_dept child = nd_dept parent + 1 →
  wf_parser (hang p a parent child).
Proof.
  intros Hw Ha Hlc Hd. pose proof (wf_fresh p Hw) as Hfr. pose proof (wf_next p Hw) as Hn.
  assert (a ≠ jp_next p) by congruence.
  assert (a < jp_next p) as Hlt.
  { destruct (wf_dom p Hw a) as [->|Hin]; [by eexists|unfold node_first; lia|apply (wf_range p Hw) in Hin; lia]. }
  assert (∀ c, c ∈ jp_list p → c ≠ jp_next p) as Hold by (intros c Hc%(wf_range p Hw); lia).
  split; cbn [hang jp_nodes jp_list jp_next].
  - destruct (wf_first p Hw) as [n0 H0]. destruct (hang_grows p a parent child Hw Ha _ _ H0) as (n' & ? & _).
    by exists n'.
  - apply NoDup_app. split_and!; [apply (wf_nodup p Hw)| |apply NoDup_singleton].
    intros c Hc ->%list_elem_of_singleton. by eapply Hold.
  - intros c [Hc%(wf_range p Hw)| ->%list_elem_of_singleton]%elem_of_app; lia.
  - lia.
  - intros b Hb. destruct (decide (b = jp_next p)) as [->|]; [right; set_solver|].
    destruct (decide (b = a)) as [->|]; [destruct (wf_dom p Hw a); [by eexists|by left|right; set_solver]|].
    rewrite !lookup_insert_ne in Hb by done. destruct (wf_dom p Hw b Hb); [by left|right; set_solver].
  - intros b n c Hb Hc. destruct (decide (c = jp_next p)) as [->|Hcn].
    { assert (b = a) as ->.
      { destruct (decide (b = a)) as [|Hne]; [done|]. exfalso. rewrite lookup_insert_ne in Hb by done.
        destruct (decide (b = jp_next p)) as [->|].
        - rewrite lookup_insert_eq in Hb. simplify_eq/=. rewrite Hlc in Hc. by apply elem_of_nil in Hc.
        - rewrite lookup_insert_ne in Hb by done. apply (wf_child p Hw b n) in Hc as [Hc _]; [|done].
          by apply Hold in Hc. }
      rewrite lookup_insert_eq in Hb. simplify_eq/=. split; [set_solver|].
      rewrite lookup_insert_ne, lookup_insert_eq by done. eexists. split; [done|]. by rewrite Hd. }
    assert (∃ n0, jp_nodes p !! b = Some n0 ∧ c ∈ nd_list n0 ∧ nd_dept n0 = nd_dept n) as (n0 & Hb0 & Hc0 & Hd0).
    { destruct (decide (b = a)) as [->|].
      - rewrite lookup_insert_eq in Hb. simplify_eq/=. exists parent. split_and!; [done|set_solver|done].
      - rewrite lookup_insert_ne in Hb by done. destruct (decide (b = jp_next p)) as [->|].
        + rewrite lookup_insert_eq in Hb. simplify_eq/=. rewrite Hlc in Hc. by apply elem_of_nil in Hc.
        + rewrite lookup_insert_ne in Hb by done. by exists n. }
    apply (wf_child p Hw b n0) in Hc0 as (Hin & m & Hm & Hpar & Hdep); [|done]. split; [set_solver|].
    destruct (hang_grows p a parent child Hw Ha c m Hm) as (m' & Hm' & Hp' & Hd').
    exists m'. split_and!; [done|congruence|congruence].
  - intros c [Hc|Hc]%elem_of_app.
    + destruct (wf_parent p Hw c Hc) as (m & b & n & Hm & Hpar & Hb & Hin & Hlt').
      destruct (hang_grows p a parent child Hw Ha c m Hm) as (m' & Hm' & Hp' & _).
      exists m', b. destruct (decide (b = a)) as [->|Hne].
      * eexists. split_and!; [done|congruence|by rewrite lookup_insert_eq| |done]. simplify_eq/=. set_solver.
      * exists n. split_and!; [done|congruence| |done|done]. rewrite lookup_insert_ne by done.
        rewrite lookup_insert_ne; [done|]. intros <-. congruence.
    + apply list_elem_of_singleton in Hc as ->. eexists _, a, _.
      rewrite lookup_insert_ne, lookup_insert_eq by done. rewrite lookup_insert_eq.
      split_and!; [done|done|done|set_solver|done].
Qed.

(** One node more: below the current node, and now the current one's child. *)
Lemma new_child_hang p a parent text d child :
  wf_parser p → jp_nodes p !! a = Some parent → node_set node_new text d = Ok child →
  new_child p (Some a) text d = Ok (hang p a parent child, jp_next p).
Proof.
  intros Hw Ha Hset. pose proof (wf_fresh p Hw) as Hfr. assert (a ≠ jp_next p) by congruence.
  unfold new_child. rewrite Hset. cbn [mbind outcome_bind].
  unfold addChild, node_deref, node_get. cbn [jp_nodes jp_list jp_next json_data].
  rewrite (lookup_insert_ne _ (jp_next p) a) by done. rewrite Ha. cbn [mbind outcome_bind].
  rewrite lookup_insert_eq. cbn [mbind outcome_bind]. unfold hang. by rewrite insert_insert_eq.
Qed.
Lemma hang_chain p a parent child :
  wf_parser p → chain (jp_nodes p) (nd_dept parent + 1) (Some a) → jp_nodes p !! a = Some parent →
  nd_dept child = nd_dept parent + 1 →
  chain (jp_nodes (hang p a parent child)) (nd_dept child + 1) (Some (jp_next p)).
Proof.
  intros Hw Hc Ha Hd. pose proof (wf_fresh p Hw) as Hfr. assert (a ≠ jp_next p) by congruence.
  apply (chain_in _ (jp_next p) (mkNode (nd_dept child) (nd_key child) (nd_value child) (Some a) (nd_list child))).
  - cbn [hang jp_nodes]. by rewrite lookup_insert_ne, lookup_insert_eq by done.
  - cbn [nd_parent nd_dept]. rewrite Hd. eapply chain_grow; [|exact Hc]. by apply hang_grows.
  - cbn [nd_dept]. inversion Hc; simplify_eq. lia.
Qed.
Lemma new_child_ok p a text d :
  wf_parser p → zlen text < npos → chain (jp_nodes p) d (Some a) →
  ∃ p', new_child p (Some a) text d = Ok (p', jp_next p) ∧ wf_parser p' ∧ json_data p' = json_data p ∧
    jp_list p' = jp_list p ++ [jp_next p] ∧ grows (jp_nodes p) (jp_nodes p') ∧
    chain (jp_nodes p') (d + 1) (Some (jp_next p)).
Proof.
  intros Hw Hl Hc. inversion Hc as [|a' parent Ha Hup Hd Ed Ea]. subst a' d.
  destruct (node_set_ok node_new text (nd_dept parent + 1) Hl) as (key & value & Hset).
  eexists. split; [by apply new_child_hang|]. split_and!; [by apply hang_wf|done|done|by apply hang_grows|].
  by refine (hang_chain p a parent (mkNode _ _ _ _ _) Hw _ Ha _).
Qed.

(** ** The positions of the loop *)
Lemma find_not_none d s pos : zlen s < npos → pos = npos → find_first_not_of d s pos = npos.
Proof. intros Hl ->. unfold find_first_not_of. by rewrite drop_npos. Qed.
(** Behind a delimiter that was found, the next text starts later. *)
Lemma skip_after d s pos :
  zlen s < npos → 0 ≤ pos → find_first_of d s pos ≠ npos →
  let r := find_first_of d s pos in
  let q := find_first_not_of d s r in
  q ≠ npos → r < q < zlen s ∧ pos ≤ r ∧ ∀ i c, r ≤ i < q → get s i = Some c → is_delim d c = true.
Proof.
  intros Hl Hp Hr r q Hq.
  pose proof (find_found (is_delim d) s pos Hl Hp) as [[? _]|(Hb & (c & Hc & Hd) & _)]; [done|].
  change (find_idx _ _ pos) with r in *.
  pose proof (find_found (λ c, negb (is_delim d c)) s r Hl ltac:(lia)) as [[? _]|(Hb' & (c' & Hc' & Hd') & Hno)];
    [done|]. change (find_idx _ _ r) with q in *.
  assert (r ≠ q) by (intros Heq; rewrite Heq in Hc; simplify_eq; by rewrite Hd in Hd').
  split; [lia|split; [lia|]]. intros i x Hi Hx. specialize (Hno i x Hi Hx). by destruct (is_delim d x).
Qed.
(** A position found behind the comma is the one a new search would find. *)
Lemma found_again d d' s pos :
  zlen s < npos → 0 ≤ pos → (∀ c, is_delim d c = true → is_delim d' c = false) →
  find_first_of d s pos ≠ npos → find_first_of d s pos ≤ find_first_of d' s pos →
  let q := find_first_not_of d s (find_first_of d s pos) in
  q ≠ npos → find_first_of d' s q = find_first_of d' s pos.
Proof.
  intros Hl Hp Hdis Hr Hle q Hq. destruct (skip_after d s pos Hl Hp Hr Hq) as (Hb & Hb' & Hds). fold q in Hb, Hds.
  apply (found_unique (is_delim d') s pos); [|by apply find_found].
  apply (found_later _ _ _ q); [lia| |apply find_found; [done|lia]].
  intros i c Hi Hc. destruct (Z.lt_ge_cases i (find_first_of d s pos)) as [Hlt|Hge].
  - destruct (find_found (is_delim d') s pos Hl Hp) as [[_ Hno]|(_ & _ & Hno)];
      apply (Hno i); try done; [lia|]. change (find_idx _ _ pos) with (find_first_of d' s pos). lia.
  - apply Hdis, (Hds i); [lia|done].
Qed.

Lemma chain_some h d cur : chain h d cur → 1 ≤ d → ∃ a n, cur = Some a ∧ h !! a = Some n ∧
  d = nd_dept n + 1 ∧ chain h (nd_dept n) (nd_parent n).
Proof. intros Hc Hd. destruct Hc as [|a n Ha Hc _]; [lia|]. by exists a, n. Qed.
Lemma chain_none h d cur : chain h d cur → ¬ 1 ≤ d → cur = None ∧ d = 0.
Proof. intros Hc Hd. destruct Hc; [done|lia]. Qed.

Lemma end_families_ok p ne : ne ≤ npos → zlen (json_data p) < npos → ∀ fuel d cur fe,
  chain (jp_nodes p) d cur → 0 ≤ fe → fe < zlen (json_data p) ∨ fe = npos →
  (0 < fuel)%nat → zlen (json_data p) - fe < Z.of_nat fuel →
  ∃ d' cur' fe', end_families fuel p ne d cur fe = Ok (d', cur', fe') ∧ chain (jp_nodes p) d' cur'.
Proof.
  intros Hne Hl. induction fuel as [|fuel IH]; intros d cur fe Hc Hfe Hfe' Hf Hm; [lia|]. cbn [end_families].
  destruct ((1 <=? d) && (fe <? ne)) eqn:E; [|by eexists _, _, _].
  apply andb_true_iff in E as [Hd%Z.leb_le Hlt%Z.ltb_lt].
  destruct (chain_some _ _ _ Hc Hd) as (a & n & -> & Ha & -> & Hup).
  unfold node_deref, node_get. rewrite Ha. cbn [mbind outcome_bind].
  replace (nd_dept n + 1 - 1) with (nd_dept n) by lia. unfold getParent.
  set (fe2 := find_first_of _ _ (fe + 1)).
  assert (fe2 ≠ npos → fe + 1 ≤ fe2 < zlen (json_data p)) as Hb by (intros ?; apply find_of_bound; done || lia).
  pose proof npos_pos. destruct (decide (fe2 = npos)) as [->|Hne2].
  - apply IH; [done|lia|by right|lia|lia].
  - apply IH; [done|lia|left; by apply Hb|lia|]. specialize (Hb Hne2). lia.
Qed.

(** What a run of the loop ends in. *)
Definition parsed (data : list Z) (r : outcome json_parser) : Prop :=
  r = Fault NullDeref ∨ ∃ p, r = Ok p ∧ wf_parser p ∧ json_data p = data.
(** The locals of the loop: the three positions are those of the next comma and
    braces from [pos] on; no closing brace is searched before the first object. *)
Definition positions (s : list Z) (pos ne fs fe : Z) : Prop :=
  pos = npos ∨
  0 ≤ pos < zlen s ∧ ne = find_first_of delimiter_node s pos ∧
  fs = find_first_of delimiter_family_start s pos ∧
  (fe = npos ∨ fe = find_first_of delimiter_family_end s pos).
Lemma positions_found s pos :
  pos = npos ∨ 0 ≤ pos < zlen s →
  positions s pos (find_first_of delimiter_node s pos) (find_first_of delimiter_family_start s pos)
    (find_first_of delimiter_family_end s pos).
Proof. intros [?|?]; [by left|right]. split_and!; done || lia || by right. Qed.
Definition enough (s : list Z) (pos : Z) (fuel : nat) : Prop :=
  (0 < fuel)%nat ∧ (pos = npos ∨ zlen s - pos < Z.of_nat fuel).

Lemma find_of_le d s pos : zlen s < npos → 0 ≤ pos → find_first_of d s pos ≤ npos.
Proof.
  intros Hl Hp. destruct (decide (find_first_of d s pos = npos)) as [->|Hne]; [done|].
  apply find_of_bound in Hne; [lia|done|done].
Qed.
Lemma is_delim_one a b : a ≠ b → ∀ c, is_delim [a] c = true → is_delim [b] c = false.
Proof.
  intros Hab c Hc%bool_decide_eq_true. apply bool_decide_eq_false.
  apply list_elem_of_singleton in Hc as ->. by intros ?%list_elem_of_singleton.
Qed.
(** Where the next text starts: at the end, or later than the last one. *)
Lemma next_pos d s pos fuel :
  zlen s < npos → 0 ≤ pos < zlen s → enough s pos (S fuel) →
  let q := find_first_not_of d s (find_first_of d s pos) in
  (q = npos ∨ 0 ≤ q < zlen s) ∧ enough s q fuel.
Proof.
  intros Hl Hp [_ Hf] q. assert (zlen s - pos < Z.of_nat (S fuel)) as Hf'.
  { destruct Hf as [->|]; [lia|done]. }
  assert (0 < fuel)%nat by lia. unfold enough.
  destruct (decide (q = npos)) as [Hq|Hq]; [split; [by left|split; [lia|by left]]|].
  destruct (decide (find_first_of d s pos = npos)) as [Hr|Hr]; [exfalso; by apply Hq, find_not_none|].
  destruct (skip_after d s pos Hl ltac:(lia) Hr Hq) as (Hb & Hb' & _). fold q in Hb.
  split; [right; lia|]. split; [lia|right; lia].
Qed.

Lemma parse_loop_ok fuel : ∀ p d pos ne fs fe cur,
  zlen (json_data p) < npos → wf_parser p → chain (jp_nodes p) d cur →
  positions (json_data p) pos ne fs fe → enough (json_data p) pos fuel →
  parsed (json_data p) (parse_loop fuel p d pos ne fs fe cur).
Proof.
  induction fuel as [|fuel IH]; intros p d pos ne fs fe cur Hl Hw Hc Hpos Hen.
  { destruct Hen; lia. }
  cbn [parse_loop]. set (s := json_data p) in *.
  destruct ((0 <=? d) && negb (npos =? pos)) eqn:E; [|right; by exists p].
  apply andb_true_iff in E as [Hd Hnp]. apply negb_true_iff, Z.eqb_neq in Hnp.
  destruct Hpos as [->|(Hp & -> & -> & Hfe)]; [done|].
  set (ne := find_first_of delimiter_node s pos) in *. set (fs := find_first_of delimiter_family_start s pos) in *.
  assert (ne ≤ npos) as Hne by (apply find_of_le; lia).
  assert (∀ n, ∃ t, substr s pos n = Ok t ∧ zlen t < npos) as Hsub.
  { intros n. destruct (substr_ok s pos n) as (t & -> & Ht); [lia|]. exists t. split; [done|lia]. }
  assert (∀ t, zlen t < npos → new_child p cur t d = Fault NullDeref ∨
    ∃ p', new_child p cur t d = Ok (p', jp_next p) ∧ wf_parser p' ∧ json_data p' = s ∧
      chain (jp_nodes p') d cur ∧ chain (jp_nodes p') (d + 1) (Some (jp_next p))) as Hnew.
  { intros t Ht. destruct cur as [a|].
    - right. destruct (new_child_ok p a t d Hw Ht Hc) as (p' & -> & Hw' & Hs' & _ & Hg & Hc').
      exists p'. split_and!; try done. by eapply chain_grow.
    - left. unfold new_child. destruct (node_set_ok node_new t d Ht) as (key & value & ->). done. }
  destruct (Z.ltb_spec fs ne) as [Hfs|Hfs].
  - destruct (Hsub (u64 (fs - pos))) as (t & -> & Ht). cbn [mbind outcome_bind].
    destruct (Hnew t Ht) as [->|(p' & -> & Hw' & Hs' & _ & Hc')]; [by left|]. cbn [mbind outcome_bind].
    rewrite <-Hs'. destruct (next_pos delimiter_family_start s pos fuel Hl Hp Hen) as [Hq Hen'].
    apply IH; rewrite ?Hs'; try done. by apply positions_found.
  - destruct (Z.ltb_spec fe ne) as [Hfe2|Hfe2].
    + destruct (Hsub (u64 (fe - pos))) as (t & -> & Ht). cbn [mbind outcome_bind].
      destruct (Hnew t Ht) as [->|(p' & -> & Hw' & Hs' & Hc' & _)]; [by left|]. cbn [mbind outcome_bind].
      destruct Hfe as [->|Hfe]; [lia|].
      assert (pos ≤ fe < zlen s) by (rewrite Hfe; apply find_of_bound; [done|lia|rewrite <-Hfe; lia]).
      set (ne2 := find_first_of delimiter_node s fe).
      destruct (end_families_ok p' ne2) with (fuel := S (length s)) (d := d) (cur := cur) (fe := fe)
        as (d2 & cur2 & fe2 & -> & Hc2); rewrite ?Hs'; try done; try (apply find_of_le); try lia.
      { unfold zlen. lia. }
      cbn [mbind outcome_bind]. destruct (next_pos delimiter_node s pos fuel Hl Hp Hen) as [Hq Hen'].
      rewrite <-Hs' at 1. apply IH; rewrite ?Hs'; try done. by apply positions_found.
    + destruct (Hsub (u64 (ne - pos))) as (t & -> & Ht). cbn [mbind outcome_bind].
      destruct (Hnew t Ht) as [->|(p' & -> & Hw' & Hs' & Hc' & _)]; [by left|]. cbn [mbind outcome_bind].
      destruct (next_pos delimiter_node s pos fuel Hl Hp Hen) as [Hq Hen']. fold ne in Hq, Hen'.
      rewrite <-Hs' at 1. apply IH; rewrite ?Hs'; try done.
      set (q := find_first_not_of delimiter_node s ne) in *.
      destruct Hq as [Hq|Hq]; [by left|right]. split; [done|]. split; [done|].
      assert (q ≠ npos) as Hqn by lia.
      assert (ne ≠ npos) as Hnn by (intros Hn; apply Hqn; unfold q; by rewrite find_not_none).
      split; [symmetry; apply found_again; try done; try lia; by apply is_delim_one|].
      destruct Hfe as [->|Hfe]; [by left|right]. rewrite Hfe. rewrite Hfe in Hfe2.
      symmetry. apply found_again; try done; try lia. by apply is_delim_one.
Qed.

Lemma count_nodes_ok s : zlen s < npos → ∀ fuel pos k,
  0 ≤ pos → (0 < fuel)%nat → zlen s - pos < Z.of_nat fuel → ∃ k', count_nodes fuel s pos k = Ok k'.
Proof.
  intros Hl. induction fuel as [|fuel IH]; intros pos k Hp Hf Hm; [lia|]. cbn [count_nodes].
  destruct (Z.eqb_spec npos (find_first_of delimiter_key s (pos + 1))) as [|Hne]; [by eexists|].
  apply not_eq_sym, find_of_bound in Hne; [|done|lia]. apply IH; lia.
Qed.

(** Deleting the list leaves the first node alone. *)
Lemma delete_list l : ∀ h, NoDup l → (∀ a, a ∈ l → is_Some (h !! a)) →
  ∃ h', fold_outcome delete_node h l = Ok h' ∧ ∀ a, h' !! a = if bool_decide (a ∈ l) then None else h !! a.
Proof.
  induction l as [|b l IH]; intros h Hnd Hin; cbn [fold_outcome].
  { exists h. split; [done|]. intros a. rewrite bool_decide_false; [done|]. by intros ?%elem_of_nil. }
  apply NoDup_cons in Hnd as [Hb Hnd].
  destruct (Hin b) as [n Hn]; [set_solver|].
  replace (delete_node h b) with (Ok (delete b h)) by (unfold delete_node; by rewrite Hn).
  cbn [mbind outcome_bind].
  destruct (IH (delete b h) Hnd) as (h' & -> & Hh').
  { intros a Ha. rewrite lookup_delete_ne by (intros ->; done). apply Hin. set_solver. }
  exists h'. split; [done|]. intros a. rewrite Hh'. destruct (decide (a = b)) as [->|Hne].
  - rewrite lookup_delete_eq. rewrite (bool_decide_true (b ∈ b :: l)) by set_solver. by destruct (bool_decide _).
  - rewrite lookup_delete_ne by done. by rewrite (bool_decide_ext (a ∈ b :: l) (a ∈ l)) by set_solver.
Qed.
Lemma json_destroy_ok p : wf_parser p → ∃ n, json_parser_destroy p = Ok {[node_first := n]}.
Proof.
  intros Hw. destruct (wf_first p Hw) as [n Hn]. exists n. unfold json_parser_destroy.
  destruct (delete_list (jp_list p) (jp_nodes p) (wf_nodup p Hw)) as (h' & -> & Hh').
  { intros a Ha. destruct (wf_parent p Hw a Ha) as (m & _ & _ & Hm & _). by exists m. }
  f_equal. apply map_eq. intros a. rewrite Hh'. destruct (decide (a = node_first)) as [->|Hne].
  - rewrite lookup_singleton_eq, bool_decide_false; [done|]. intros Ha%(wf_range p Hw).
    unfold node_first in Ha. lia.
  - rewrite lookup_singleton_ne by done. case_bool_decide as Ha; [done|].
    destruct (jp_nodes p !! a) eqn:E; [|done]. by destruct (wf_dom p Hw a) as [?|?]; [eexists| |].
Qed.

(** A parser fresh from its constructor, parsed. *)
Lemma json_parse_ok data : zlen data < npos →
  json_parse (json_parser_new data) = Fault NullDeref ∨
  ∃ p, json_parse (json_parser_new data) = Ok (p, zlen (jp_list p)) ∧ wf_parser p ∧ json_data p = data.
Proof.
  intros Hl. unfold json_parse. cbn [json_data json_parser_new].
  pose proof (zlen_nonneg data) as Hz.
  destruct (count_nodes_ok data Hl (S (S (length data))) 0 0) as [k ->]; [lia|lia|unfold zlen; lia|].
  cbn [mbind outcome_bind]. set (pos := find_first_not_of delimiter_family_start data 0).
  assert (pos = npos ∨ 0 ≤ pos < zlen data) as Hpos.
  { destruct (decide (pos = npos)) as [|Hne]; [by left|right]. by apply find_not_bound. }
  destruct (parse_loop_ok (S (length data)) (json_parser_new data) 1 pos (find_first_of delimiter_node data pos)
    (find_first_of delimiter_family_start data pos) npos (Some node_first) Hl (wf_new data) (chain_first data))
    as [->|(p & -> & Hw & Hd)].
  - destruct Hpos as [?|?]; [by left|right]. cbn [json_data json_parser_new].
    split_and!; [lia|lia|done|done|by left].
  - split; [lia|]. destruct Hpos as [?|?]; [by left|right]. cbn [json_data json_parser_new]. unfold zlen. lia.
  - by left.
  - right. by exists p.
Qed.

(** C37: parsing any document ends: in a dereference of the null parent of
    the first node, or in a parser whose nodes form one tree - each the child
    of an older node one level up, to which it points back - and whose
    destructor deletes every node once and leaves the member alone. *)
Theorem json_parse_total data : zlen data < npos →
  json_parse (json_parser_new data) = Fault NullDeref ∨
  ∃ p n, json_parse (json_parser_new data) = Ok (p, zlen (jp_list p)) ∧ wf_parser p ∧
    json_parser_destroy p = Ok {[node_first := n]}.
Proof.
  intros Hl. destruct (json_parse_ok data Hl) as [?|(p & Hp & Hw & _)]; [by left|right].
  destruct (json_destroy_ok p Hw) as [n Hn]. by exists p, n.
Qed.
Lemma json_parse_total_witness :
  ∃ p n, json_parse (json_parser_new _test_msg) = Ok (p, zlen (jp_list p)) ∧ wf_parser p ∧
    json_parser_destroy p = Ok {[node_first := n]}.
Proof.
  destruct (json_parse_total _test_msg) as [E|E]; [vm_compute; reflexivity|vm_compute in E; discriminate|exact E].
Defined.

(** Text behind the brace that ends the document dereferences null. *)
Theorem json_text_after_end :
  json_parse (json_parser_new (str "{a:{b:1}},c:2")) = Fault NullDeref.
Proof. vm_compute. reflexivity. Qed.

(** [find] in a well-formed parser: the first child with that name, never for
    the empty name. *)
Definition other_key (p : json_parser) (key : list Z) (b : Z) : Prop :=
  ∃ m, jp_nodes p !! b = Some m ∧ nd_key m ≠ key.
Lemma find_child_ok p key l : (∀ b, b ∈ l → is_Some (jp_nodes p !! b)) → ∃ r, find_child p key l = Ok r ∧
  match r with
  | Some c => ∃ l1 l2 m, l = l1 ++ c :: l2 ∧ Forall (other_key p key) l1 ∧ jp_nodes p !! c = Some m ∧ nd_key m = key
  | None => Forall (other_key p key) l
  end.
Proof.
  induction l as [|b l IH]; intros Hl; cbn [find_child]; [by exists None|].
  destruct (Hl b) as [m Hm]; [set_solver|]. unfold node_get at 1. rewrite Hm. cbn [mbind outcome_bind].
  unfold checkKey. case_bool_decide as Hk.
  { exists (Some b). split; [done|]. by exists [], l, m. }
  destruct IH as (r & -> & Hr); [intros c ?; apply Hl; set_solver|]. exists r. split; [done|].
  assert (other_key p key b) by (by exists m). destruct r as [c|].
  - destruct Hr as (l1 & l2 & m' & -> & Hl1 & Hc). exists (b :: l1), l2, m'. split_and!; [done|by constructor|apply Hc..].
  - by constructor.
Qed.
Theorem node_find_spec p a n key : wf_parser p → jp_nodes p !! a = Some n → ∃ r, node_find p a key = Ok r ∧
  match r with
  | Some c => ∃ l1 l2 m, nd_list n = l1 ++ c :: l2 ∧ Forall (other_key p key) l1 ∧ jp_nodes p !! c = Some m ∧ nd_key m = key
  | None => key = [] ∨ Forall (other_key p key) (nd_list n)
  end.
Proof.
  intros Hw Ha. unfold node_find, node_get. rewrite Ha. cbn [mbind outcome_bind].
  destruct (Z.geb_spec 0 (zlen key)) as [Hk|Hk].
  { exists None. split; [done|]. left. destruct key; [done|]. rewrite zlen_cons in Hk. pose proof (zlen_nonneg key). lia. }
  destruct (Z.geb_spec 0 (zlen (nd_list n))) as [Hz|Hz].
  { exists None. split; [done|]. right. destruct (nd_list n) as [|b l]; [constructor|].
    rewrite zlen_cons in Hz. pose proof (zlen_nonneg l). lia. }
  destruct (find_child_ok p key (nd_list n)) as (r & -> & Hr).
  { intros b Hb. destruct (wf_child p Hw a n b Ha Hb) as (_ & m & Hm & _). by exists m. }
  exists r. split; [done|]. destruct r; [done|by right].
Qed.
