(* ===== verification/JsonLaws.v ===== *)
(** * The JSON reader reads back what a printer writes
    A document is printed in the usual way, with its names and texts in quotes;
    the reader builds from it the tree of its members, in order, in lower case.
    The document needs an object among its outermost members: without one the
    reader does not look for the closing brace (see [json_flat_brace]). *)
From Stdlib Require Import String.
From S2P Require Import Prelude Text Json.

(** The members of an object, in order. *)
Inductive members :=
| Nil
| Leaf (key value : list Z) (rest : members)
| Object (key : list Z) (sub rest : members).
#[global] Instance members_eq_dec : EqDecision members.
Proof. solve_decision. Defined.

Definition quoted (w : list Z) : list Z := 34 :: w ++ [34].
Definition sep (rest : members) : list Z := match rest with Nil => [] | _ => [44] end.
Fixpoint print (ms : members) : list Z :=
  match ms with
  | Nil => []
  | Leaf k v rest => (quoted k ++ [58] ++ quoted v) ++ sep rest ++ print rest
  | Object k sub rest => (quoted k ++ [58]) ++ [123] ++ print sub ++ [125] ++ sep rest ++ print rest
  end.
Definition print_doc (ms : members) : list Z := [123] ++ print ms ++ [125].

(** Names and texts: characters without a meaning of their own. *)
Definition plain_char (c : Z) : bool := negb (bool_decide (c ∈ [32; 34; 44; 58; 123; 125])).
Definition word (w : list Z) : Prop := w ≠ [] ∧ Forall (λ c, plain_char c = true) w.
Fixpoint good (ms : members) : Prop :=
  match ms with
  | Nil => True
  | Leaf k v rest => word k ∧ word v ∧ good rest
  | Object k sub rest => word k ∧ sub ≠ Nil ∧ good sub ∧ good rest
  end.
Fixpoint has_object (ms : members) : bool :=
  match ms with Nil => false | Leaf _ _ rest => has_object rest | Object _ _ _ => true end.
Fixpoint size (ms : members) : nat :=
  match ms with
  | Nil => 0
  | Leaf _ _ rest => S (size rest)
  | Object _ sub rest => S (size sub + size rest)
  end.
Definition lower (w : list Z) : list Z := normal_char <$> w.

(** The nodes below [parent] are these members; their addresses are at
    least [lo]. *)
Fixpoint children (lo : Z) (h : gmap Z node) (parent dept : Z) (ms : members) (l : list Z) : Prop :=
  match ms with
  | Nil => l = []
  | Leaf k v rest => ∃ a l', l = a :: l' ∧ lo ≤ a ∧
      h !! a = Some (mkNode dept (lower k) (lower v) (Some parent) []) ∧ children lo h parent dept rest l'
  | Object k sub rest => ∃ a l' cs, l = a :: l' ∧ lo ≤ a ∧
      h !! a = Some (mkNode dept (lower k) [] (Some parent) cs) ∧
      children lo h a (dept + 1) sub cs ∧ children lo h parent dept rest l'
  end.
Lemma children_mono lo lo' h h' ms : lo' ≤ lo → (∀ b n, lo ≤ b → h !! b = Some n → h' !! b = Some n) →
  ∀ parent d l, children lo h parent d ms l → children lo' h' parent d ms l.
Proof.
  intros Hlo Hh. induction ms as [|k v rest IH|k sub IHs rest IH]; intros parent d l; cbn [children]; [done|..].
  - intros (a & l' & -> & Ha & Hn & Hr). exists a, l'. split_and!; eauto; lia.
  - intros (a & l' & cs & -> & Ha & Hn & Hs & Hr). exists a, l', cs. split_and!; eauto; lia.
Qed.

(** ** Searches in a text given by its parts *)
Definition free (d w : list Z) : Prop := Forall (λ c, is_delim d c = false) w.
Lemma free_app d a b : free d (a ++ b) ↔ free d a ∧ free d b.
Proof. apply Forall_app. Qed.
Lemma from_app pre w r : from (zlen pre + zlen w) (pre ++ w ++ r) = r.
Proof. rewrite app_assoc, <-zlen_app. apply drop_prefix. Qed.
Lemma of_skip d pre w r : free d w →
  find_first_of d (pre ++ w ++ r) (zlen pre) = find_first_of d (pre ++ w ++ r) (zlen pre + zlen w).
Proof. intros Hw. unfold find_first_of. rewrite from_app, drop_prefix. by apply find_idx_skip. Qed.
Lemma of_here d pre c r : is_delim d c = true → find_first_of d (pre ++ c :: r) (zlen pre) = zlen pre.
Proof. intros Hc. unfold find_first_of. rewrite drop_prefix. cbn [find_idx]. by rewrite Hc. Qed.
Lemma of_end d s pos : zlen s ≤ pos → find_first_of d s pos = npos.
Proof. intros Hl. unfold find_first_of. by rewrite from_end. Qed.
Lemma not_of_here d pre c r : is_delim d c = false → find_first_not_of d (pre ++ c :: r) (zlen pre) = zlen pre.
Proof. intros Hc. unfold find_first_not_of. rewrite drop_prefix. cbn [find_idx]. by rewrite Hc. Qed.
Lemma not_of_skip d pre c r : is_delim d c = true →
  find_first_not_of d (pre ++ c :: r) (zlen pre) = find_first_not_of d (pre ++ c :: r) (zlen pre + 1).
Proof.
  intros Hc. unfold find_first_not_of. rewrite (from_app pre [c] r : from (zlen pre + 1) (pre ++ c :: r) = r).
  rewrite drop_prefix. cbn [find_idx]. by rewrite Hc.
Qed.
Lemma not_of_end d s pos : zlen s ≤ pos → find_first_not_of d s pos = npos.
Proof. intros Hl. unfold find_first_not_of. by rewrite from_end. Qed.

Lemma find_last_app P a b : ∀ i f, find_last P (a ++ b) i f = find_last P b (i + zlen a) (find_last P a i f).
Proof.
  induction a as [|c a IH]; intros i f; cbn [app find_last]; [by rewrite zlen_nil, Z.add_0_r|].
  rewrite IH, zlen_cons. f_equal. lia.
Qed.
Lemma find_last_none P b : ∀ i f, Forall (λ c, P c = false) b → find_last P b i f = f.
Proof. induction b as [|c b IH]; intros i f Hb; [done|]. inversion Hb; subst. cbn [find_last]. rewrite H1. by apply IH. Qed.
Definition all_delims (d ds : list Z) : Prop := Forall (λ c, is_delim d c = true) ds.
(** The last character that is none of [d], in front of a run of them. *)
Lemma last_not_here d pre x ds r pos : is_delim d x = false → all_delims d ds →
  Z.min (pos + 1) (zlen (pre ++ x :: ds ++ r)) = zlen pre + 1 + zlen ds →
  find_last_not_of d (pre ++ x :: ds ++ r) pos = zlen pre.
Proof.
  intros Hx Hds Hp. unfold find_last_not_of. rewrite Hp.
  assert (take (Z.to_nat (zlen pre + 1 + zlen ds)) (pre ++ x :: ds ++ r) = pre ++ x :: ds) as ->.
  { replace (pre ++ x :: ds ++ r) with ((pre ++ x :: ds) ++ r) by (by rewrite <-app_assoc).
    replace (Z.to_nat _) with (length (pre ++ x :: ds)); [apply take_app_length|].
    rewrite length_app. cbn [length]. unfold zlen. lia. }
  rewrite find_last_app. cbn [find_last]. rewrite Hx. cbn [negb]. rewrite find_last_none; [lia|].
  eapply Forall_impl; [exact Hds|]. cbn. by intros c ->.
Qed.

(** ** The text of one member *)
Definition clean (w : list Z) : Prop := w ≠ [] ∧ free [32] w ∧ free [58] w.
Lemma is_delim_eqb a c : is_delim [a] c = (c =? a).
Proof.
  unfold is_delim. destruct (Z.eqb_spec c a) as [->|Hne]; [apply bool_decide_true|apply bool_decide_false]; set_solver.
Qed.
Lemma plain_neq c a : plain_char c = true → a ∈ [32; 34; 44; 58; 123; 125] → c ≠ a.
Proof. intros Hc%negb_true_iff%bool_decide_eq_false Ha ->. done. Qed.
Lemma plain_normal c : plain_char c = true → normal_char c ≠ 32 ∧ normal_char c ≠ 58.
Proof.
  intros Hc. pose proof (plain_neq c 32 Hc ltac:(set_solver)). pose proof (plain_neq c 34 Hc ltac:(set_solver)).
  pose proof (plain_neq c 58 Hc ltac:(set_solver)). unfold normal_char.
  destruct (Z.eqb_spec c 34); [done|]. destruct (Z.leb_spec 65 c); [|done].
  destruct (Z.leb_spec c 90); cbn [andb]; [lia|done].
Qed.
Lemma word_clean w : word w → clean (lower w).
Proof.
  intros [Hne Hw]. split; [by destruct w|]. unfold free, lower. split; apply Forall_fmap; (eapply Forall_impl; [exact Hw|]);
    intros c Hc%plain_normal; cbn; rewrite is_delim_eqb; apply Z.eqb_neq; apply Hc.
Qed.
Lemma word_free w a : word w → a ∈ [44; 123; 125] → free [a] (quoted w).
Proof.
  intros [_ Hw] Ha. assert (a ∈ [32; 34; 44; 58; 123; 125]) by set_solver.
  constructor; [rewrite is_delim_eqb; apply Z.eqb_neq; set_solver|]. apply Forall_app. split.
  - eapply Forall_impl; [exact Hw|]. intros c Hc. cbn. rewrite is_delim_eqb. by apply Z.eqb_neq, plain_neq.
  - constructor; [|constructor]. rewrite is_delim_eqb. apply Z.eqb_neq. set_solver.
Qed.
Lemma clean_split w : clean w → ∃ c t u x, w = c :: t ∧ w = u ++ [x] ∧ zlen w = zlen u + 1 ∧
  is_delim [32] c = false ∧ is_delim [58] c = false ∧ is_delim [32] x = false ∧ is_delim [58] x = false.
Proof.
  intros (Hne & Hs & Hk). destruct w as [|c t]; [done|]. destruct (exists_last Hne) as (u & x & E).
  exists c, t, u, x. split_and!; [done|done|by rewrite E, zlen_app|..].
  - by inversion Hs.
  - by inversion Hk.
  - rewrite E in Hs. apply free_app in Hs as [_ Hx]. by inversion Hx.
  - rewrite E in Hk. apply free_app in Hk as [_ Hx]. by inversion Hx.
Qed.

(** The name: from behind its first quote to in front of its second. *)
Lemma name_found K R : clean K → let s := 32 :: K ++ 32 :: 58 :: R in
  zlen s < npos →
  find_first_not_of delimiter_space s 0 = 1 ∧ find_first_of delimiter_key s 1 = zlen K + 2 ∧
  find_last_not_of delimiter_key s (zlen K + 2) = zlen K + 1 ∧
  find_last_not_of delimiter_space s (zlen K + 1) = zlen K ∧ substr s 1 (zlen K) = Ok K ∧
  find_first_not_of delimiter_key s (zlen K + 2) = find_first_not_of delimiter_key s (zlen K + 3).
Proof.
  intros HK s Hl. destruct (clean_split K HK) as (c & t & u & x & EK & EK' & Hz & Hc & Hc' & Hx & Hx').
  pose proof (zlen_nonneg K). pose proof (zlen_nonneg R). pose proof (zlen_nonneg u).
  assert (zlen s = zlen K + 3 + zlen R) as Hzs by (unfold s; rewrite zlen_cons, zlen_app, !zlen_cons; lia).
  assert (s = [32] ++ c :: t ++ 32 :: 58 :: R) as E1 by (unfold s; by rewrite EK).
  assert (s = [32] ++ (K ++ [32]) ++ 58 :: R) as E2 by (unfold s; by rewrite <-app_assoc).
  assert (s = ([32] ++ K ++ [32]) ++ 58 :: R) as E3 by (unfold s; by rewrite <-!app_assoc).
  assert (s = ([32] ++ K) ++ 32 :: [58] ++ R) as E4 by done.
  assert (s = ([32] ++ u) ++ x :: [32] ++ 58 :: R) as E5 by (unfold s; by rewrite EK', <-!app_assoc).
  assert (s = [] ++ 32 :: K ++ 32 :: 58 :: R) as E0 by done.
  assert (sub s 1 (zlen K) = K) as Hsub.
  { change s with ([32] ++ K ++ 32 :: 58 :: R). rewrite (sub_app_skip (K ++ 32 :: 58 :: R) [32] 1 (zlen K)) by done. by apply sub_app_here. }
  clearbody s. split_and!.
  - change 0 with (zlen (@nil Z)). rewrite E0, not_of_skip, <-E0 by done. change (zlen [] + 1) with (zlen [32]).
    rewrite E1. by apply not_of_here.
  - change 1 with (zlen [32]) at 1. rewrite E2, of_skip, <-E2.
    { rewrite E3 at 1. replace (zlen [32] + _) with (zlen ([32] ++ K ++ [32])) by (rewrite !zlen_app; lia).
      rewrite of_here by done. rewrite !zlen_app. change (zlen [32]) with 1. lia. }
    apply free_app. split; [apply HK|]. by constructor.
  - rewrite E4 at 1. rewrite last_not_here; [rewrite zlen_app; change (zlen [32]) with 1; lia|done|by constructor|].
    rewrite <-E4, Hzs, zlen_app. change (zlen [32]) with 1. change (zlen [58]) with 1. lia.
  - rewrite E5 at 1. rewrite last_not_here; [rewrite zlen_app; change (zlen [32]) with 1; lia|done|by constructor|].
    rewrite <-E5, Hzs, zlen_app. change (zlen [32]) with 1. lia.
  - unfold substr. destruct (Z.ltb_spec (zlen s) 1); [lia|]. f_equal.
    by replace (Z.min _ _) with (zlen K) by lia.
  - rewrite E3 at 1. replace (zlen K + 2) with (zlen ([32] ++ K ++ [32])) by (rewrite !zlen_app; change (zlen [32]) with 1; lia).
    rewrite not_of_skip by done. rewrite <-E3. f_equal. rewrite !zlen_app. change (zlen [32]) with 1. lia.
Qed.
Lemma normal_word w : normal_char <$> quoted w = 32 :: lower w ++ [32].
Proof. unfold quoted. cbn [fmap list_fmap]. by rewrite fmap_app. Qed.
Lemma zlen_lower w : zlen (lower w) = zlen w.
Proof. unfold zlen, lower. by rewrite length_fmap. Qed.
Lemma npos_val : npos = 18446744073709551615.
Proof. reflexivity. Qed.

(** [set] on a name with an object behind it. *)
Lemma set_name k n dept : word k → zlen k + 3 < npos →
  node_set n (quoted k ++ [58]) dept = Ok (mkNode dept (lower k) (nd_value n) (nd_parent n) (nd_list n)).
Proof.
  intros Hk Hl. pose proof (word_clean k Hk) as HK. unfold node_set. cbn [nd_dept nd_key nd_value nd_parent nd_list].
  rewrite fmap_app, normal_word. cbn [fmap list_fmap app]. rewrite <-app_assoc. cbn [app].
  change (normal_char 58) with 58. pose proof (zlen_nonneg k).
  assert (zlen (32 :: lower k ++ [32; 58]) = zlen k + 3) as Hz.
  { rewrite zlen_cons, zlen_app, zlen_lower. change (zlen [32; 58]) with 2. lia. }
  destruct (name_found (lower k) [] HK) as (-> & -> & -> & -> & Hs & ->); [lia|]. rewrite zlen_lower in *.
  rewrite (not_of_end delimiter_key _ (zlen k + 3)) by lia. rewrite npos_val in *.
  destruct (Z.eqb_spec 18446744073709551615 1); [lia|]. destruct (Z.eqb_spec 18446744073709551615 (zlen k)); [lia|].
  cbn [orb]. replace (zlen k - 1 + 1) with (zlen k) by lia. rewrite (wrapu_small 64 (zlen k)) by (split; lia).
  rewrite Hs. cbn [mbind outcome_bind]. rewrite (not_of_end delimiter_space) by lia. by rewrite npos_val, Z.eqb_refl.
Qed.
Lemma value_found pre V : clean V → let s := pre ++ 32 :: V ++ [32] in
  zlen s < npos →
  find_first_not_of delimiter_key s (zlen pre) = zlen pre ∧
  find_first_not_of delimiter_space s (zlen pre) = zlen pre + 1 ∧
  find_last_not_of delimiter_space s npos = zlen pre + zlen V ∧ substr s (zlen pre + 1) (zlen V) = Ok V.
Proof.
  intros HV s Hl. destruct (clean_split V HV) as (c & t & u & x & EV & EV' & Hz & Hc & Hc' & Hx & Hx').
  pose proof (zlen_nonneg V). pose proof (zlen_nonneg pre). pose proof (zlen_nonneg u).
  assert (zlen s = zlen pre + zlen V + 2) as Hzs.
  { unfold s. rewrite zlen_app, zlen_cons, zlen_app. change (zlen [32]) with 1. lia. }
  assert (s = pre ++ 32 :: V ++ [32]) as E0 by done.
  assert (s = (pre ++ [32]) ++ c :: t ++ [32]) as E1 by (unfold s; by rewrite EV, <-app_assoc).
  assert (s = (pre ++ [32]) ++ V ++ [32]) as E2 by (unfold s; by rewrite <-app_assoc).
  assert (s = (pre ++ [32] ++ u) ++ x :: [32] ++ []) as E3 by (unfold s; by rewrite EV', <-!app_assoc).
  assert (zlen pre + 1 = zlen (pre ++ [32])) as Hp by (by rewrite zlen_app).
  clearbody s. split_and!.
  - rewrite E0. by apply not_of_here.
  - rewrite E0, not_of_skip, <-E0, Hp, E1 by done. by apply not_of_here.
  - rewrite E3. rewrite last_not_here; [rewrite !zlen_app; change (zlen [32]) with 1; lia|done|by constructor|].
    rewrite <-E3, !zlen_app. change (zlen [32]) with 1. lia.
  - unfold substr. destruct (Z.ltb_spec (zlen s) (zlen pre + 1)); [lia|]. f_equal.
    replace (Z.min _ _) with (zlen V) by lia. rewrite Hp, E2, sub_app_skip by lia. rewrite Z.sub_diag. by apply sub_app_here.
Qed.
(** [set] on a name and a text. *)
Lemma set_leaf k v n dept : word k → word v → zlen k + zlen v + 5 < npos →
  node_set n (quoted k ++ [58] ++ quoted v) dept = Ok (mkNode dept (lower k) (lower v) (nd_parent n) (nd_list n)).
Proof.
  intros Hk Hv Hl. pose proof (word_clean k Hk) as HK. pose proof (word_clean v Hv) as HV. unfold node_set.
  cbn [nd_dept nd_key nd_value nd_parent nd_list].
  rewrite !fmap_app, !normal_word. cbn [fmap list_fmap app]. rewrite <-app_assoc. cbn [app].
  change (normal_char 58) with 58. pose proof (zlen_nonneg k). pose proof (zlen_nonneg v).
  set (R := 32 :: lower v ++ [32]). set (pre := 32 :: lower k ++ [32; 58]).
  assert (32 :: lower k ++ 32 :: 58 :: R = pre ++ R) as E by (unfold pre; cbn [app]; by rewrite <-app_assoc).
  assert (zlen pre = zlen k + 3) as Hp.
  { unfold pre. rewrite zlen_cons, zlen_app, zlen_lower. change (zlen [32; 58]) with 2. lia. }
  assert (zlen (pre ++ R) < npos) as Hz.
  { unfold R. rewrite zlen_app, zlen_cons, zlen_app, zlen_lower, Hp. change (zlen [32]) with 1. lia. }
  pose proof (name_found (lower k) R HK) as HN. cbn zeta in HN. rewrite E, zlen_lower in HN. rewrite E.
  destruct (HN Hz) as (-> & -> & -> & -> & Hs & ->).
  destruct (value_found pre (lower v) HV Hz) as (Hv0 & Hv1 & Hve & Hvs). rewrite Hp, zlen_lower in *.
  fold R in Hv0, Hv1, Hve, Hvs. rewrite Hv0, Hv1, Hve. rewrite npos_val in *.
  destruct (Z.eqb_spec 18446744073709551615 1); [lia|]. destruct (Z.eqb_spec 18446744073709551615 (zlen k)); [lia|].
  destruct (Z.eqb_spec 18446744073709551615 (zlen k + 3 + 1)); [lia|].
  destruct (Z.eqb_spec 18446744073709551615 (zlen k + 3 + zlen v)); [lia|]. cbn [orb].
  replace (zlen k - 1 + 1) with (zlen k) by lia. rewrite (wrapu_small 64 (zlen k)) by (split; lia).
  rewrite Hs. cbn [mbind outcome_bind]. replace (_ - _ + 1) with (zlen v) by lia.
  rewrite (wrapu_small 64 (zlen v)) by (split; lia). by rewrite Hvs.
Qed.

(** ** One turn of the loop *)
Lemma of_at d pre w x r : free d w → is_delim d x = true →
  find_first_of d (pre ++ w ++ x :: r) (zlen pre) = zlen pre + zlen w.
Proof. intros Hw Hx. rewrite of_skip, app_assoc, <-zlen_app by done. by apply of_here. Qed.
Lemma of_behind d s pos : zlen s < npos → 0 ≤ pos ≤ npos → pos ≤ find_first_of d s pos.
Proof.
  intros Hl Hp. destruct (decide (find_first_of d s pos = npos)) as [->|Hne]; [lia|].
  apply find_of_bound in Hne; [lia|done|lia].
Qed.
Lemma substr_at pre w r n : n = zlen w ∨ r = [] ∧ zlen w ≤ n → substr (pre ++ w ++ r) (zlen pre) n = Ok w.
Proof.
  intros Hn. pose proof (zlen_nonneg w). pose proof (zlen_nonneg r). unfold substr. rewrite !zlen_app.
  destruct (Z.ltb_spec (zlen pre + (zlen w + zlen r)) (zlen pre)); [lia|]. f_equal.
  assert (Z.min n (zlen pre + (zlen w + zlen r) - zlen pre) = zlen w) as ->.
  { destruct Hn as [->|[-> ?]]; [lia|]. rewrite zlen_nil. lia. }
  rewrite sub_app_skip, Z.sub_diag by lia. by apply sub_app_here.
Qed.

Section Turn.
Context (p : json_parser) (k : nat) (d : Z) (pre w s : list Z) (fe : Z) (cur : option Z).
Context (Hp : json_data p = s) (Hd : 0 ≤ d) (Hl : zlen s < npos).
Context (Hc : free [44] w) (Ho : free [123] w) (He : free [125] w).
(** The loop at a position, with what the next search finds. *)
Definition loop_at (k : nat) (p : json_parser) (d : Z) (s : list Z) (pos fe : Z) (cur : option Z) : outcome json_parser :=
  parse_loop k p d pos (find_first_of delimiter_node s pos) (find_first_of delimiter_family_start s pos) fe cur.

Lemma turn_guard : zlen pre < zlen s → (0 <=? d) && negb (npos =? zlen pre) = true.
Proof using Hd Hl.
  intros ?. apply andb_true_iff. split; [by apply Z.leb_le|]. apply negb_true_iff, Z.eqb_neq. lia.
Qed.
(** A name in front of an object: the object's members come next. *)
Lemma turn_open r : s = pre ++ w ++ 123 :: 34 :: r →
  loop_at (S k) p d s (zlen pre) fe cur =
  ('(p', pData) ← new_child p cur w d;
   let q := zlen pre + zlen w + 1 in
   loop_at k p' (d + 1) s q (find_first_of delimiter_family_end s q) (Some pData)).
Proof using Hp Hd Hl Hc Ho.
  intros Hs. pose proof (zlen_nonneg pre). pose proof (zlen_nonneg w). pose proof (zlen_nonneg r).
  assert (zlen s = zlen pre + zlen w + 2 + zlen r) as Hz by (rewrite Hs, !zlen_app, !zlen_cons; lia).
  assert (s = pre ++ (w ++ [123]) ++ 34 :: r) as Hs2 by (by rewrite <-app_assoc).
  assert (s = (pre ++ w) ++ 123 :: 34 :: r) as Hs3 by (by rewrite <-app_assoc).
  assert (s = (pre ++ w ++ [123]) ++ 34 :: r) as Hs4 by (by rewrite <-!app_assoc).
  assert (zlen pre + zlen w + 1 = zlen (pre ++ w ++ [123])) as Hq by (rewrite !zlen_app; change (zlen [123]) with 1; lia).
  unfold loop_at at 1. cbn [parse_loop]. rewrite turn_guard, Hp by lia.
  assert (find_first_of delimiter_family_start s (zlen pre) = zlen pre + zlen w) as -> by (rewrite Hs; by apply of_at).
  assert (zlen pre + zlen w + 1 ≤ find_first_of delimiter_node s (zlen pre)) as Hne.
  { rewrite Hs2, of_skip, <-Hs2 by (apply free_app; split; [done|by constructor]).
    rewrite Hq, zlen_app. apply of_behind; rewrite ?zlen_app in *; lia. }
  destruct (Z.ltb_spec (zlen pre + zlen w) (find_first_of delimiter_node s (zlen pre))); [|lia].
  rewrite (wrapu_small 64) by (split; rewrite npos_val in *; lia).
  replace (zlen pre + zlen w - zlen pre) with (zlen w) by lia.
  rewrite Hs at 1. rewrite substr_at by (by left). cbn [mbind outcome_bind].
  assert (find_first_not_of delimiter_family_start s (zlen pre + zlen w) = zlen pre + zlen w + 1) as ->; [|done].
  rewrite <-zlen_app, Hs3, not_of_skip, <-Hs3, zlen_app, Hq, Hs4 by done. by apply not_of_here.
Qed.
(** A member in front of a comma: the next member comes next. *)
Lemma turn_comma r : s = pre ++ w ++ 44 :: 34 :: r →
  fe = npos ∨ fe = find_first_of delimiter_family_end s (zlen pre) →
  let q := zlen pre + zlen w + 1 in
  loop_at (S k) p d s (zlen pre) fe cur =
    ('(p', pData) ← new_child p cur w d; loop_at k p' d s q fe cur) ∧
  find_first_of delimiter_family_end s (zlen pre) = find_first_of delimiter_family_end s q.
Proof using Hp Hd Hl Hc Ho He.
  intros Hs Hfe q. pose proof (zlen_nonneg pre). pose proof (zlen_nonneg w). pose proof (zlen_nonneg r).
  assert (zlen s = zlen pre + zlen w + 2 + zlen r) as Hz by (rewrite Hs, !zlen_app, !zlen_cons; lia).
  assert (s = pre ++ (w ++ [44]) ++ 34 :: r) as Hs2 by (by rewrite <-app_assoc).
  assert (s = (pre ++ w) ++ 44 :: 34 :: r) as Hs3 by (by rewrite <-app_assoc).
  assert (s = (pre ++ w ++ [44]) ++ 34 :: r) as Hs4 by (by rewrite <-!app_assoc).
  assert (q = zlen (pre ++ w ++ [44])) as Hq by (unfold q; rewrite !zlen_app; change (zlen [44]) with 1; lia).
  assert (q = zlen pre + zlen w + 1) as Hqv by done.
  assert (∀ x, free [x] w → x ≠ 44 → find_first_of [x] s (zlen pre) = find_first_of [x] s q) as Hsame.
  { intros x Hx Hne. rewrite Hs2, of_skip, <-Hs2.
    { f_equal. rewrite Hq, !zlen_app. lia. }
    apply free_app; split; [done|]. constructor; [|done]. rewrite is_delim_eqb. by apply Z.eqb_neq, not_eq_sym. }
  pose proof (Hsame 123 Ho ltac:(done)) as Hopen. pose proof (Hsame 125 He ltac:(done)) as Hclose.
  change [123] with delimiter_family_start in Hopen. change [125] with delimiter_family_end in Hclose.
  split; [|exact Hclose].
  assert (q ≤ find_first_of delimiter_family_start s (zlen pre)) as Hfs.
  { rewrite Hopen. apply of_behind; lia. }
  assert (q ≤ fe) as Hfe'.
  { destruct Hfe as [-> | ->]; [lia|]. rewrite Hclose. apply of_behind; lia. }
  unfold loop_at at 1. cbn [parse_loop]. rewrite turn_guard, Hp by lia.
  assert (find_first_of delimiter_node s (zlen pre) = zlen pre + zlen w) as -> by (rewrite Hs; by apply of_at).
  destruct (Z.ltb_spec (find_first_of delimiter_family_start s (zlen pre)) (zlen pre + zlen w)); [lia|].
  destruct (Z.ltb_spec fe (zlen pre + zlen w)); [lia|].
  rewrite (wrapu_small 64) by (split; rewrite npos_val in *; lia).
  replace (zlen pre + zlen w - zlen pre) with (zlen w) by lia.
  rewrite Hs at 1. rewrite substr_at by (by left). cbn [mbind outcome_bind].
  rewrite Hopen.
  assert (find_first_not_of delimiter_node s (zlen pre + zlen w) = q) as ->; [|done].
  rewrite <-zlen_app, Hs3, not_of_skip, <-Hs3, zlen_app by done. fold q. rewrite Hq, Hs4. by apply not_of_here.
Qed.
End Turn.

(** ** The end of a member list: its closing braces, then nothing or a comma *)
Fixpoint up (h : gmap Z node) (n : nat) (cur : option Z) : option Z :=
  match n with
  | O => cur
  | S n => up h n (a ← cur; h !! a ≫= nd_parent)
  end.
Lemma up_grow h h' n d cur : grows h h' → chain h d cur → Z.of_nat n ≤ d → up h' n cur = up h n cur.
Proof.
  intros Hg. revert d cur. induction n as [|n IH]; intros d cur Hc Hn; [done|]. cbn [up].
  destruct (chain_some _ _ _ Hc) as (a & m & -> & Ha & -> & Hup); [lia|]. cbn [mbind option_bind].
  destruct (Hg a m Ha) as (m' & Ha' & Hp & _). rewrite Ha, Ha'. cbn [mbind option_bind]. rewrite Hp.
  apply (IH (nd_dept m)); [done|lia].
Qed.
Definition tail_ok (tail : list Z) : Prop := tail = [] ∨ ∃ t, tail = 44 :: 34 :: t.
(** The next comma, and the text behind it. *)
Definition next_comma (s tail : list Z) : Z := match tail with [] => npos | _ => zlen s - zlen tail end.
Definition next_text (s tail : list Z) : Z := match tail with [] => npos | _ => zlen s - zlen tail + 1 end.

Lemma next_comma_found pre w tail : tail_ok tail → free [44] w →
  find_first_of delimiter_node (pre ++ w ++ tail) (zlen pre) = next_comma (pre ++ w ++ tail) tail.
Proof.
  intros [->|(t & ->)] Hw; cbn [next_comma].
  - rewrite of_skip by done. apply of_end. rewrite !zlen_app, zlen_nil. lia.
  - rewrite of_at by done. rewrite !zlen_app. lia.
Qed.
Lemma next_text_found pre tail : tail_ok tail → let s := pre ++ tail in zlen s < npos →
  find_first_not_of delimiter_node s (next_comma s tail) = next_text s tail.
Proof.
  intros Ht s Hl. destruct Ht as [->|(t & ->)]; cbn [next_comma next_text]; [by apply find_not_none|].
  assert (zlen s - zlen (44 :: 34 :: t) = zlen pre) as -> by (unfold s; rewrite zlen_app; lia).
  unfold s. rewrite not_of_skip by done.
  rewrite (cons_middle 44 pre), app_assoc. change 1 with (zlen [44]). rewrite <-zlen_app. by apply not_of_here.
Qed.

Definition closes (n : nat) : list Z := replicate n 125.
Lemma zlen_closes n : zlen (closes n) = Z.of_nat n.
Proof. unfold zlen, closes. by rewrite length_replicate. Qed.
Lemma closes_free n a : a ≠ 125 → free [a] (closes n).
Proof. intros Ha. apply Forall_replicate. rewrite is_delim_eqb. by apply Z.eqb_neq, not_eq_sym. Qed.
Lemma next_close_behind pre tail : tail_ok tail → zlen (pre ++ tail) < npos →
  next_comma (pre ++ tail) tail ≤ find_first_of delimiter_family_end (pre ++ tail) (zlen pre).
Proof.
  intros [->|(t & ->)] Hl; cbn [next_comma].
  - rewrite app_nil_r, of_end; done.
  - rewrite zlen_app in *. pose proof (zlen_nonneg pre). pose proof (zlen_nonneg (44 :: 34 :: t)).
    replace (zlen pre + _ - _) with (zlen pre) by lia. apply of_behind; rewrite ?zlen_app; lia.
Qed.

(** Each closing brace leads to the parent. *)
Lemma end_families_close p s tail : json_data p = s → zlen s < npos → tail_ok tail → ∀ n pre d cur fuel,
  s = pre ++ closes n ++ tail → chain (jp_nodes p) d cur → Z.of_nat n ≤ d → (n < fuel)%nat →
  ∃ fe', end_families fuel p (next_comma s tail) d cur (find_first_of delimiter_family_end s (zlen pre)) =
    Ok (d - Z.of_nat n, up (jp_nodes p) n cur, fe').
Proof.
  intros Hp Hl Ht. induction n as [|n IH]; intros pre d cur fuel Hs Hc Hn Hf; (destruct fuel as [|fuel]; [lia|]);
    cbn [end_families up].
  - cbn [closes replicate app] in Hs. rewrite Z.sub_0_r.
    pose proof (next_close_behind pre tail Ht) as Hb. rewrite <-Hs in Hb.
    destruct (Z.ltb_spec (find_first_of delimiter_family_end s (zlen pre)) (next_comma s tail)); [lia|].
    rewrite andb_false_r. by eexists.
  - change (closes (S n)) with ([125] ++ closes n) in Hs.
    assert (s = pre ++ 125 :: closes n ++ tail) as Hs2 by (by rewrite Hs).
    assert (find_first_of delimiter_family_end s (zlen pre) = zlen pre) as -> by (rewrite Hs2; by apply of_here).
    assert (zlen pre < next_comma s tail) as Hlt.
    { pose proof (zlen_nonneg (closes n)). assert (zlen s = zlen pre + 1 + zlen (closes n) + zlen tail) as Hz.
      { rewrite Hs2, zlen_app, zlen_cons, zlen_app. lia. }
      destruct Ht as [->|(t & ->)]; cbn [next_comma]; rewrite ?zlen_nil in *; lia. }
    destruct (Z.ltb_spec (zlen pre) (next_comma s tail)); [|lia].
    destruct (Z.leb_spec 1 d); [|lia]. cbn [andb].
    destruct (chain_some _ _ _ Hc) as (a & m & -> & Ha & -> & Hup); [lia|].
    unfold node_deref, node_get. rewrite Ha. cbn [mbind outcome_bind option_bind]. rewrite Ha. cbn [option_bind].
    destruct (IH (pre ++ [125]) (nd_dept m) (nd_parent m) fuel) as [fe' Hr]; [by rewrite <-app_assoc|done|lia|lia|].
    exists fe'. rewrite zlen_app in Hr. change (zlen [125]) with 1 in Hr. rewrite Hp. unfold getParent.
    replace (nd_dept m + 1 - 1) with (nd_dept m) by lia. rewrite Hr. do 3 f_equal. lia.
Qed.
(** The last member of an object, and of the objects that end with it. *)
Lemma turn_close p p' x k d pre w s n tail cur :
  json_data p = s → json_data p' = s → zlen s < npos → free [44] w → free [123] w → free [125] w → tail_ok tail →
  s = pre ++ w ++ closes (S n) ++ tail → new_child p cur w d = Ok (p', x) →
  chain (jp_nodes p') d cur → Z.of_nat (S n) ≤ d →
  let q := next_text s tail in
  loop_at (S k) p d s (zlen pre) (find_first_of delimiter_family_end s (zlen pre)) cur =
  loop_at k p' (d - Z.of_nat (S n)) s q (find_first_of delimiter_family_end s q) (up (jp_nodes p') (S n) cur).
Proof.
  intros Hp Hp' Hl Hc Ho He Ht Hs Hnew Hch Hn q.
  pose proof (zlen_nonneg pre). pose proof (zlen_nonneg w). pose proof (zlen_nonneg tail).
  assert (zlen s = zlen pre + zlen w + Z.of_nat (S n) + zlen tail) as Hz by (rewrite Hs, !zlen_app, zlen_closes; lia).
  assert (s = (pre ++ w) ++ closes (S n) ++ tail) as Hs2 by (by rewrite <-app_assoc).
  assert (s = pre ++ (w ++ closes (S n)) ++ tail) as Hs3 by (by rewrite <-app_assoc).
  assert (s = (pre ++ w ++ closes (S n)) ++ tail) as Hs4 by (by rewrite <-!app_assoc).
  assert (find_first_of delimiter_node s (zlen pre) = next_comma s tail) as Hne.
  { rewrite Hs3. apply next_comma_found; [done|]. apply free_app. split; [done|by apply closes_free]. }
  assert (next_comma s tail ≤ find_first_of delimiter_family_start s (zlen pre)) as Hfs.
  { destruct Ht as [->|(t & ->)]; cbn [next_comma].
    - rewrite Hs3, of_skip, <-Hs3 by (apply free_app; split; [done|by apply closes_free]).
      rewrite of_end; [done|]. rewrite zlen_app, zlen_closes. rewrite zlen_nil in Hz. lia.
    - rewrite Hs3, of_skip, <-Hs3 by (apply free_app; split; [done|by apply closes_free]).
      etrans; [|apply of_behind; [done|]]; rewrite zlen_app, zlen_closes; lia. }
  assert (find_first_of delimiter_family_end s (zlen pre) = zlen (pre ++ w)) as Hfe.
  { rewrite zlen_app, Hs. by apply of_at. }
  assert (zlen (pre ++ w) < next_comma s tail) as Hlt.
  { rewrite zlen_app. destruct Ht as [->|(t & ->)]; cbn [next_comma]; [rewrite zlen_nil in Hz|]; lia. }
  unfold loop_at at 1. cbn [parse_loop].
  rewrite (turn_guard d pre s), Hp, Hne by (done || lia).
  destruct (Z.ltb_spec (find_first_of delimiter_family_start s (zlen pre)) (next_comma s tail)); [lia|].
  rewrite Hfe. destruct (Z.ltb_spec (zlen (pre ++ w)) (next_comma s tail)); [|lia].
  rewrite zlen_app in *. rewrite (wrapu_small 64) by (split; rewrite npos_val in *; lia).
  replace (zlen pre + zlen w - zlen pre) with (zlen w) by lia.
  assert (substr s (zlen pre) (zlen w) = Ok w) as -> by (rewrite Hs; apply substr_at; by left).
  cbn [mbind outcome_bind]. rewrite Hnew. cbn [mbind outcome_bind].
  assert (find_first_of delimiter_node s (zlen pre + zlen w) = next_comma s tail) as ->.
  { rewrite <-zlen_app, Hs2. apply next_comma_found; [done|by apply closes_free]. }
  destruct (end_families_close p' s tail Hp' Hl Ht (S n) (pre ++ w) d cur (S (length s)) Hs2 Hch Hn) as [fe' Hend].
  { unfold zlen in Hz. lia. }
  assert (find_first_of delimiter_family_end s (zlen (pre ++ w)) = zlen pre + zlen w) as Hfe2.
  { rewrite Hs2, <-zlen_app. by apply (of_here delimiter_family_end (pre ++ w) 125 (closes n ++ tail)). }
  rewrite Hfe2 in Hend. rewrite Hend. cbn [mbind outcome_bind].
  pose proof (next_text_found (pre ++ w ++ closes (S n)) tail Ht) as Hq. cbn zeta in Hq. rewrite <-Hs4 in Hq.
  by rewrite Hq.
Qed.

(** ** What reading members builds below a node *)
Fixpoint mapp (ms1 ms2 : members) : members :=
  match ms1 with
  | Nil => ms2
  | Leaf k v rest => Leaf k v (mapp rest ms2)
  | Object k sub rest => Object k sub (mapp rest ms2)
  end.
Lemma children_app lo h a d ms1 ms2 : ∀ l1 l2,
  children lo h a d ms1 l1 → children lo h a d ms2 l2 → children lo h a d (mapp ms1 ms2) (l1 ++ l2).
Proof.
  induction ms1 as [|k v rest IH|k sub _ rest IH]; intros l1 l2; cbn [children mapp].
  - by intros -> ?.
  - intros (b & l' & -> & Hb & Hn & Hr) H2. exists b, (l' ++ l2). split_and!; try done. by apply IH.
  - intros (b & l' & cs & -> & Hb & Hn & Hs & Hr) H2. exists b, (l' ++ l2), cs. split_and!; try done. by apply IH.
Qed.
Definition with_children (n : node) (l : list Z) : node :=
  mkNode (nd_dept n) (nd_key n) (nd_value n) (nd_parent n) (nd_list n ++ l).
Record built (p : json_parser) (a : Z) (ms : members) (p' : json_parser) : Prop := mkBuilt {
  b_wf : wf_parser p';
  b_data : json_data p' = json_data p;
  b_next : jp_next p ≤ jp_next p';
  b_size : zlen (jp_list p') = zlen (jp_list p) + Z.of_nat (size ms);
  b_frame : ∀ b n, b ≠ a → jp_nodes p !! b = Some n → jp_nodes p' !! b = Some n;
  b_node : ∃ n l, jp_nodes p !! a = Some n ∧ jp_nodes p' !! a = Some (with_children n l) ∧
    children (jp_next p) (jp_nodes p') a (nd_dept n + 1) ms l }.

Lemma built_grows p a ms p' : built p a ms p' → grows (jp_nodes p) (jp_nodes p').
Proof.
  intros Hb b n Hn. destruct (decide (b = a)) as [->|Hne].
  - destruct (b_node _ _ _ _ Hb) as (m & l & Hm & Hm' & _). simplify_eq. by eexists.
  - exists n. split; [by apply (b_frame _ _ _ _ Hb)|done].
Qed.
Lemma wf_below p a n : wf_parser p → jp_nodes p !! a = Some n → a < jp_next p.
Proof.
  intros Hw Ha. destruct (wf_dom p Hw a) as [->|Hin]; [by eexists|apply (wf_next p Hw)|by apply (wf_range p Hw)].
Qed.
Lemma size_mapp a b : size (mapp a b) = (size a + size b)%nat.
Proof. induction a as [|k v r IH|k s _ r IH]; cbn [mapp size]; [done|by rewrite IH|rewrite IH; lia]. Qed.
(** First some members, then more. *)
Lemma built_app p a ms1 p1 ms2 p2 :
  wf_parser p → built p a ms1 p1 → built p1 a ms2 p2 → built p a (mapp ms1 ms2) p2.
Proof.
  intros Hw [Hw1 Hd1 Hn1 Hs1 Hf1 (n & l1 & Ha & Ha1 & Hc1)] [Hw2 Hd2 Hn2 Hs2 Hf2 (n1 & l2 & Ha1' & Ha2 & Hc2)].
  rewrite Ha1 in Ha1'. injection Ha1' as <-. split.
  - done.
  - congruence.
  - lia.
  - rewrite size_mapp. lia.
  - intros b m Hb Hm. by apply Hf2, Hf1.
  - exists n, (l1 ++ l2). split; [done|]. split; [rewrite Ha2; unfold with_children; cbn; by rewrite app_assoc|].
    pose proof (wf_below p a n Hw Ha). apply children_app.
    + apply (children_mono (jp_next p) _ (jp_nodes p1)); [lia| |done].
      intros b m Hb Hm. apply Hf2; [lia|done].
    + cbn [with_children nd_dept] in Hc2. by apply (children_mono (jp_next p1) _ (jp_nodes p2)).
Qed.
Lemma built_leaf p a n k v :
  wf_parser p → jp_nodes p !! a = Some n →
  built p a (Leaf k v Nil) (hang p a n (mkNode (nd_dept n + 1) (lower k) (lower v) None [])).
Proof.
  intros Hw Ha. pose proof (wf_fresh p Hw) as Hfr. assert (a ≠ jp_next p) by congruence. split.
  - by apply hang_wf.
  - done.
  - cbn [hang jp_next]. lia.
  - cbn [hang jp_list size]. by rewrite zlen_app.
  - intros b m Hb Hm. cbn [hang jp_nodes]. rewrite !lookup_insert_ne; [done| |done]. congruence.
  - exists n, [jp_next p]. split; [done|]. cbn [hang jp_nodes]. split; [by rewrite lookup_insert_eq|].
    cbn [children]. eexists _, []. split_and!; [done|lia| |done].
    by rewrite lookup_insert_ne, lookup_insert_eq by done.
Qed.
(** An object: its node, and its members below it. *)
Lemma built_object p a n k sub p2 :
  wf_parser p → jp_nodes p !! a = Some n →
  built (hang p a n (mkNode (nd_dept n + 1) (lower k) [] None [])) (jp_next p) sub p2 →
  built p a (Object k sub Nil) p2.
Proof.
  intros Hw Ha [Hw2 Hd2 Hn2 Hs2 Hf2 (n1 & cs & Ha1 & Ha2 & Hc2)].
  pose proof (wf_fresh p Hw) as Hfr. assert (a ≠ jp_next p) by congruence.
  cbn [hang jp_nodes jp_list jp_next json_data] in *.
  rewrite lookup_insert_ne, lookup_insert_eq in Ha1 by done. injection Ha1 as <-. split.
  - done.
  - done.
  - lia.
  - rewrite zlen_app in Hs2. change (zlen [jp_next p]) with 1 in Hs2. cbn [size]. lia.
  - intros b m Hb Hm. assert (b ≠ jp_next p) by congruence. apply Hf2; [done|]. by rewrite !lookup_insert_ne by done.
  - exists n, [jp_next p]. split; [done|]. split; [apply Hf2; [done|by rewrite lookup_insert_eq]|].
    cbn [children]. eexists _, [], cs. split_and!; [done|lia|by rewrite Ha2| |done].
    by apply (children_mono (jp_next p + 1) _ (jp_nodes p2)); [lia|..].
Qed.

(** ** The members of an object *)
Lemma print_quote ms : ms ≠ Nil → ∃ t, print ms = 34 :: t.
Proof. destruct ms; [done|..]; intros _; by eexists. Qed.
Lemma sep_cons rest : rest ≠ Nil → sep rest = [44].
Proof. by destruct rest. Qed.
Lemma colon_free a : a ∈ [44; 123; 125] → free [a] [58].
Proof. intros Ha. constructor; [|constructor]. rewrite is_delim_eqb. apply Z.eqb_neq. set_solver. Qed.
Lemma name_free k a : word k → a ∈ [44; 123; 125] → free [a] (quoted k ++ [58]).
Proof. intros Hk Ha. apply free_app. split; [by apply word_free|by apply colon_free]. Qed.
Lemma leaf_free k v a : word k → word v → a ∈ [44; 123; 125] → free [a] (quoted k ++ [58] ++ quoted v).
Proof. intros Hk Hv Ha. rewrite app_assoc. apply free_app. split; [by apply name_free|by apply word_free]. Qed.
Lemma zlen_quoted w : zlen (quoted w) = zlen w + 2.
Proof. unfold quoted. rewrite zlen_cons, zlen_app. change (zlen [34]) with 1. lia. Qed.

(** The statement, for one list of members: the loop reads them, hangs their
    nodes below the current one, and goes on behind the braces that follow. *)
Definition reads (ms : members) : Prop := ∀ pre n tail p a d k s fe,
  s = pre ++ print ms ++ closes (S n) ++ tail → json_data p = s → zlen s < npos →
  wf_parser p → chain (jp_nodes p) d (Some a) → Z.of_nat (S n) ≤ d → tail_ok tail →
  fe = find_first_of delimiter_family_end s (zlen pre) ∨ fe = npos ∧ has_object ms = true →
  ∃ p', built p a ms p' ∧ let q := next_text s tail in
    loop_at (size ms + k) p d s (zlen pre) fe (Some a) =
    loop_at k p' (d - Z.of_nat (S n)) s q (find_first_of delimiter_family_end s q) (up (jp_nodes p) (S n) (Some a)).

Lemma reads_last_leaf k v : word k → word v → reads (Leaf k v Nil).
Proof.
  intros Hk Hv pre n tail p a d f s fe Hs Hp Hl Hw Hc Hn Ht Hfe.
  cbn [print sep] in Hs. rewrite !app_nil_r in Hs. destruct Hfe as [->|[_ ?]]; [|done].
  set (w := quoted k ++ [58] ++ quoted v) in *.
  inversion Hc as [|a' m Ha Hup Hm Ed Ea]. subst a' d.
  assert (zlen k + zlen v + 5 < npos) as Hlw.
  { rewrite Hs in Hl. unfold w in Hl. rewrite !zlen_app, !zlen_quoted in Hl. change (zlen [58]) with 1 in Hl.
    pose proof (zlen_nonneg pre). pose proof (zlen_nonneg (closes (S n))). pose proof (zlen_nonneg tail). lia. }
  pose proof (new_child_hang p a m w _ _ Hw Ha (set_leaf k v node_new (nd_dept m + 1) Hk Hv Hlw)) as Hnew.
  cbn [node_new nd_parent nd_list] in Hnew. set (p' := hang _ _ _ _) in Hnew.
  assert (built p a (Leaf k v Nil) p') as Hb by by apply built_leaf.
  pose proof (built_grows _ _ _ _ Hb) as Hg. exists p'. split; [done|]. cbn zeta. cbn [size Nat.add].
  rewrite (turn_close p p' (jp_next p) f (nd_dept m + 1) pre w s n tail (Some a)); try done.
  - f_equal. by apply (up_grow _ _ (S n) (nd_dept m + 1)).
  - by apply leaf_free; [| |set_solver].
  - by apply leaf_free; [| |set_solver].
  - by apply leaf_free; [| |set_solver].
  - by eapply chain_grow.
Qed.
Lemma reads_leaf k v rest : word k → word v → rest ≠ Nil → reads rest → reads (Leaf k v rest).
Proof.
  intros Hk Hv Hne IH pre n tail p a d f s fe Hs Hp Hl Hw Hc Hn Ht Hfe.
  cbn [print] in Hs. rewrite (sep_cons rest Hne) in Hs. destruct (print_quote rest Hne) as (t & Eq).
  set (w := quoted k ++ [58] ++ quoted v) in *.
  assert (s = pre ++ w ++ 44 :: 34 :: t ++ closes (S n) ++ tail) as Hs1 by (rewrite Hs, Eq, <-!app_assoc; done).
  assert (s = (pre ++ w ++ [44]) ++ print rest ++ closes (S n) ++ tail) as Hs2 by (rewrite Hs, <-!app_assoc; done).
  inversion Hc as [|a' m Ha Hup Hm Ed Ea]. subst a' d.
  assert (zlen k + zlen v + 5 < npos) as Hlw.
  { rewrite Hs in Hl. unfold w in Hl. rewrite !zlen_app, !zlen_quoted in Hl. change (zlen [58]) with 1 in Hl.
    pose proof (zlen_nonneg pre). pose proof (zlen_nonneg (closes (S n))). pose proof (zlen_nonneg tail).
    pose proof (zlen_nonneg [44]). pose proof (zlen_nonneg (print rest)). lia. }
  pose proof (new_child_hang p a m w _ _ Hw Ha (set_leaf k v node_new (nd_dept m + 1) Hk Hv Hlw)) as Hnew.
  cbn [node_new nd_parent nd_list] in Hnew. set (p1 := hang _ _ _ _) in Hnew.
  assert (built p a (Leaf k v Nil) p1) as Hb by by apply built_leaf.
  pose proof (built_grows _ _ _ _ Hb) as Hg.
  destruct (turn_comma p (size rest + f) (nd_dept m + 1) pre w s fe (Some a) Hp ltac:(lia) Hl
    ltac:(by apply leaf_free; [| |set_solver]) ltac:(by apply leaf_free; [| |set_solver])
    ltac:(by apply leaf_free; [| |set_solver]) (t ++ closes (S n) ++ tail) Hs1) as [Hturn Hsame].
  { destruct Hfe as [?|[? _]]; [by right|by left]. }
  assert (zlen (pre ++ w ++ [44]) = zlen pre + zlen w + 1) as Hq by (rewrite !zlen_app; change (zlen [44]) with 1; lia).
  destruct (IH (pre ++ w ++ [44]) n tail p1 a (nd_dept m + 1) f s fe Hs2) as (p2 & Hb2 & Hrun); try done.
  - apply (b_wf _ _ _ _ Hb).
  - by eapply chain_grow.
  - rewrite Hq. destruct Hfe as [->|[-> ?]]; [left; by rewrite <-Hsame|by right].
  - exists p2. split; [by apply (built_app p a (Leaf k v Nil) p1 rest p2)|]. cbn zeta. cbn [size Nat.add].
    rewrite Hturn, Hnew. cbn [mbind outcome_bind]. rewrite <-Hq, Hrun. cbn zeta. f_equal.
    by apply (up_grow _ _ (S n) (nd_dept m + 1)).
Qed.
(** The loop enters an object and reads its members. *)
Lemma opens k sub pre n tail p a m f s fe :
  word k → sub ≠ Nil → reads sub →
  s = pre ++ (quoted k ++ [58]) ++ [123] ++ print sub ++ closes (S n) ++ tail → json_data p = s → zlen s < npos →
  wf_parser p → jp_nodes p !! a = Some m → chain (jp_nodes p) (nd_dept m + 1) (Some a) →
  Z.of_nat n ≤ nd_dept m + 1 → tail_ok tail →
  ∃ p', built p a (Object k sub Nil) p' ∧ let q := next_text s tail in
    loop_at (S (size sub + f)) p (nd_dept m + 1) s (zlen pre) fe (Some a) =
    loop_at f p' (nd_dept m + 1 - Z.of_nat n) s q (find_first_of delimiter_family_end s q)
      (up (jp_nodes p) n (Some a)).
Proof.
  intros Hk Hne IH Hs Hp Hl Hw Ha Hc Hn Ht. destruct (print_quote sub Hne) as (t & Eq).
  set (w := quoted k ++ [58]) in *.
  assert (s = pre ++ w ++ 123 :: 34 :: t ++ closes (S n) ++ tail) as Hs1 by (by rewrite Hs, Eq).
  assert (s = (pre ++ w ++ [123]) ++ print sub ++ closes (S n) ++ tail) as Hs2 by (rewrite Hs, <-!app_assoc; done).
  assert (zlen k + 3 < npos) as Hlw.
  { rewrite Hs in Hl. unfold w in Hl. rewrite !zlen_app, !zlen_quoted in Hl. change (zlen [58]) with 1 in Hl.
    pose proof (zlen_nonneg pre). pose proof (zlen_nonneg (closes (S n))). pose proof (zlen_nonneg tail).
    pose proof (zlen_nonneg [123]). pose proof (zlen_nonneg (print sub)). lia. }
  assert (0 ≤ nd_dept m) as Hm by (inversion Hc; simplify_eq; lia).
  pose proof (new_child_hang p a m w _ _ Hw Ha (set_name k node_new (nd_dept m + 1) Hk Hlw)) as Hnew.
  cbn [node_new nd_parent nd_list nd_value] in Hnew. set (child := mkNode _ _ _ _ _) in Hnew.
  pose proof (hang_chain p a m child Hw Hc Ha eq_refl) as Hch. pose proof (hang_wf p a m child Hw Ha eq_refl eq_refl) as Hw1.
  pose proof (hang_grows p a m child Hw Ha) as Hg. pose proof (wf_fresh p Hw) as Hfr.
  assert (a ≠ jp_next p) by congruence.
  assert (jp_nodes (hang p a m child) !! jp_next p = Some (mkNode (nd_dept m + 1) (lower k) [] (Some a) [])) as Hnode.
  { cbn [hang jp_nodes]. by rewrite lookup_insert_ne, lookup_insert_eq by done. }
  set (p1 := hang p a m child) in *.
  assert (zlen (pre ++ w ++ [123]) = zlen pre + zlen w + 1) as Hq by (rewrite !zlen_app; change (zlen [123]) with 1; lia).
  destruct (IH (pre ++ w ++ [123]) n tail p1 (jp_next p) (nd_dept child + 1) f s
    (find_first_of delimiter_family_end s (zlen (pre ++ w ++ [123]))) Hs2 Hp Hl Hw1 Hch) as (p2 & Hb2 & Hrun);
    [cbn [child nd_dept]; lia|done|by left|].
  exists p2. split; [by apply (built_object p a m k sub p2)|]. cbn zeta.
  rewrite (turn_open p (size sub + f) (nd_dept m + 1) pre w s fe (Some a) Hp ltac:(lia) Hl
    ltac:(by apply name_free; [|set_solver]) ltac:(by apply name_free; [|set_solver]) _ Hs1).
  rewrite Hnew. cbn [mbind outcome_bind]. cbn zeta. rewrite <-Hq. cbn zeta in Hrun. cbn [child nd_dept] in Hrun.
  rewrite Hrun. f_equal; [lia|]. cbn [up mbind option_bind]. rewrite Hnode. cbn [option_bind nd_parent].
  by apply (up_grow _ _ n (nd_dept m + 1)).
Qed.
Lemma reads_object k sub rest : word k → sub ≠ Nil → reads sub → (rest ≠ Nil → reads rest) → reads (Object k sub rest).
Proof.
  intros Hk Hne IHs IHr pre n tail p a d f s fe Hs Hp Hl Hw Hc Hn Ht _.
  inversion Hc as [|a' m Ha Hup Hm Ed Ea]. subst a' d. cbn [size Nat.add]. cbn [print] in Hs.
  destruct (decide (rest = Nil)) as [->|Hrest].
  - cbn [sep print] in Hs. destruct (opens k sub pre (S n) tail p a m f s fe) as (p' & Hb & Hrun); try done.
    { rewrite Hs, <-!app_assoc. done. }
    exists p'. split; [done|]. cbn [size Nat.add]. rewrite Nat.add_0_r. exact Hrun.
  - rewrite (sep_cons rest Hrest) in Hs. destruct (print_quote rest Hrest) as (t & Eq).
    set (more := 44 :: print rest ++ closes (S n) ++ tail).
    destruct (opens k sub pre 0%nat more p a m (size rest + f) s fe) as (p1 & Hb & Hrun); try done.
    { rewrite Hs. unfold more. rewrite <-!app_assoc. done. }
    { lia. }
    { right. unfold more. rewrite Eq. by eexists. }
    set (pre2 := pre ++ (quoted k ++ [58]) ++ [123] ++ print sub ++ [125] ++ [44]).
    assert (s = pre2 ++ print rest ++ closes (S n) ++ tail) as Hs2.
    { rewrite Hs. unfold pre2. rewrite <-!app_assoc. done. }
    assert (next_text s more = zlen pre2) as Hq.
    { unfold more, next_text. rewrite Hs2, zlen_app, zlen_cons. lia. }
    cbn zeta in Hrun. rewrite Hq, Z.sub_0_r in Hrun. cbn [up] in Hrun. pose proof (built_grows _ _ _ _ Hb) as Hg.
    destruct (IHr Hrest pre2 n tail p1 a (nd_dept m + 1) f s (find_first_of delimiter_family_end s (zlen pre2)) Hs2)
      as (p2 & Hb2 & Hrun2); try done.
    { by rewrite (b_data _ _ _ _ Hb). }
    { apply (b_wf _ _ _ _ Hb). }
    { by eapply chain_grow. }
    { by left. }
    exists p2. split; [by apply (built_app p a (Object k sub Nil) p1 rest p2)|]. cbn zeta.
    rewrite <-Nat.add_assoc, Hrun, Hrun2. cbn zeta. f_equal. by apply (up_grow _ _ (S n) (nd_dept m + 1)).
Qed.
Lemma reads_all ms : good ms → ms ≠ Nil → reads ms.
Proof.
  induction ms as [|k v rest IH|k sub IHs rest IHr]; intros Hg Hne; [done|..]; cbn [good] in Hg.
  - destruct Hg as (Hk & Hv & Hg). destruct (decide (rest = Nil)) as [->|Hr]; [by apply reads_last_leaf|].
    apply reads_leaf; auto.
  - destruct Hg as (Hk & Hs & Hgs & Hg). apply reads_object; auto.
Qed.

Lemma size_print ms : (size ms ≤ length (print ms))%nat.
Proof.
  induction ms as [|k v rest IH|k sub IHs rest IHr]; cbn [size print]; [done|..]; rewrite !length_app; unfold quoted;
    cbn [length]; lia.
Qed.
Lemma has_object_ne ms : has_object ms = true → ms ≠ Nil.
Proof. by intros H ->. Qed.
Lemma read_back ms : good ms → has_object ms = true → zlen (print_doc ms) < npos →
  ∃ p, built (json_parser_new (print_doc ms)) node_first ms p ∧
    json_parse (json_parser_new (print_doc ms)) = Ok (p, Z.of_nat (size ms)).
Proof.
  intros Hg Ho Hl. pose proof (has_object_ne ms Ho) as Hne. destruct (print_quote ms Hne) as (t & Eq).
  set (s := print_doc ms) in *. assert (s = [123] ++ print ms ++ closes 1 ++ []) as Hs by done.
  assert (s = [] ++ 123 :: print ms ++ [125]) as Hs0 by done.
  assert (s = [123] ++ 34 :: t ++ [125]) as Hs1 by (unfold s, print_doc; by rewrite Eq).
  assert (length s = length (print ms) + 2)%nat as Hlen by (rewrite Hs, !length_app; cbn; lia).
  pose proof (size_print ms) as Hsz.
  set (k := (length s - size ms)%nat).
  destruct (reads_all ms Hg Hne [123] 0%nat [] (json_parser_new s) node_first 1 (S k) s npos Hs) as (p & Hb & Hrun);
    try done; try (by right).
  { apply wf_new. }
  { apply chain_first. }
  { by left. }
  exists p. split; [done|]. unfold json_parse. cbn [json_data json_parser_new].
  destruct (count_nodes_ok s Hl (S (S (length s))) 0 0) as [c ->]; [lia|lia|unfold zlen; lia|].
  cbn [mbind outcome_bind].
  assert (find_first_not_of delimiter_family_start s 0 = zlen [123]) as ->.
  { change 0 with (zlen (@nil Z)). rewrite Hs0, not_of_skip, <-Hs0 by done. change (zlen [] + 1) with (zlen [123]).
    rewrite Hs1. by apply not_of_here. }
  replace (S (length s)) with (size ms + S k)%nat by (unfold k; lia).
  unfold loop_at in Hrun. cbn zeta in Hrun. cbn [next_text] in Hrun. fold (json_parser_new s). rewrite Hrun.
  cbn [parse_loop]. rewrite Z.eqb_refl. cbn [negb]. rewrite andb_false_r. cbn [mbind outcome_bind].
  rewrite (b_size _ _ _ _ Hb). by rewrite Z.add_0_l.
Qed.

(** C23: reading back what was printed: from a document in the usual form, with
    an object among its outermost members, the reader builds exactly the tree
    of the document below its first node - every member in its order and at
    its depth, names and texts without their quotes and in lower case - and
    counts its members. *)
Theorem json_roundtrip ms : good ms → has_object ms = true → zlen (print_doc ms) < npos →
  ∃ p l, json_parse (json_parser_new (print_doc ms)) = Ok (p, Z.of_nat (size ms)) ∧
    jp_nodes p !! node_first = Some (with_children node_new l) ∧ children 1 (jp_nodes p) node_first 1 ms l.
Proof.
  intros Hg Ho Hl. destruct (read_back ms Hg Ho Hl) as (p & Hb & Hp).
  destruct (b_node _ _ _ _ Hb) as (n & l & Hn & Hn' & Hc). exists p, l.
  cbn [json_parser_new jp_nodes] in Hn. rewrite lookup_singleton_eq in Hn. injection Hn as <-. done.
Qed.
Definition _test_doc : members :=
  Object (str "value0") (Object (str "value2") (Leaf (str "Result") (str "000") Nil) Nil)
    (Leaf (str "value1") (str "001") Nil).
Lemma json_roundtrip_witness :
  ∃ p l, json_parse (json_parser_new (print_doc _test_doc)) = Ok (p, 4) ∧
    jp_nodes p !! node_first = Some (with_children node_new l) ∧
    children 1 (jp_nodes p) node_first 1 _test_doc l.
Proof.
  apply (json_roundtrip _test_doc); [|reflexivity|vm_compute; reflexivity].
  split_and!; try done; repeat constructor; try discriminate.
Defined.

(** A document without an object: the last text keeps the closing brace. *)
Theorem json_flat_brace : ∃ p n,
  json_parse (json_parser_new (print_doc (Leaf (str "k") (str "v") Nil))) = Ok (p, 1) ∧
  jp_nodes p !! 1 = Some n ∧ nd_value n = str "v }".
Proof. eexists _, _. split; [vm_compute; reflexivity|]. split; [vm_compute; reflexivity|reflexivity]. Qed.
