(* ===== verification/Md5.v ===== *)
(** * MD5: _external/md5.cpp, md5.h, which util_file.cpp calls
    Words are 32-bit unsigned, wrapped where the code wraps; the processor is
    little-endian.  What the state holds is specified by the message absorbed
    so far, so that the digest of any sequence of appends is that of the
    reference function on the whole message. *)
From S2P Require Import Prelude.

Definition T_MASK : Z := u32 (Z.lnot 0).
(** The constants T1 to T64. *)
Definition T_table : list Z :=
  [Z.lxor T_MASK 0x28955b87; Z.lxor T_MASK 0x173848a9; 0x242070db; Z.lxor T_MASK 0x3e423111;
   Z.lxor T_MASK 0x0a83f050; 0x4787c62a; Z.lxor T_MASK 0x57cfb9ec; Z.lxor T_MASK 0x02b96afe;
   0x698098d8; Z.lxor T_MASK 0x74bb0850; Z.lxor T_MASK 0x0000a44e; Z.lxor T_MASK 0x76a32841;
   0x6b901122; Z.lxor T_MASK 0x02678e6c; Z.lxor T_MASK 0x5986bc71; 0x49b40821;
   Z.lxor T_MASK 0x09e1da9d; Z.lxor T_MASK 0x3fbf4cbf; 0x265e5a51; Z.lxor T_MASK 0x16493855;
   Z.lxor T_MASK 0x29d0efa2; 0x02441453; Z.lxor T_MASK 0x275e197e; Z.lxor T_MASK 0x182c0437;
   0x21e1cde6; Z.lxor T_MASK 0x3cc8f829; Z.lxor T_MASK 0x0b2af278; 0x455a14ed;
   Z.lxor T_MASK 0x561c16fa; Z.lxor T_MASK 0x03105c07; 0x676f02d9; Z.lxor T_MASK 0x72d5b375;
   Z.lxor T_MASK 0x0005c6bd; Z.lxor T_MASK 0x788e097e; 0x6d9d6122; Z.lxor T_MASK 0x021ac7f3;
   Z.lxor T_MASK 0x5b4115bb; 0x4bdecfa9; Z.lxor T_MASK 0x0944b49f; Z.lxor T_MASK 0x4140438f;
   0x289b7ec6; Z.lxor T_MASK 0x155ed805; Z.lxor T_MASK 0x2b10cf7a; 0x04881d05;
   Z.lxor T_MASK 0x262b2fc6; Z.lxor T_MASK 0x1924661a; 0x1fa27cf8; Z.lxor T_MASK 0x3b53a99a;
   Z.lxor T_MASK 0x0bd6ddbb; 0x432aff97; Z.lxor T_MASK 0x546bdc58; Z.lxor T_MASK 0x036c5fc6;
   0x655b59c3; Z.lxor T_MASK 0x70f3336d; Z.lxor T_MASK 0x00100b82; Z.lxor T_MASK 0x7a7ba22e;
   0x6fa87e4f; Z.lxor T_MASK 0x01d3191f; Z.lxor T_MASK 0x5cfebceb; 0x4e0811a1;
   Z.lxor T_MASK 0x08ac817d; Z.lxor T_MASK 0x42c50dca; 0x2ad7d2bb; Z.lxor T_MASK 0x14792c6e].
Definition T (i : Z) : Z := default 0 (get T_table (i - 1)).

(** ** md5_process *)
Definition ROTATE_LEFT (x n : Z) : Z := Z.lor (u32 (Z.shiftl x n)) (Z.shiftr x (32 - n)).
Module Round.
Definition F (x y z : Z) : Z := Z.lor (Z.land x y) (Z.land (u32 (Z.lnot x)) z).
Definition G (x y z : Z) : Z := Z.lor (Z.land x z) (Z.land y (u32 (Z.lnot z))).
Definition H (x y z : Z) : Z := Z.lxor (Z.lxor x y) z.
Definition I (x y z : Z) : Z := Z.lxor y (Z.lor x (u32 (Z.lnot z))).
End Round.

Record words4 := mkWords { w0 : Z; w1 : Z; w2 : Z; w3 : Z }.
(** One SET; the registers change their roles with every step, so the result
    is the tuple of the next one: SET(a,b,c,d), SET(d,a,b,c), ... *)
Definition SET (f : Z → Z → Z → Z) (X : list Z) (r : words4) (op : Z * Z * Z) : words4 :=
  let '(k, s, Ti) := op in
  let '(mkWords a b c d) := r in
  let t := u32 (a + f b c d + default 0 (get X k) + Ti) in
  mkWords d (u32 (ROTATE_LEFT t s + b)) b c.
Definition round1 : list (Z * Z * Z) :=
  [(0, 7, T 1); (1, 12, T 2); (2, 17, T 3); (3, 22, T 4);
   (4, 7, T 5); (5, 12, T 6); (6, 17, T 7); (7, 22, T 8);
   (8, 7, T 9); (9, 12, T 10); (10, 17, T 11); (11, 22, T 12);
   (12, 7, T 13); (13, 12, T 14); (14, 17, T 15); (15, 22, T 16)].
Definition round2 : list (Z * Z * Z) :=
  [(1, 5, T 17); (6, 9, T 18); (11, 14, T 19); (0, 20, T 20);
   (5, 5, T 21); (10, 9, T 22); (15, 14, T 23); (4, 20, T 24);
   (9, 5, T 25); (14, 9, T 26); (3, 14, T 27); (8, 20, T 28);
   (13, 5, T 29); (2, 9, T 30); (7, 14, T 31); (12, 20, T 32)].
Definition round3 : list (Z * Z * Z) :=
  [(5, 4, T 33); (8, 11, T 34); (11, 16, T 35); (14, 23, T 36);
   (1, 4, T 37); (4, 11, T 38); (7, 16, T 39); (10, 23, T 40);
   (13, 4, T 41); (0, 11, T 42); (3, 16, T 43); (6, 23, T 44);
   (9, 4, T 45); (12, 11, T 46); (15, 16, T 47); (2, 23, T 48)].
Definition round4 : list (Z * Z * Z) :=
  [(0, 6, T 49); (7, 10, T 50); (14, 15, T 51); (5, 21, T 52);
   (12, 6, T 53); (3, 10, T 54); (10, 15, T 55); (1, 21, T 56);
   (8, 6, T 57); (15, 10, T 58); (6, 15, T 59); (13, 21, T 60);
   (4, 6, T 61); (11, 10, T 62); (2, 15, T 63); (9, 21, T 64)].
(** The block as sixteen little-endian words. *)
Definition block_words (data : list Z) : list Z := (λ k, le_dec (sub data (4 * k) 4)) <$> seqZ 0 16.
Definition md5_process (abcd : words4) (data : list Z) : words4 :=
  let X := block_words data in
  let r := foldl (SET Round.F X) abcd round1 in
  let r := foldl (SET Round.G X) r round2 in
  let r := foldl (SET Round.H X) r round3 in
  let r := foldl (SET Round.I X) r round4 in
  mkWords (u32 (w0 abcd + w0 r)) (u32 (w1 abcd + w1 r)) (u32 (w2 abcd + w2 r)) (u32 (w3 abcd + w3 r)).

(** ** The state and its operations *)
Record md5_state := mkMd5 { count0 : Z; count1 : Z; abcd : words4; buf : list Z }.
Definition md5_abcd : words4 := mkWords 0x67452301 (Z.lxor T_MASK 0x10325476) (Z.lxor T_MASK 0x67452301) 0x10325476.
Definition md5_init (pms : md5_state) : md5_state := mkMd5 0 0 md5_abcd (buf pms).

(** The full blocks from [p] on, and the rest of the data into the buffer. *)
Fixpoint md5_blocks (fuel : nat) (pms : md5_state) (data : list Z) (p left : Z) : outcome md5_state :=
  match fuel with
  | O => Fault OutOfFuel
  | S fuel =>
      if 64 <=? left then
        block ← peek data p 64;
        md5_blocks fuel (mkMd5 (count0 pms) (count1 pms) (md5_process (abcd pms) block) (buf pms)) data (p + 64) (left - 64)
      else if negb (left =? 0) then
        rest ← peek data p left;
        b ← poke (buf pms) 0 rest;
        Ok (mkMd5 (count0 pms) (count1 pms) (abcd pms) b)
      else Ok pms
  end.
Definition md5_append (pms : md5_state) (data : list Z) (nbytes : Z) : outcome md5_state :=
  let left := nbytes in
  let offset := Z.land (Z.shiftr (count0 pms) 3) 63 in
  let nbits := u32 (i32 (Z.shiftl nbytes 3)) in
  if nbytes <=? 0 then Ok pms
  else
    let c1 := u32 (count1 pms + Z.shiftr nbytes 29) in
    let c0 := u32 (count0 pms + nbits) in
    let c1 := if c0 <? nbits then u32 (c1 + 1) else c1 in
    if negb (offset =? 0) then
      let copy := if 64 <? offset + nbytes then 64 - offset else nbytes in
      piece ← peek data 0 copy;
      b ← poke (buf pms) offset piece;
      if offset + copy <? 64 then Ok (mkMd5 c0 c1 (abcd pms) b)
      else md5_blocks (S (Z.to_nat left)) (mkMd5 c0 c1 (md5_process (abcd pms) b) b) data copy (left - copy)
    else md5_blocks (S (Z.to_nat left)) (mkMd5 c0 c1 (abcd pms) (buf pms)) data 0 left.

Definition word_bytes (w : Z) : list Z := (λ i, u8 (Z.shiftr w (Z.shiftl i 3))) <$> [0; 1; 2; 3].
Definition pad : list Z := 0x80 :: replicate 63 0.
Definition md5_finish (pms : md5_state) : outcome (md5_state * list Z) :=
  let data := word_bytes (count0 pms) ++ word_bytes (count1 pms) in
  pms ← md5_append pms pad (Z.land (u32 (55 - Z.shiftr (count0 pms) 3)) 63 + 1);
  pms ← md5_append pms data 8;
  Ok (pms, word_bytes (w0 (abcd pms)) ++ word_bytes (w1 (abcd pms)) ++ word_bytes (w2 (abcd pms)) ++ word_bytes (w3 (abcd pms))).

(** ** The reference function: padding, blocks, digest *)
Fixpoint md5_fold (n : nat) (r : words4) (m : list Z) : words4 :=
  match n with
  | O => r
  | S n => md5_fold n (md5_process r (take 64 m)) (drop 64 m)
  end.
Definition nfull (m : list Z) : nat := (length m / 64)%nat.
Definition digest (r : words4) : list Z := le_enc 4 (w0 r) ++ le_enc 4 (w1 r) ++ le_enc 4 (w2 r) ++ le_enc 4 (w3 r).
Definition padded (m : list Z) : list Z :=
  m ++ (0x80 :: replicate (Z.to_nat ((55 - zlen m) mod 64)) 0) ++ le_enc 8 (8 * zlen m).
Definition MD5 (m : list Z) : list Z := digest (md5_fold (nfull (padded m)) md5_abcd (padded m)).

Example MD5_abc : MD5 [97; 98; 99] =
  [0x90; 0x01; 0x50; 0x98; 0x3c; 0xd2; 0x4f; 0xb0; 0xd6; 0x96; 0x3f; 0x7d; 0x28; 0xe1; 0x7f; 0x72].
Proof. vm_compute. reflexivity. Qed.
Example MD5_empty : MD5 [] =
  [0xd4; 0x1d; 0x8c; 0xd9; 0x8f; 0x00; 0xb2; 0x04; 0xe9; 0x80; 0x09; 0x98; 0xec; 0xf8; 0x42; 0x7e].
Proof. vm_compute. reflexivity. Qed.

(** ** Folding blocks *)
Lemma md5_fold_app n1 n2 r a b : length a = (64 * n1)%nat →
  md5_fold (n1 + n2) r (a ++ b) = md5_fold n2 (md5_fold n1 r a) b.
Proof.
  revert r a. induction n1 as [|n1 IH]; intros r a Ha.
  { destruct a; [done|cbn in Ha; lia]. }
  cbn [Nat.add md5_fold]. rewrite take_app_le, drop_app_le by lia. apply IH. rewrite length_drop. lia.
Qed.
(** What is left behind the full blocks. *)
Definition rem (m : list Z) : list Z := drop (64 * nfull m) m.
Definition folded (m : list Z) : words4 := md5_fold (nfull m) md5_abcd m.

Lemma nfull_bound m : (64 * nfull m ≤ length m < 64 * nfull m + 64)%nat.
Proof. unfold nfull. pose proof (Nat.div_mod_eq (length m) 64). pose proof (Nat.mod_upper_bound (length m) 64). lia. Qed.
Lemma nfull_unique m q : (64 * q ≤ length m < 64 * q + 64)%nat → nfull m = q.
Proof. intros ?. pose proof (nfull_bound m). nia. Qed.
Lemma length_rem m : length (rem m) = (length m - 64 * nfull m)%nat.
Proof. apply length_drop. Qed.
Lemma split_full m : ∃ a, m = a ++ rem m ∧ length a = (64 * nfull m)%nat ∧ folded m = md5_fold (nfull m) md5_abcd a.
Proof.
  pose proof (nfull_bound m). exists (take (64 * nfull m) m). unfold rem, folded.
  assert (length (take (64 * nfull m) m) = (64 * nfull m)%nat) as Hl by (rewrite length_take; lia).
  split_and!; [by rewrite take_drop|done|]. rewrite <-(take_drop (64 * nfull m) m) at 2.
  rewrite <-(Nat.add_0_r (nfull m)) at 1. by rewrite (md5_fold_app (nfull m) 0).
Qed.
(** More data only meets the rest. *)
Lemma fold_more m d : let e := rem m ++ d in
  folded (m ++ d) = md5_fold (nfull e) (folded m) e ∧ rem (m ++ d) = rem e.
Proof.
  intros e. destruct (split_full m) as (a & Hm & Ha & Hf).
  assert (m ++ d = a ++ e) as E by (unfold e; rewrite Hm at 1; by rewrite <-app_assoc).
  assert (nfull (m ++ d) = (nfull m + nfull e)%nat) as Hn.
  { apply nfull_unique. rewrite E, length_app, Ha. pose proof (nfull_bound e). lia. }
  split.
  - unfold folded at 1. rewrite Hn, E, md5_fold_app by done. by rewrite Hf.
  - unfold rem at 1. rewrite Hn, E, drop_app_ge by lia. unfold rem. f_equal. lia.
Qed.

(** ** What the state holds *)
Definition holds (st : md5_state) (m : list Z) : Prop :=
  count0 st = u32 (8 * zlen m) ∧ count1 st = u32 (8 * zlen m / 2 ^ 32) ∧ abcd st = folded m ∧
  zlen (buf st) = 64 ∧ sub (buf st) 0 (zlen (rem m)) = rem m.
Lemma holds_init st : zlen (buf st) = 64 → holds (md5_init st) [].
Proof. intros Hb. by split_and!. Qed.

Lemma zlen_rem m : zlen (rem m) = zlen m - 64 * Z.of_nat (nfull m).
Proof. pose proof (nfull_bound m). unfold zlen. rewrite length_rem. lia. Qed.
Lemma nfull_small m : zlen m < 64 → nfull m = 0%nat.
Proof. intros ?. apply nfull_unique. unfold zlen in *. lia. Qed.
Lemma rem_small m : zlen m < 64 → rem m = m.
Proof. intros ?. unfold rem. by rewrite nfull_small. Qed.
(** One full block in front. *)
Lemma fold_block r blk s : zlen blk = 64 →
  md5_fold (nfull (blk ++ s)) r (blk ++ s) = md5_fold (nfull s) (md5_process r blk) s ∧ rem (blk ++ s) = rem s.
Proof.
  intros Hb. assert (length blk = 64%nat) as Hl by (unfold zlen in Hb; lia).
  assert (nfull (blk ++ s) = S (nfull s)) as Hn.
  { apply nfull_unique. rewrite length_app. pose proof (nfull_bound s). lia. }
  rewrite Hn. split.
  - cbn [md5_fold]. by rewrite take_app_length', drop_app_length'.
  - unfold rem. rewrite Hn, drop_app_ge by lia. f_equal. lia.
Qed.
Lemma md5_blocks_ok fuel : ∀ st data p left,
  0 ≤ p → 0 ≤ left → p + left ≤ zlen data → zlen (buf st) = 64 → left < Z.of_nat fuel →
  let s := sub data p left in
  ∃ b, md5_blocks fuel st data p left = Ok (mkMd5 (count0 st) (count1 st) (md5_fold (nfull s) (abcd st) s) b) ∧
    zlen b = 64 ∧ sub b 0 (zlen (rem s)) = rem s.
Proof.
  induction fuel as [|fuel IH]; intros st data p left Hp Hl Hd Hb Hf s; [lia|]. cbn [md5_blocks].
  destruct (Z.leb_spec 64 left) as [H64|H64].
  - rewrite peek_ok by lia. cbn [mbind outcome_bind].
    destruct (IH (mkMd5 (count0 st) (count1 st) (md5_process (abcd st) (sub data p 64)) (buf st)) data (p + 64) (left - 64))
      as (b & -> & Hb' & Hr); [lia..|done|lia|]. exists b. cbn [count0 count1 abcd].
    assert (s = sub data p 64 ++ sub data (p + 64) (left - 64)) as -> by (unfold s; rewrite <-sub_app by lia; f_equal; lia).
    destruct (fold_block (abcd st) (sub data p 64) (sub data (p + 64) (left - 64))) as [-> ->]; [by apply zlen_sub; lia|].
    done.
  - assert (zlen s = left) as Hs by (apply zlen_sub; lia). rewrite nfull_small, rem_small by lia. cbn [md5_fold].
    destruct (Z.eqb_spec left 0) as [->|Hne]; cbn [negb].
    + exists (buf st). split; [by destruct st|]. split; [done|]. rewrite Hs. unfold s. by rewrite !sub_nil.
    + rewrite peek_ok by lia. cbn [mbind outcome_bind]. fold s. rewrite poke_ok by lia. cbn [mbind outcome_bind].
      eexists. split; [done|]. split; [rewrite zlen_splice; lia|]. apply sub_splice_prefix; lia.
Qed.

(** The message length, in two words. *)
Lemma count_offset m : Z.land (Z.shiftr (u32 (8 * zlen m)) 3) 63 = zlen (rem m).
Proof.
  pose proof (nfull_bound m). rewrite zlen_rem. change 63 with (Z.ones 6). rewrite Z.land_ones by lia.
  rewrite Z.shiftr_div_pow2 by lia. unfold wrapu. change (2 ^ 32) with 4294967296. change (2 ^ 3) with 8. change (2 ^ 6) with 64.
  assert (8 * zlen m mod 4294967296 / 8 = zlen m mod 536870912) as ->.
  { change 4294967296 with (8 * 536870912). rewrite Z.mul_mod_distr_l by lia. rewrite Z.mul_comm. by apply Z.div_mul. }
  assert (64 * Z.of_nat (nfull m) ≤ zlen m < 64 * Z.of_nat (nfull m) + 64) by (unfold zlen; lia).
  rewrite Z.mod_mod_divide by (by exists 8388608). symmetry.
  apply (Z.mod_unique _ _ (Z.of_nat (nfull m))); lia.
Qed.
Lemma count_add a n : 0 ≤ a → 0 ≤ n →
  let nbits := u32 (i32 (Z.shiftl n 3)) in
  let c0 := u32 (u32 (8 * a) + nbits) in
  let c1 := u32 (u32 (8 * a / 2 ^ 32) + Z.shiftr n 29) in
  c0 = u32 (8 * (a + n)) ∧ (if c0 <? nbits then u32 (c1 + 1) else c1) = u32 (8 * (a + n) / 2 ^ 32).
Proof.
  intros Ha Hn nbits c0 c1.
  assert (nbits = u32 (8 * n)) as Hb.
  { unfold nbits. rewrite Z.shiftl_mul_pow2 by lia. unfold wrapu, wraps. rewrite Zminus_mod_idemp_l. f_equal.
    change (2 ^ 3) with 8. lia. }
  unfold c1. rewrite Z.shiftr_div_pow2 by lia. unfold c0. rewrite Hb. clear.
  assert (n / 2 ^ 29 = 8 * n / 2 ^ 32) as ->.
  { change (2 ^ 32) with (8 * 2 ^ 29). by rewrite Z.div_mul_cancel_l. }
  replace (8 * (a + n)) with (8 * a + 8 * n) by lia. generalize (8 * a) (8 * n). clear. intros x y. unfold wrapu.
  rewrite <-Z.add_mod by done. split; [done|]. change (2 ^ 32) with 4294967296.
  pose proof (Z.div_mod x 4294967296). pose proof (Z.div_mod y 4294967296). pose proof (Z.div_mod (x + y) 4294967296).
  pose proof (Z.mod_pos_bound x 4294967296). pose proof (Z.mod_pos_bound y 4294967296).
  pose proof (Z.mod_pos_bound (x + y) 4294967296).
  destruct (Z.ltb_spec ((x + y) mod 4294967296) (y mod 4294967296)).
  - assert ((x + y) / 4294967296 = x / 4294967296 + y / 4294967296 + 1) as -> by lia.
    rewrite Z.add_mod_idemp_l, <-Z.add_assoc, Z.add_mod_idemp_l by done. f_equal. lia.
  - assert ((x + y) / 4294967296 = x / 4294967296 + y / 4294967296) as -> by lia. by rewrite Z.add_mod_idemp_l.
Qed.

(** Appending data absorbs it. *)
Lemma md5_append_ok st m data n : holds st m → 0 ≤ n ≤ zlen data →
  ∃ st', md5_append st data n = Ok st' ∧ holds st' (m ++ sub data 0 n).
Proof.
  intros (H0 & H1 & Hf & Hb & Hr) Hn. unfold md5_append. rewrite H0, count_offset, H1.
  destruct (Z.leb_spec n 0) as [?|Hpos].
  { assert (n = 0) as -> by lia. exists st. split; [done|]. by rewrite sub_nil, app_nil_r. }
  set (d := sub data 0 n). assert (zlen d = n) as Hd by (apply zlen_sub; lia).
  destruct (count_add (zlen m) n (zlen_nonneg m) ltac:(lia)) as [-> ->].
  destruct (fold_more m d) as [Hfold Hrem]. pose proof (zlen_rem m) as Hzr. pose proof (nfull_bound m) as Hq.
  set (r := rem m) in *. assert (0 ≤ zlen r < 64) as Hr64 by (unfold zlen in *; lia).
  assert (∀ ab b, ab = folded (m ++ d) → zlen b = 64 → sub b 0 (zlen (rem (m ++ d))) = rem (m ++ d) →
    holds (mkMd5 (u32 (8 * (zlen m + n))) (u32 (8 * (zlen m + n) / 2 ^ 32)) ab b) (m ++ d)) as Hholds.
  { intros ab b -> Hb' Hr'. unfold holds. cbn [count0 count1 abcd buf]. rewrite zlen_app, Hd. done. }
  destruct (Z.eqb_spec (zlen r) 0) as [Hr0|Hr0]; cbn [negb].
  - assert (r = []) as Hrn by (apply zlen_zero_nil; lia). rewrite Hrn in Hfold, Hrem. cbn [app] in Hfold, Hrem.
    destruct (md5_blocks_ok (S (Z.to_nat n)) (mkMd5 (u32 (8 * (zlen m + n))) (u32 (8 * (zlen m + n) / 2 ^ 32)) (abcd st) (buf st))
      data 0 n) as (b & -> & Hb' & Hr'); [lia..|done|lia|]. fold d in Hr' |- *. cbn [count0 count1 abcd].
    eexists. split; [done|]. apply Hholds; [by rewrite Hf|done|by rewrite Hrem].
  - set (c := if 64 <? zlen r + n then 64 - zlen r else n).
    assert (c = Z.min (64 - zlen r) n) as Hc by (unfold c; destruct (Z.ltb_spec 64 (zlen r + n)); lia).
    rewrite peek_ok by lia. cbn [mbind outcome_bind]. rewrite poke_ok by (rewrite ?zlen_sub; lia). cbn [mbind outcome_bind].
    set (b := splice (buf st) (zlen r) (sub data 0 c)).
    assert (zlen b = 64) as Hzb by (unfold b; rewrite zlen_splice; rewrite ?zlen_sub; lia).
    assert (sub b 0 (zlen r + c) = r ++ sub data 0 c) as Hsub.
    { rewrite sub_app by lia. f_equal.
      - unfold b. rewrite sub_splice_disjoint by (rewrite ?zlen_sub; lia). done.
      - unfold b. rewrite Z.add_0_l. rewrite <-(zlen_sub data 0 c) at 2 by lia. apply sub_splice_same; rewrite ?zlen_sub; lia. }
    destruct (Z.ltb_spec (zlen r + c) 64) as [Hlt|Hge].
    + assert (c = n) as Hcn by lia. rewrite Hcn in Hsub. fold d in Hsub. eexists. split; [done|].
      assert (zlen (r ++ d) < 64) as Hs by (rewrite zlen_app; lia).
      rewrite (nfull_small _ Hs) in Hfold. rewrite (rem_small _ Hs) in Hrem. apply Hholds; [by rewrite Hf, Hfold|done|].
      by rewrite Hrem, zlen_app, Hd.
    + assert (sub data 0 c ++ sub data c (n - c) = d) as Hsplit.
      { unfold d. rewrite <-(Z.add_0_l c) at 2. rewrite <-sub_app by lia. f_equal. lia. }
      assert (b = r ++ sub data 0 c) as Hbe.
      { rewrite <-Hsub. replace (zlen r + c) with (zlen b) by lia. by rewrite sub_all. }
      rewrite <-Hsplit in Hfold, Hrem. rewrite (app_assoc r), <-Hbe in Hfold, Hrem.
      destruct (fold_block (folded m) b (sub data c (n - c)) Hzb) as [Hfb Hrb]. rewrite Hfb in Hfold. rewrite Hrb in Hrem.
      destruct (md5_blocks_ok (S (Z.to_nat n)) (mkMd5 (u32 (8 * (zlen m + n))) (u32 (8 * (zlen m + n) / 2 ^ 32))
        (md5_process (abcd st) b) b) data c (n - c)) as (b' & -> & Hb' & Hr'); [lia..|done|lia|].
      cbn [count0 count1 abcd]. eexists. split; [done|]. rewrite Hsplit in Hfold, Hrem.
      apply Hholds; [by rewrite Hf|done|by rewrite Hrem].
Qed.

(** Appending piece by piece. *)
Definition md5_append_list (pms : md5_state) (d : list Z) : outcome md5_state := md5_append pms d (zlen d).
Lemma append_list_ok ds : ∀ st m, holds st m →
  ∃ st', fold_outcome md5_append_list st ds = Ok st' ∧ holds st' (m ++ mjoin ds).
Proof.
  induction ds as [|d ds IH]; intros st m Hh; cbn [fold_outcome].
  { exists st. split; [done|]. by rewrite app_nil_r. }
  destruct (md5_append_ok st m d (zlen d) Hh) as (st1 & E & Hh1); [pose proof (zlen_nonneg d); lia|].
  change (md5_append st d (zlen d)) with (md5_append_list st d) in E. rewrite E. cbn [mbind outcome_bind]. rewrite sub_all in Hh1.
  destruct (IH st1 (m ++ d) Hh1) as (st2 & E2 & Hh2). exists st2. split; [done|].
  change (mjoin (d :: ds)) with (d ++ mjoin ds). by rewrite app_assoc.
Qed.

(** ** The digest *)
Lemma word_bytes_le w : 0 ≤ w → word_bytes w = le_enc 4 w.
Proof.
  intros Hw. unfold word_bytes. cbn [fmap list_fmap]. rewrite !Z.shiftl_mul_pow2, !Z.shiftr_div_pow2 by lia.
  Transparent le_enc. cbn [le_enc]. Opaque le_enc. rewrite !Z.div_div by lia. cbn. unfold wrapu.
  change (2 ^ 0) with 1. rewrite Z.div_1_r. done.
Qed.
Definition words_ok (r : words4) : Prop := in_u 32 (w0 r) ∧ in_u 32 (w1 r) ∧ in_u 32 (w2 r) ∧ in_u 32 (w3 r).
Lemma md5_process_ok r d : words_ok (md5_process r d).
Proof. split_and!; by apply wrapu_range. Qed.
Lemma md5_fold_ok n : ∀ r m, words_ok r → words_ok (md5_fold n r m).
Proof. induction n as [|n IH]; intros r m Hr; cbn [md5_fold]; [done|]. apply IH, md5_process_ok. Qed.
Lemma folded_ok m : words_ok (folded m).
Proof. apply md5_fold_ok. by split_and!. Qed.
Lemma digest_bytes r : words_ok r →
  word_bytes (w0 r) ++ word_bytes (w1 r) ++ word_bytes (w2 r) ++ word_bytes (w3 r) = digest r.
Proof. intros (H0 & H1 & H2 & H3). unfold digest. rewrite !word_bytes_le; [done|apply H3|apply H2|apply H1|apply H0]. Qed.
Lemma le_enc_split x : le_enc 4 (u32 x) ++ le_enc 4 (u32 (x / 2 ^ 32)) = le_enc 8 x.
Proof.
  pose proof (le_enc_mod 4 x) as E1. pose proof (le_enc_mod 4 (x / 2 ^ 32)) as E2.
  change (8 * Z.of_nat 4) with 32 in E1, E2. unfold wrapu. rewrite E1, E2.
  Transparent le_enc. cbn [le_enc app]. Opaque le_enc. rewrite !Z.div_div by done. done.
Qed.
Lemma pad_count (m : list Z) : Z.land (u32 (55 - Z.shiftr (u32 (8 * zlen m)) 3)) 63 = (55 - zlen m) mod 64.
Proof.
  change 63 with (Z.ones 6). rewrite Z.land_ones by lia. rewrite Z.shiftr_div_pow2 by lia.
  change (2 ^ 3) with 8. change (2 ^ 6) with 64. unfold wrapu. change (2 ^ 32) with (8 * 536870912) at 1.
  rewrite Z.mul_mod_distr_l by lia. rewrite (Z.mul_comm 8), Z.div_mul by lia.
  rewrite Z.mod_mod_divide by (by exists 67108864).
  rewrite <-Zminus_mod_idemp_r. rewrite Z.mod_mod_divide by (by exists 8388608). by rewrite Zminus_mod_idemp_r.
Qed.
Lemma md5_finish_ok st m : holds st m → ∃ st', md5_finish st = Ok (st', MD5 m).
Proof.
  intros Hh. pose proof Hh as (H0 & H1 & _). unfold md5_finish. rewrite H0, pad_count, H1.
  pose proof (Z.mod_pos_bound (55 - zlen m) 64 ltac:(lia)) as Hb. set (k := (55 - zlen m) mod 64) in *.
  destruct (md5_append_ok st m pad (k + 1) Hh) as (st1 & -> & Hh1); [change (zlen pad) with 64; lia|].
  cbn [mbind outcome_bind].
  assert (0 ≤ 8 * zlen m) as HL by (pose proof (zlen_nonneg m); lia).
  rewrite !word_bytes_le, le_enc_split by (apply wrapu_range; lia).
  destruct (md5_append_ok st1 _ (le_enc 8 (8 * zlen m)) 8 Hh1) as (st2 & -> & Hh2); [unfold zlen; rewrite length_le_enc; lia|].
  cbn [mbind outcome_bind]. exists st2. do 2 f_equal. destruct Hh2 as (_ & _ & Hf & _). rewrite Hf.
  rewrite digest_bytes by apply folded_ok. unfold MD5.
  assert ((m ++ sub pad 0 (k + 1)) ++ sub (le_enc 8 (8 * zlen m)) 0 8 = padded m) as ->; [|done].
  unfold padded. rewrite <-app_assoc. f_equal. f_equal.
  - unfold sub, pad. rewrite drop_0. replace (Z.to_nat (k + 1)) with (S (Z.to_nat k)) by lia.
    cbn [take firstn]. f_equal. rewrite take_replicate. f_equal. lia.
Qed.

(** C38: whatever pieces the data comes in, initialising, appending them all
    and finishing never leaves the buffer and gives the MD5 digest of the
    whole - the reference function on the padded message - with the length
    counted modulo 2^64. *)
Theorem md5_spec st ds : zlen (buf st) = 64 →
  ∃ st', (pms ← fold_outcome md5_append_list (md5_init st) ds; md5_finish pms) = Ok (st', MD5 (mjoin ds)).
Proof.
  intros Hb. destruct (append_list_ok ds (md5_init st) [] (holds_init st Hb)) as (st1 & -> & Hh).
  cbn [mbind outcome_bind]. by apply md5_finish_ok.
Qed.
Definition md5_zero : md5_state := mkMd5 0 0 (mkWords 0 0 0 0) (replicate 64 0).
Lemma md5_spec_witness :
  ∃ st', (pms ← fold_outcome md5_append_list (md5_init md5_zero) [[97]; replicate 70 98; [99]]; md5_finish pms) =
    Ok (st', MD5 (mjoin [[97]; replicate 70 98; [99]])).
Proof. apply (md5_spec md5_zero). reflexivity. Defined.
