(* ===== verification/Files.v ===== *)
(** * Checksums of files: _lib/util_file.cpp
    A file is its content, or the error its opening gives; directory
    iteration and the C runtime's file functions are written out as far as the
    code sees them. *)
From Stdlib Require Import String.
From S2P Require Import Prelude Text Md5.

(** ** GetFileList: the entries up to an error, whose text ends the list *)
Record directory := mkDir { entries : list (list Z); dir_error : option (list Z) }.
Definition GetFileList (d : directory) (fileList : list (list Z)) : list (list Z) * Z :=
  let fileList := fileList ++ entries d in
  match dir_error d with
  | Some what => (fileList ++ [what], -1)
  | None => (fileList, i32 (zlen fileList))
  end.

(** ** MakeMD5 *)
Definition file : Type := sum Z (list Z).    (** the error of [_wfopen_s], or the content *)
(** [fread_s]: whole elements are counted, but the bytes of a part of one are
    read, too. *)
Definition fread_s (content : list Z) (pos : Z) (buffer : list Z) (elementSize count : Z) :
    outcome (Z * list Z * Z) :=
  let n := Z.min (elementSize * count) (zlen content - pos) in
  b ← poke buffer 0 (sub content pos n);
  Ok (n / elementSize, b, pos + n).
Fixpoint read_loop (fuel : nat) (content : list Z) (pos : Z) (byBuffer : list Z) (md5struct : md5_state) :
    outcome md5_state :=
  match fuel with
  | O => Fault OutOfFuel
  | S fuel =>
      '(nSize, byBuffer, pos) ← fread_s content pos byBuffer 1024 1;
      if negb (nSize =? 0) then
        md5struct ← md5_append md5struct byBuffer nSize;
        read_loop fuel content pos byBuffer md5struct
      else Ok md5struct
  end.
(** The digest of an open file. *)
Definition file_digest (content : list Z) : outcome (list Z) :=
  let md5struct := md5_init (mkMd5 0 0 (mkWords 0 0 0 0) (replicate 64 0)) in
  md5struct ← read_loop (S (List.length content)) content 0 (replicate 1024 0) md5struct;
  '(_, cDigest) ← md5_finish md5struct;
  Ok cDigest.

Definition hex_digit (d : Z) : Z := if d <? 10 then 48 + d else 87 + d.
(** ["%02x"] of a byte. *)
Definition hex2 (b : Z) : list Z := [hex_digit (b / 16); hex_digit (b mod 16)].
(** [swprintf_s]: the text and its terminator must fit the count given. *)
Definition swprintf_s (s : list Z) (off sizeOfBuffer : Z) (text : list Z) : outcome (list Z) :=
  if sizeOfBuffer <? zlen text + 1 then Fault InvalidParameter else poke s off (text ++ [0]).
Fixpoint format_digest (cDigest : list Z) (idx : Z) (wstrChecksum : list Z) : outcome (list Z) :=
  match cDigest with
  | [] => Ok wstrChecksum
  | b :: cDigest =>
      s ← swprintf_s wstrChecksum (idx * 2) 2 (hex2 b);
      format_digest cDigest (idx + 1) s
  end.
Definition MakeMD5 (f : file) (wstrChecksum : list Z) : outcome (Z * list Z) :=
  match f with
  | inl error => Ok (error, wstrChecksum)
  | inr content =>
      cDigest ← file_digest content;
      let wstrChecksum := take 32 (wstrChecksum ++ replicate 32 0) in
      s ← format_digest cDigest 0 wstrChecksum;
      Ok (0, s)
  end.
Definition CheckMD5 (f : file) (wstrChecksum : list Z) : outcome bool :=
  '(error, wstrMakeChecksum) ← MakeMD5 f [];
  if negb (error =? 0) then Ok false
  else Ok (bool_decide (wstrMakeChecksum = wstrChecksum)).

(** ** What is hashed: the first byte of every complete block *)
Fixpoint block_heads (n : nat) (content : list Z) : list Z :=
  match n with
  | O => []
  | S n => take 1 content ++ block_heads n (drop 1024 content)
  end.
Definition hashed (content : list Z) : list Z := block_heads (length content / 1024) content.

Ltac dlia := Z.to_euclidean_division_equations; lia.
Lemma read_loop_ok content k : ∀ fuel pos byBuffer st m,
  0 ≤ pos → k = Z.to_nat ((zlen content - pos) / 1024) → pos ≤ zlen content → (k < fuel)%nat →
  zlen byBuffer = 1024 → holds st m →
  ∃ st', read_loop fuel content pos byBuffer st = Ok st' ∧
    holds st' (m ++ block_heads k (drop (Z.to_nat pos) content)).
Proof.
  induction k as [|k IH]; intros fuel pos b st m Hp Hk Hle Hf Hb Hh; (destruct fuel as [|fuel]; [lia|]);
    cbn [read_loop block_heads]; unfold fread_s; set (n := Z.min (1024 * 1) (zlen content - pos));
    (assert (n = Z.min (1024 * 1) (zlen content - pos)) as Hnv by done);
    (rewrite poke_ok by (rewrite ?zlen_sub; lia)); cbn [mbind outcome_bind].
  - replace (n / 1024) with 0 by dlia. cbn [Z.eqb negb]. exists st. split; [done|]. by rewrite app_nil_r.
  - assert (n = 1024) as Hn by dlia. rewrite Hn. change (1024 / 1024) with 1. cbn [Z.eqb negb].
    set (b' := splice b 0 (sub content pos 1024)).
    assert (zlen b' = 1024) as Hb' by (unfold b'; rewrite zlen_splice; rewrite ?zlen_sub; lia).
    destruct (md5_append_ok st m b' 1 Hh) as (st1 & -> & Hh1); [lia|]. cbn [mbind outcome_bind].
    destruct (IH fuel (pos + 1024) b' st1 (m ++ sub b' 0 1)) as (st2 & -> & Hh2); [lia|dlia|dlia|lia|done|done|].
    exists st2. split; [done|]. rewrite <-app_assoc in Hh2.
    replace (Z.to_nat (pos + 1024)) with (Z.to_nat pos + 1024)%nat in Hh2 by lia. rewrite <-drop_drop in Hh2.
    replace (take 1 (drop (Z.to_nat pos) content)) with (sub b' 0 1); [done|].
    unfold b'. rewrite splice_whole by (rewrite zlen_sub; lia). rewrite sub_sub by lia.
    unfold sub. by rewrite Z.add_0_r.
Qed.
Lemma file_digest_ok content : file_digest content = Ok (MD5 (hashed content)).
Proof.
  unfold file_digest. set (st := mkMd5 0 0 _ (replicate 64 0)).
  destruct (read_loop_ok content (length content / 1024) (S (length content)) 0 (replicate 1024 0) (md5_init st) [])
    as (st1 & -> & Hh); [done| |apply zlen_nonneg| |done|by apply holds_init|].
  { rewrite Z.sub_0_r. unfold zlen. rewrite <-(Nat2Z.id (length content / 1024)). by rewrite Nat2Z.inj_div. }
  { pose proof (Nat.Div0.div_le_upper_bound (length content) 1024 (length content)). lia. }
  cbn [mbind outcome_bind]. destruct (md5_finish_ok st1 _ Hh) as (st2 & ->). done.
Qed.

(** the digest of a file is the MD5 digest of the first bytes of its
    complete 1024-byte blocks: of every block the code appends one byte, and
    the rest of the file not at all. *)
Theorem file_digest_spec content : file_digest content = Ok (MD5 (hashed content)).
Proof. apply file_digest_ok. Qed.
(** Files of less than 1024 bytes have the digest of the empty file. *)
Theorem short_files_collide c1 c2 :
  zlen c1 < 1024 → zlen c2 < 1024 → file_digest c1 = file_digest c2.
Proof.
  intros H1 H2. rewrite !file_digest_ok. unfold hashed. unfold zlen in *. rewrite !Nat.div_small by lia. done.
Qed.

Lemma MD5_length m : ∃ b l, MD5 m = b :: l.
Proof. unfold MD5, digest. destruct (le_enc 4 _) eqn:E; [by apply (f_equal length) in E; rewrite length_le_enc in E|]. by eexists _, _. Qed.
Lemma swprintf_two s off b : swprintf_s s off 2 (hex2 b) = Fault InvalidParameter.
Proof. done. Qed.
(** no checksum is ever made: with two characters for two digits and
    their terminator, the first swprintf_s of every file that opens calls the
    invalid-parameter handler, in MakeMD5 and so in CheckMD5; a file that does
    not open gives its error. *)
Theorem MakeMD5_never_returns f checksum :
  MakeMD5 f checksum = match f with inl error => Ok (error, checksum) | inr _ => Fault InvalidParameter end ∧
  CheckMD5 f checksum =
    match f with inl error => Ok (if error =? 0 then bool_decide ([] = checksum) else false) | inr _ => Fault InvalidParameter end.
Proof.
  destruct f as [e|content]; unfold CheckMD5, MakeMD5.
  - cbn [mbind outcome_bind]. split; [done|]. by destruct (e =? 0).
  - rewrite file_digest_ok. destruct (MD5_length (hashed content)) as (b & l & ->). done.
Qed.
