(* ===== verification/MySql.v ===== *)
(** * Database connections: _lib/MySQL.h, MySQL.cpp
    The two connection wrappers and the statement helper.  What the MySQL
    libraries answer is a parameter, by the number of the call, so that every
    theorem holds for every server; the objects they hand out live in a set of
    live addresses. *)
From Stdlib Require Import String.
From S2P Require Import Prelude Text.

Record MySqlDbInfo := mkDbInfo { server : list Z; username : list Z; password : list Z; database : list Z }.
Definition MySqlDbInfo_default : MySqlDbInfo := mkDbInfo [] (str "user_pl") (str "pass_pl") (str "world").
(** A call that ends, or throws into the handlers of [Connect]. *)
Inductive attempt (A : Type) := Done (a : A) | Thrown.
Arguments Done {A} a.
Arguments Thrown {A}.

(** ** MySqlCppConn, over Connector/C++ *)
Record MySqlCppConn := mkCpp {
  cpp_dbInfo : MySqlDbInfo;
  cpp_conn : option Z;
  cpp_calls : nat;         (** library calls so far *)
  cpp_alive : gset Z;      (** the connection objects alive *)
  cpp_next : Z }.
Definition MySqlCppConn_new : MySqlCppConn := mkCpp MySqlDbInfo_default None 0 ∅ 1.
Definition cpp_set_conn (c : option Z) (s : MySqlCppConn) : MySqlCppConn :=
  mkCpp (cpp_dbInfo s) c (cpp_calls s) (cpp_alive s) (cpp_next s).
Definition cpp_SetDbInfo (info : MySqlDbInfo) : st MySqlCppConn unit :=
  st_modify (λ s, mkCpp info (cpp_conn s) (cpp_calls s) (cpp_alive s) (cpp_next s)).

Section CppConn.
(** [connect] throws or gives a connection, [setSchema] throws or not,
    [isValid] answers, [reconnect] throws or answers. *)
Context (connect_r schema_r : MySqlDbInfo → nat → bool) (isValid_r : nat → bool) (reconnect_r : nat → option bool).

Definition cpp_answer : st MySqlCppConn nat := λ s,
  Ok (cpp_calls s, mkCpp (cpp_dbInfo s) (cpp_conn s) (S (cpp_calls s)) (cpp_alive s) (cpp_next s)).
Definition cpp_use (c : Z) : st MySqlCppConn unit := λ s,
  if bool_decide (c ∈ cpp_alive s) then Ok (tt, s) else Fault UseAfterFree.
(** [_conn = driver->connect(...); _conn->setSchema(...)]: true if neither
    throws; a connection whose schema cannot be set stays the member. *)
Definition driver_connect : st MySqlCppConn bool :=
  n ← cpp_answer;
  info ← st_gets cpp_dbInfo;
  if connect_r info n then
    _ ← st_modify (λ s, mkCpp (cpp_dbInfo s) (Some (cpp_next s)) (cpp_calls s) ({[cpp_next s]} ∪ cpp_alive s) (cpp_next s + 1));
    n ← cpp_answer;
    mret (schema_r info n)
  else mret false.
Definition isValid (c : Z) : st MySqlCppConn bool := _ ← cpp_use c; n ← cpp_answer; mret (isValid_r n).
Definition reconnect (c : Z) : st MySqlCppConn (option bool) := _ ← cpp_use c; n ← cpp_answer; mret (reconnect_r n).

(** [close(); delete]. *)
Definition cpp_Disconnect : st MySqlCppConn unit :=
  conn ← st_gets cpp_conn;
  match conn with
  | None => st_skip
  | Some c =>
      _ ← cpp_use c;
      st_modify (λ s, mkCpp (cpp_dbInfo s) None (cpp_calls s) (cpp_alive s ∖ {[c]}) (cpp_next s))
  end.
(** The five attempts: true if one of them reconnects. *)
Fixpoint reconnect_loop (cnt : nat) : st MySqlCppConn (attempt bool) :=
  match cnt with
  | O => mret (Done false)
  | S cnt =>
      conn ← st_gets cpp_conn;
      match conn with
      | None => reconnect_loop cnt
      | Some c =>
          valid ← isValid c;
          if negb valid then
            r ← reconnect c;
            match r with
            | None => mret Thrown
            | Some true => mret (Done true)
            | Some false => reconnect_loop cnt
            end
          else reconnect_loop cnt
      end
  end.
Definition cpp_TryReconnect : st MySqlCppConn (attempt (option Z)) :=
  r ← reconnect_loop 5;
  match r with
  | Thrown => mret Thrown
  | Done true => conn ← st_gets cpp_conn; mret (Done conn)
  | Done false => _ ← cpp_Disconnect; mret (Done None)
  end.
Definition cpp_Connect : st MySqlCppConn (option Z) :=
  conn ← st_gets cpp_conn;
  _ ← match conn with
      | None => _ ← driver_connect; mret ()
      | Some c =>
          valid ← isValid c;
          if negb valid then
            r ← reconnect c;
            match r with
            | Some false =>
                t ← cpp_TryReconnect;
                match t with Done x => st_modify (cpp_set_conn x) | Thrown => st_skip end
            | _ => st_skip
            end
          else st_skip
      end;
  st_gets cpp_conn.
Definition cpp_GetDbConnection : st MySqlCppConn (option Z) := cpp_Connect.

(** ** What the wrapper owns *)
Definition owned (s : MySqlCppConn) : Prop :=
  cpp_alive s = match cpp_conn s with Some c => {[c]} | None => ∅ end.
Definition no_fault (f : fault) : Prop := False.
Definition owned_by (c : Z) (s : MySqlCppConn) : Prop := owned s ∧ cpp_conn s = Some c.

Lemma keeps_answer (P : MySqlCppConn → Prop) :
  (∀ i c n a x n', P (mkCpp i c n a x) → P (mkCpp i c n' a x)) → keeps no_fault P cpp_answer.
Proof. intros HP [i c n a x] H. by apply (HP i c n). Qed.
Lemma owned_answer : keeps no_fault owned cpp_answer.
Proof. by apply keeps_answer. Qed.
Lemma owned_by_answer c : keeps no_fault (owned_by c) cpp_answer.
Proof. by apply keeps_answer. Qed.
Lemma owned_by_use c : keeps no_fault (owned_by c) (cpp_use c).
Proof. intros s [Ho Hc]. unfold cpp_use. rewrite bool_decide_true; [done|]. rewrite Ho, Hc. set_solver. Qed.
#[local] Hint Resolve owned_answer owned_by_answer owned_by_use : keeps.
Lemma owned_by_isValid c : keeps no_fault (owned_by c) (isValid c).
Proof. unfold isValid. keeps_tac. Qed.
Lemma owned_by_reconnect c : keeps no_fault (owned_by c) (reconnect c).
Proof. unfold reconnect. keeps_tac. Qed.
#[local] Hint Resolve owned_by_isValid owned_by_reconnect : keeps.

(** Code that works through the member: the member is read, then used. *)
Lemma hoare_member {A} (k : option Z → st MySqlCppConn A) (Q : A → MySqlCppConn → Prop) :
  (hoare no_fault (λ s, owned s ∧ cpp_conn s = None) (k None) Q) →
  (∀ c, hoare no_fault (owned_by c) (k (Some c)) Q) →
  hoare no_fault owned (mbind (M := st MySqlCppConn) k (st_gets cpp_conn)) Q.
Proof.
  intros Hn Hs s Ho. unfold mbind, st_bind, st_gets. destruct (cpp_conn s) as [c|] eqn:E; [by apply Hs|by apply Hn].
Qed.
Lemma hoare_conn {A} P c (k : option Z → st MySqlCppConn A) (Q : A → MySqlCppConn → Prop) :
  (∀ s, P s → cpp_conn s = c) → hoare no_fault P (k c) Q →
  hoare no_fault P (mbind (M := st MySqlCppConn) k (st_gets cpp_conn)) Q.
Proof. intros Hc Hk s Hs. unfold mbind, st_bind, st_gets. rewrite (Hc s Hs). by apply Hk. Qed.

Lemma reconnect_loop_some cnt c : keeps no_fault (owned_by c) (reconnect_loop cnt).
Proof.
  induction cnt as [|cnt IH]; cbn [reconnect_loop]; [keeps_tac|].
  apply (hoare_conn _ (Some c)); [by intros s [_ ?]|]. apply keeps_bind; [apply owned_by_isValid|]. intros v.
  destruct v; cbn [negb]; [done|]. apply keeps_bind; [apply owned_by_reconnect|]. intros r.
  destruct r as [[]|]; [keeps_tac|done|keeps_tac].
Qed.
Lemma Disconnect_some c : hoare no_fault (owned_by c) cpp_Disconnect (λ _ s, owned s ∧ cpp_conn s = None).
Proof.
  apply (hoare_conn _ (Some c)); [by intros s [_ ?]|]. intros s [Ho Hc]. unfold mbind, st_bind, cpp_use, st_modify.
  rewrite bool_decide_true by (rewrite Ho, Hc; set_solver). split; [|done]. unfold owned. cbn. rewrite Ho, Hc. set_solver.
Qed.
(** After the attempts the member is the connection, or null and nothing is
    left alive. *)
Lemma TryReconnect_some c : hoare no_fault (owned_by c) cpp_TryReconnect (λ r s,
  match r with Done None => owned s ∧ cpp_conn s = None | Done (Some c') => c' = c ∧ owned_by c s | Thrown => owned_by c s end).
Proof.
  eapply hoare_bind; [apply reconnect_loop_some|]. intros [[]|].
  - apply (hoare_conn _ (Some c)); [by intros s [_ ?]|]. by intros s Hs.
  - eapply hoare_bind; [apply Disconnect_some|]. intros [] s Hs. done.
  - by intros s Hs.
Qed.
Lemma Disconnect_owned : hoare no_fault owned cpp_Disconnect (λ _ s, owned s ∧ cpp_conn s = None).
Proof.
  intros s Hs. destruct (cpp_conn s) as [c|] eqn:E.
  - pose proof (Disconnect_some c s (conj Hs E)) as HD. by destruct (cpp_Disconnect s) as [[u s']|].
  - unfold cpp_Disconnect, mbind, st_bind, st_gets. by rewrite E.
Qed.
Lemma driver_connect_none : hoare no_fault (λ s, owned s ∧ cpp_conn s = None) driver_connect (λ _, owned).
Proof.
  intros s [Ho Hc]. unfold driver_connect, mbind, st_bind, cpp_answer, st_gets, st_modify. cbn.
  destruct (connect_r _ _); cbn; unfold owned; cbn; rewrite Ho, Hc; [set_solver|done].
Qed.
Lemma Connect_owned : hoare no_fault owned cpp_Connect (λ r s, owned s ∧ r = cpp_conn s).
Proof.
  unfold cpp_Connect. apply hoare_member.
  - apply (hoare_bind _ _ _ (λ _, owned)); [|by intros [] s Hs].
    eapply hoare_bind; [apply driver_connect_none|]. by intros b s Hs.
  - intros c. apply (hoare_bind _ _ _ (λ _, owned)); [|by intros [] s Hs].
    eapply hoare_bind; [apply owned_by_isValid|]. intros []; cbn [negb]; [by intros s [? _]|].
    eapply hoare_bind; [apply owned_by_reconnect|]. intros [[]|]; [by intros s [? _]| |by intros s [? _]].
    eapply hoare_bind; [apply TryReconnect_some|]. intros [[c'|]|] s Hs.
    + destruct Hs as (-> & Ho & Hc). unfold owned. cbn. by rewrite Ho, Hc.
    + destruct Hs as [Ho Hc]. unfold owned. cbn. by rewrite Ho, Hc.
    + by destruct Hs.
Qed.

(** ** Any sequence of calls *)
Inductive cpp_call := CallSetDbInfo (info : MySqlDbInfo) | CallConnect | CallGetDbConnection | CallTryReconnect | CallDisconnect.
Definition cpp_exec (c : cpp_call) : st MySqlCppConn unit :=
  match c with
  | CallSetDbInfo info => cpp_SetDbInfo info
  | CallConnect => _ ← cpp_Connect; mret ()
  | CallGetDbConnection => _ ← cpp_GetDbConnection; mret ()
  | CallTryReconnect => _ ← cpp_TryReconnect; mret ()
  | CallDisconnect => cpp_Disconnect
  end.
Lemma TryReconnect_none : hoare no_fault (λ s, owned s ∧ cpp_conn s = None) cpp_TryReconnect (λ _, owned).
Proof.
  intros s [Ho Hc]. assert (∀ cnt, reconnect_loop cnt s = Ok (Done false, s)) as Hl.
  { induction cnt as [|cnt IH]; [done|]. cbn [reconnect_loop]. erewrite st_bind_ok by done. by rewrite Hc. }
  unfold cpp_TryReconnect. rewrite (st_bind_ok _ _ _ _ _ (Hl 5%nat)). unfold cpp_Disconnect, mbind, st_bind, st_gets.
  by rewrite Hc.
Qed.
Lemma exec_owned c : keeps no_fault owned (cpp_exec c).
Proof.
  destruct c; cbn [cpp_exec].
  - by intros s Hs.
  - eapply hoare_bind; [apply Connect_owned|]. by intros r s [Hs _].
  - eapply hoare_bind; [apply Connect_owned|]. by intros r s [Hs _].
  - intros s Hs. destruct (cpp_conn s) as [c|] eqn:E.
    + pose proof (TryReconnect_some c s (conj Hs E)) as HT. unfold mbind, st_bind.
      destruct (cpp_TryReconnect s) as [[[[c'|]|] s']|]; [by destruct HT as (_ & ? & _)|by destruct HT|by destruct HT|done].
    + pose proof (TryReconnect_none s (conj Hs E)) as HT. unfold mbind, st_bind.
      by destruct (cpp_TryReconnect s) as [[r s']|].
  - intros s Hs. pose proof (Disconnect_owned s Hs) as HD. cbn. by destruct (cpp_Disconnect s) as [[? s']|]; [destruct HD|].
Qed.
End CppConn.

(** whatever the server answers and whatever calls are made on it, a
    MySqlCppConn never touches a deleted connection and never leaks one: the
    only connection object alive is the one it holds, and after its destructor
    there is none. *)
Theorem MySqlCppConn_owns (connect_r schema_r : MySqlDbInfo → nat → bool) isValid_r reconnect_r (ops : list cpp_call) :
  ∃ s s', st_each (cpp_exec connect_r schema_r isValid_r reconnect_r) ops MySqlCppConn_new = Ok ((), s) ∧ owned s ∧
    cpp_Disconnect s = Ok ((), s') ∧ cpp_alive s' = ∅.
Proof.
  assert (owned MySqlCppConn_new) as H0 by done.
  pose proof (keeps_each no_fault owned (cpp_exec connect_r schema_r isValid_r reconnect_r) ops
    (λ c _, exec_owned _ _ _ _ c) _ H0) as Hs.
  destruct (st_each _ ops _) as [[[] s]|]; [|done].
  pose proof (Disconnect_owned s Hs) as HD. destruct (cpp_Disconnect s) as [[[] s']|] eqn:E; [|done].
  destruct HD as [Ho Hc]. exists s, s'. split_and!; [done|done|done|]. by rewrite Ho, Hc.
Qed.

(** A connection that answers again when [TryReconnect] looks is not used: the
    five attempts skip it, and it is closed. *)
Theorem TryReconnect_drops_valid isValid_r reconnect_r s c :
  owned s → cpp_conn s = Some c → (∀ n, isValid_r n = true) →
  ∃ s', cpp_TryReconnect isValid_r reconnect_r s = Ok (Done None, s') ∧ cpp_alive s' = ∅.
Proof.
  intros Ho Hc Hv. pose proof (TryReconnect_some isValid_r reconnect_r c s (conj Ho Hc)) as HT.
  destruct (cpp_TryReconnect isValid_r reconnect_r s) as [[r s']|] eqn:E; [|done]. exists s'.
  enough (r = Done None) as -> by (destruct HT as [Ho' Hc']; by rewrite Ho', Hc').
  assert (∀ cnt s, owned_by c s → ∃ s', reconnect_loop isValid_r reconnect_r cnt s = Ok (Done false, s') ∧ owned_by c s') as Hl.
  { intros cnt. induction cnt as [|cnt IH]; intros t Ht; cbn [reconnect_loop]; [by exists t|].
    erewrite st_bind_ok by done. cbv beta. rewrite (proj2 Ht).
    pose proof (owned_by_isValid isValid_r c t Ht) as Hk. destruct (isValid isValid_r c t) as [[v t']|] eqn:Ev; [|done].
    rewrite (st_bind_ok _ _ _ _ _ Ev). assert (v = true) as ->; [|by apply IH].
    unfold isValid in Ev. apply st_bind_inv in Ev as ([] & t1 & _ & Ev). apply st_bind_inv in Ev as (n & t2 & _ & Ev).
    injection Ev as <- _. apply Hv. }
  destruct (Hl 5%nat s (conj Ho Hc)) as (s1 & E1 & H1). unfold cpp_TryReconnect in E.
  rewrite (st_bind_ok _ _ _ _ _ E1) in E. apply st_bind_inv in E as (? & s2 & _ & E). by injection E as <- _.
Qed.

(** ** MySqlApiConn, over the C API
    [Connect] initialises a MYSQL that is its own local variable, and
    [mysql_real_connect] returns the address it was given. *)
Record MySqlApiConn := mkApi {
  api_dbInfo : MySqlDbInfo;
  api_conn : option Z;
  api_calls : nat;
  api_objects : gset Z;    (** the MYSQL objects whose storage exists *)
  api_next : Z }.
Definition MySqlApiConn_new : MySqlApiConn := mkApi MySqlDbInfo_default None 0 ∅ 1.
Definition api_SetDbInfo (info : MySqlDbInfo) : st MySqlApiConn unit :=
  st_modify (λ s, mkApi info (api_conn s) (api_calls s) (api_objects s) (api_next s)).
Definition api_set_conn (c : option Z) : st MySqlApiConn unit :=
  st_modify (λ s, mkApi (api_dbInfo s) c (api_calls s) (api_objects s) (api_next s)).

Section ApiConn.
(** [mysql_real_connect] gives its argument or null, [mysql_select_db] 0 or an
    error, [mysql_ping] 0 when the server answers. *)
Context (real_connect_r select_db_r : MySqlDbInfo → nat → bool) (ping_r : nat → bool).

Definition api_answer : st MySqlApiConn nat := λ s,
  Ok (api_calls s, mkApi (api_dbInfo s) (api_conn s) (S (api_calls s)) (api_objects s) (api_next s)).
Definition api_use (c : Z) : st MySqlApiConn unit := λ s,
  if bool_decide (c ∈ api_objects s) then Ok (tt, s) else Fault UseAfterFree.
(** The local variable of a call, and its end. *)
Definition enter : st MySqlApiConn Z := λ s,
  Ok (api_next s, mkApi (api_dbInfo s) (api_conn s) (api_calls s) ({[api_next s]} ∪ api_objects s) (api_next s + 1)).
Definition leave (conn : Z) : st MySqlApiConn unit :=
  st_modify (λ s, mkApi (api_dbInfo s) (api_conn s) (api_calls s) (api_objects s ∖ {[conn]}) (api_next s)).
Definition mysql_close (c : Z) : st MySqlApiConn unit := api_use c.
(** True for a result that is not 0. *)
Definition mysql_ping (c : Z) : st MySqlApiConn bool := _ ← api_use c; n ← api_answer; mret (negb (ping_r n)).

Definition api_Connect : st MySqlApiConn (option Z) :=
  conn ← enter;
  info ← st_gets api_dbInfo;
  n ← api_answer;
  _ ← (if real_connect_r info n then
         n ← api_answer;
         if select_db_r info n then api_set_conn (Some conn) else mysql_close conn
       else st_skip);
  r ← st_gets api_conn;
  _ ← leave conn;
  mret r.
(** [mysql_close; delete; = nullptr]. *)
Definition api_Disconnect : st MySqlApiConn unit :=
  conn ← st_gets api_conn;
  match conn with
  | None => st_skip
  | Some c => _ ← mysql_close c; _ ← leave c; api_set_conn None
  end.
Fixpoint connect_loop (cnt : nat) : st MySqlApiConn bool :=
  match cnt with
  | O => mret false
  | S cnt =>
      c ← api_Connect;
      _ ← api_set_conn c;
      match c with
      | None => connect_loop cnt
      | Some c => dead ← mysql_ping c; if (dead : bool) then mret true else connect_loop cnt
      end
  end.
Definition api_TryReconnect : st MySqlApiConn (option Z) :=
  _ ← api_Disconnect;
  done ← connect_loop 5;
  if (done : bool) then st_gets api_conn
  else _ ← api_Disconnect; mret None.
Definition api_GetDbConnection : st MySqlApiConn (option Z) :=
  conn ← st_gets api_conn;
  match conn with
  | Some c =>
      dead ← mysql_ping c;
      if (dead : bool) then
        c ← api_TryReconnect;
        _ ← api_set_conn c;
        mret c
      else mret (Some c)
  | None => c ← api_Connect; _ ← api_set_conn c; mret c
  end.

(** Between calls no local variable exists. *)
Definition returned (s : MySqlApiConn) : Prop := api_objects s = ∅.
Lemma api_Connect_returns s : returned s →
  ∃ s', api_Connect s = Ok (api_conn s', s') ∧ returned s'.
Proof.
  intros Hs. unfold api_Connect, enter, leave, api_answer, api_set_conn, mysql_close, api_use, mbind, st_bind, st_gets,
    st_modify, st_skip. cbn.
  destruct (real_connect_r _ _); cbn; [destruct (select_db_r _ _); cbn|].
  - eexists (mkApi _ _ _ _ _). split; [done|]. unfold returned. cbn. rewrite Hs. set_solver.
  - rewrite bool_decide_true by set_solver. cbn. eexists (mkApi _ _ _ _ _). split; [done|]. unfold returned. cbn. rewrite Hs. set_solver.
  - eexists (mkApi _ _ _ _ _). split; [done|]. unfold returned. cbn. rewrite Hs. set_solver.
Qed.
Lemma dangling s c : returned s → api_conn s = Some c →
  api_GetDbConnection s = Fault UseAfterFree ∧ api_TryReconnect s = Fault UseAfterFree ∧ api_Disconnect s = Fault UseAfterFree.
Proof.
  intros Hs Hc. assert (api_use c s = Fault UseAfterFree) as Hu.
  { unfold api_use. rewrite bool_decide_false; [done|]. rewrite Hs. set_solver. }
  assert (api_Disconnect s = Fault UseAfterFree) as HD.
  { unfold api_Disconnect, mysql_close, mbind, st_bind, st_gets. by rewrite Hc, Hu. }
  split_and!; [|by unfold api_TryReconnect; rewrite (st_bind_fault _ _ _ _ HD)|done].
  unfold api_GetDbConnection, mysql_ping, mbind, st_bind, st_gets. by rewrite Hc, Hu.
Qed.
End ApiConn.

(** the first successful connection over the C API is the last call that
    works: the handle kept is the address of a local variable of [Connect], so
    whatever the server answers, the next use of it - the ping of
    GetDbConnection, TryReconnect, the destructor's Disconnect - accesses an
    object that is gone. *)
Theorem MySqlApiConn_dangles (real_connect_r select_db_r : MySqlDbInfo → nat → bool) ping_r s c s' :
  api_objects s = ∅ → api_conn s = None →
  api_GetDbConnection real_connect_r select_db_r ping_r s = Ok (Some c, s') →
  api_GetDbConnection real_connect_r select_db_r ping_r s' = Fault UseAfterFree ∧
  api_TryReconnect real_connect_r select_db_r ping_r s' = Fault UseAfterFree ∧
  api_Disconnect s' = Fault UseAfterFree.
Proof.
  intros Hs Hc E. unfold api_GetDbConnection in E. erewrite st_bind_ok in E by done. cbv beta in E. rewrite Hc in E.
  destruct (api_Connect_returns real_connect_r select_db_r s Hs) as (s1 & E1 & H1).
  rewrite (st_bind_ok _ _ _ _ _ E1) in E. erewrite st_bind_ok in E by done. cbv beta in E. injection E as Ec <-.
  by apply (dangling real_connect_r select_db_r ping_r _ c).
Qed.
Lemma MySqlApiConn_dangles_witness :
  let yes := (λ (_ : MySqlDbInfo) (_ : nat), true) in
  ∃ s', api_GetDbConnection yes yes (λ _, true) MySqlApiConn_new = Ok (Some 1, s') ∧
    api_Disconnect s' = Fault UseAfterFree.
Proof.
  eexists. split; [reflexivity|].
  exact (proj2 (proj2 (MySqlApiConn_dangles (λ _ _, true) (λ _ _, true) (λ _, true) MySqlApiConn_new 1 _
    eq_refl eq_refl eq_refl))).
Defined.

(** ** DbConnection: one statement at a time on a connection
    Statements, prepared statements and result sets are the library's objects;
    what reaches the connection is kept as a trace, with a mark for each call
    that threw. *)
Inductive db_event := SetAutoCommit (b : bool) | Execute (query : list Z) | ExecutePrepared | Bind (index : Z) (value : list Z)
  | GetAutoCommit | Commit | Rollback | Threw.
Record DbConnection := mkDb {
  _commit : bool;
  _statement : option Z;
  preparedStmtIndex : Z;
  _preparedStatement : option Z;
  _resultset : option Z;
  autoCommit : bool;       (** of the connection *)
  db_objects : gset Z;     (** statements and result sets alive *)
  db_next : Z;
  db_trace : list db_event }.
Definition SetCommit (commit : bool) : st DbConnection unit :=
  st_modify (λ d, mkDb commit (_statement d) (preparedStmtIndex d) (_preparedStatement d) (_resultset d) (autoCommit d)
    (db_objects d) (db_next d) (db_trace d)).
(** A new object of the library. *)
Definition db_new : st DbConnection Z := λ d,
  Ok (db_next d, mkDb (_commit d) (_statement d) (preparedStmtIndex d) (_preparedStatement d) (_resultset d) (autoCommit d)
    ({[db_next d]} ∪ db_objects d) (db_next d + 1) (db_trace d)).
Definition db_event_of (e : db_event) : st DbConnection unit :=
  st_modify (λ d, mkDb (_commit d) (_statement d) (preparedStmtIndex d) (_preparedStatement d) (_resultset d) (autoCommit d)
    (db_objects d) (db_next d) (db_trace d ++ [e])).
Definition db_use (a : option Z) : st DbConnection Z := λ d,
  match a with
  | None => Fault NullDeref
  | Some a => if bool_decide (a ∈ db_objects d) then Ok (a, d) else Fault UseAfterFree
  end.
Definition set_resultset (r : Z) : st DbConnection unit :=
  st_modify (λ d, mkDb (_commit d) (_statement d) (preparedStmtIndex d) (_preparedStatement d) (Some r) (autoCommit d)
    (db_objects d) (db_next d) (db_trace d)).

Section DbCalls.
(** Does a call throw, after what has happened and with that many objects
    handed out? *)
Context (throws_r : list db_event → Z → bool).

(** The connection is what GetDbConnection gave. *)
Definition DbConnection_new (conn : option Z) (auto : bool) : outcome (attempt DbConnection) :=
  match conn with
  | None => Fault NullDeref
  | Some _ => Ok (if throws_r [] 1 then Thrown else Done (mkDb false None 1 None None auto ∅ 1 [SetAutoCommit auto]))
  end.
(** A call of the library that may throw before it has done anything. *)
Definition db_call_of {A} (rest : st DbConnection (attempt A)) : st DbConnection (attempt A) :=
  throws ← st_gets (λ d, throws_r (db_trace d) (db_next d));
  if (throws : bool) then _ ← db_event_of Threw; mret Thrown else rest.
Definition GetStatement : st DbConnection (attempt Z) :=
  db_call_of (
    a ← db_new;
    _ ← st_modify (λ d, mkDb (_commit d) (Some a) (preparedStmtIndex d) (_preparedStatement d) (_resultset d) (autoCommit d)
          (db_objects d) (db_next d) (db_trace d));
    mret (Done a)).
Definition GetStatement_query (query : list Z) : st DbConnection (attempt Z) :=
  db_call_of (
    a ← db_new;
    _ ← st_modify (λ d, mkDb (_commit d) (_statement d) (preparedStmtIndex d) (Some a) (_resultset d) (autoCommit d)
          (db_objects d) (db_next d) (db_trace d));
    mret (Done a)).
(** [executeQuery] of a statement: a result set, kept in the member. *)
Definition executeQuery (e : db_event) : st DbConnection (attempt (option Z)) :=
  db_call_of (
    _ ← db_event_of e;
    r ← db_new;
    _ ← set_resultset r;
    r ← st_gets _resultset;
    mret (Done r)).
Definition ExecuteQuery_query (query : list Z) : st DbConnection (attempt (option Z)) :=
  statement ← st_gets _statement;
  created ← (match statement with None => GetStatement | Some a => mret (Done a) end);
  match created with
  | Thrown => mret Thrown
  | Done _ =>
      statement ← st_gets _statement;
      _ ← db_use statement;
      executeQuery (Execute query)
  end.
Definition ExecuteQuery : st DbConnection (attempt (option Z)) :=
  prepared ← st_gets _preparedStatement;
  match prepared with
  | Some a => _ ← db_use (Some a); executeQuery ExecutePrepared
  | None => r ← st_gets _resultset; mret (Done r)
  end.
(** [setBigInt], [setBlob], ..., [setString]: the value goes to the next index. *)
Definition set_parameter (value : list Z) : st DbConnection (attempt unit) :=
  prepared ← st_gets _preparedStatement;
  _ ← db_use prepared;
  index ← st_gets preparedStmtIndex;
  _ ← st_modify (λ d, mkDb (_commit d) (_statement d) (i32 (preparedStmtIndex d + 1)) (_preparedStatement d) (_resultset d)
        (autoCommit d) (db_objects d) (db_next d) (db_trace d));
  db_call_of (_ ← db_event_of (Bind index value); mret (Done tt)).
(** [if (p) delete p]. *)
Definition db_delete (a : option Z) : st DbConnection unit :=
  match a with
  | None => st_skip
  | Some a =>
      _ ← db_use (Some a);
      st_modify (λ d, mkDb (_commit d) (_statement d) (preparedStmtIndex d) (_preparedStatement d) (_resultset d) (autoCommit d)
        (db_objects d ∖ {[a]}) (db_next d) (db_trace d))
  end.
(** A call out of the destructor: an exception ends the program. *)
Definition db_last (e : db_event) : st DbConnection unit := λ d,
  if throws_r (db_trace d) (db_next d) then Fault UncaughtException else db_event_of e d.
Definition DbConnection_destroy : st DbConnection unit :=
  r ← st_gets _resultset; _ ← db_delete r;
  s ← st_gets _statement; _ ← db_delete s;
  p ← st_gets _preparedStatement; _ ← db_delete p;
  _ ← db_last GetAutoCommit;
  auto ← st_gets autoCommit;
  if negb auto then
    commit ← st_gets _commit;
    db_last (if (commit : bool) then Commit else Rollback)
  else st_skip.

(** ** The life of a DbConnection *)
Inductive db_call := CallSetCommit (b : bool) | CallStatement | CallPrepare (query : list Z) | CallExecute (query : list Z)
  | CallExecutePrepared | CallBind (value : list Z).
Definition db_exec (c : db_call) : st DbConnection unit :=
  match c with
  | CallSetCommit b => SetCommit b
  | CallStatement => _ ← GetStatement; mret ()
  | CallPrepare q => _ ← GetStatement_query q; mret ()
  | CallExecute q => _ ← ExecuteQuery_query q; mret ()
  | CallExecutePrepared => _ ← ExecuteQuery; mret ()
  | CallBind v => _ ← set_parameter v; mret ()
  end.
Definition held (d : DbConnection) : list Z :=
  option_list (_resultset d) ++ option_list (_statement d) ++ option_list (_preparedStatement d).
(** The members hold different live objects; no end of a transaction yet. *)
Definition db_ok (d : DbConnection) : Prop :=
  NoDup (held d) ∧ (∀ a, a ∈ held d → a ∈ db_objects d) ∧ (∀ a, a ∈ db_objects d → a < db_next d) ∧
  Commit ∉ db_trace d ∧ Rollback ∉ db_trace d.
Definition only_null (f : fault) : Prop := f = NullDeref.

Lemma db_ok_event d e : e ≠ Commit → e ≠ Rollback → db_ok d →
  match db_event_of e d with Ok (_, d') => db_ok d' | Fault _ => False end.
Proof. intros H1 H2 (Hn & Hh & Hl & Hc & Hr). split_and!; try done; cbn; set_solver. Qed.
Lemma event_keeps F e : e ≠ Commit → e ≠ Rollback → keeps F db_ok (db_event_of e).
Proof. intros H1 H2 d Hd. exact (db_ok_event d e H1 H2 Hd). Qed.
(** A new object, held by nobody yet. *)
Definition fresh_ok (a : Z) (d : DbConnection) : Prop := db_ok d ∧ a ∈ db_objects d ∧ a ∉ held d.
Lemma db_new_fresh F : hoare F db_ok db_new (λ a, fresh_ok a).
Proof.
  intros d (Hn & Hh & Hl & Hc & Hr). unfold db_new. split; [|split; cbn].
  - split_and!; try done; cbn; [set_solver|]. intros a [->%elem_of_singleton|Ha%Hl]%elem_of_union; lia.
  - set_solver.
  - intros Ha%Hh%Hl. lia.
Qed.
Ltac holds_tac := match goal with
  | H : NoDup (held _), Hf : _ ∉ held _ |- _ =>
      unfold held in *; cbn in *; repeat match goal with o : option Z |- _ => destruct o end; cbn in *;
      rewrite ?NoDup_cons in *; set_solver
  end.
Lemma set_resultset_ok F a : hoare F (fresh_ok a) (set_resultset a) (λ _, db_ok).
Proof.
  intros [cm s i p r au ob nx tr] [(Hn & Hh & Hl & Hc & Hr) [Ha Hf]]. split_and!; try done; holds_tac.
Qed.
Lemma call_ok {A} F P (rest : st DbConnection (attempt A)) :
  (∀ d, P d → db_ok d) → hoare F P rest (λ _, db_ok) → hoare F P (db_call_of rest) (λ _, db_ok).
Proof.
  intros HP Hr d Hd. unfold db_call_of. erewrite st_bind_ok by done. cbv beta.
  destruct (throws_r _ _); [|by apply Hr]. exact (db_ok_event d Threw ltac:(done) ltac:(done) (HP d Hd)).
Qed.
(** A new object for a member. *)
Lemma new_member F (put : Z → DbConnection → DbConnection) :
  (∀ a d, fresh_ok a d → db_ok (put a d)) →
  hoare F db_ok (db_call_of (a ← db_new; _ ← st_modify (put a); mret (Done a))) (λ _, db_ok).
Proof.
  intros Hput. apply call_ok; [done|]. eapply hoare_bind; [apply db_new_fresh|]. intros a d Hd. by apply Hput.
Qed.
Lemma GetStatement_ok F : hoare F db_ok GetStatement (λ _, db_ok).
Proof.
  apply (new_member F (λ a d, mkDb (_commit d) (Some a) (preparedStmtIndex d) (_preparedStatement d) (_resultset d) (autoCommit d)
    (db_objects d) (db_next d) (db_trace d))).
  intros a [cm s i p r au ob nx tr] [(Hn & Hh & Hl & Hc & Hr) [Ha Hf]]. split_and!; try done; holds_tac.
Qed.
Lemma GetStatement_query_ok F q : hoare F db_ok (GetStatement_query q) (λ _, db_ok).
Proof.
  apply (new_member F (λ a d, mkDb (_commit d) (_statement d) (preparedStmtIndex d) (Some a) (_resultset d) (autoCommit d)
    (db_objects d) (db_next d) (db_trace d))).
  intros a [cm s i p r au ob nx tr] [(Hn & Hh & Hl & Hc & Hr) [Ha Hf]]. split_and!; try done; holds_tac.
Qed.
Lemma executeQuery_ok F P e : e ≠ Commit → e ≠ Rollback → (∀ d, P d → db_ok d) → hoare F P (executeQuery e) (λ _, db_ok).
Proof.
  intros H1 H2 HP. apply call_ok; [done|]. apply (hoare_bind _ _ _ (λ _, db_ok)).
  { apply (hoare_conseq _ _ db_ok _ _ (λ _, db_ok)); [done|done|]. by apply event_keeps. }
  intros []. eapply hoare_bind; [apply db_new_fresh|]. intros r.
  eapply hoare_bind; [apply set_resultset_ok|]. by intros [] d Hd.
Qed.
Lemma hoare_gets_eq {S A B} F (P : S → Prop) (g : S → A) (k : A → st S B) Q :
  (∀ x, hoare F (λ s, P s ∧ g s = x) (k x) Q) → hoare F P (mbind (M := st S) k (st_gets g)) Q.
Proof. intros Hk s Hs. by apply (Hk (g s)). Qed.
Lemma db_use_held (g : DbConnection → option Z) x :
  (∀ d a, g d = Some a → a ∈ held d) → hoare only_null (λ d, db_ok d ∧ g d = x) (db_use x) (λ a d, db_ok d ∧ g d = Some a).
Proof.
  intros Hg d [Hd Hx]. destruct x as [a|]; [|done]. cbn. rewrite bool_decide_true; [done|].
  apply Hd. by apply Hg.
Qed.
Lemma held_statement d a : _statement d = Some a → a ∈ held d.
Proof. intros E. unfold held. rewrite E. set_solver. Qed.
Lemma held_prepared d a : _preparedStatement d = Some a → a ∈ held d.
Proof. intros E. unfold held. rewrite E. set_solver. Qed.
Lemma held_resultset d a : _resultset d = Some a → a ∈ held d.
Proof. intros E. unfold held. rewrite E. set_solver. Qed.

(** ... and used, when it is there. *)
Lemma db_use_some F (g : DbConnection → option Z) a :
  (∀ d a, g d = Some a → a ∈ held d) → hoare F (λ d, db_ok d ∧ g d = Some a) (db_use (Some a)) (λ _ d, db_ok d ∧ g d = Some a).
Proof. intros Hg d [Hd Hx]. cbn. rewrite bool_decide_true; [done|]. apply Hd. by apply Hg. Qed.
Lemma GetStatement_some F : hoare F db_ok GetStatement (λ r d, db_ok d ∧ (r ≠ Thrown → is_Some (_statement d))).
Proof.
  intros d Hd. pose proof (GetStatement_ok F d Hd) as H. destruct (GetStatement d) as [[r d']|f] eqn:E; [|done].
  split; [done|]. unfold GetStatement, db_call_of in E. erewrite st_bind_ok in E by done. cbv beta in E.
  destruct (throws_r _ _); [by injection E as <- <-|]. injection E as <- <-. by intros _.
Qed.
Lemma ExecuteQuery_query_ok F q : hoare F db_ok (ExecuteQuery_query q) (λ _, db_ok).
Proof.
  apply hoare_gets_eq. intros s0. apply (hoare_bind _ _ _ (λ r d, db_ok d ∧ (r ≠ Thrown → is_Some (_statement d)))).
  { destruct s0 as [a|]; [by intros d [Hd E]; split; [|exists a]|].
    eapply hoare_conseq; [| |apply GetStatement_some]; [by intros d [? _]|done]. }
  intros [a|]; [|by intros d [Hd _]]. apply hoare_gets_eq. intros s1.
  destruct s1 as [b|]; [|intros d [[_ Hs] E]; destruct (Hs ltac:(done)); congruence].
  apply (hoare_conseq _ _ (λ d, db_ok d ∧ _statement d = Some b) _ _ (λ _, db_ok)); [by intros d [[? _] ?]|done|].
  eapply hoare_bind; [apply (db_use_some F _statement), held_statement|]. intros x.
  apply executeQuery_ok; [done|done|by intros d [? _]].
Qed.
Lemma ExecuteQuery_ok F : hoare F db_ok ExecuteQuery (λ _, db_ok).
Proof.
  apply hoare_gets_eq. intros s0. destruct s0 as [p|]; [|by intros d [? _]].
  eapply hoare_bind; [apply (db_use_some F _preparedStatement), held_prepared|]. intros a.
  apply executeQuery_ok; [done|done|by intros d [? _]].
Qed.
Lemma set_parameter_some F v : hoare F (λ d, db_ok d ∧ is_Some (_preparedStatement d)) (set_parameter v) (λ _, db_ok).
Proof.
  apply hoare_gets_eq. intros [p|]; [|by intros d [[_ []] ?]; congruence].
  apply (hoare_conseq _ _ (λ d, db_ok d ∧ _preparedStatement d = Some p) _ _ (λ _, db_ok)); [by intros d [[? _] ?]|done|].
  eapply hoare_bind; [apply (db_use_some F _preparedStatement), held_prepared|]. intros a.
  apply (hoare_conseq _ _ db_ok _ _ (λ _, db_ok)); [by intros d [? _]|done|].
  apply keeps_bind; [keeps_tac|]. intros i. apply keeps_bind; [by apply keeps_modify|]. intros [].
  apply call_ok; [done|]. apply keeps_bind; [by apply event_keeps|]. by intros [] d Hd.
Qed.
Lemma set_parameter_ok v : hoare only_null db_ok (set_parameter v) (λ _, db_ok).
Proof.
  intros d Hd. destruct (_preparedStatement d) as [p|] eqn:E; [by apply (set_parameter_some only_null v d); rewrite ?E|].
  unfold set_parameter. erewrite st_bind_ok by done. cbv beta. by rewrite E.
Qed.
(** The only call that can fault is a parameter without a prepared statement. *)
Lemma db_exec_safe F c : (∀ v, c ≠ CallBind v) → keeps F db_ok (db_exec c).
Proof.
  intros Hc. destruct c as [b| |q|q| |v]; cbn [db_exec]; [by apply keeps_modify|..|by destruct (Hc v)].
  all: eapply hoare_bind; [first [apply GetStatement_ok|apply GetStatement_query_ok|apply ExecuteQuery_query_ok|apply ExecuteQuery_ok]|].
  all: by intros a d Hd.
Qed.
Lemma db_bind_safe F v : hoare F (λ d, db_ok d ∧ is_Some (_preparedStatement d)) (db_exec (CallBind v)) (λ _, db_ok).
Proof. eapply hoare_bind; [apply set_parameter_some|]. by intros a d Hd. Qed.
Lemma db_exec_ok c d : db_ok d →
  match db_exec c d with
  | Ok (_, d') => db_ok d'
  | Fault f => f = NullDeref ∧ ∃ v, c = CallBind v ∧ _preparedStatement d = None
  end.
Proof.
  intros Hd. assert ((∀ v, c ≠ CallBind v) → match db_exec c d with Ok (_, d') => db_ok d' | Fault _ => False end) as Hs
    by (intros Hc'; exact (db_exec_safe (λ _, False) c Hc' d Hd)).
  destruct c as [b| |q|q| |v]; [specialize (Hs ltac:(done)); by destruct (db_exec _ d) as [[]|]..|].
  destruct (_preparedStatement d) as [p|] eqn:E.
  - pose proof (db_bind_safe (λ _, False) v d (conj Hd (ex_intro _ p E))) as H. by destruct (db_exec _ d) as [[]|].
  - cbn [db_exec]. rewrite (st_bind_fault _ _ _ NullDeref); [split; [done|by eexists]|].
    unfold set_parameter. rewrite (st_bind_ok _ _ d (_preparedStatement d) d eq_refl). cbv beta. by rewrite E.
Qed.

(** What a call leaves alone: all but SetCommit keep [_commit], the mode of the
    connection stays, a prepared statement is never forgotten. *)
Record db_kept (d d' : DbConnection) : Prop := {
  dk_commit : _commit d' = _commit d;
  dk_auto : autoCommit d' = autoCommit d;
  dk_prepared : is_Some (_preparedStatement d) → is_Some (_preparedStatement d');
  dk_trace : db_trace d `prefix_of` db_trace d' }.
#[local] Instance db_kept_preorder : PreOrder db_kept.
Proof.
  split; [by intros d; split|]. intros d1 d2 d3 [? ? H1 ?] [? ? H2 ?]. split; [congruence|congruence|auto|by etrans].
Qed.
Lemma kept_event e : respects db_kept (db_event_of e).
Proof. apply respects_modify. intros d. split; [done..|]. by eexists. Qed.
Lemma kept_new : respects db_kept db_new.
Proof. intros d a d' [= _ <-]. by split. Qed.
Lemma kept_use a : respects db_kept (db_use a).
Proof. intros d x d'. destruct a; cbn; [|done]. case_bool_decide; [|done]. by intros [= _ <-]. Qed.
Lemma kept_resultset a : respects db_kept (set_resultset a).
Proof. apply respects_modify. by intros d. Qed.
#[local] Hint Resolve kept_event kept_new kept_use kept_resultset : respects.
Lemma kept_call {A} (rest : st DbConnection (attempt A)) : respects db_kept rest → respects db_kept (db_call_of rest).
Proof. intros Hr. unfold db_call_of. respects_tac. Qed.
Lemma kept_statement : respects db_kept GetStatement.
Proof. apply kept_call. respects_tac. by apply respects_modify. Qed.
Lemma kept_prepare q : respects db_kept (GetStatement_query q).
Proof. apply kept_call. respects_tac. by apply respects_modify. Qed.
Lemma kept_execute e : respects db_kept (executeQuery e).
Proof. apply kept_call. respects_tac. Qed.
#[local] Hint Resolve kept_statement kept_prepare kept_execute : respects.
Lemma kept_bind v : respects db_kept (set_parameter v).
Proof. unfold set_parameter. respects_tac; first [by apply respects_modify|apply kept_call; respects_tac]. Qed.
#[local] Hint Resolve kept_bind : respects.
Lemma kept_query q : respects db_kept (ExecuteQuery_query q).
Proof. unfold ExecuteQuery_query. respects_tac. Qed.
Lemma kept_query_prepared : respects db_kept ExecuteQuery.
Proof. unfold ExecuteQuery. respects_tac. Qed.
#[local] Hint Resolve kept_query kept_query_prepared : respects.
Lemma kept_exec c : (∀ b, c ≠ CallSetCommit b) → respects db_kept (db_exec c).
Proof. intros Hc. destruct c as [b| |q|q| |v]; cbn [db_exec]; [by destruct (Hc b)|respects_tac..]. Qed.
(** A statement has been prepared, unless a call threw. *)
Lemma prepare_prepares q d d' u : db_exec (CallPrepare q) d = Ok (u, d') →
  is_Some (_preparedStatement d') ∨ Threw ∈ db_trace d'.
Proof.
  cbn [db_exec]. unfold GetStatement_query, db_call_of, mbind, st_bind, st_gets. destruct (throws_r _ _).
  - intros [= _ <-]. right. cbn. set_solver.
  - intros [= _ <-]. left. by eexists.
Qed.

Definition last_commit (b : bool) (ops : list db_call) : bool :=
  foldl (λ b c, match c with CallSetCommit b' => b' | _ => b end) b ops.
(** Behind some calls. *)
Record db_after (d : DbConnection) (ops : list db_call) (d' : DbConnection) : Prop := {
  da_ok : db_ok d';
  da_auto : autoCommit d' = autoCommit d;
  da_commit : _commit d' = last_commit (_commit d) ops;
  da_some : is_Some (_preparedStatement d) ∨ Threw ∈ db_trace d → is_Some (_preparedStatement d') ∨ Threw ∈ db_trace d';
  da_prepared : _preparedStatement d' = None → (∀ q, CallPrepare q ∉ ops) ∨ Threw ∈ db_trace d' }.
Lemma kept_some d d' : db_kept d d' →
  is_Some (_preparedStatement d) ∨ Threw ∈ db_trace d → is_Some (_preparedStatement d') ∨ Threw ∈ db_trace d'.
Proof. intros [_ _ Hp Ht] [H|H]; [left; auto|right]. by eapply elem_of_prefix. Qed.
Lemma db_after_one c d d' u : db_ok d → db_exec c d = Ok (u, d') → db_after d [c] d'.
Proof.
  intros Hd E. pose proof (db_exec_ok c d Hd) as Hok. rewrite E in Hok. destruct c as [b| |q|q| |v].
  { injection E as <- <-. split; try done. intros _. left. intros q Hq. by apply list_elem_of_singleton in Hq. }
  all: match type of E with db_exec ?c _ = _ => pose proof (kept_exec c ltac:(done) _ _ _ E) as Hk end.
  all: pose proof Hk as [Hc Ha _ _]; split; [done|done|done|by apply kept_some|intros Hn].
  all: try (left; intros q' Hq'; apply list_elem_of_singleton in Hq'; by inversion Hq').
  right. destruct (prepare_prepares q d d' u E) as [[a Hs]|]; [congruence|done].
Qed.
Lemma db_after_trans d1 d2 d3 l1 l2 : db_after d1 l1 d2 → db_after d2 l2 d3 → db_after d1 (l1 ++ l2) d3.
Proof.
  intros [_ A1 C1 S1 P1] [O A2 C2 S2 P2]. split; [done|congruence|unfold last_commit in *; rewrite foldl_app; congruence|auto|].
  intros Hn. destruct (P2 Hn) as [H2|]; [|by right].
  assert (is_Some (_preparedStatement d2) ∨ Threw ∈ db_trace d2 → Threw ∈ db_trace d3) as Ht.
  { intros [[a Ha]|]%S2; [congruence|done]. }
  destruct (_preparedStatement d2) as [p|] eqn:E; [right; apply Ht; left; by eexists|].
  destruct (P1 eq_refl) as [H1|]; [|right; auto]. left. intros q [Hq|Hq]%elem_of_app; [by apply (H1 q)|by apply (H2 q)].
Qed.
(** Any calls: what they leave, and the call that faults. *)
Lemma db_run_ok ops : ∀ d, db_ok d →
  match st_each db_exec ops d with
  | Ok (_, d') => db_after d ops d'
  | Fault f => f = NullDeref ∧ ∃ pre v post d', ops = pre ++ CallBind v :: post ∧
      st_each db_exec pre d = Ok (tt, d') ∧ db_after d pre d' ∧ _preparedStatement d' = None
  end.
Proof.
  induction ops as [|c ops IH]; intros d Hd; cbn [st_each].
  { split; try done. left. intros q. by intros ?%elem_of_nil. }
  pose proof (db_exec_ok c d Hd) as Hc. destruct (db_exec c d) as [[[] d1]|f] eqn:E.
  - pose proof (db_after_one c d d1 tt Hd E) as H1. specialize (IH d1 Hc). destruct (st_each db_exec ops d1) as [[[] d2]|f].
    + by apply (db_after_trans d d1 d2 [c] ops).
    + destruct IH as [-> (pre & v & post & d2 & -> & E2 & H2 & Hn)]. split; [done|]. exists (c :: pre), v, post, d2.
      split_and!; [done|cbn [st_each]; by rewrite E|by apply (db_after_trans d d1 d2 [c] pre)|done].
  - destruct Hc as [-> (v & -> & Hn)]. split; [done|]. exists [], v, ops, d. split_and!; try done.
    split; try done. left. intros q. by intros ?%elem_of_nil.
Qed.
End DbCalls.

(** The destructor: each object held is deleted once; then, without
    autocommit, the transaction ends. *)
Definition db_without (l : list Z) (d : DbConnection) : DbConnection :=
  mkDb (_commit d) (_statement d) (preparedStmtIndex d) (_preparedStatement d) (_resultset d) (autoCommit d)
    (db_objects d ∖ list_to_set l) (db_next d) (db_trace d).
Lemma db_delete_ok a d : (∀ x, a = Some x → x ∈ db_objects d) →
  ∃ d', db_delete a d = Ok ((), d') ∧ d' = db_without (option_list a) d.
Proof.
  intros Ha. destruct a as [a|]; cbn [db_delete].
  - eexists. erewrite st_bind_ok; [split; [reflexivity|]|cbn; by rewrite bool_decide_true by auto].
    cbv beta. destruct d. unfold db_without. cbn. f_equal. set_solver.
  - exists d. split; [done|]. destruct d. unfold db_without. cbn. f_equal. set_solver.
Qed.
Lemma db_without_app l1 l2 d : db_without l2 (db_without l1 d) = db_without (l1 ++ l2) d.
Proof. destruct d. unfold db_without. cbn. f_equal. set_solver. Qed.
(** The last calls, with nothing left to delete. *)
Definition db_ends (d : DbConnection) : list db_event :=
  GetAutoCommit :: if autoCommit d then [] else [if _commit d then Commit else Rollback].
Definition db_end_throws throws_r (d : DbConnection) : bool :=
  throws_r (db_trace d) (db_next d) || negb (autoCommit d) && throws_r (db_trace d ++ [GetAutoCommit]) (db_next d).
Lemma DbConnection_destroy_ok throws_r d : db_ok d →
  match DbConnection_destroy throws_r d with
  | Ok (_, d') => db_objects d' = db_objects d ∖ list_to_set (held d) ∧ db_trace d' = db_trace d ++ db_ends d
  | Fault f => f = UncaughtException
  end ∧ (faults (λ _, False) (DbConnection_destroy throws_r d) ↔ db_end_throws throws_r d = false).
Proof.
  intros (Hn & Hh & _). unfold held in Hn, Hh. apply NoDup_app in Hn as (_ & Hd1 & Hn). apply NoDup_app in Hn as (_ & Hd2 & _).
  unfold DbConnection_destroy. erewrite st_bind_ok by done. cbv beta.
  destruct (db_delete_ok (_resultset d) d) as (d1 & E1 & H1); [intros x E; apply Hh; rewrite E; set_solver|].
  rewrite (st_bind_ok _ _ _ _ _ E1). cbv beta. erewrite st_bind_ok by done. cbv beta.
  destruct (db_delete_ok (_statement d1) d1) as (d2 & E2 & H2).
  { subst d1. cbn. intros x E. apply elem_of_difference. split; [apply Hh; rewrite E; set_solver|].
    rewrite elem_of_list_to_set. intros Hx. apply (Hd1 x Hx). rewrite E. set_solver. }
  rewrite (st_bind_ok _ _ _ _ _ E2). cbv beta. erewrite st_bind_ok by done. cbv beta.
  destruct (db_delete_ok (_preparedStatement d2) d2) as (d3 & E3 & H3).
  { subst d2 d1. rewrite db_without_app. cbn. intros x E. apply elem_of_difference. split; [apply Hh; rewrite E; set_solver|].
    rewrite elem_of_list_to_set. intros [Hx|Hx]%elem_of_app; [apply (Hd1 x Hx)|apply (Hd2 x Hx)]; rewrite E; set_solver. }
  rewrite (st_bind_ok _ _ _ _ _ E3). cbv beta.
  subst d1 d2. cbn in H3. rewrite !db_without_app in H3. subst d3. rewrite <-?app_assoc. fold (held d).
  destruct d as [cm s i p r au ob nx tr]. unfold db_last, db_end_throws, db_ends, mbind, st_bind. cbn.
  destruct (throws_r tr nx); [done|]. cbn. destruct au; cbn; [done|]. destruct (throws_r _ nx); [done|]. cbn.
  by rewrite <-app_assoc.
Qed.

(** C39: a DbConnection on a live connection, whatever is called on it and
    whichever calls throw.  It is constructed unless setAutoCommit throws.  A
    call faults only by setting a parameter while there is no prepared
    statement: because none was prepared, or because a call threw.  Otherwise
    the destructor deletes the objects held, once, asks the connection for its
    mode and ends the transaction exactly once - not at all under autocommit,
    with a commit if the last SetCommit said so, with a rollback else - while
    no call before it ends the transaction; or one of these two calls throws,
    which ends the program. *)
Theorem DbConnection_life throws_r conn auto ops :
  match DbConnection_new throws_r (Some conn) auto with
  | Fault _ => False
  | Ok Thrown => throws_r [] 1 = true
  | Ok (Done d0) =>
      match st_each (db_exec throws_r) ops d0 with
      | Fault f => f = NullDeref ∧ ∃ pre v post d, ops = pre ++ CallBind v :: post ∧
          st_each (db_exec throws_r) pre d0 = Ok (tt, d) ∧ _preparedStatement d = None ∧
          ((∀ q, CallPrepare q ∉ pre) ∨ Threw ∈ db_trace d)
      | Ok (_, d) =>
          Commit ∉ db_trace d ∧ Rollback ∉ db_trace d ∧
          match DbConnection_destroy throws_r d with
          | Fault f => f = UncaughtException ∧
              (throws_r (db_trace d) (db_next d) = true ∨
               auto = false ∧ throws_r (db_trace d ++ [GetAutoCommit]) (db_next d) = true)
          | Ok (_, d') => db_objects d' = db_objects d ∖ list_to_set (held d) ∧
              db_trace d' = db_trace d ++
                GetAutoCommit :: (if auto then [] else [if last_commit false ops then Commit else Rollback])
          end
      end
  end.
Proof.
  cbn [DbConnection_new]. destruct (throws_r [] 1) eqn:Et; [done|].
  set (d0 := mkDb false None 1 None None auto ∅ 1 [SetAutoCommit auto]). assert (db_ok d0) as H0.
  { split_and!; cbn; [constructor|set_solver|set_solver|..]; intros [?|?%elem_of_nil]%elem_of_cons; done. }
  pose proof (db_run_ok throws_r ops d0 H0) as Hs. destruct (st_each _ ops _) as [[[] d]|f].
  - destruct Hs as [Hd Ha Hc _ _]. cbn in Ha, Hc. destruct (DbConnection_destroy_ok throws_r d Hd) as [H1 H2].
    destruct Hd as (_ & _ & _ & Hnc & Hnr). split; [done|]. split; [done|]. unfold db_ends, db_end_throws in *. rewrite Ha, ?Hc in *.
    destruct (DbConnection_destroy throws_r d) as [[[] d']|f]; [done|]. split; [done|].
    destruct (throws_r (db_trace d) _); [by left|]. right. destruct auto; [by destruct (proj2 H2)|]. split; [done|].
    by destruct (throws_r (_ ++ _) _); [|destruct (proj2 H2)].
  - destruct Hs as [-> (pre & v & post & d & -> & E & Hd & Hn)]. split; [done|]. exists pre, v, post, d. split_and!; try done.
    exact (da_prepared _ _ _ Hd Hn).
Qed.
(** The life of a DbConnection whose calls do not throw: what is left over, and
    what reached the connection. *)
Definition db_life (auto : bool) (ops : list db_call) : outcome (list Z * list db_event) :=
  d ← DbConnection_new (λ _ _, false) (Some 1) auto;
  match d with
  | Thrown => Ok ([], [])
  | Done d =>
      '(_, d) ← st_each (db_exec (λ _ _, false)) ops d;
      '(_, d) ← DbConnection_destroy (λ _ _, false) d;
      Ok (elements (db_objects d), db_trace d)
  end.
(** A second query on the same DbConnection loses the first result set. *)
Theorem second_query_leaks q1 q2 :
  db_life true [CallExecute q1; CallExecute q2] = Ok ([2], [SetAutoCommit true; Execute q1; Execute q2; GetAutoCommit]).
Proof. vm_compute. reflexivity. Qed.
(** A second prepared statement gets its first parameter as its second. *)
Theorem second_prepare_misbinds q1 q2 v1 v2 :
  db_life true [CallPrepare q1; CallBind v1; CallPrepare q2; CallBind v2] =
  Ok ([1], [SetAutoCommit true; Bind 1 v1; Bind 2 v2; GetAutoCommit]).
Proof. vm_compute. reflexivity. Qed.
