(* ===== verification/DbTests.v ===== *)
(** * The database self-tests: _lib/MySQL.cpp
    [MySqlCppConn::_test] with its two sample queries, [MySqlApiConn::_test]
    and [MySqlDb::_test]: what they print and what they leave open, for any
    answers of the libraries. *)
From Stdlib Require Import String.
From S2P Require Import Prelude.
From S2P Require Import Text.
From S2P Require Import MySql.

(** A line printed: the cells of a row, or the message of a handler. *)
Inductive line := Row (cells : list Z) | Caught.

(** ** The sample over Connector/C++: two queries, each on a DbConnection of its own *)
Section Sample.
Context (connect_r schema_r : MySqlDbInfo → nat → bool) (isValid_r : nat → bool) (reconnect_r : nat → option bool).
(** Which calls of a DbConnection throw; the rows of a result set as they are
    printed, and whether reading on throws behind them. *)
Context (throws_r : list db_event → Z → bool) (rows_r : Z → list (list Z)) (next_throws_r : Z → bool).

(** [while (res && res->next()) cout << ...]. *)
Definition print_rows (res : option Z) : st DbConnection (list line) :=
  match res with
  | None => mret []
  | Some a =>
      _ ← db_use (Some a);
      mret ((Row <$> rows_r a) ++ (if next_throws_r a then [Caught] else []))
  end.
(** What follows a call in the same [try]. *)
Definition then_print {A} (call : st DbConnection (attempt A)) (rest : A → st DbConnection (list line)) : st DbConnection (list line) :=
  r ← call;
  match r with Done a => rest a | Thrown => mret [Caught] end.
(** One [try] block: the DbConnection is destroyed in either case. *)
Definition with_db (work : st DbConnection (list line)) : st MySqlCppConn (list line) :=
  conn ← cpp_GetDbConnection connect_r schema_r isValid_r reconnect_r;
  d ← st_lift (DbConnection_new throws_r conn true);
  match d with
  | Thrown => mret [Caught]
  | Done d =>
      '(lines, d) ← st_lift (work d);
      '(_, _) ← st_lift (DbConnection_destroy throws_r d);
      mret lines
  end.
Definition query_city : st DbConnection (list line) :=
  then_print (ExecuteQuery_query throws_r (str "SELECT count(*) FROM city")) print_rows.
Definition query_prepared : st DbConnection (list line) :=
  then_print (GetStatement_query throws_r (str "SELECT name, Population FROM city WHERE CountryCode = ?")) (λ _,
  then_print (set_parameter throws_r (str "kor")) (λ _,
  then_print (ExecuteQuery throws_r) print_rows)).
Definition _querySample : st MySqlCppConn (list line) :=
  l1 ← with_db query_city;
  l2 ← with_db query_prepared;
  mret (l1 ++ l2).
Definition sample_info : MySqlDbInfo :=
  mkDbInfo (str "tcp://192.168.35.227:3306") (str "user_pl") (str "pass_pl") (str "world").
Definition MySqlCppConn_test : st MySqlCppConn (list line) :=
  _ ← cpp_SetDbInfo sample_info;
  _ ← cpp_Connect connect_r schema_r isValid_r reconnect_r;
  _querySample.

(** A result set given by a query is the one held. *)
Definition result_held (r : attempt (option Z)) (d : DbConnection) : Prop :=
  db_ok d ∧ match r with Done r => r = _resultset d | Thrown => True end.
Lemma executeQuery_held P e : e ≠ Commit → e ≠ Rollback → (∀ d, P d → db_ok d) →
  hoare only_null P (executeQuery throws_r e) result_held.
Proof.
  intros H1 H2 HP d Hd. pose proof (executeQuery_ok throws_r only_null P e H1 H2 HP d Hd) as H.
  destruct (executeQuery throws_r e d) as [[r d']|] eqn:E; [|done]. split; [done|]. destruct r as [r|]; [|done].
  unfold executeQuery, db_call_of in E. erewrite st_bind_ok in E by done. cbv beta in E. destruct (throws_r _ _); [done|].
  do 3 (apply st_bind_inv in E as (? & ? & _ & E)). apply st_bind_inv in E as (r' & d2 & Er & E).
  injection Er as <- <-. by injection E as <- <-.
Qed.
Lemma print_held r : hoare only_null (λ d, db_ok d ∧ r = _resultset d) (print_rows r) (λ _, db_ok).
Proof.
  intros d [Hd ->]. destruct (_resultset d) as [a|] eqn:Er; [|done]. cbn. unfold mbind, st_bind, db_use.
  rewrite bool_decide_true; [done|]. apply Hd. by apply held_resultset.
Qed.
Lemma then_held {A} P (call : st DbConnection (attempt A)) rest (Q : A → DbConnection → Prop) :
  hoare only_null P call (λ r d, db_ok d ∧ match r with Done a => Q a d | Thrown => True end) →
  (∀ a, hoare only_null (λ d, db_ok d ∧ Q a d) (rest a) (λ _, db_ok)) →
  hoare only_null P (then_print call rest) (λ _, db_ok).
Proof. intros Hc Hr. eapply hoare_bind; [exact Hc|]. intros [a|]; [apply Hr|by intros d [? _]]. Qed.
Lemma query_city_ok : hoare only_null db_ok query_city (λ _, db_ok).
Proof.
  apply (then_held _ _ _ (λ r d, r = _resultset d)); [|apply print_held].
  apply hoare_gets_eq. intros s0. apply (hoare_bind _ _ _ (λ _, db_ok)).
  { apply (hoare_conseq _ _ db_ok _ _ (λ _, db_ok)); [by intros d [? _]|done|].
    destruct s0; [by intros d Hd|apply GetStatement_ok]. }
  intros [a|]; [|by intros d Hd]. apply hoare_gets_eq. intros s1.
  eapply hoare_bind; [apply (db_use_held _statement), held_statement|]. intros x.
  apply executeQuery_held; [done|done|by intros d [? _]].
Qed.
Lemma query_prepared_ok : hoare only_null db_ok query_prepared (λ _, db_ok).
Proof.
  apply (then_held _ _ _ (λ _ _, True)).
  { eapply hoare_conseq; [done| |apply GetStatement_query_ok]. by intros [a|] d Hd. }
  intros a. apply (then_held _ _ _ (λ _ _, True)).
  { eapply hoare_conseq; [by intros d [Hd _]; exact Hd| |apply set_parameter_ok]. by intros [[]|] d Hd. }
  intros _. apply (then_held _ _ _ (λ r d, r = _resultset d)); [|apply print_held].
  apply (hoare_conseq _ _ db_ok _ _ result_held); [by intros d [? _]|done|].
  apply hoare_gets_eq. intros s0. destruct s0 as [p|]; [|by intros d [? _]].
  eapply hoare_bind; [apply (db_use_held _preparedStatement), held_prepared|]. intros x.
  apply executeQuery_held; [done|done|by intros d [? _]].
Qed.
(** A [try] block leaves the wrapper owning its connection, if it ends. *)
Definition db_fault (f : fault) : Prop := f = NullDeref ∨ f = UncaughtException.
Lemma with_db_owned work : hoare only_null db_ok work (λ _, db_ok) → keeps db_fault owned (with_db work).
Proof.
  intros Hw. unfold with_db. eapply hoare_bind; [eapply hoare_weaken; [|apply Connect_owned]; done|].
  intros conn s [Hs Hc]. destruct conn as [c|]; [|by left].
  cbn [DbConnection_new]. destruct (throws_r [] 1); [done|].
  assert (db_ok (mkDb false None 1 None None true ∅ 1 [SetAutoCommit true])) as H0.
  { split_and!; cbn; [constructor|set_solver|set_solver|..]; intros [?|?%elem_of_nil]%elem_of_cons; done. }
  unfold mbind, st_bind. cbn [st_lift]. pose proof (Hw _ H0) as H.
  destruct (work _) as [[lines d]|f]; [|by left]. cbn. destruct (DbConnection_destroy_ok throws_r d H) as [HD _].
  destruct (DbConnection_destroy throws_r d) as [[[] d']|f]; [done|by right].
Qed.
Lemma Connect_fails s : (∀ info n, connect_r info n = false) → cpp_conn s = None →
  ∃ s', cpp_Connect connect_r schema_r isValid_r reconnect_r s = Ok (None, s') ∧ cpp_conn s' = None.
Proof.
  intros Hno Hc. unfold cpp_Connect. erewrite st_bind_ok by done. cbv beta. rewrite Hc.
  assert (driver_connect connect_r schema_r s =
    Ok (false, mkCpp (cpp_dbInfo s) (cpp_conn s) (S (cpp_calls s)) (cpp_alive s) (cpp_next s))) as Hd.
  { unfold driver_connect. do 2 (erewrite st_bind_ok by done; cbv beta). by rewrite Hno. }
  erewrite st_bind_ok; [|rewrite (st_bind_ok _ _ _ _ _ Hd); reflexivity].
  unfold st_gets. cbn [cpp_conn]. rewrite Hc. by eexists.
Qed.
(** When the server cannot be reached, the helper gets a null connection. *)
Theorem sample_without_server :
  (∀ info n, connect_r info n = false) → MySqlCppConn_test MySqlCppConn_new = Fault NullDeref.
Proof.
  intros Hno. unfold MySqlCppConn_test. erewrite st_bind_ok by done. cbv beta.
  destruct (Connect_fails (mkCpp sample_info None 0 ∅ 1) Hno eq_refl) as (s1 & E1 & H1).
  erewrite st_bind_ok by exact E1. cbv beta. unfold _querySample. apply st_bind_fault. unfold with_db, cpp_GetDbConnection.
  destruct (Connect_fails s1 Hno H1) as (s2 & E2 & _). by rewrite (st_bind_ok _ _ _ _ _ E2).
Qed.
End Sample.

(** The test of the C++ wrapper, whatever the server and the calls of the
    library do: it ends, or dereferences a null connection, or an exception
    leaves the destructor of a DbConnection; when it ends the wrapper holds its
    connection, and nothing else is alive. *)
Theorem MySqlCppConn_test_spec connect_r schema_r isValid_r reconnect_r throws_r rows_r next_throws_r :
  match MySqlCppConn_test connect_r schema_r isValid_r reconnect_r throws_r rows_r next_throws_r MySqlCppConn_new with
  | Ok (_, s) => owned s ∧ ∃ s', cpp_Disconnect s = Ok ((), s') ∧ cpp_alive s' = ∅
  | Fault f => db_fault f
  end.
Proof.
  assert (hoare db_fault (λ s, s = MySqlCppConn_new)
    (MySqlCppConn_test connect_r schema_r isValid_r reconnect_r throws_r rows_r next_throws_r) (λ _, owned)) as H.
  { apply (hoare_bind _ _ _ (λ _, owned)); [by intros s ->|]. intros [].
    eapply hoare_bind; [eapply hoare_weaken; [|apply Connect_owned]; done|]. intros c.
    apply (hoare_conseq _ _ owned _ _ (λ _, owned)); [by intros s [? _]|done|].
    apply keeps_bind; [apply with_db_owned, query_city_ok|]. intros l1.
    apply keeps_bind; [apply with_db_owned, query_prepared_ok|]. by intros l2 s Hs. }
  specialize (H _ eq_refl). destruct (MySqlCppConn_test _ _ _ _ _ _ _ _) as [[l s]|f]; [|done]. split; [done|].
  pose proof (Disconnect_owned s H) as HD. destruct (cpp_Disconnect s) as [[[] s']|]; [|done].
  destruct HD as [Ho Hc]. exists s'. split; [done|]. by rewrite Ho, Hc.
Qed.
(** A server with two result sets: objects 2 and 2, one per DbConnection. *)
Example sample_prints : (r ← MySqlCppConn_test (λ _ _, true) (λ _ _, true) (λ _, true) (λ _, None) (λ _ _, false)
    (λ _, [[52]; [53]]) (λ _, false) MySqlCppConn_new; Ok r.1) = Ok [Row [52]; Row [53]; Row [52]; Row [53]].
Proof. vm_compute. reflexivity. Qed.

(** ** The test over the C API
    One connection on a local MYSQL; what it calls is kept as a trace.  A row
    is its columns; a null column is [None]. *)
Inductive api_event := RealConnect | SelectDb | RealQuery | StoreResult | FreeResult | Close.
Section ApiTest.
Context (connects selects queries : bool) (stored : option (list (list (option (list Z))))).
(** What [mysql_fetch_row] makes of a null result: no row, or a fault. *)
Context (fetch_null : outcome unit).

(** [cout << sql_row[0]]. *)
Definition print_row (row : list (option (list Z))) : outcome line :=
  match row with
  | [] => Fault OutOfBounds
  | None :: _ => Fault NullDeref
  | Some cell :: _ => Ok (Row cell)
  end.
Fixpoint fetch_rows (rows : list (list (option (list Z)))) : outcome (list line) :=
  match rows with
  | [] => Ok []
  | row :: rows => l ← print_row row; ls ← fetch_rows rows; Ok (l :: ls)
  end.
(** The lines of the rows, and the calls. *)
Definition MySqlApiConn_test : outcome (list line * list api_event) :=
  if connects then
    '(lines, calls) ← (
      if selects then
        if queries then
          lines ← (match stored with Some rows => fetch_rows rows | None => _ ← fetch_null; Ok [] end);
          Ok (lines, [SelectDb; RealQuery; StoreResult; FreeResult])
        else Ok ([], [SelectDb; RealQuery])
      else Ok ([], [SelectDb]));
    Ok (lines, RealConnect :: calls ++ [Close])
  else Ok ([], [RealConnect]).

Definition first_cell (row : list (option (list Z))) : option (list Z) := match row with Some cell :: _ => Some cell | _ => None end.
Lemma fetch_rows_ok rows : match fetch_rows rows with
  | Ok lines => Some <$> lines = (λ row, Row <$> first_cell row) <$> rows
  | Fault f => ∃ row, row ∈ rows ∧ first_cell row = None
  end.
Proof.
  induction rows as [|[|[cell|] row] rows IH]; [done|by eexists; split; [left|]| |by eexists; split; [left|]].
  cbn [fetch_rows print_row mbind outcome_bind]. destruct (fetch_rows rows) as [ls|f].
  - cbn. by rewrite IH.
  - destruct IH as (r & Hr & E). exists r. by split; [right|].
Qed.
End ApiTest.

(** The test over the C API: it prints the first cell of every row, in order,
    frees the result it stored and closes the connection it made, as its last
    call - unless a cell is null, or the library does not take a null result. *)
Theorem MySqlApiConn_test_spec connects selects queries stored fetch_null :
  match MySqlApiConn_test connects selects queries stored fetch_null with
  | Ok (lines, calls) =>
      Some <$> lines = (λ row, Row <$> first_cell row) <$> (if connects && selects && queries then default [] stored else []) ∧
      (if connects then ∃ pre, calls = RealConnect :: pre ++ [Close] ∧ Close ∉ pre ∧ (StoreResult ∈ pre ↔ FreeResult ∈ pre)
       else calls = [RealConnect])
  | Fault f => connects = true ∧ selects = true ∧ queries = true ∧
      match stored with Some rows => ∃ row, row ∈ rows ∧ first_cell row = None | None => fetch_null = Fault f end
  end.
Proof.
  unfold MySqlApiConn_test. destruct connects; [|done]. destruct selects; [destruct queries; [destruct stored as [rows|]|]|]; cbn [andb default].
  - pose proof (fetch_rows_ok rows) as H. destruct (fetch_rows rows) as [lines|f]; [|done]. cbn. split; [done|].
    exists [SelectDb; RealQuery; StoreResult; FreeResult]. split_and!; [done|set_solver|set_solver].
  - destruct fetch_null as [[]|f]; [|done]. cbn. split; [done|].
    exists [SelectDb; RealQuery; StoreResult; FreeResult]. split_and!; [done|set_solver|set_solver].
  - cbn. split; [done|]. exists [SelectDb; RealQuery]. split_and!; [done|set_solver|set_solver].
  - cbn. split; [done|]. exists [SelectDb]. split_and!; [done|set_solver|set_solver].
Qed.

(** ** MySqlDb::_test: one after the other *)
Definition MySqlDb_test (cpp : outcome (list line * MySqlCppConn)) (api : outcome (list line * list api_event)) : outcome (list line) :=
  '(l1, _) ← cpp;
  '(l2, _) ← api;
  Ok (l1 ++ l2).
