(* ===== verification/Quic.v ===== *)
(** * The QUIC programs: svr_quic/main.cpp, cli_quic/main.cpp
    Callbacks that own what msquic hands them: handles that must be closed once,
    and send buffers that must be freed once, when their send completes.
    msquic itself is a parameter: whether a call succeeds is answered by its
    number, and the events it delivers are those its documentation allows. *)
From S2P Require Import Prelude.

(** ** The library as the programs see it *)
Record msquic := mkMsQuic {
  mq_connections : gset Z;     (** handles open *)
  mq_streams : gset Z;
  mq_buffers : gset Z;         (** blocks of malloc not freed *)
  mq_sends : list (Z * Z);     (** sends accepted and not completed: stream, client context *)
  mq_next : Z;
  mq_calls : nat }.

Inductive stream_event :=
| SEND_COMPLETE (ClientContext : Z)
| RECEIVE
| PEER_SEND_SHUTDOWN
| PEER_SEND_ABORTED
| STREAM_SHUTDOWN_COMPLETE (AppCloseInProgress : bool)
| OTHER_STREAM_EVENT.
Inductive connection_event :=
| CONNECTED
| SHUTDOWN_INITIATED_BY_TRANSPORT
| SHUTDOWN_INITIATED_BY_PEER
| CONNECTION_SHUTDOWN_COMPLETE (AppCloseInProgress : bool)
| PEER_STREAM_STARTED (Stream : Z)
| OTHER_CONNECTION_EVENT.

Definition SendBufferLength : Z := 100.

Section Quic.
(** Does the n-th call succeed? *)
Context (call_r : nat → bool).

Definition answer : st msquic bool := λ q,
  Ok (call_r (mq_calls q), mkMsQuic (mq_connections q) (mq_streams q) (mq_buffers q) (mq_sends q) (mq_next q) (S (mq_calls q))).
Definition use_stream (s : Z) : st msquic unit := λ q,
  if bool_decide (s ∈ mq_streams q) then Ok (tt, q) else Fault UseAfterFree.
Definition use_connection (c : Z) : st msquic unit := λ q,
  if bool_decide (c ∈ mq_connections q) then Ok (tt, q) else Fault UseAfterFree.
(** [malloc]; null when it fails. *)
Definition new_buffer : st msquic (option Z) := λ q,
  Ok (Some (mq_next q), mkMsQuic (mq_connections q) (mq_streams q) ({[mq_next q]} ∪ mq_buffers q) (mq_sends q) (mq_next q + 1) (mq_calls q)).
Definition malloc : st msquic (option Z) := ok ← answer; if (ok : bool) then new_buffer else mret None.
Definition free (a : Z) : st msquic unit := λ q,
  if bool_decide (a ∈ mq_buffers q)
  then Ok (tt, mkMsQuic (mq_connections q) (mq_streams q) (mq_buffers q ∖ {[a]}) (mq_sends q) (mq_next q) (mq_calls q))
  else Fault UseAfterFree.
Definition StreamSend (s buffer : Z) : st msquic bool :=
  _ ← use_stream s;
  ok ← answer;
  _ ← (if (ok : bool) then st_modify (λ q,
         mkMsQuic (mq_connections q) (mq_streams q) (mq_buffers q) (mq_sends q ++ [(s, buffer)]) (mq_next q) (mq_calls q))
       else st_skip);
  mret ok.
Definition StreamShutdown (s : Z) : st msquic unit := _ ← use_stream s; _ ← answer; mret ().
Definition StreamClose (s : Z) : st msquic unit :=
  _ ← use_stream s;
  st_modify (λ q, mkMsQuic (mq_connections q) (mq_streams q ∖ {[s]}) (mq_buffers q) (mq_sends q) (mq_next q) (mq_calls q)).
Definition new_stream : st msquic (option Z) := λ q,
  Ok (Some (mq_next q), mkMsQuic (mq_connections q) ({[mq_next q]} ∪ mq_streams q) (mq_buffers q) (mq_sends q) (mq_next q + 1) (mq_calls q)).
Definition StreamOpen (c : Z) : st msquic (option Z) :=
  _ ← use_connection c;
  ok ← answer;
  if (ok : bool) then new_stream else mret None.
Definition StreamStart (s : Z) : st msquic bool := _ ← use_stream s; answer.
Definition SetCallbackHandler_stream (s : Z) : st msquic unit := use_stream s.
Definition SetCallbackHandler_connection (c : Z) : st msquic unit := use_connection c.
Definition ConnectionSetConfiguration (c : Z) : st msquic bool := _ ← use_connection c; answer.
Definition ConnectionSendResumptionTicket (c : Z) : st msquic unit := _ ← use_connection c; _ ← answer; mret ().
Definition ConnectionShutdown (c : Z) : st msquic unit := _ ← use_connection c; _ ← answer; mret ().
Definition ConnectionClose (c : Z) : st msquic unit :=
  _ ← use_connection c;
  st_modify (λ q, mkMsQuic (mq_connections q ∖ {[c]}) (mq_streams q) (mq_buffers q) (mq_sends q) (mq_next q) (mq_calls q)).

(** ** svr_quic *)
Definition svr_Send (stream : Z) : st msquic unit :=
  sendBufferRaw ← malloc;
  match sendBufferRaw with
  | None => StreamShutdown stream
  | Some sendBuffer =>
      ok ← StreamSend stream sendBuffer;
      if negb ok then _ ← free sendBuffer; StreamShutdown stream else st_skip
  end.
Definition svr_StreamCallback (stream : Z) (event : stream_event) : st msquic unit :=
  match event with
  | SEND_COMPLETE ClientContext => free ClientContext
  | RECEIVE => st_skip
  | PEER_SEND_SHUTDOWN => svr_Send stream
  | PEER_SEND_ABORTED => StreamShutdown stream
  | STREAM_SHUTDOWN_COMPLETE _ => StreamClose stream
  | OTHER_STREAM_EVENT => st_skip
  end.
Definition svr_ConnectionCallback (connection : Z) (event : connection_event) : st msquic unit :=
  match event with
  | CONNECTED => ConnectionSendResumptionTicket connection
  | CONNECTION_SHUTDOWN_COMPLETE _ => ConnectionClose connection
  | PEER_STREAM_STARTED s => SetCallbackHandler_stream s
  | _ => st_skip
  end.
(** NEW_CONNECTION; the status returned. *)
Definition svr_ListenerCallback (connection : Z) : st msquic bool :=
  _ ← SetCallbackHandler_connection connection;
  ConnectionSetConfiguration connection.

(** ** cli_quic *)
Definition cli_StreamCallback (stream : Z) (event : stream_event) : st msquic unit :=
  match event with
  | SEND_COMPLETE ClientContext => free ClientContext
  | STREAM_SHUTDOWN_COMPLETE AppCloseInProgress => if negb AppCloseInProgress then StreamClose stream else st_skip
  | _ => st_skip
  end.
Definition cli_Send (connection : Z) : st msquic unit :=
  stream ← StreamOpen connection;
  match stream with
  | None => ConnectionShutdown connection
  | Some stream =>
      started ← StreamStart stream;
      if negb started then _ ← StreamClose stream; ConnectionShutdown connection
      else
        sendBufferRaw ← malloc;
        match sendBufferRaw with
        | None => ConnectionShutdown connection
        | Some sendBuffer =>
            ok ← StreamSend stream sendBuffer;
            if negb ok then _ ← free sendBuffer; ConnectionShutdown connection else st_skip
        end
  end.
Definition cli_ConnectionCallback (connection : Z) (event : connection_event) : st msquic unit :=
  match event with
  | CONNECTED => cli_Send connection
  | CONNECTION_SHUTDOWN_COMPLETE AppCloseInProgress =>
      if negb AppCloseInProgress then ConnectionClose connection else st_skip
  | _ => st_skip
  end.
(** [main] behind the second key: [Connection] is a global that only [main]
    writes. *)
Definition cli_main_end (Connection : option Z) : st msquic unit :=
  match Connection with Some c => ConnectionClose c | None => st_skip end.

(** ** What msquic delivers

    Events come for open handles.  A send completes once; a stream has shut
    down when its sends have completed; an event with AppCloseInProgress comes
    from within the program's own call of the close function only. *)
Definition stream_event_ok (q : msquic) (s : Z) (e : stream_event) : Prop :=
  s ∈ mq_streams q ∧
  match e with
  | SEND_COMPLETE b => (s, b) ∈ mq_sends q
  | STREAM_SHUTDOWN_COMPLETE app => app = false ∧ ∀ b, (s, b) ∉ mq_sends q
  | _ => True
  end.
Definition connection_event_ok (q : msquic) (c : Z) (e : connection_event) : Prop :=
  c ∈ mq_connections q ∧
  match e with
  | CONNECTION_SHUTDOWN_COMPLETE app => app = false
  | PEER_STREAM_STARTED s => s = mq_next q
  | _ => True
  end.
Fixpoint remove_send (sb : Z * Z) (l : list (Z * Z)) : list (Z * Z) :=
  match l with [] => [] | x :: l => if decide (x = sb) then l else x :: remove_send sb l end.
(** The library's side of an event, before the callback. *)
Definition deliver_stream (s : Z) (e : stream_event) (q : msquic) : msquic :=
  match e with
  | SEND_COMPLETE b => mkMsQuic (mq_connections q) (mq_streams q) (mq_buffers q) (remove_send (s, b) (mq_sends q)) (mq_next q) (mq_calls q)
  | _ => q
  end.
Definition deliver_connection (e : connection_event) (q : msquic) : msquic :=
  match e with
  | PEER_STREAM_STARTED s => mkMsQuic (mq_connections q) ({[s]} ∪ mq_streams q) (mq_buffers q) (mq_sends q) (mq_next q + 1) (mq_calls q)
  | _ => q
  end.
Definition new_connection (q : msquic) : msquic :=
  mkMsQuic ({[mq_next q]} ∪ mq_connections q) (mq_streams q) (mq_buffers q) (mq_sends q) (mq_next q + 1) (mq_calls q).

(** ** Ownership
    The buffers alive are those of the sends not completed, each of one send
    of an open stream; addresses are below the next one. *)
Record owns (q : msquic) : Prop := mkOwns {
  o_nodup : NoDup (mq_sends q).*2;
  o_buffers : mq_buffers q = list_to_set (mq_sends q).*2;
  o_streams : ∀ s b, (s, b) ∈ mq_sends q → s ∈ mq_streams q;
  o_next : ∀ a, a ∈ mq_buffers q ∨ a ∈ mq_streams q ∨ a ∈ mq_connections q → a < mq_next q }.
Definition no_fault (f : fault) : Prop := False.
(** Owning, with a stream or a connection that is open. *)
Definition with_stream (s : Z) (q : msquic) : Prop := owns q ∧ s ∈ mq_streams q.
Definition with_connection (c : Z) (q : msquic) : Prop := owns q ∧ c ∈ mq_connections q.
(** Between [malloc] and [StreamSend]: one buffer more. *)
Definition holding (s a : Z) (q : msquic) : Prop :=
  s ∈ mq_streams q ∧ a ∈ mq_buffers q ∧ a ∉ (mq_sends q).*2 ∧ a < mq_next q ∧
  owns (mkMsQuic (mq_connections q) (mq_streams q) (mq_buffers q ∖ {[a]}) (mq_sends q) (mq_next q) (mq_calls q)).

Lemma owns_calls q n : owns q → owns (mkMsQuic (mq_connections q) (mq_streams q) (mq_buffers q) (mq_sends q) (mq_next q) n).
Proof. by intros [? ? ? ?]. Qed.
Lemma answer_keeps P : (∀ q n, P q → P (mkMsQuic (mq_connections q) (mq_streams q) (mq_buffers q) (mq_sends q) (mq_next q) n)) →
  keeps no_fault P answer.
Proof. intros HP q Hq. by apply HP. Qed.
Lemma answer_stream s : keeps no_fault (with_stream s) answer.
Proof. apply answer_keeps. intros q n [Ho Hs]. split; [by apply owns_calls|done]. Qed.
Lemma answer_connection c : keeps no_fault (with_connection c) answer.
Proof. apply answer_keeps. intros q n [Ho Hs]. split; [by apply owns_calls|done]. Qed.
Lemma answer_holding s a : keeps no_fault (holding s a) answer.
Proof. apply answer_keeps. intros q n (Hs & Ha & Hf & Hl & Ho). split_and!; try done. exact (owns_calls _ n Ho). Qed.
Lemma use_stream_keeps s P : (∀ q, P q → s ∈ mq_streams q) → keeps no_fault P (use_stream s).
Proof. intros HP q Hq. unfold use_stream. rewrite bool_decide_true by auto. done. Qed.
Lemma use_connection_keeps c P : (∀ q, P q → c ∈ mq_connections q) → keeps no_fault P (use_connection c).
Proof. intros HP q Hq. unfold use_connection. rewrite bool_decide_true by auto. done. Qed.
Lemma use_stream_with s : keeps no_fault (with_stream s) (use_stream s).
Proof. apply use_stream_keeps. by intros q [_ ?]. Qed.
Lemma use_connection_with c : keeps no_fault (with_connection c) (use_connection c).
Proof. apply use_connection_keeps. by intros q [_ ?]. Qed.
Lemma use_stream_holding s a : keeps no_fault (holding s a) (use_stream s).
Proof. apply use_stream_keeps. by intros q [? _]. Qed.
#[local] Hint Resolve answer_stream answer_connection answer_holding use_stream_with use_connection_with use_stream_holding : keeps.

Lemma StreamShutdown_keeps s : keeps no_fault (with_stream s) (StreamShutdown s).
Proof. unfold StreamShutdown. keeps_tac. Qed.
Lemma ConnectionShutdown_keeps c : keeps no_fault (with_connection c) (ConnectionShutdown c).
Proof. unfold ConnectionShutdown. keeps_tac. Qed.
Lemma malloc_holds s : hoare no_fault (with_stream s) malloc (λ r q,
  match r with Some a => holding s a q | None => with_stream s q end).
Proof.
  eapply hoare_bind; [apply answer_stream|]. intros []; [|by intros q Hq]. intros q [Ho Hs]. unfold new_buffer.
  assert (mq_next q ∉ mq_buffers q) as Hfr by (intros Ha; pose proof (o_next q Ho (mq_next q) (or_introl Ha)); lia).
  split_and!; cbn; [done|set_solver| |lia|].
  - rewrite (o_buffers q Ho) in Hfr. by rewrite elem_of_list_to_set in Hfr.
  - destruct Ho as [H1 H2 H3 H4]. split; cbn; [done| |done|].
    + rewrite <-H2. set_solver.
    + intros a Ha. assert (a < mq_next q); [|lia]. apply H4. set_solver.
Qed.
Lemma free_holding s a : hoare no_fault (holding s a) (free a) (λ _, with_stream s).
Proof.
  intros q (Hs & Ha & _ & _ & Ho). unfold free. rewrite bool_decide_true by done. done.
Qed.
Lemma StreamSend_ok s a : hoare no_fault (holding s a) (StreamSend s a) (λ ok q,
  if ok then with_stream s q else holding s a q).
Proof.
  eapply hoare_bind; [apply use_stream_holding|]. intros []. eapply hoare_bind; [apply answer_holding|].
  intros []; [|by intros q Hq]. intros q (Hs & Ha & Hf & Hl & [H1 H2 H3 H4]). cbn in *. split; [|done]. split; cbn.
  - rewrite fmap_app. apply NoDup_app. split_and!; [done| |apply NoDup_singleton]. set_solver.
  - rewrite fmap_app, list_to_set_app_L, <-H2. cbn. set_unfold. intros x. destruct (decide (x = a)); naive_solver.
  - intros s' b [Hin|Hin]%elem_of_app; [by eapply H3|]. apply list_elem_of_singleton in Hin. congruence.
  - intros x Hx. destruct (decide (x = a)) as [->|]; [done|]. apply H4. set_solver.
Qed.

Lemma StreamClose_ok s : hoare no_fault (λ q, with_stream s q ∧ ∀ b, (s, b) ∉ mq_sends q) (StreamClose s) (λ _, owns).
Proof.
  intros q [[[H1 H2 H3 H4] Hs] Hn]. unfold StreamClose, mbind, st_bind, use_stream. rewrite bool_decide_true by done.
  split; cbn; [done|done| |].
  - intros s' b Hb. apply elem_of_difference. split; [by eapply H3|]. intros ->%elem_of_singleton. by apply (Hn b).
  - intros a Ha. apply H4. set_solver.
Qed.
Lemma ConnectionClose_ok c : hoare no_fault (with_connection c) (ConnectionClose c) (λ _ q, owns q ∧ c ∉ mq_connections q).
Proof.
  intros q [[H1 H2 H3 H4] Hc]. unfold ConnectionClose, mbind, st_bind, use_connection. rewrite bool_decide_true by done.
  split; [split; cbn; [done|done|done|]|cbn; set_solver]. intros a Ha. apply H4. set_solver.
Qed.
Lemma remove_send_spec sb l : sb ∈ l → l ≡ₚ sb :: remove_send sb l.
Proof.
  induction l as [|x l IH]; intros Hin; [by apply elem_of_nil in Hin|]. cbn [remove_send].
  destruct (decide (x = sb)) as [->|Hne]; [done|]. apply elem_of_cons in Hin as [?|Hin]; [congruence|].
  rewrite (IH Hin) at 1. apply Permutation_swap.
Qed.
(** A completed send hands its buffer to the callback. *)
Lemma deliver_holding s b q : owns q → s ∈ mq_streams q → (s, b) ∈ mq_sends q →
  holding s b (deliver_stream s (SEND_COMPLETE b) q).
Proof.
  intros [H1 H2 H3 H4] Hs Hb. pose proof (remove_send_spec _ _ Hb) as Hp. set (l := remove_send (s, b) (mq_sends q)) in *.
  assert ((mq_sends q).*2 ≡ₚ b :: l.*2) as Hp2 by (by rewrite Hp).
  rewrite Hp2 in H1. apply NoDup_cons in H1 as [Hnb Hnd].
  assert (b ∈ mq_buffers q) as Hbb by (rewrite H2, Hp2; set_solver).
  split_and!; cbn; [done|done|done|apply H4; by left|]. split; cbn; [done| | |].
  - rewrite H2, Hp2. cbn. apply set_eq. intros x. rewrite elem_of_difference, elem_of_union, !elem_of_singleton, !elem_of_list_to_set.
    split; [naive_solver|]. intros Hx. split; [by right|]. by intros ->.
  - intros s' b' Hin. eapply H3. rewrite Hp. by right.
  - intros a Ha. apply H4. set_solver.
Qed.

(** ** The callbacks *)
Lemma svr_Send_keeps s : keeps no_fault (with_stream s) (svr_Send s).
Proof.
  eapply hoare_bind; [apply malloc_holds|]. intros [a|]; [|apply StreamShutdown_keeps].
  eapply hoare_bind; [apply StreamSend_ok|]. intros []; cbn [negb]; [by intros q Hq|].
  eapply hoare_bind; [apply free_holding|]. intros []. apply StreamShutdown_keeps.
Qed.
Lemma svr_stream_ok q s e : owns q → stream_event_ok q s e →
  match svr_StreamCallback s e (deliver_stream s e q) with Ok (_, q') => owns q' | Fault _ => False end.
Proof.
  intros Ho [Hs He]. destruct e as [b| | | |app|]; cbn [svr_StreamCallback deliver_stream].
  - pose proof (free_holding s b _ (deliver_holding s b q Ho Hs He)) as H. cbn [deliver_stream] in H.
    destruct (free b _) as [[[] q']|]; [by destruct H|done].
  - done.
  - pose proof (svr_Send_keeps s q (conj Ho Hs)) as H. destruct (svr_Send s q) as [[[] q']|]; [by destruct H|done].
  - pose proof (StreamShutdown_keeps s q (conj Ho Hs)) as H. destruct (StreamShutdown s q) as [[[] q']|]; [by destruct H|done].
  - destruct He as [_ Hn]. exact (StreamClose_ok s q (conj (conj Ho Hs) Hn)).
  - done.
Qed.
Lemma deliver_owns q c e : owns q → connection_event_ok q c e →
  with_connection c (deliver_connection e q) ∧
  match e with PEER_STREAM_STARTED s => with_stream s (deliver_connection e q) | _ => True end.
Proof.
  intros Ho [Hc He]. destruct e as [| | |app|s|]; try done. subst s. destruct Ho as [H1 H2 H3 H4].
  assert (owns (deliver_connection (PEER_STREAM_STARTED (mq_next q)) q)) as Ho'.
  { split; cbn; [done|done|set_solver|]. intros a Ha. destruct (decide (a = mq_next q)) as [->|]; [lia|].
    assert (a < mq_next q); [|lia]. apply H4. set_solver. }
  split; [done|]. split; [done|]. cbn. set_solver.
Qed.
Lemma svr_connection_ok q c e : owns q → connection_event_ok q c e →
  match svr_ConnectionCallback c e (deliver_connection e q) with Ok (_, q') => owns q' | Fault _ => False end.
Proof.
  intros Ho He. destruct (deliver_owns q c e Ho He) as [Hw Hs]. destruct e as [| | |app|s|]; cbn [svr_ConnectionCallback];
    try (by destruct Hw).
  - assert (keeps no_fault (with_connection c) (ConnectionSendResumptionTicket c)) as Hk
      by (unfold ConnectionSendResumptionTicket; keeps_tac).
    specialize (Hk _ Hw). destruct (ConnectionSendResumptionTicket c _) as [[[] q']|]; [by destruct Hk|done].
  - pose proof (ConnectionClose_ok c _ Hw) as H. destruct (ConnectionClose c _) as [[[] q']|]; [by destruct H|done].
  - pose proof (use_stream_with s _ Hs) as H. unfold SetCallbackHandler_stream.
    destruct (use_stream s _) as [[[] q']|]; [by destruct H|done].
Qed.
Lemma new_connection_ok q : owns q → with_connection (mq_next q) (new_connection q).
Proof.
  intros [H1 H2 H3 H4]. split; [split; cbn; [done|done|done|]|cbn; set_solver].
  intros a Ha. destruct (decide (a = mq_next q)) as [->|]; [lia|]. assert (a < mq_next q); [|lia]. apply H4. set_solver.
Qed.
Lemma svr_listener_ok q : owns q →
  match svr_ListenerCallback (mq_next q) (new_connection q) with
  | Ok (_, q') => with_connection (mq_next q) q' | Fault _ => False end.
Proof.
  intros Ho. assert (keeps no_fault (with_connection (mq_next q)) (svr_ListenerCallback (mq_next q))) as Hk.
  { unfold svr_ListenerCallback, SetCallbackHandler_connection, ConnectionSetConfiguration. keeps_tac. }
  exact (Hk _ (new_connection_ok q Ho)).
Qed.

(** ** What a call on a stream leaves alone: the connections *)
Definition same_connections (q q' : msquic) : Prop := mq_connections q = mq_connections q'.
#[local] Instance same_connections_preorder : PreOrder same_connections.
Proof. split; [done|]. unfold same_connections. intros ? ? ? -> ->. done. Qed.
Lemma respects_answer : respects same_connections answer.
Proof. by intros q a q' [= _ <-]. Qed.
Lemma respects_use_stream s : respects same_connections (use_stream s).
Proof. intros q a q'. unfold use_stream. case_bool_decide; [|done]. by intros [= _ <-]. Qed.
Lemma respects_use_connection c : respects same_connections (use_connection c).
Proof. intros q a q'. unfold use_connection. case_bool_decide; [|done]. by intros [= _ <-]. Qed.
Lemma respects_new_buffer : respects same_connections new_buffer.
Proof. by intros q a q' [= _ <-]. Qed.
Lemma respects_new_stream : respects same_connections new_stream.
Proof. by intros q a q' [= _ <-]. Qed.
Lemma respects_free a : respects same_connections (free a).
Proof. intros q x q'. unfold free. case_bool_decide; [|done]. by intros [= _ <-]. Qed.
#[local] Hint Resolve respects_answer respects_use_stream respects_use_connection respects_new_buffer respects_new_stream
  respects_free : respects.
Lemma respects_malloc : respects same_connections malloc.
Proof. unfold malloc. respects_tac. Qed.
Lemma respects_StreamSend s a : respects same_connections (StreamSend s a).
Proof. unfold StreamSend. respects_tac. by apply respects_modify. Qed.
Lemma respects_StreamClose s : respects same_connections (StreamClose s).
Proof. unfold StreamClose. respects_tac. by apply respects_modify. Qed.
Lemma respects_StreamStart s : respects same_connections (StreamStart s).
Proof. unfold StreamStart. respects_tac. Qed.
Lemma hoare_with_connection {A} c P (m : st msquic A) Q :
  respects same_connections m → hoare no_fault P m Q →
  hoare no_fault (λ q, P q ∧ c ∈ mq_connections q) m (λ a q, Q a q ∧ c ∈ mq_connections q).
Proof.
  intros Hr Hm q [HP Hc]. specialize (Hm q HP). destruct (m q) as [[a q']|f] eqn:E; [|done].
  split; [done|]. by rewrite <-(Hr _ _ _ E).
Qed.

Lemma StreamOpen_ok c : hoare no_fault (with_connection c) (StreamOpen c) (λ r q,
  match r with Some s => (with_stream s q ∧ ∀ b, (s, b) ∉ mq_sends q) ∧ c ∈ mq_connections q | None => with_connection c q end).
Proof.
  eapply hoare_bind; [apply use_connection_with|]. intros []. eapply hoare_bind; [apply answer_connection|].
  intros []; [|by intros q Hq]. intros q [[H1 H2 H3 H4] Hc]. unfold new_stream. cbn.
  assert (mq_next q ∉ mq_streams q) as Hfr by (intros Ha; pose proof (H4 (mq_next q) (or_intror (or_introl Ha))); lia).
  split; [split; [split; [|cbn; set_solver]|by intros b Hb%H3]|done]. split; cbn; [done|done|set_solver|].
  intros a Ha. destruct (decide (a = mq_next q)) as [->|]; [lia|]. assert (a < mq_next q); [|lia]. apply H4. set_solver.
Qed.
Lemma down_ok c (P : msquic → Prop) : (∀ q, P q → owns q ∧ c ∈ mq_connections q) →
  hoare no_fault P (ConnectionShutdown c) (λ _, with_connection c).
Proof. intros HP. eapply hoare_conseq; [exact HP| |apply ConnectionShutdown_keeps]. done. Qed.
Lemma start_ok s : hoare no_fault (λ q, with_stream s q ∧ ∀ b, (s, b) ∉ mq_sends q) (StreamStart s)
  (λ _ q, with_stream s q ∧ ∀ b, (s, b) ∉ mq_sends q).
Proof.
  unfold StreamStart. apply keeps_bind; [by apply use_stream_keeps; intros q [[_ ?] _]|]. intros [].
  apply answer_keeps. intros q n [[Ho Hs] Hn]. split; [split; [by apply owns_calls|done]|done].
Qed.
Lemma cli_Send_keeps c : keeps no_fault (with_connection c) (cli_Send c).
Proof.
  eapply hoare_bind; [apply StreamOpen_ok|]. intros [s|]; [|apply ConnectionShutdown_keeps].
  eapply hoare_bind; [apply hoare_with_connection; [apply respects_StreamStart|apply start_ok]|].
  intros []; cbn [negb].
  - eapply hoare_bind.
    { eapply hoare_conseq; [| |apply (hoare_with_connection c _ _ _ respects_malloc (malloc_holds s))];
        [by intros q [[? _] ?]|intros a q Hq; exact Hq]. }
    intros [a|]; [|apply down_ok; by intros q [[? _] ?]].
    eapply hoare_bind; [apply (hoare_with_connection c _ _ _ (respects_StreamSend s a) (StreamSend_ok s a))|].
    intros []; cbn [negb]; [by intros q [[? _] ?]|].
    eapply hoare_bind; [apply (hoare_with_connection c _ _ _ (respects_free a) (free_holding s a))|]. intros [].
    apply down_ok. by intros q [[? _] ?].
  - eapply hoare_bind; [apply (hoare_with_connection c _ _ _ (respects_StreamClose s) (StreamClose_ok s))|]. intros [].
    apply down_ok. by intros q [? ?].
Qed.
Lemma cli_stream_ok q s e : owns q → stream_event_ok q s e →
  match cli_StreamCallback s e (deliver_stream s e q) with Ok (_, q') => owns q' | Fault _ => False end.
Proof.
  intros Ho [Hs He]. destruct e as [b| | | |app|]; cbn [cli_StreamCallback deliver_stream]; try done.
  - pose proof (free_holding s b _ (deliver_holding s b q Ho Hs He)) as H. cbn [deliver_stream] in H.
    destruct (free b _) as [[[] q']|]; [by destruct H|done].
  - destruct He as [-> Hn]. exact (StreamClose_ok s q (conj (conj Ho Hs) Hn)).
Qed.
Lemma cli_connection_ok q c e : owns q → connection_event_ok q c e → (∀ s, e ≠ PEER_STREAM_STARTED s) →
  match cli_ConnectionCallback c e q with Ok (_, q') => owns q' | Fault _ => False end.
Proof.
  intros Ho [Hc He] Hns. destruct e as [| | |app|s|]; cbn [cli_ConnectionCallback]; try done.
  - pose proof (cli_Send_keeps c q (conj Ho Hc)) as H. destruct (cli_Send c q) as [[[] q']|]; [by destruct H|done].
  - subst app. pose proof (ConnectionClose_ok c q (conj Ho Hc)) as H. cbn [negb].
    destruct (ConnectionClose c q) as [[[] q']|]; [by destruct H|done].
Qed.

(** ** The programs as transition systems *)
Inductive svr_quic_step (q : msquic) : msquic → Prop :=
| svr_stream s e q' : stream_event_ok q s e → svr_StreamCallback s e (deliver_stream s e q) = Ok (tt, q') → svr_quic_step q q'
| svr_connection c e q' : connection_event_ok q c e →
    svr_ConnectionCallback c e (deliver_connection e q) = Ok (tt, q') → svr_quic_step q q'
| svr_listener q' : svr_ListenerCallback (mq_next q) (new_connection q) = Ok (true, q') → svr_quic_step q q'
| svr_refused q' : svr_ListenerCallback (mq_next q) (new_connection q) = Ok (false, q') →
    (** a connection the callback refuses is closed by the library *)
    svr_quic_step q (mkMsQuic (mq_connections q' ∖ {[mq_next q]}) (mq_streams q') (mq_buffers q') (mq_sends q') (mq_next q') (mq_calls q')).
Inductive cli_quic_step (q : msquic) : msquic → Prop :=
| cli_stream s e q' : stream_event_ok q s e → cli_StreamCallback s e (deliver_stream s e q) = Ok (tt, q') → cli_quic_step q q'
| cli_connection c e q' : connection_event_ok q c e → (∀ s, e ≠ PEER_STREAM_STARTED s) →
    cli_ConnectionCallback c e q = Ok (tt, q') → cli_quic_step q q'.
Lemma svr_step_owns q q' : svr_quic_step q q' → owns q → owns q'.
Proof.
  intros [s e q1 He E|c e q1 He E|q1 E|q1 E] Ho.
  - pose proof (svr_stream_ok q s e Ho He) as H. by rewrite E in H.
  - pose proof (svr_connection_ok q c e Ho He) as H. by rewrite E in H.
  - pose proof (svr_listener_ok q Ho) as H. rewrite E in H. by destruct H.
  - pose proof (svr_listener_ok q Ho) as H. rewrite E in H. destruct H as [[H1 H2 H3 H4] _].
    split; cbn; [done|done|done|]. intros a Ha. apply H4. set_solver.
Qed.
Lemma cli_step_owns q q' : cli_quic_step q q' → owns q → owns q'.
Proof.
  intros [s e q1 He E|c e q1 He Hs E] Ho.
  - pose proof (cli_stream_ok q s e Ho He) as H. by rewrite E in H.
  - pose proof (cli_connection_ok q c e Ho He Hs) as H. by rewrite E in H.
Qed.
Lemma reach_owns (step : msquic → msquic → Prop) q q' :
  (∀ q q', step q q' → owns q → owns q') → owns q → rtc step q q' → owns q'.
Proof. intros Hs Ho. induction 1; eauto. Qed.
Lemma owns_idle q : owns q → mq_streams q = ∅ → mq_buffers q = ∅.
Proof.
  intros [_ H2 H3 _] Hs. rewrite H2. destruct (mq_sends q) as [|[s b] l] eqn:E; [done|].
  exfalso. assert (s ∈ mq_streams q) as H by (apply (H3 s b); set_solver). rewrite Hs in H. set_solver.
Qed.
End Quic.

Definition quic_start : msquic := mkMsQuic ∅ ∅ ∅ [] 1 0.
(** The client behind ConnectionOpen: the connection is handle 1. *)
Definition cli_quic_start : msquic := mkMsQuic {[1]} ∅ ∅ [] 2 0.
Lemma quic_start_owns : owns quic_start ∧ owns cli_quic_start.
Proof. split; split; cbn; try set_solver; constructor. Qed.

(** C40: the QUIC server, whatever calls fail and whatever events its library
    is allowed to deliver, in every state it reaches: no callback touches a
    closed handle or a freed buffer, the buffers not freed are exactly those
    of sends not completed, and when no stream is open there is none. *)
Theorem svr_quic_owns call_r q : rtc (svr_quic_step call_r) quic_start q →
  (∀ s e, stream_event_ok q s e → ∃ q', svr_StreamCallback call_r s e (deliver_stream s e q) = Ok (tt, q')) ∧
  (∀ c e, connection_event_ok q c e → ∃ q', svr_ConnectionCallback call_r c e (deliver_connection e q) = Ok (tt, q')) ∧
  (∃ ok q', svr_ListenerCallback call_r (mq_next q) (new_connection q) = Ok (ok, q')) ∧
  mq_buffers q = list_to_set (mq_sends q).*2 ∧ (mq_streams q = ∅ → mq_buffers q = ∅).
Proof.
  intros Hr. pose proof (reach_owns _ _ _ (svr_step_owns call_r) (proj1 quic_start_owns) Hr) as Ho. split_and!.
  - intros s e He. pose proof (svr_stream_ok call_r q s e Ho He) as H. destruct (svr_StreamCallback _ s e _) as [[[] q']|]; [by exists q'|done].
  - intros c e He. pose proof (svr_connection_ok call_r q c e Ho He) as H.
    destruct (svr_ConnectionCallback _ c e _) as [[[] q']|]; [by exists q'|done].
  - pose proof (svr_listener_ok call_r q Ho) as H. destruct (svr_ListenerCallback _ _ _) as [[ok q']|]; [by exists ok, q'|done].
  - apply (o_buffers q Ho).
  - by apply owns_idle.
Qed.
(** Two streams of one connection; the send on the second one, call 4, fails. *)
Definition demo_answers (n : nat) : bool := negb (n =? 4)%nat.
Definition demo_open : msquic := mkMsQuic {[1]} {[2; 4]} {[3]} [(2, 3)] 6 6.
Definition demo_closed : msquic := mkMsQuic ∅ ∅ ∅ [] 6 6.
Lemma demo_open_reached : rtc (svr_quic_step demo_answers) quic_start demo_open.
Proof.
  eapply rtc_l; [eapply svr_listener; vm_compute; reflexivity|].
  eapply rtc_l; [eapply (svr_connection _ _ 1 (PEER_STREAM_STARTED 2)); [split; [|done]; cbn; set_solver|vm_compute; reflexivity]|].
  eapply rtc_l; [eapply (svr_stream _ _ 2 PEER_SEND_SHUTDOWN); [split; [|done]; cbn; set_solver|vm_compute; reflexivity]|].
  eapply rtc_l; [eapply (svr_connection _ _ 1 (PEER_STREAM_STARTED 4)); [split; [|done]; cbn; set_solver|vm_compute; reflexivity]|].
  eapply rtc_l; [eapply (svr_stream _ _ 4 PEER_SEND_SHUTDOWN); [split; [|done]; cbn; set_solver|vm_compute; reflexivity]|].
  apply rtc_refl.
Qed.
Lemma demo_completes : stream_event_ok demo_open 2 (SEND_COMPLETE 3).
Proof. split; cbn; set_solver. Qed.
Lemma demo_closed_reached : rtc (svr_quic_step demo_answers) demo_open demo_closed.
Proof.
  eapply rtc_l; [eapply (svr_stream _ _ 2 (SEND_COMPLETE 3)); [apply demo_completes|vm_compute; reflexivity]|].
  eapply rtc_l; [eapply (svr_stream _ _ 4 (STREAM_SHUTDOWN_COMPLETE false)); [split; [|split; [done|]]; cbn; set_solver|vm_compute; reflexivity]|].
  eapply rtc_l; [eapply (svr_stream _ _ 2 (STREAM_SHUTDOWN_COMPLETE false)); [split; [|split; [done|]]; cbn; set_solver|vm_compute; reflexivity]|].
  eapply rtc_l; [eapply (svr_connection _ _ 1 (CONNECTION_SHUTDOWN_COMPLETE false)); [split; [|done]; cbn; set_solver|vm_compute; reflexivity]|].
  apply rtc_refl.
Qed.
Lemma svr_quic_owns_witness :
  rtc (svr_quic_step demo_answers) quic_start demo_open ∧ mq_buffers demo_open = list_to_set [3] ∧
  (∃ q', svr_StreamCallback demo_answers 2 (SEND_COMPLETE 3) (deliver_stream 2 (SEND_COMPLETE 3) demo_open) = Ok (tt, q')) ∧
  rtc (svr_quic_step demo_answers) quic_start demo_closed ∧ mq_streams demo_closed = ∅ ∧ mq_buffers demo_closed = ∅.
Proof.
  destruct (svr_quic_owns demo_answers demo_open demo_open_reached) as (Hstream & _ & _ & Hbuffers & _).
  assert (rtc (svr_quic_step demo_answers) quic_start demo_closed) as Hr by (etrans; [apply demo_open_reached|apply demo_closed_reached]).
  destruct (svr_quic_owns demo_answers demo_closed Hr) as (_ & _ & _ & _ & Hnone).
  split_and!; [exact demo_open_reached|exact Hbuffers|exact (Hstream 2 (SEND_COMPLETE 3) demo_completes)|exact Hr|reflexivity|exact (Hnone eq_refl)].
Defined.

(** The client's callbacks keep the same ownership... *)
Theorem cli_quic_owns call_r q : rtc (cli_quic_step call_r) cli_quic_start q →
  owns q ∧ (mq_streams q = ∅ → mq_buffers q = ∅).
Proof.
  intros Hr. pose proof (reach_owns _ _ _ (cli_step_owns call_r) (proj2 quic_start_owns) Hr) as Ho.
  split; [done|by apply owns_idle].
Qed.
(** ... but when the connection has shut down before the second key, its
    callback has closed the handle that [main] then closes again. *)
Theorem cli_double_close call_r c q q' :
  cli_ConnectionCallback call_r c (CONNECTION_SHUTDOWN_COMPLETE false) q = Ok (tt, q') →
  cli_main_end (Some c) q' = Fault UseAfterFree.
Proof.
  cbn [cli_ConnectionCallback negb]. unfold ConnectionClose. intros E. apply st_bind_inv in E as (u & q1 & _ & [= <-]).
  cbn [cli_main_end]. unfold ConnectionClose, mbind, st_bind, use_connection. rewrite bool_decide_false; [done|]. cbn. set_solver.
Qed.
