(* ===== verification/Asio.v ===== *)
(** * The asio programs: svr_asio/main.cpp
    Each object is what its completion handlers make of it: at most one
    operation is outstanding, and the library decides when and how it
    completes.  A write is sent piece by piece from the buffer as it is when
    the piece is sent. *)
From Stdlib Require Import String.
From S2P Require Import Prelude Text.

(** ** session: an echo over one buffer *)
Definition data_size : Z := 1024.
Inductive operation := Reading | Writing (length sent : Z) | Idle.
Record session := mkSession {
  data_ : list Z;
  outstanding : operation;
  socket_in : list Z;      (** the bytes read from the socket *)
  socket_out : list Z }.   (** the bytes sent on it *)
Definition session_new : session := mkSession (replicate (Z.to_nat data_size) 0) Idle [] [].
Definition set_outstanding (o : operation) (s : session) : session := mkSession (data_ s) o (socket_in s) (socket_out s).
Definition do_read (s : session) : session := set_outstanding Reading s.
(** [asio::buffer(data_, length)] is at most the whole array. *)
Definition do_write (length : Z) (s : session) : session := set_outstanding (Writing (Z.min length data_size) 0) s.
Definition session_start (s : session) : session := do_read s.
(** The handlers; without a new operation the session's last reference goes. *)
Definition handle_session_read (ec : bool) (length : Z) (s : session) : session :=
  if negb ec then do_write length s else s.
Definition handle_session_write (ec : bool) (s : session) : session := if negb ec then do_read s else s.

Inductive session_step (s : session) : session → Prop :=
| read_some d : outstanding s = Reading → 0 < zlen d ≤ data_size →
    session_step s (handle_session_read false (zlen d)
      (mkSession (splice (data_ s) 0 d) Idle (socket_in s ++ d) (socket_out s)))
| read_error : outstanding s = Reading → session_step s (handle_session_read true 0 (set_outstanding Idle s))
| send_some len k n : outstanding s = Writing len k → 0 < n → k + n ≤ len →
    session_step s (mkSession (data_ s) (Writing len (k + n)) (socket_in s) (socket_out s ++ sub (data_ s) k n))
| write_done len : outstanding s = Writing len len → session_step s (handle_session_write false (set_outstanding Idle s))
| write_error len k : outstanding s = Writing len k → session_step s (handle_session_write true (set_outstanding Idle s)).

Definition echoing (s : session) : Prop :=
  zlen (data_ s) = data_size ∧
  match outstanding s with
  | Reading => socket_out s = socket_in s
  | Writing len k => 0 ≤ k ≤ len ∧ len ≤ data_size ∧
      ∃ old, socket_in s = old ++ sub (data_ s) 0 len ∧ socket_out s = old ++ sub (data_ s) 0 k
  | Idle => socket_out s `prefix_of` socket_in s
  end.
Lemma echoing_prefix s : echoing s → socket_out s `prefix_of` socket_in s.
Proof.
  intros [Hz H]. destruct (outstanding s) as [|len k|]; [by rewrite H| |done].
  destruct H as (Hk & Hl & old & -> & ->). apply prefix_app. exists (sub (data_ s) k (len - k)).
  replace len with (k + (len - k)) at 1 by lia. rewrite sub_app by lia. done.
Qed.
Lemma session_step_echoing s s' : session_step s s' → echoing s → echoing s'.
Proof.
  intros Hs He. pose proof (echoing_prefix s He) as Hpre. destruct He as [Hz He].
  destruct Hs as [d Ho Hd|Ho|len k n Ho Hn Hk|len Ho|len k Ho]; rewrite Ho in He; unfold echoing; cbn.
  - split; [rewrite zlen_splice; lia|]. rewrite Z.min_l by lia. split; [lia|]. split; [lia|]. exists (socket_in s).
    rewrite sub_splice_prefix by lia. by rewrite sub_nil, app_nil_r.
  - done.
  - destruct He as (Hk' & Hl & old & -> & ->). split; [done|]. split; [lia|]. split; [done|]. exists old. split; [done|].
    rewrite <-app_assoc. f_equal. by rewrite sub_app by lia.
  - destruct He as (_ & _ & old & -> & ->). done.
  - done.
Qed.
(** the echo session, however the bytes arrive and however its writes are
    cut: what it has sent is a prefix of what it has read, and whenever it
    waits for more it has sent back everything. *)
Theorem session_echo s : rtc session_step (session_start session_new) s →
  socket_out s `prefix_of` socket_in s ∧ (outstanding s = Reading → socket_out s = socket_in s).
Proof.
  intros Hr. assert (echoing s) as He.
  { assert (echoing (session_start session_new)) as H0 by done. clear -Hr H0.
    induction Hr as [s|s1 s2 s3 Hs _ IH]; [done|]. by apply IH, (session_step_echoing s1). }
  split; [by apply echoing_prefix|]. intros Ho. destruct He as [_ He]. by rewrite Ho in He.
Qed.
Lemma session_echo_witness : ∃ s, rtc session_step (session_start session_new) s ∧ socket_in s = [104; 105] ∧
  socket_out s `prefix_of` socket_in s.
Proof.
  exists (handle_session_read false 2 (mkSession (splice (replicate 1024 0) 0 [104; 105]) Idle [104; 105] [])).
  assert (rtc session_step (session_start session_new)
    (handle_session_read false 2 (mkSession (splice (replicate 1024 0) 0 [104; 105]) Idle [104; 105] []))) as Hr.
  { apply rtc_once. apply (read_some (session_start session_new) [104; 105]); [reflexivity|split; reflexivity || discriminate]. }
  split; [exact Hr|]. split; [reflexivity|]. exact (proj1 (session_echo _ Hr)).
Defined.

(** ** The acceptors
    Each takes the results of its accepts, an error or a socket. *)
Record acceptor := mkAcceptor { accepting : bool; started : list Z }.
Definition acceptor_new : acceptor := mkAcceptor true [].
(** [server]: a session per socket; after an error nothing is accepted. *)
Definition server_do_accept (a : acceptor) (r : option Z) : acceptor :=
  match r with
  | Some socket => mkAcceptor true (started a ++ [socket])
  | None => mkAcceptor false (started a)
  end.
(** [tcp_server]: accepts again in any case. *)
Definition tcp_handle_accept (a : acceptor) (r : option Z) : acceptor :=
  match r with
  | Some socket => mkAcceptor true (started a ++ [socket])
  | None => mkAcceptor true (started a)
  end.
(** The results an acceptor takes: those up to where it stops. *)
Definition accept_all (handle : acceptor → option Z → acceptor) (rs : list (option Z)) : acceptor :=
  foldl (λ a r, if accepting a then handle a r else a) acceptor_new rs.

(** [tcp_connection::start]: the one message of a connection. *)
Record tcp_connection := mkTcp { _seq : Z; _message : list Z }.
Definition tcp_connection_new : tcp_connection := mkTcp 0 [].
Definition digit_text (n : Z) : list Z := [48 + n].
Definition tcp_start (c : tcp_connection) : tcp_connection * list Z :=
  let seq := _seq c + 1 in
  let m := str "tcp message send " ++ digit_text seq in
  (mkTcp seq m, m).

(** ** udp_server: one receive at a time; the endpoint of the last datagram *)
Record udp_server := mkUdp { receiving : bool; replies : list (Z * list Z) }.
Definition udp_new : udp_server := mkUdp true [].
Definition udp_handle_receive (u : udp_server) (r : option Z) : udp_server :=
  match r with
  | Some _remote_endpoint => mkUdp true (replies u ++ [(_remote_endpoint, str "hello udp")])
  | None => mkUdp false (replies u)
  end.
Definition udp_run (rs : list (option Z)) : udp_server :=
  foldl (λ u r, if receiving u then udp_handle_receive u r else u) udp_new rs.

Fixpoint until_error (rs : list (option Z)) : list Z :=
  match rs with Some x :: rs => x :: until_error rs | _ => [] end.
Definition no_error (rs : list (option Z)) : bool := forallb (λ r, bool_decide (is_Some r)) rs.

Lemma server_stopped rs l : foldl (λ a r, if accepting a then server_do_accept a r else a) (mkAcceptor false l) rs = mkAcceptor false l.
Proof. by induction rs. Qed.
Lemma udp_stopped rs l : foldl (λ u r, if receiving u then udp_handle_receive u r else u) (mkUdp false l) rs = mkUdp false l.
Proof. by induction rs. Qed.
(** The message server outlives failed accepts; the echo server and the UDP
    server stop at their first error, and answer everything before it. *)
Theorem acceptors_spec rs :
  accept_all tcp_handle_accept rs = mkAcceptor true (omap id rs) ∧
  accept_all server_do_accept rs = mkAcceptor (no_error rs) (until_error rs) ∧
  udp_run rs = mkUdp (no_error rs) ((λ e, (e, str "hello udp")) <$> until_error rs).
Proof.
  unfold accept_all, udp_run, acceptor_new, udp_new. split_and!.
  - change (omap id rs) with ([] ++ omap id rs). generalize (@nil Z) as l.
    induction rs as [|[x|] rs IH]; intros l; cbn; [by rewrite app_nil_r|rewrite IH; by rewrite <-app_assoc|apply IH].
  - change (until_error rs) with ([] ++ until_error rs). generalize (@nil Z) as l.
    induction rs as [|[x|] rs IH]; intros l; cbn; [by rewrite app_nil_r|rewrite IH; by rewrite <-app_assoc|].
    rewrite app_nil_r. apply server_stopped.
  - change ((λ e, (e, str "hello udp")) <$> until_error rs) with ([] ++ ((λ e, (e, str "hello udp")) <$> until_error rs)).
    generalize (@nil (Z * list Z)) as l.
    induction rs as [|[x|] rs IH]; intros l; cbn [foldl receiving udp_handle_receive replies until_error fmap list_fmap no_error forallb].
    + by rewrite app_nil_r.
    + rewrite IH. rewrite <-app_assoc. done.
    + rewrite app_nil_r. apply udp_stopped.
Qed.
