(* ===== verification/Mains.v ===== *)
(** * The mains of the trial programs: svr_quic, cli_quic and svr_asio
    What each program sets up before its callbacks run, what it takes down
    after them, and how it ends.  The callbacks are those of Quic.v and Asio.v;
    whether a call of a library succeeds is answered by its number. *)
From Stdlib Require Import String.
From S2P Require Import Prelude.
From S2P Require Import Text.
From S2P Require Import Quic.
From S2P Require Import Asio.

(** ** The QUIC programs *)
Inductive handle := MsQuic | Registration | Configuration | Listener.
#[export] Instance handle_eq_dec : EqDecision handle.
Proof. solve_decision. Defined.

Record quic_main := mkMain {
  m_globals : list handle;       (** the globals that are not null *)
  m_connection : option Z;       (** cli_quic: the global [Connection] *)
  m_opened : list handle;        (** open in the library, the newest first *)
  m_closed : list handle;        (** closed, in the order of the calls *)
  m_quic : msquic;
  m_clock : Z }.                 (** milliseconds since the start *)
Definition quic_main_start : quic_main := mkMain [] None [] [] quic_start 0.
Definition with_quic (q : msquic) (m : quic_main) : quic_main :=
  mkMain (m_globals m) (m_connection m) (m_opened m) (m_closed m) q (m_clock m).
Definition on_quic {A} (f : st msquic A) : st quic_main A := st_zoom m_quic with_quic f.

Section QuicMains.
Context (call_r : nat → bool).

(** A call that opens a handle into its global. *)
Definition open_handle (h : handle) : st quic_main bool :=
  ok ← on_quic (answer call_r);
  _ ← (if (ok : bool) then st_modify (λ m,
         mkMain (h :: m_globals m) (m_connection m) (h :: m_opened m) (m_closed m) (m_quic m) (m_clock m))
       else st_skip);
  mret ok.
Definition other_call : st quic_main bool := on_quic (answer call_r).
(** [if (h) ...Close(h)]; the global keeps its value. *)
Definition close_call (h : handle) : st quic_main unit := λ m,
  if bool_decide (h ∈ m_opened m) then
    Ok ((), mkMain (m_globals m) (m_connection m) (list_difference (m_opened m) [h]) (m_closed m ++ [h]) (m_quic m) (m_clock m))
  else Fault UseAfterFree.
Definition close_handle (h : handle) : st quic_main unit :=
  globals ← st_gets m_globals;
  if bool_decide (h ∈ globals) then close_call h else st_skip.
(** [if (QUIC_FAILED(...)) return -1]: what follows runs after a success. *)
Definition or_return (call : st quic_main bool) (rest : st quic_main bool) : st quic_main bool :=
  ok ← call; if negb ok then mret false else rest.
(** [getchar], which ends when the key comes. *)
Definition getchar (key : Z) : st quic_main unit :=
  st_modify (λ m, mkMain (m_globals m) (m_connection m) (m_opened m) (m_closed m) (m_quic m) (Z.max key (m_clock m))).

(** *** svr_quic: up to "Listening...", false for the returns with -1 *)
Definition svr_quic_setup : st quic_main bool :=
  or_return (open_handle MsQuic) (
  or_return (open_handle Registration) (
  or_return (open_handle Configuration) (
  or_return other_call (                         (* ConfigurationLoadCredential *)
  or_return (open_handle Listener) (
  or_return other_call (                         (* ListenerStart *)
  mret true)))))).
Definition hours_24 : Z := 24 * 60 * 60 * 1000.
(** The workers sleep; each is known by the time it wakes. *)
Definition spawn_workers (cores : nat) : st quic_main (list Z) :=
  now ← st_gets m_clock; mret (replicate cores (now + hours_24)).
Definition join (worker : Z) : st quic_main unit := getchar worker.
Definition svr_quic_teardown (workers : list Z) (key : Z) : st quic_main Z :=
  _ ← getchar key;
  _ ← close_handle Listener;
  _ ← close_handle Configuration;
  _ ← close_handle Registration;
  _ ← close_handle MsQuic;
  _ ← st_each join workers;
  mret 0.

(** *** cli_quic: two keys, and a connection between them *)
Definition ConnectionOpen : st quic_main bool :=
  ok ← on_quic (answer call_r);
  _ ← (if (ok : bool) then st_modify (λ m,
         mkMain (m_globals m) (Some (mq_next (m_quic m))) (m_opened m) (m_closed m) (new_connection (m_quic m)) (m_clock m))
       else st_skip);
  mret ok.
Definition cli_quic_setup (key : Z) : st quic_main bool :=
  or_return (open_handle MsQuic) (
  or_return (open_handle Registration) (
  or_return (open_handle Configuration) (
  or_return other_call (                         (* ConfigurationLoadCredential *)
  _ ← getchar key;
  or_return ConnectionOpen (
  or_return other_call (                         (* ConnectionStart *)
  mret true)))))).
Definition cli_quic_teardown (key : Z) : st quic_main Z :=
  _ ← getchar key;
  connection ← st_gets m_connection;
  _ ← on_quic (cli_main_end connection);
  _ ← close_handle Configuration;
  _ ← close_handle Registration;
  _ ← close_handle MsQuic;
  mret 0.

(** *** The first call that fails decides *)
Fixpoint first_failure (from n : nat) : option nat :=
  match n with
  | O => None
  | S n => if call_r from then first_failure (S from) n else Some from
  end.
(** The handles open when the call of that number fails. *)
Definition svr_opened (k : nat) : list handle := reverse (take k [MsQuic; Registration; Configuration] ++ (if bool_decide (k = 5%nat) then [Listener] else [])).
Definition cli_opened (k : nat) : list handle := reverse (take k [MsQuic; Registration; Configuration]).

Lemma first_failure_none n : ∀ from, first_failure from n = None → ∀ i, (from ≤ i < from + n)%nat → call_r i = true.
Proof.
  induction n as [|n IH]; intros from E i Hi; [lia|]. cbn in E. destruct (call_r from) eqn:Ef; [|done].
  destruct (decide (i = from)) as [->|]; [done|]. apply (IH (S from)); [done|lia].
Qed.
(** One call after the other, each failing or not. *)
Ltac setup_tac :=
  unfold or_return, open_handle, ConnectionOpen, other_call, getchar, new_connection, on_quic, st_zoom, answer, mbind, st_bind;
  cbn -[union singleton];
  repeat (match goal with |- context [call_r ?n] => destruct (call_r n) end; cbn -[union singleton];
          [|by eexists _, _]);
  by eexists _, _.
Lemma svr_setup_ok : ∃ ok m, svr_quic_setup quic_main_start = Ok (ok, m) ∧
  match first_failure 0 6 with
  | Some k => ok = false ∧ m_opened m = svr_opened k
  | None => ok = true ∧ m = mkMain [Listener; Configuration; Registration; MsQuic] None
      [Listener; Configuration; Registration; MsQuic] [] (mkMsQuic ∅ ∅ ∅ [] 1 6) 0
  end.
Proof.
  unfold svr_quic_setup, quic_main_start, quic_start. generalize (∅ : gset Z) as e. intros e. setup_tac.
Qed.
Lemma cli_setup_ok key : ∃ ok m, cli_quic_setup key quic_main_start = Ok (ok, m) ∧
  match first_failure 0 6 with
  | Some k => ok = false ∧ m_opened m = cli_opened k ∧ (m_connection m = if bool_decide (k = 5%nat) then Some 1 else None)
  | None => ok = true ∧ m = mkMain [Configuration; Registration; MsQuic] (Some 1)
      [Configuration; Registration; MsQuic] [] (mkMsQuic ({[1]} ∪ ∅) ∅ ∅ [] 2 6) (Z.max key 0)
  end.
Proof.
  unfold cli_quic_setup, quic_main_start, quic_start. generalize (∅ : gset Z) as e. intros e. setup_tac.
Qed.
End QuicMains.

Lemma joins_ok workers : ∀ m, st_each join workers m =
  Ok ((), mkMain (m_globals m) (m_connection m) (m_opened m) (m_closed m) (m_quic m) (foldl Z.max (m_clock m) workers)).
Proof.
  induction workers as [|w ws IH]; intros m; [by destruct m|]. cbn. rewrite IH. cbn. by rewrite (Z.max_comm w).
Qed.
Lemma foldl_max_replicate n w : ∀ c, foldl Z.max c (replicate n w) = if bool_decide (n = O) then c else Z.max c w.
Proof.
  induction n as [|n IH]; intros c; [done|]. cbn [replicate foldl]. rewrite IH. repeat case_bool_decide; lia.
Qed.
Lemma close_handle_ok h m : h ∈ m_globals m → h ∈ m_opened m → close_handle h m =
  Ok ((), mkMain (m_globals m) (m_connection m) (list_difference (m_opened m) [h]) (m_closed m ++ [h]) (m_quic m) (m_clock m)).
Proof.
  intros Hg Ho. unfold close_handle, mbind, st_bind, st_gets. unfold close_call. by rewrite !bool_decide_true by done.
Qed.
Lemma svr_teardown_ok cores key q :
  svr_quic_teardown (replicate cores hours_24) key
    (mkMain [Listener; Configuration; Registration; MsQuic] None [Listener; Configuration; Registration; MsQuic] [] q 0) =
  Ok (0, mkMain [Listener; Configuration; Registration; MsQuic] None [] [Listener; Configuration; Registration; MsQuic] q
    (if bool_decide (cores = O) then Z.max key 0 else Z.max (Z.max key 0) hours_24)).
Proof.
  unfold svr_quic_teardown. erewrite st_bind_ok by reflexivity. cbv beta.
  do 4 (erewrite st_bind_ok; [|rewrite close_handle_ok; [reflexivity|cbn; set_solver..]]; cbv beta).
  erewrite st_bind_ok by apply joins_ok. cbn -[Z.max]. by rewrite foldl_max_replicate.
Qed.
Lemma cli_teardown_ok key q now : 0 ≤ now → owns q → match cli_quic_teardown key
    (mkMain [Configuration; Registration; MsQuic] (Some 1) [Configuration; Registration; MsQuic] [] q now) with
  | Ok (code, m) => 1 ∈ mq_connections q ∧ code = 0 ∧ m_opened m = [] ∧ m_closed m = [Configuration; Registration; MsQuic] ∧
      1 ∉ mq_connections (m_quic m)
  | Fault f => f = UseAfterFree ∧ 1 ∉ mq_connections q
  end.
Proof.
  intros Hn Ho. unfold cli_quic_teardown. erewrite st_bind_ok by reflexivity. cbv beta.
  erewrite st_bind_ok by reflexivity. cbv beta. cbn [m_connection cli_main_end].
  destruct (decide (1 ∈ mq_connections q)) as [H1|H1].
  - pose proof (ConnectionClose_ok 1 q (conj Ho H1)) as HC. destruct (ConnectionClose 1 q) as [[[] q']|] eqn:E; [|done].
    erewrite st_bind_ok by (unfold on_quic, st_zoom; cbn [m_quic]; rewrite E; reflexivity). cbv beta.
    do 3 (erewrite st_bind_ok; [|rewrite close_handle_ok; [reflexivity|cbn; set_solver..]]; cbv beta).
    cbn. split_and!; try done. by destruct HC.
  - rewrite (st_bind_fault _ _ _ UseAfterFree); [done|]. unfold on_quic, st_zoom, ConnectionClose. cbn [m_quic].
    rewrite (st_bind_fault _ _ _ UseAfterFree); [done|]. unfold use_connection. by rewrite bool_decide_false.
Qed.

(** The QUIC server: it serves exactly when its six calls all succeed; after
    any serving it closes each handle once, children first, and on a machine
    with cores the process then outlives the key: it joins workers that sleep
    for a day.  When a call fails it returns with the handles so far open. *)
Theorem svr_quic_main_spec call_r cores key :
  ∃ ok m, svr_quic_setup call_r quic_main_start = Ok (ok, m) ∧
  match first_failure call_r 0 6 with
  | Some k => ok = false ∧ m_opened m = svr_opened k
  | None => ok = true ∧ ∀ q, rtc (svr_quic_step call_r) (m_quic m) q →
      ∃ ws m1 m2, spawn_workers cores (with_quic q m) = Ok (ws, m1) ∧ svr_quic_teardown ws key m1 = Ok (0, m2) ∧
        m_opened m2 = [] ∧ m_closed m2 = [Listener; Configuration; Registration; MsQuic] ∧
        m_clock m2 = (if bool_decide (cores = O) then Z.max key 0 else Z.max (Z.max key 0) hours_24) ∧
        mq_buffers q = list_to_set (mq_sends q).*2
  end.
Proof.
  destruct (svr_setup_ok call_r) as (ok & m & E & H). exists ok, m. split; [done|].
  destruct (first_failure call_r 0 6) as [k|]; [done|]. destruct H as [-> ->]. split; [done|]. intros q Hr.
  assert (owns q) as Ho.
  { apply (reach_owns _ _ _ (svr_step_owns call_r)) with (2 := Hr). apply (owns_calls quic_start 6), quic_start_owns. }
  exists (replicate cores hours_24). eexists _, _. split; [reflexivity|]. split; [apply svr_teardown_ok|].
  split_and!; try done. apply (o_buffers q Ho).
Qed.
(** The QUIC client: whatever happened on its connection, it takes everything
    down in order if the connection is still open, and closes a handle its
    callback has closed before exactly if it is not. *)
Theorem cli_quic_main_spec call_r key1 key2 :
  ∃ ok m, cli_quic_setup call_r key1 quic_main_start = Ok (ok, m) ∧
  match first_failure call_r 0 6 with
  | Some k => ok = false ∧ m_opened m = cli_opened k ∧ m_connection m = (if bool_decide (k = 5%nat) then Some 1 else None)
  | None => ok = true ∧ ∀ q, rtc (cli_quic_step call_r) (m_quic m) q →
      if bool_decide (1 ∈ mq_connections q) then
        ∃ m', cli_quic_teardown key2 (with_quic q m) = Ok (0, m') ∧ m_opened m' = [] ∧
          m_closed m' = [Configuration; Registration; MsQuic] ∧ 1 ∉ mq_connections (m_quic m')
      else cli_quic_teardown key2 (with_quic q m) = Fault UseAfterFree
  end.
Proof.
  destruct (cli_setup_ok call_r key1) as (ok & m & E & H). exists ok, m. split; [done|].
  destruct (first_failure call_r 0 6) as [k|]; [done|]. destruct H as [-> ->]. split; [done|]. intros q Hr.
  assert (owns q) as Ho.
  { apply (reach_owns _ _ _ (cli_step_owns call_r)) with (2 := Hr).
    apply (owns_calls (new_connection quic_start) 6), new_connection_ok, quic_start_owns. }
  pose proof (cli_teardown_ok key2 q (Z.max key1 0) ltac:(lia) Ho) as HT. cbn [with_quic m_globals m_connection m_opened m_closed m_clock].
  destruct (cli_quic_teardown _ _) as [[code m']|f].
  - destruct HT as (H1 & -> & H2 & H3 & H4). rewrite bool_decide_true by done. by exists m'.
  - destruct HT as [-> H1]. by rewrite bool_decide_false.
Qed.

(** ** svr_asio
    The two servers on one [io_context].  The library completes the operations
    outstanding, in any order; [run] returns when no work is left, and the work
    guard of [main] is work.  What a completion hands its handler is an
    argument; [None] is an error. *)
Inductive asio_completion :=
| Accepted (r : option Z)      (** [tcp_server::handle_accept] *)
| TcpWritten (socket : Z)      (** [tcp_connection::handle_write] *)
| Received (r : option Z)      (** [udp_server::handle_receive] *)
| UdpSent.                     (** [udp_server::handle_send] *)
Record io_context := mkIo {
  guard : bool;
  s_tcp : acceptor;
  s_udp : udp_server;
  tcp_writes : list (Z * list Z);    (** writes outstanding: socket, message *)
  udp_sends : nat;                   (** sends outstanding *)
  tcp_sent : list (Z * list Z) }.    (** messages of the writes started, in order *)
Definition io_start : io_context := mkIo true acceptor_new udp_new [] 0 [].
(** Operations outstanding, and the guard. *)
Definition work (io : io_context) : nat :=
  Nat.b2n (guard io) + Nat.b2n (accepting (s_tcp io)) + length (tcp_writes io) + Nat.b2n (receiving (s_udp io)) + udp_sends io.

(** [tcp_server::handle_accept]: a connection writes its message, and the next
    accept starts. *)
Definition io_accepted (r : option Z) (io : io_context) : io_context :=
  let started := match r with Some socket => [(socket, (tcp_start tcp_connection_new).2)] | None => [] end in
  mkIo (guard io) (tcp_handle_accept (s_tcp io) r) (s_udp io) (tcp_writes io ++ started) (udp_sends io) (tcp_sent io ++ started).
Definition io_received (r : option Z) (io : io_context) : io_context :=
  mkIo (guard io) (s_tcp io) (udp_handle_receive (s_udp io) r) (tcp_writes io)
    (udp_sends io + match r with Some _ => 1 | None => 0 end) (tcp_sent io).
Definition remove_write (socket : Z) (io : io_context) : option io_context :=
  match list_find (λ w, w.1 = socket) (tcp_writes io) with
  | Some (i, _) => Some (mkIo (guard io) (s_tcp io) (s_udp io) (delete i (tcp_writes io)) (udp_sends io) (tcp_sent io))
  | None => None
  end.
(** A completion of an operation that is outstanding. *)
Definition complete (c : asio_completion) (io : io_context) : option io_context :=
  match c with
  | Accepted r => if accepting (s_tcp io) then Some (io_accepted r io) else None
  | TcpWritten socket => remove_write socket io
  | Received r => if receiving (s_udp io) then Some (io_received r io) else None
  | UdpSent => match udp_sends io with
               | O => None
               | S n => Some (mkIo (guard io) (s_tcp io) (s_udp io) (tcp_writes io) n (tcp_sent io))
               end
  end.

(** [io_context::run] on all threads together, as far as completions come:
    it has returned, or waits. *)
Inductive running := RunReturned (io : io_context) | RunWaits (io : io_context).
Fixpoint io_run (cs : list asio_completion) (io : io_context) : running :=
  if bool_decide (work io = O) then RunReturned io
  else match cs with
       | [] => RunWaits io
       | c :: cs => io_run cs (default io (complete c io))
       end.

(** [main]: the constructors of the servers throw when their port cannot be
    opened, and that of a thread when it cannot be started, which the [catch]
    turns into exit code 0 - unless a joinable thread is unwound. *)
Inductive asio_end :=
| Exits (code : Z) (message : bool)   (** and whether an exception was printed *)
| Terminates                          (** [std::terminate] *)
| Serves (io : io_context).
Definition asio_main (tcp_opens udp_opens : bool) (cores threads_start : nat) (cs : list asio_completion) : asio_end :=
  if negb tcp_opens then Exits 0 true
  else if negb udp_opens then Exits 0 true
  else if (threads_start <? cores)%nat then
    match threads_start with O => Exits 0 true | S _ => Terminates end
  else match io_run cs io_start with
       | RunReturned _ => Exits 0 false
       | RunWaits io => Serves io
       end.

(** What the handlers have made of the completions so far. *)
Definition accept_results (cs : list asio_completion) : list (option Z) := omap (λ c, match c with Accepted r => Some r | _ => None end) cs.
Definition receive_results (cs : list asio_completion) : list (option Z) := omap (λ c, match c with Received r => Some r | _ => None end) cs.
Definition the_message : list Z := str "tcp message send 1".
Record served (cs : list asio_completion) (io : io_context) : Prop := mkServed {
  sv_guard : guard io = true;
  sv_tcp : s_tcp io = accept_all tcp_handle_accept (accept_results cs);
  sv_udp : s_udp io = udp_run (receive_results cs);
  sv_sent : tcp_sent io = (λ socket, (socket, the_message)) <$> started (s_tcp io) }.

Lemma accept_all_snoc rs r : accept_all tcp_handle_accept (rs ++ [r]) = tcp_handle_accept (accept_all tcp_handle_accept rs) r.
Proof. rewrite !(proj1 (acceptors_spec _)), omap_app. by destruct r; cbn; rewrite ?app_nil_r. Qed.
Lemma udp_run_snoc rs r : udp_run (rs ++ [r]) = if receiving (udp_run rs) then udp_handle_receive (udp_run rs) r else udp_run rs.
Proof. unfold udp_run. by rewrite foldl_app. Qed.
Lemma served_step cs io c io' : served cs io → complete c io = Some io' → served (cs ++ [c]) io'.
Proof.
  intros [Hg Ht Hu Hs] E. unfold complete in E. destruct c as [r|socket|r|].
  - destruct (accepting (s_tcp io)); [|done]. injection E as <-.
    split; unfold accept_results, receive_results; rewrite ?omap_app; cbn; rewrite ?app_nil_r; [done| |done|].
    + rewrite Ht. symmetry. apply accept_all_snoc.
    + rewrite Hs. destruct r as [socket|]; cbn; [by rewrite fmap_app|by rewrite app_nil_r].
  - unfold remove_write in E. destruct (list_find _ _) as [[i w]|]; [|done]. injection E as <-.
    split; unfold accept_results, receive_results; rewrite ?omap_app; cbn; by rewrite ?app_nil_r.
  - destruct (receiving (s_udp io)) eqn:Er; [|done]. injection E as <-.
    split; unfold accept_results, receive_results; rewrite ?omap_app; cbn; rewrite ?app_nil_r; try done.
    fold (receive_results cs). rewrite udp_run_snoc, <-Hu. by rewrite Er.
  - destruct (udp_sends io); [done|]. injection E as <-.
    split; unfold accept_results, receive_results; rewrite ?omap_app; cbn; by rewrite ?app_nil_r.
Qed.
(** Completions the library may deliver one after the other. *)
Fixpoint delivered (cs : list asio_completion) (io : io_context) : bool :=
  match cs with
  | [] => true
  | c :: cs => match complete c io with Some io' => delivered cs io' | None => false end
  end.
Lemma io_run_served cs : ∀ pre io, served pre io → delivered cs io = true →
  ∃ io', io_run cs io = RunWaits io' ∧ served (pre ++ cs) io'.
Proof.
  induction cs as [|c cs IH]; intros pre io Hs Hd; cbn [io_run delivered] in *.
  all: rewrite bool_decide_false by (unfold work; rewrite (sv_guard _ _ Hs); cbn; lia).
  - exists io. by rewrite app_nil_r.
  - destruct (complete c io) as [io'|] eqn:E; [|done]. destruct (IH (pre ++ [c]) io') as (io2 & E2 & H2).
    + by apply (served_step _ io).
    + done.
    + exists io2. cbn. by rewrite cons_middle, app_assoc.
Qed.

(** The asio program: [main] returns only when a server's port cannot be opened
    or its first thread not started; otherwise it serves for ever, whatever
    completes, with every accepted socket sent its message once, in order, and
    every datagram before the first error answered. *)
Theorem asio_main_spec tcp_opens udp_opens cores threads_start cs : delivered cs io_start = true →
  match asio_main tcp_opens udp_opens cores threads_start cs with
  | Exits code message => code = 0 ∧ message = true ∧ (tcp_opens = false ∨ udp_opens = false ∨ threads_start = O ∧ cores ≠ O)
  | Terminates => tcp_opens = true ∧ udp_opens = true ∧ (0 < threads_start < cores)%nat
  | Serves io => tcp_opens = true ∧ udp_opens = true ∧ (cores ≤ threads_start)%nat ∧
      tcp_sent io = (λ socket, (socket, the_message)) <$> omap id (accept_results cs) ∧
      replies (s_udp io) = (λ e, (e, str "hello udp")) <$> until_error (receive_results cs)
  end.
Proof.
  intros Hd. unfold asio_main. destruct tcp_opens, udp_opens; cbn [negb]; [|by auto..].
  destruct (Nat.ltb_spec threads_start cores) as [Hl|Hl].
  - destruct threads_start; split_and!; auto with lia.
  - destruct (io_run_served cs [] io_start) as (io & -> & [Hg Ht Hu Hs]); [by split|done|]. split_and!; try done.
    + rewrite Hs, Ht. cbn [app]. by rewrite (proj1 (acceptors_spec _)).
    + rewrite Hu. by rewrite (proj2 (proj2 (acceptors_spec _))).
Qed.
Lemma asio_main_spec_witness :
  delivered [Accepted (Some 7); Received (Some 9); TcpWritten 7; Accepted None; Received None] io_start = true ∧
  match asio_main true true 4 4 [Accepted (Some 7); Received (Some 9); TcpWritten 7; Accepted None; Received None] with
  | Serves io => tcp_sent io = [(7, the_message)] ∧ replies (s_udp io) = [(9, str "hello udp")]
  | _ => False
  end.
Proof.
  split; [vm_compute; reflexivity|].
  pose proof (asio_main_spec true true 4 4 [Accepted (Some 7); Received (Some 9); TcpWritten 7; Accepted None; Received None]
    ltac:(vm_compute; reflexivity)) as H.
  destruct (asio_main true true 4 4 _) eqn:E; [exfalso; vm_compute in E; discriminate E..|].
  exact (conj (proj1 (proj2 (proj2 (proj2 H)))) (proj2 (proj2 (proj2 (proj2 H))))).
Defined.
