(* ===== verification/Buffer.v ===== *)
(** * Byte buffers: _framework/buffer.h

    [BufferBase] (linear buffer), [Serializer], [CircleBuffer] (the receive
    ring of a connector) and [NetworkBuffer].  Pointers into [_pBuffer] are
    offsets from it, so [_pHead] is 0.  [CircleBuffer] is proved to implement a
    bounded first-in first-out queue of bytes. *)
From S2P Require Import Prelude.

Definition MAX_PACKET_BUFFER_SIZE : Z := 1024 * 10.

(** The ULONG (32-bit unsigned) value of [return -1]. *)
Definition ULONG_fail : Z := u32 (-1).

(** ** BufferBase *)
Record BufferBase := mkBufferBase {
  _pBuffer : list Z;   (** the bytes of [new char[size + 1]] *)
  _nDataSize : Z;
  _nBufferSize : Z;
  _pTail : Z;
  _pRead : Z;
  _pWrite : Z }.

Definition _pHead (b : BufferBase) : Z := 0.

(** Assignments to single members. *)
Definition set_pBuffer (m : list Z) b :=
  mkBufferBase m (_nDataSize b) (_nBufferSize b) (_pTail b) (_pRead b) (_pWrite b).
Definition set_nDataSize (n : Z) b :=
  mkBufferBase (_pBuffer b) n (_nBufferSize b) (_pTail b) (_pRead b) (_pWrite b).
Definition set_pRead (r : Z) b :=
  mkBufferBase (_pBuffer b) (_nDataSize b) (_nBufferSize b) (_pTail b) r (_pWrite b).
Definition set_pWrite (w : Z) b :=
  mkBufferBase (_pBuffer b) (_nDataSize b) (_nBufferSize b) (_pTail b) (_pRead b) w.

(** The constructor; [mem] is the (uninitialised) content of the fresh
    [new char[size + 1]]. *)
Definition BufferBase_new (mem : list Z) (size : Z) : BufferBase :=
  mkBufferBase mem 0 size size 0 0.

Definition BufferBase_Reset (b : BufferBase) : outcome BufferBase :=
  m ← poke (_pBuffer b) 0 (replicate (Z.to_nat (_nBufferSize b)) 0);
  Ok (set_pBuffer m (set_pWrite (_pHead b) (set_pRead (_pHead b) (set_nDataSize 0 b)))).

Definition GetBufferSize (b : BufferBase) : Z := _nBufferSize b.
Definition GetDataSize (b : BufferBase) : Z := _nDataSize b.
Definition GetEmptySize (b : BufferBase) : Z := u32 (_nBufferSize b - _nDataSize b).

(** [src] is the memory at [pSrc]; [len] is a size_t. *)
Definition BufferBase_Write (b : BufferBase) (src : list Z) (len : Z) : outcome (BufferBase * Z) :=
  if GetEmptySize b <? len then Ok (b, ULONG_fail)
  else
    d ← peek src 0 len;
    m ← poke (_pBuffer b) (_pWrite b) d;
    let b' := set_nDataSize (u32 (_nDataSize b + u32 len))
                (set_pWrite (_pWrite b + len) (set_pBuffer m b)) in
    Ok (b', GetEmptySize b').

(** [des] is the memory at [pDes]; the result carries its new content. *)
Definition BufferBase_Read (b : BufferBase) (des : list Z) (len : Z)
    : outcome (BufferBase * list Z * Z) :=
  if GetDataSize b <? len then Ok (b, des, ULONG_fail)
  else
    d ← peek (_pBuffer b) (_pRead b) len;
    des' ← poke des 0 d;
    let b' := set_nDataSize (u32 (_nDataSize b - u32 len)) (set_pRead (_pRead b + len) b) in
    Ok (b', des', GetDataSize b').

(** ** CircleBuffer *)
Definition CircleBuffer := BufferBase.

Definition CircleBuffer_Write (b : CircleBuffer) (src : list Z) (nLen : Z)
    : outcome (CircleBuffer * Z) :=
  let empty := u32 (_nBufferSize b - _nDataSize b) in
  if (_nBufferSize b <? _nDataSize b) || (empty <? nLen) then Ok (b, ULONG_fail)
  else
    let gap := _pTail b - _pWrite b in
    b' ← (if gap <? nLen then
      d1 ← peek src 0 gap;
      m1 ← poke (_pBuffer b) (_pWrite b) d1;
      d2 ← peek src gap (nLen - gap);
      m2 ← poke m1 (_pHead b) d2;
      Ok (set_nDataSize (u32 (_nDataSize b + nLen))
            (set_pWrite (_pHead b + (nLen - gap)) (set_pBuffer m2 b)))
    else
      d ← peek src 0 nLen;
      m ← poke (_pBuffer b) (_pWrite b) d;
      Ok (set_nDataSize (u32 (_nDataSize b + nLen))
            (set_pWrite (_pWrite b + nLen) (set_pBuffer m b))));
    Ok (b', _nDataSize b').

Definition CircleBuffer_Read (b : CircleBuffer) (dest : list Z) (nReqSize : Z)
    : outcome (list Z * Z) :=
  if _nDataSize b <? nReqSize then Ok (dest, ULONG_fail)
  else
    let pMark := _pRead b in
    let gap := _pTail b - pMark in
    dest' ← (if gap <? nReqSize then
      d1 ← peek (_pBuffer b) pMark gap;
      dest1 ← poke dest 0 d1;
      d2 ← peek (_pBuffer b) (_pHead b) (nReqSize - gap);
      poke dest1 gap d2
    else
      d ← peek (_pBuffer b) (_pRead b) nReqSize;
      poke dest 0 d);
    Ok (dest', nReqSize).

Definition CircleBuffer_Erase (b : CircleBuffer) (releaseSize : Z) : CircleBuffer * Z :=
  if _nDataSize b <? releaseSize then (b, ULONG_fail)
  else
    let gap := _pTail b - _pRead b in
    let b' :=
      if gap <? releaseSize then
        set_nDataSize (u32 (_nDataSize b - releaseSize))
          (set_pRead (_pHead b + (releaseSize - gap)) b)
      else
        set_nDataSize (u32 (_nDataSize b - releaseSize))
          (set_pRead (_pRead b + releaseSize) b) in
    (b', _nDataSize b').

(** ** NetworkBuffer *)
Record WSABUF := mkWSABUF { wsa_buf : option Z; wsa_len : Z }.

(** [_pConnector] is the address of the connector, if any; [wsa_buf] is an
    offset into the own [_pBuffer]. *)
Record NetworkBuffer := mkNetworkBuffer {
  nb_base : BufferBase;
  _WSABuffer : WSABUF;
  nb_pConnector : option Z }.

Definition NetworkBuffer_new (mem : list Z) : NetworkBuffer :=
  mkNetworkBuffer (BufferBase_new mem MAX_PACKET_BUFFER_SIZE) (mkWSABUF None 0) None.

Definition SetSendData (nb : NetworkBuffer) (pConnector : option Z)
    (pData : option (list Z)) (nSize : Z) : outcome (NetworkBuffer * Z) :=
  match pData with
  | None => Ok (nb, -1)
  | Some src =>
    if _nBufferSize (nb_base nb) <? nSize then Ok (nb, -1)
    else
      d ← peek src 0 nSize;
      m ← poke (_pBuffer (nb_base nb)) 0 d;
      let base := set_nDataSize nSize (set_pBuffer m (nb_base nb)) in
      Ok (mkNetworkBuffer base (mkWSABUF (Some 0) (_nDataSize base)) pConnector,
          i32 (_nDataSize base))
  end.

Definition SetRecvData (nb : NetworkBuffer) (pConnector : option Z) : NetworkBuffer * Z :=
  let base := set_nDataSize 0 (nb_base nb) in
  (mkNetworkBuffer base (mkWSABUF (Some 0) (_nBufferSize base)) pConnector,
   i32 (_nBufferSize base)).

Definition SetAcceptData (nb : NetworkBuffer) (pConnector : option Z) : NetworkBuffer * Z :=
  let base := set_nDataSize 0 (nb_base nb) in
  (mkNetworkBuffer base (mkWSABUF (Some 0) (_nBufferSize base)) pConnector,
   i32 (_nBufferSize base)).

(** ** Serializer

    A variable passed by reference is given by its object representation, so
    the same code writes it when sending and overwrites it when receiving. *)
Record Serializer := mkSerializer { ser_base : BufferBase; forSend : bool }.

Definition Serializer_send (mem : list Z) : Serializer :=
  mkSerializer (BufferBase_new mem MAX_PACKET_BUFFER_SIZE) true.
Definition Serializer_recv (mem : list Z) (src : list Z) (length : Z) : outcome Serializer :=
  '(b, _) ← BufferBase_Write (BufferBase_new mem MAX_PACKET_BUFFER_SIZE) src length;
  Ok (mkSerializer b false).

Definition Value_repr (n : nat) (s : Serializer) (rep : list Z) : outcome (Serializer * list Z) :=
  if forSend s then
    '(b, _) ← BufferBase_Write (ser_base s) rep (Z.of_nat n);
    Ok (mkSerializer b true, rep)
  else
    '(b, rep', _) ← BufferBase_Read (ser_base s) rep (Z.of_nat n);
    Ok (mkSerializer b false, rep').

Definition Value_INT8 (s : Serializer) (v : Z) : outcome (Serializer * Z) :=
  '(s', r) ← Value_repr 1 s (le_enc 1 v); Ok (s', i8 (le_dec r)).
Definition Value_INT16 (s : Serializer) (v : Z) : outcome (Serializer * Z) :=
  '(s', r) ← Value_repr 2 s (le_enc 2 v); Ok (s', i16 (le_dec r)).
Definition Value_INT32 (s : Serializer) (v : Z) : outcome (Serializer * Z) :=
  '(s', r) ← Value_repr 4 s (le_enc 4 v); Ok (s', i32 (le_dec r)).
Definition Value_UINT32 (s : Serializer) (v : Z) : outcome (Serializer * Z) :=
  '(s', r) ← Value_repr 4 s (le_enc 4 v); Ok (s', u32 (le_dec r)).
Definition Value_INT64 (s : Serializer) (v : Z) : outcome (Serializer * Z) :=
  '(s', r) ← Value_repr 8 s (le_enc 8 v); Ok (s', i64 (le_dec r)).
(** The floating-point overloads copy the representation; the value is the bit
    pattern. *)
Definition Value_FLOAT (s : Serializer) (bits : Z) : outcome (Serializer * Z) :=
  '(s', r) ← Value_repr 4 s (le_enc 4 bits); Ok (s', u32 (le_dec r)).
Definition Value_DOUBLE (s : Serializer) (bits : Z) : outcome (Serializer * Z) :=
  '(s', r) ← Value_repr 8 s (le_enc 8 bits); Ok (s', u64 (le_dec r)).

(** [Value(char* pData, int len)]: the int is converted to size_t. *)
Definition Value_chars (s : Serializer) (pData : list Z) (len : Z) : outcome (Serializer * list Z) :=
  if forSend s then
    '(b, _) ← BufferBase_Write (ser_base s) pData (u64 len);
    Ok (mkSerializer b true, pData)
  else
    '(b, d, _) ← BufferBase_Read (ser_base s) pData (u64 len);
    Ok (mkSerializer b false, d).

(** ** The ring as a queue *)
Record wf_circle (b : CircleBuffer) : Prop := {
  wfc_size : 0 < _nBufferSize b < 2 ^ 31;
  wfc_mem : zlen (_pBuffer b) = _nBufferSize b + 1;
  wfc_tail : _pTail b = _nBufferSize b;
  wfc_data : 0 ≤ _nDataSize b ≤ _nBufferSize b;
  wfc_read : 0 ≤ _pRead b ≤ _nBufferSize b;
  wfc_write : 0 ≤ _pWrite b ≤ _nBufferSize b;
  wfc_rel : _pWrite b = _pRead b + _nDataSize b
          ∨ _pWrite b = _pRead b + _nDataSize b - _nBufferSize b }.

(** The queued bytes, oldest first. *)
Definition contents (b : CircleBuffer) : list Z :=
  sub (sub (_pBuffer b) (_pRead b) (_nBufferSize b - _pRead b)
       ++ sub (_pBuffer b) 0 (_pRead b)) 0 (_nDataSize b).

Definition ring_index (b : CircleBuffer) (i : Z) : Z :=
  if _pRead b + i <? _nBufferSize b then _pRead b + i else _pRead b + i - _nBufferSize b.

Section Ring.
Implicit Types (b : CircleBuffer) (src dest : list Z).

Lemma zlen_contents b : wf_circle b → zlen (contents b) = _nDataSize b.
Proof.
  intros []. unfold contents. apply zlen_sub; [lia|lia|].
  rewrite zlen_app, !zlen_sub by lia. lia.
Qed.

Lemma get_contents b i :
  wf_circle b → 0 ≤ i < _nDataSize b → get (contents b) i = get (_pBuffer b) (ring_index b i).
Proof.
  intros [] Hi. unfold contents, ring_index. rewrite get_sub by lia. rewrite Z.add_0_l.
  destruct (Z.ltb_spec (_pRead b + i) (_nBufferSize b)).
  - rewrite get_app_l by blia. by rewrite get_sub by lia.
  - rewrite get_app_r by blia. rewrite zlen_sub by lia.
    rewrite get_sub by lia. f_equal. lia.
Qed.

(** A ring is determined by the bytes at the ring positions. *)
Lemma contents_intro b q :
  wf_circle b → zlen q = _nDataSize b →
  (∀ i, 0 ≤ i < zlen q → get (_pBuffer b) (ring_index b i) = get q i) →
  contents b = q.
Proof.
  intros Hwf Hl Hg. apply blocks_eq; [by rewrite zlen_contents|].
  rewrite zlen_contents by done. intros i Hi.
  rewrite get_contents by (done || lia). apply Hg; lia.
Qed.

Lemma u32_small z : 0 ≤ z < 2 ^ 32 → u32 z = z.
Proof. apply wrapu_small. Qed.

Lemma Write_full b src k :
  wf_circle b → _nBufferSize b < _nDataSize b + k →
  CircleBuffer_Write b src k = Ok (b, ULONG_fail).
Proof.
  intros [] ?. unfold CircleBuffer_Write.
  rewrite u32_small by lia. by zbool.
Qed.

Definition Write_post b src k : CircleBuffer :=
  let gap := _pTail b - _pWrite b in
  set_nDataSize (_nDataSize b + k)
    (if gap <? k then
       set_pWrite (k - gap)
         (set_pBuffer (splice (splice (_pBuffer b) (_pWrite b) (sub src 0 gap))
                         0 (sub src gap (k - gap))) b)
     else set_pWrite (_pWrite b + k)
            (set_pBuffer (splice (_pBuffer b) (_pWrite b) (sub src 0 k)) b)).

Lemma Write_result b src k :
  wf_circle b → 0 ≤ k ≤ zlen src → _nDataSize b + k ≤ _nBufferSize b →
  CircleBuffer_Write b src k = Ok (Write_post b src k, _nDataSize b + k).
Proof.
  intros [] ??. unfold CircleBuffer_Write, Write_post. rewrite !u32_small by lia.
  zbool. rewrite wfc_tail0. simpl.
  destruct (Z.ltb_spec (_nBufferSize b - _pWrite b) k).
  - rewrite (peek_ok src 0) by lia. simpl.
    rewrite poke_ok by blia. simpl.
    rewrite (peek_ok src (_nBufferSize b - _pWrite b)) by lia. simpl.
    rewrite poke_ok by (unfold _pHead; blia).
    simpl. done.
  - rewrite peek_ok by lia. simpl. rewrite poke_ok by blia. done.
Qed.

Ltac ring_fields := unfold set_nDataSize, set_pWrite, set_pRead, set_pBuffer in *; simpl in *.

Lemma Write_wf b src k :
  wf_circle b → 0 ≤ k ≤ zlen src → _nDataSize b + k ≤ _nBufferSize b →
  wf_circle (Write_post b src k).
Proof.
  intros [] ??. unfold Write_post.
  destruct (Z.ltb_spec (_pTail b - _pWrite b) k); ring_fields;
    split; simpl; try lia;
    blia.
Qed.

Lemma Write_contents b src k :
  wf_circle b → 0 ≤ k ≤ zlen src → _nDataSize b + k ≤ _nBufferSize b →
  contents (Write_post b src k) = contents b ++ sub src 0 k.
Proof.
  intros Hwf Hk Hfit. pose proof (Write_wf b src k Hwf Hk Hfit) as Hwf'.
  pose proof (zlen_contents b Hwf) as Hlc. pose proof Hwf as [].
  apply contents_intro; [done| |].
  { rewrite zlen_app, Hlc, zlen_sub by lia.
    unfold Write_post. by destruct (_ <? _). }
  rewrite zlen_app, Hlc, zlen_sub by lia. intros i Hi.
  transitivity (if i <? _nDataSize b then get (_pBuffer b) (ring_index b i)
                else get src (i - _nDataSize b)).
  - unfold Write_post, ring_index.
    destruct (Z.ltb_spec (_pTail b - _pWrite b) k); ring_fields;
      destruct (Z.ltb_spec i (_nDataSize b)), (Z.ltb_spec (_pRead b + i) (_nBufferSize b));
      repeat (rewrite get_splice by blia); repeat rewrite zlen_sub by lia;
      repeat case_bool_decide; try lia; try done;
      rewrite get_sub by lia; f_equal; lia.
  - destruct (Z.ltb_spec i (_nDataSize b)).
    + rewrite get_app_l by lia. by rewrite get_contents by (done || lia).
    + rewrite get_app_r by lia. rewrite Hlc, get_sub by lia. f_equal.
Qed.

Lemma Read_short b dest k :
  _nDataSize b < k → CircleBuffer_Read b dest k = Ok (dest, ULONG_fail).
Proof. intros ?. unfold CircleBuffer_Read. by zbool. Qed.

Lemma sub_contents b k :
  wf_circle b → 0 ≤ k ≤ _nDataSize b →
  sub (contents b) 0 k =
    if _nBufferSize b - _pRead b <? k
    then sub (_pBuffer b) (_pRead b) (_nBufferSize b - _pRead b)
         ++ sub (_pBuffer b) 0 (k - (_nBufferSize b - _pRead b))
    else sub (_pBuffer b) (_pRead b) k.
Proof.
  intros Hwf ?. pose proof (zlen_contents b Hwf). pose proof Hwf as [].
  apply blocks_eq.
  { zcases; blia. }
  rewrite zlen_sub by lia. intros i Hi.
  rewrite get_sub, get_contents by (done || lia). unfold ring_index.
  destruct (Z.ltb_spec (_nBufferSize b - _pRead b) k),
    (Z.ltb_spec (_pRead b + (0 + i)) (_nBufferSize b)); try lia.
  - rewrite get_app_l by blia. by rewrite get_sub by lia.
  - rewrite get_app_r by blia. rewrite zlen_sub, get_sub by lia.
    f_equal; lia.
  - by rewrite get_sub by lia.
Qed.

Lemma Read_result b dest k :
  wf_circle b → 0 ≤ k ≤ _nDataSize b → k ≤ zlen dest →
  CircleBuffer_Read b dest k = Ok (splice dest 0 (sub (contents b) 0 k), k).
Proof.
  intros Hwf ??. rewrite sub_contents by done. pose proof Hwf as [].
  unfold CircleBuffer_Read, _pHead. zbool. rewrite wfc_tail0.
  destruct (Z.ltb_spec (_nBufferSize b - _pRead b) k).
  - rewrite (peek_ok _ (_pRead b)) by lia. simpl.
    rewrite (poke_ok dest) by blia. simpl.
    rewrite peek_ok by lia. simpl.
    rewrite poke_ok by blia. simpl.
    do 2 f_equal. apply blocks_eq.
    { rewrite !zlen_splice by blia. lia. }
    rewrite !zlen_splice by blia.
    intros i Hi.
    repeat (rewrite get_splice by blia). rewrite zlen_app, !zlen_sub by lia.
    repeat case_bool_decide; try lia; try done.
    + rewrite get_app_r by blia. rewrite zlen_sub by lia. f_equal; lia.
    + rewrite get_app_l by blia. done.
  - rewrite peek_ok by lia. simpl. by rewrite poke_ok by blia.
Qed.

Lemma Erase_short b k :
  _nDataSize b < k → CircleBuffer_Erase b k = (b, ULONG_fail).
Proof. intros ?. unfold CircleBuffer_Erase. by zbool. Qed.

Lemma Erase_result b k :
  wf_circle b → 0 ≤ k ≤ _nDataSize b →
  ∃ b', CircleBuffer_Erase b k = (b', _nDataSize b - k) ∧ wf_circle b' ∧
    _nBufferSize b' = _nBufferSize b ∧
    contents b' = sub (contents b) k (_nDataSize b - k).
Proof.
  intros Hwf ?. pose proof Hwf as []. pose proof (zlen_contents b Hwf) as Hlc.
  eexists. unfold CircleBuffer_Erase. zbool. split; [|split; [|split]].
  - f_equal. rewrite u32_small by lia. by destruct (_ <? _).
  - rewrite u32_small by lia.
    destruct (Z.ltb_spec (_pTail b - _pRead b) k); split; unfold _pHead; ring_fields; lia.
  - by destruct (_ <? _).
  - match goal with |- contents ?b' = _ => assert (wf_circle b') as Hwf' end.
    { rewrite u32_small by lia.
      destruct (Z.ltb_spec (_pTail b - _pRead b) k); split; unfold _pHead; ring_fields; lia. }
    apply contents_intro; [done| |].
    + rewrite zlen_sub, u32_small by lia. by destruct (_ <? _).
    + rewrite zlen_sub by lia. intros i Hi.
      rewrite get_sub, get_contents by (done || lia).
      rewrite u32_small by lia. unfold ring_index, _pHead.
      destruct (Z.ltb_spec (_pTail b - _pRead b) k); ring_fields;
        zcases; f_equal; lia.
Qed.

Lemma new_wf mem size :
  0 < size < 2 ^ 31 → zlen mem = size + 1 →
  wf_circle (BufferBase_new mem size) ∧ contents (BufferBase_new mem size) = [].
Proof.
  intros ??. assert (wf_circle (BufferBase_new mem size)) as Hwf by (split; simpl; lia).
  split; [done|]. apply zlen_zero_nil. rewrite zlen_contents by done. done.
Qed.
End Ring.

(** ** Refinement: the ring against a bounded queue

    Operations carry the memory the caller passes: [OpWrite src k] writes the
    first [k] bytes of [src], [OpRead dest k] reads [k] bytes into [dest]. *)
Inductive ring_op :=
| OpWrite (src : list Z) (k : Z)
| OpRead (dest : list Z) (k : Z)
| OpErase (k : Z).

(** What the caller observes: the memory it passed and the return value. *)
Definition observation : Type := list Z * Z.

Definition ring_step (b : CircleBuffer) (o : ring_op) : outcome (CircleBuffer * observation) :=
  match o with
  | OpWrite src k => '(b', r) ← CircleBuffer_Write b src k; Ok (b', (src, r))
  | OpRead dest k => '(d, r) ← CircleBuffer_Read b dest k; Ok (b, (d, r))
  | OpErase k => let '(b', r) := CircleBuffer_Erase b k in Ok (b', ([], r))
  end.

(** The specification: a list of at most [cap] bytes. *)
Definition fifo_step (cap : Z) (q : list Z) (o : ring_op) : list Z * observation :=
  match o with
  | OpWrite src k =>
      if cap <? zlen q + k then (q, (src, ULONG_fail))
      else (q ++ sub src 0 k, (src, zlen q + k))
  | OpRead dest k =>
      if zlen q <? k then (q, (dest, ULONG_fail))
      else (q, (splice dest 0 (sub q 0 k), k))
  | OpErase k =>
      if zlen q <? k then (q, ([], ULONG_fail))
      else (sub q k (zlen q - k), ([], zlen q - k))
  end.

(** The memory passed is as long as the size announced. *)
Definition op_ok (o : ring_op) : Prop :=
  match o with
  | OpWrite src k => 0 ≤ k ≤ zlen src
  | OpRead dest k => 0 ≤ k ≤ zlen dest
  | OpErase k => 0 ≤ k
  end.

Fixpoint ring_run (b : CircleBuffer) (ops : list ring_op) : outcome (CircleBuffer * list observation) :=
  match ops with
  | [] => Ok (b, [])
  | o :: ops =>
      '(b1, x) ← ring_step b o;
      '(b2, xs) ← ring_run b1 ops;
      Ok (b2, x :: xs)
  end.

Fixpoint fifo_run (cap : Z) (q : list Z) (ops : list ring_op) : list Z * list observation :=
  match ops with
  | [] => (q, [])
  | o :: ops =>
      let '(q1, x) := fifo_step cap q o in
      let '(q2, xs) := fifo_run cap q1 ops in
      (q2, x :: xs)
  end.

Lemma ring_step_refines b o :
  wf_circle b → op_ok o →
  ∃ b' x, ring_step b o = Ok (b', x) ∧ wf_circle b' ∧ _nBufferSize b' = _nBufferSize b ∧
    fifo_step (_nBufferSize b) (contents b) o = (contents b', x).
Proof.
  intros Hwf Hok. pose proof (zlen_contents b Hwf) as Hl.
  destruct o as [src k|dest k|k]; simpl in *; rewrite Hl.
  - destruct (Z.ltb_spec (_nBufferSize b) (_nDataSize b + k)).
    + rewrite Write_full by (done || lia). simpl. eauto 10.
    + rewrite Write_result by (done || lia). simpl.
      eexists _, _. split; [done|]. split; [by apply Write_wf|]. split.
      * unfold Write_post. by destruct (_ <? _).
      * by rewrite Write_contents.
  - destruct (Z.ltb_spec (_nDataSize b) k).
    + rewrite Read_short by lia. simpl. eauto 10.
    + rewrite Read_result by (done || lia). simpl. eauto 10.
  - destruct (Z.ltb_spec (_nDataSize b) k).
    + rewrite Erase_short by lia. eauto 10.
    + destruct (Erase_result b k Hwf) as (b' & -> & Hwf' & Hs & Hc); [lia|].
      rewrite <-Hc. eauto 10.
Qed.

Lemma ring_run_refines b ops :
  wf_circle b → Forall op_ok ops →
  ∃ b' xs, ring_run b ops = Ok (b', xs) ∧ wf_circle b' ∧ _nBufferSize b' = _nBufferSize b ∧
    fifo_run (_nBufferSize b) (contents b) ops = (contents b', xs).
Proof.
  intros Hwf Hops. revert b Hwf. induction Hops as [|o ops Ho _ IH]; intros b Hwf.
  { simpl. eauto 10. }
  destruct (ring_step_refines b o Hwf Ho) as (b1 & x & Hs & Hwf1 & Hsz & Hf).
  destruct (IH b1 Hwf1) as (b2 & xs & Hr & Hwf2 & Hsz2 & Hf2).
  exists b2, (x :: xs). simpl. rewrite Hs. simpl. rewrite Hr. simpl.
  split_and!; [done|done|congruence|]. rewrite Hf. rewrite Hsz in Hf2. by rewrite Hf2.
Qed.

(** C11: the receive ring implements the bounded queue.  From a fresh
    [CircleBuffer] of any size, every sequence of Write, Read and Erase calls
    with honest arguments completes without touching memory outside the
    buffer, and every return value and every byte read is the one a
    first-in first-out queue of that capacity gives. *)
Theorem circle_buffer_refines_fifo mem size ops :
  0 < size < 2 ^ 31 → zlen mem = size + 1 → Forall op_ok ops →
  ∃ b' xs, ring_run (BufferBase_new mem size) ops = Ok (b', xs) ∧
    fifo_run size [] ops = (contents b', xs).
Proof.
  intros Hs Hm Hops. destruct (new_wf mem size Hs Hm) as [Hwf Hc].
  destruct (ring_run_refines _ ops Hwf Hops) as (b' & xs & Hr & _ & _ & Hf).
  exists b', xs. rewrite Hc in Hf. done.
Qed.

Lemma circle_buffer_refines_fifo_witness :
  ∃ b' xs,
    ring_run (BufferBase_new [0;0;0;0;0] 4)
      [OpWrite [1;2;3] 3; OpErase 2; OpWrite [4;5;6] 3; OpRead [0;0;0;0] 4] = Ok (b', xs) ∧
    fifo_run 4 [] [OpWrite [1;2;3] 3; OpErase 2; OpWrite [4;5;6] 3; OpRead [0;0;0;0] 4]
      = (contents b', xs).
Proof.
  apply (circle_buffer_refines_fifo [0;0;0;0;0] 4); [lia|done|].
  repeat constructor; simpl; vm_compute; intuition discriminate.
Defined.

(** ** The linear buffer *)
Record wf_linear (b : BufferBase) : Prop := {
  wfl_size : 0 ≤ _nBufferSize b < 2 ^ 31;
  wfl_mem : zlen (_pBuffer b) = _nBufferSize b + 1;
  wfl_read : 0 ≤ _pRead b;
  wfl_data : 0 ≤ _nDataSize b;
  wfl_rel : _pWrite b = _pRead b + _nDataSize b;
  wfl_fit : _pWrite b ≤ _nBufferSize b }.

(** The unread bytes. *)
Definition pending (b : BufferBase) : list Z := sub (_pBuffer b) (_pRead b) (_nDataSize b).

Section Linear.
Implicit Types (b : BufferBase) (src des : list Z).

Lemma zlen_pending b : wf_linear b → zlen (pending b) = _nDataSize b.
Proof. intros []. unfold pending. apply zlen_sub; lia. Qed.

Lemma linear_new mem size :
  0 ≤ size < 2 ^ 31 → zlen mem = size + 1 →
  wf_linear (BufferBase_new mem size) ∧ pending (BufferBase_new mem size) = [].
Proof. intros. split; [split; simpl; lia|done]. Qed.

Lemma linear_write_full b src len :
  wf_linear b → _nBufferSize b < _nDataSize b + len →
  BufferBase_Write b src len = Ok (b, ULONG_fail).
Proof.
  intros [] ?. unfold BufferBase_Write, GetEmptySize. rewrite u32_small by lia.
  by zbool.
Qed.

Lemma linear_write b src len :
  wf_linear b → _pRead b = 0 → 0 ≤ len ≤ zlen src → _nDataSize b + len ≤ _nBufferSize b →
  ∃ b', BufferBase_Write b src len = Ok (b', _nBufferSize b - _nDataSize b - len) ∧
    wf_linear b' ∧ _pRead b' = 0 ∧ _nBufferSize b' = _nBufferSize b ∧
    pending b' = pending b ++ sub src 0 len.
Proof.
  intros [] Hr0 Hlen Hfit. eexists. unfold BufferBase_Write, GetEmptySize.
  rewrite !u32_small by lia. zbool.
  rewrite peek_ok by lia. simpl. rewrite poke_ok by blia. simpl.
  rewrite (u32_small len), !u32_small by lia. split; [by do 2 f_equal; lia|].
  split_and!; [split; simpl; blia|done|done|].
  unfold pending. simpl. rewrite Hr0, wfl_rel0, Hr0, Z.add_0_l.
  rewrite sub_app by blia. rewrite sub_splice_disjoint by blia. f_equal.
  rewrite Z.add_0_l. rewrite <-(zlen_sub src 0 len) at 2 by lia.
  apply sub_splice_same; blia.
Qed.

Lemma linear_read_short b des len :
  _nDataSize b < len → BufferBase_Read b des len = Ok (b, des, ULONG_fail).
Proof. intros. unfold BufferBase_Read, GetDataSize. by zbool. Qed.

Lemma linear_read b des len :
  wf_linear b → 0 ≤ len ≤ zlen des → len ≤ _nDataSize b →
  ∃ b', BufferBase_Read b des len
      = Ok (b', splice des 0 (sub (pending b) 0 len), _nDataSize b - len) ∧
    wf_linear b' ∧ _nBufferSize b' = _nBufferSize b ∧
    pending b' = sub (pending b) len (_nDataSize b - len).
Proof.
  intros [] Hlen Hfit. eexists. unfold BufferBase_Read, GetDataSize. zbool.
  rewrite peek_ok by lia. simpl. rewrite poke_ok by blia. simpl.
  rewrite (u32_small len), !u32_small by lia.
  unfold pending. rewrite sub_sub by lia. rewrite Z.add_0_r.
  split; [done|]. split_and!; [split; simpl; lia|done|].
  simpl. by rewrite sub_sub by lia.
Qed.

(** C27: exact safety condition of [BufferBase::Write].  The size test
    counts the bytes already read as free, but [_pWrite] never moves back:
    when the test passes, the copy stays inside the allocation if and only
    if the write position plus the length does. *)
Theorem linear_write_safe_iff b src len :
  wf_linear b → 0 ≤ len ≤ zlen src → _nDataSize b + len ≤ _nBufferSize b →
  BufferBase_Write b src len = Fault OutOfBounds ↔ _nBufferSize b + 1 < _pWrite b + len.
Proof.
  intros [] Hlen Hfit. unfold BufferBase_Write, GetEmptySize.
  rewrite u32_small by lia. zbool. rewrite peek_ok by lia. simpl.
  destruct (decide (_pWrite b + len ≤ _nBufferSize b + 1)).
  - rewrite poke_ok by blia. simpl. split; [done|lia].
  - rewrite poke_fault by blia. simpl. split; [lia|done].
Qed.
End Linear.

(** The buffer of four bytes after "write 4, read 4": writing 2 more passes
    the size test and overruns the allocation. *)
Lemma linear_write_safe_iff_witness :
  BufferBase_Write (mkBufferBase [1;2;3;4;0] 0 4 4 4 4) [5;6] 2 = Fault OutOfBounds ↔ 4 + 1 < 4 + 2.
Proof.
  apply (linear_write_safe_iff (mkBufferBase [1;2;3;4;0] 0 4 4 4 4) [5;6] 2).
  - split; simpl; try lia; vm_compute; try intuition discriminate; done.
  - vm_compute; intuition discriminate.
  - vm_compute; intuition discriminate.
Defined.

(** ** Serializer states *)
Definition capacity (s : Serializer) : Z := _nBufferSize (ser_base s).

Record sending (s : Serializer) (q : list Z) : Prop := {
  snd_mode : forSend s = true;
  snd_wf : wf_linear (ser_base s);
  snd_read : _pRead (ser_base s) = 0;
  snd_bytes : pending (ser_base s) = q }.
Record receiving (s : Serializer) (q : list Z) : Prop := {
  rcv_mode : forSend s = false;
  rcv_wf : wf_linear (ser_base s);
  rcv_bytes : pending (ser_base s) = q }.

Section SerializerLaws.
Implicit Types (s : Serializer) (q rep : list Z).

Lemma sending_size s q : sending s q → _nDataSize (ser_base s) = zlen q.
Proof. intros [? ? ? <-]. by rewrite zlen_pending. Qed.
Lemma receiving_size s q : receiving s q → _nDataSize (ser_base s) = zlen q.
Proof. intros [? ? <-]. by rewrite zlen_pending. Qed.

Lemma Serializer_send_new mem :
  zlen mem = MAX_PACKET_BUFFER_SIZE + 1 →
  sending (Serializer_send mem) [] ∧ capacity (Serializer_send mem) = MAX_PACKET_BUFFER_SIZE.
Proof.
  intros Hm. destruct (linear_new mem MAX_PACKET_BUFFER_SIZE) as [??];
    [unfold MAX_PACKET_BUFFER_SIZE; lia|done|]. split; [|done]. by split.
Qed.

Lemma Serializer_recv_new mem src len :
  zlen mem = MAX_PACKET_BUFFER_SIZE + 1 → 0 ≤ len ≤ zlen src → len ≤ MAX_PACKET_BUFFER_SIZE →
  ∃ s, Serializer_recv mem src len = Ok s ∧ receiving s (sub src 0 len).
Proof.
  intros Hm Hlen Hmax. destruct (linear_new mem MAX_PACKET_BUFFER_SIZE) as [Hwf Hp];
    [unfold MAX_PACKET_BUFFER_SIZE; lia|done|].
  unfold Serializer_recv.
  destruct (linear_write _ src len Hwf) as (b' & Hw & Hwf' & _ & _ & Hp');
    [done|done|simpl; lia|]. rewrite Hw. simpl. eexists. split; [done|].
  split; [done|done|]. simpl. by rewrite Hp', Hp.
Qed.

Lemma Serializer_recv_long mem src len :
  zlen mem = MAX_PACKET_BUFFER_SIZE + 1 → MAX_PACKET_BUFFER_SIZE < len →
  ∃ s, Serializer_recv mem src len = Ok s ∧ receiving s [].
Proof.
  intros Hm Hmax. destruct (linear_new mem MAX_PACKET_BUFFER_SIZE) as [Hwf Hp];
    [unfold MAX_PACKET_BUFFER_SIZE; lia|done|].
  unfold Serializer_recv. rewrite linear_write_full by (done || (simpl; lia)).
  simpl. eexists. split; [done|]. by split.
Qed.

Lemma Write_sending s q src len :
  sending s q → 0 ≤ len ≤ zlen src → zlen q + len ≤ capacity s →
  ∃ b r, BufferBase_Write (ser_base s) src len = Ok (b, r) ∧
    sending (mkSerializer b true) (q ++ sub src 0 len) ∧ _nBufferSize b = capacity s.
Proof.
  intros Hs Hlen Hfit. pose proof (sending_size _ _ Hs) as Hsz. destruct Hs as [Hm Hwf Hr Hp].
  destruct (linear_write (ser_base s) src len) as (b & Hw & Hwf' & Hr' & Hsz' & Hp');
    [done|done|done|unfold capacity in *; lia|].
  exists b, (_nBufferSize (ser_base s) - _nDataSize (ser_base s) - len).
  split; [done|]. split; [|done]. split; simpl; [done|done|done|congruence].
Qed.

Lemma Read_receiving s q des len :
  receiving s q → 0 ≤ len ≤ zlen des → len ≤ zlen q →
  ∃ b r, BufferBase_Read (ser_base s) des len = Ok (b, splice des 0 (sub q 0 len), r) ∧
    receiving (mkSerializer b false) (sub q len (zlen q - len)).
Proof.
  intros Hs Hlen Hfit. pose proof (receiving_size _ _ Hs) as Hsz. destruct Hs as [Hm Hwf Hp].
  destruct (linear_read (ser_base s) des len) as (b & Hw & Hwf' & Hsz' & Hp');
    [done|done|lia|].
  rewrite Hp, Hsz in Hw. rewrite Hp, Hsz in Hp'.
  exists b, (zlen q - len). split; [done|]. split; done.
Qed.

Lemma Value_repr_send n s q rep :
  sending s q → zlen rep = Z.of_nat n → zlen q + Z.of_nat n ≤ capacity s →
  ∃ s', Value_repr n s rep = Ok (s', rep) ∧ sending s' (q ++ rep) ∧ capacity s' = capacity s.
Proof.
  intros Hs Hl Hfit.
  destruct (Write_sending s q rep (Z.of_nat n)) as (b & r & Hw & Hs' & Hc); [done|lia|done|].
  rewrite <-Hl, sub_all in Hs'. unfold Value_repr. rewrite (snd_mode _ _ Hs), Hw. simpl.
  eauto.
Qed.

Lemma Value_repr_recv n s d q rep :
  receiving s (d ++ q) → zlen d = Z.of_nat n → zlen rep = Z.of_nat n →
  ∃ s', Value_repr n s rep = Ok (s', d) ∧ receiving s' q.
Proof.
  intros Hs Hd Hr. pose proof (zlen_nonneg q).
  destruct (Read_receiving s (d ++ q) rep (Z.of_nat n)) as (b & r & Hw & Hs'); [done|lia|blia|].
  unfold Value_repr. rewrite (rcv_mode _ _ Hs), Hw. simpl.
  eexists. rewrite (sub_app_here q d) by lia. rewrite splice_whole by lia.
  split; [done|]. rewrite sub_app_skip in Hs' by lia. rewrite zlen_app in Hs'.
  replace (Z.of_nat n - zlen d) with 0 in Hs' by lia.
  replace (zlen d + zlen q - Z.of_nat n) with (zlen q) in Hs' by lia.
  by rewrite sub_all in Hs'.
Qed.

Lemma Value_repr_recv_short n s q rep :
  receiving s q → zlen q < Z.of_nat n → 
  ∃ s', Value_repr n s rep = Ok (s', rep) ∧ receiving s' q.
Proof.
  intros Hs Hl. pose proof (receiving_size _ _ Hs).
  unfold Value_repr. rewrite (rcv_mode _ _ Hs). rewrite linear_read_short by lia. simpl.
  eexists; split; [done|]. by destruct Hs.
Qed.
End SerializerLaws.
