(* ===== verification/Wire.v ===== *)
(** * The serializable-object interface

    Every packet and record of the protocol has one [Serialize] method that
    runs in both directions.  [Wire] is that method; [WireLaws] is what a
    client of it relies on: sending appends the encoding, receiving the
    encoding into a default object gives the object back.  The packets of
    _framework/packet_protocol_cs.h and packet_protocol_sc.h are instances. *)
From S2P Require Import Prelude Buffer.

Class Wire (P : Type) := Serialize : Serializer → P → outcome (Serializer * P).

Class WireLaws (P : Type) `{Wire P} := {
  default_obj : P;                 (** the object its constructor gives *)
  wire_wf : P → Prop;              (** field ranges *)
  encode : P → list Z;             (** bytes on the wire *)
  wire_send s q p :
    wire_wf p → sending s q → zlen q + zlen (encode p) ≤ capacity s →
    ∃ s', Serialize s p = Ok (s', p) ∧ sending s' (q ++ encode p) ∧ capacity s' = capacity s;
  wire_recv s q p :
    wire_wf p → receiving s (encode p ++ q) →
    ∃ s', Serialize s default_obj = Ok (s', p) ∧ receiving s' q }.

(** ** Fields *)
Lemma zlen_le_enc n z : zlen (le_enc n z) = Z.of_nat n.
Proof. unfold zlen. by rewrite length_le_enc. Qed.

#[export] Hint Rewrite zlen_le_enc : blocks.

Ltac zl := autorewrite with blocks in *; lia.

Section Fields.
Implicit Types (s : Serializer) (q : list Z).

(** The integer overloads differ by width and by the reading [f] of the
    representation. *)
Definition Value_int (n : nat) (f : Z → Z) (s : Serializer) (v : Z) : outcome (Serializer * Z) :=
  '(s', r) ← Value_repr n s (le_enc n v); Ok (s', f (le_dec r)).

Lemma Value_int_send n f s q v :
  f (v mod 2 ^ (8 * Z.of_nat n)) = v →
  sending s q → zlen q + Z.of_nat n ≤ capacity s →
  ∃ s', Value_int n f s v = Ok (s', v) ∧ sending s' (q ++ le_enc n v) ∧ capacity s' = capacity s.
Proof.
  intros Hv Hs Hfit.
  destruct (Value_repr_send n s q (le_enc n v)) as (s' & Hr & Hs' & Hc);
    [done|by rewrite zlen_le_enc|done|].
  unfold Value_int. rewrite Hr. simpl. rewrite le_dec_enc, Hv. eauto.
Qed.

Lemma Value_int_recv n f s q v v0 :
  f (v mod 2 ^ (8 * Z.of_nat n)) = v →
  receiving s (le_enc n v ++ q) →
  ∃ s', Value_int n f s v0 = Ok (s', v) ∧ receiving s' q.
Proof.
  intros Hv Hs.
  destruct (Value_repr_recv n s (le_enc n v) q (le_enc n v0)) as (s' & Hr & Hs');
    [done|by rewrite zlen_le_enc|by rewrite zlen_le_enc|].
  unfold Value_int. rewrite Hr. simpl. rewrite le_dec_enc, Hv. eauto.
Qed.

Lemma i32_repr v : in_s 32 v → i32 (v mod 2 ^ (8 * Z.of_nat 4)) = v.
Proof. intros. change (8 * Z.of_nat 4) with 32. rewrite wraps_mod by lia. by apply wraps_small. Qed.
Lemma i64_repr v : in_s 64 v → i64 (v mod 2 ^ (8 * Z.of_nat 8)) = v.
Proof. intros. change (8 * Z.of_nat 8) with 64. rewrite wraps_mod by lia. by apply wraps_small. Qed.
Lemma u32_repr v : in_u 32 v → u32 (v mod 2 ^ (8 * Z.of_nat 4)) = v.
Proof.
  intros. change (8 * Z.of_nat 4) with 32. unfold wrapu.
  rewrite Z.mod_mod by lia. by apply wrapu_small.
Qed.

Lemma Value_INT32_eq s v : Value_INT32 s v = Value_int 4 i32 s v.
Proof. done. Qed.
Lemma Value_UINT32_eq s v : Value_UINT32 s v = Value_int 4 u32 s v.
Proof. done. Qed.
Lemma Value_INT64_eq s v : Value_INT64 s v = Value_int 8 i64 s v.
Proof. done. Qed.

Lemma Value_chars_send s q d len :
  sending s q → 0 ≤ len ≤ zlen d → len < 2 ^ 64 → zlen q + len ≤ capacity s →
  ∃ s', Value_chars s d len = Ok (s', d) ∧ sending s' (q ++ sub d 0 len) ∧ capacity s' = capacity s.
Proof.
  intros Hs Hlen H64 Hfit. unfold Value_chars. rewrite (snd_mode _ _ Hs).
  rewrite wrapu_small by (split; lia).
  destruct (Write_sending s q d len) as (b & r & -> & Hs' & Hc); [done..|].
  simpl. eauto.
Qed.

Lemma Value_chars_recv s d q dest :
  receiving s (d ++ q) → zlen d < 2 ^ 64 → zlen d ≤ zlen dest →
  ∃ s', Value_chars s dest (zlen d) = Ok (s', splice dest 0 d) ∧ receiving s' q.
Proof.
  intros Hs H64 Hfit. pose proof (zlen_nonneg d). pose proof (zlen_nonneg q).
  unfold Value_chars. rewrite (rcv_mode _ _ Hs).
  rewrite wrapu_small by (split; lia).
  destruct (Read_receiving s (d ++ q) dest (zlen d)) as (b & r & Hr & Hs'); [done|lia|blia|].
  rewrite Hr. simpl. rewrite (sub_app_here q d) by lia.
  eexists; split; [done|]. rewrite sub_app_skip in Hs' by lia. rewrite zlen_app in Hs'.
  replace (zlen d - zlen d) with 0 in Hs' by lia.
  replace (zlen d + zlen q - zlen d) with (zlen q) in Hs' by lia.
  by rewrite sub_all in Hs'.
Qed.
End Fields.

Ltac wire_fold :=
  rewrite ?Value_INT32_eq, ?Value_INT64_eq, ?Value_UINT32_eq.

(** Sending a record of integer fields. *)
Ltac send_field :=
  match goal with
  | Hs : sending ?s ?q |- context [Value_int ?n ?f ?s ?v] =>
      let s' := fresh "s" in let H := fresh "Hs" in let Hc := fresh "Hc" in
      let E := fresh "E" in
      destruct (Value_int_send n f s q v) as (s' & E & H & Hc);
      [ first [by apply i32_repr | by apply i64_repr | by apply u32_repr]
      | done | zl | rewrite E; simpl; clear E Hs; wire_fold ]
  end.
Ltac recv_field :=
  match goal with
  | Hs : receiving ?s (le_enc ?n ?v ++ ?q) |- context [Value_int ?n ?f ?s ?v0] =>
      let s' := fresh "s" in let H := fresh "Hs" in let E := fresh "E" in
      destruct (Value_int_recv n f s q v v0) as (s' & E & H);
      [ first [by apply i32_repr | by apply i64_repr | by apply u32_repr]
      | done | rewrite E; simpl; clear E Hs; wire_fold ]
  end.
Ltac send_fields Hs :=
  wire_fold; repeat send_field; eexists; split; [done|split; [|congruence]];
  rewrite <-?app_assoc in *; done.
Ltac recv_fields :=
  wire_fold; rewrite <-?app_assoc in *; repeat recv_field; eauto.

(** ** The packet head

    [PacketBody::SerializeHead] (packet.h) and the two halves of every packet,
    as [SendPacket] and [PacketFunctor::Execute] call them. *)
Definition SerializeHead (s : Serializer) (ui32PacketType : Z) : outcome (Serializer * Z) :=
  Value_UINT32 s ui32PacketType.

Record packet (P : Type) := mkPacket { ui32PacketType : Z; body : P }.
Arguments mkPacket {P} _ _.
Arguments ui32PacketType {P} _.
Arguments body {P} _.

Definition Serialize_packet {P} `{Wire P} (s : Serializer) (p : packet P)
    : outcome (Serializer * packet P) :=
  '(s1, ty) ← SerializeHead s (ui32PacketType p);
  '(s2, b) ← Serialize s1 (body p);
  Ok (s2, mkPacket ty b).

Definition encode_packet {P} `{WireLaws P} (p : packet P) : list Z :=
  le_enc 4 (ui32PacketType p) ++ encode (body p).

Section PacketLaws.
Context {P : Type} `{WireLaws P}.

Lemma Serialize_packet_send s q (p : packet P) :
  in_u 32 (ui32PacketType p) → wire_wf (body p) → sending s q →
  zlen q + zlen (encode_packet p) ≤ capacity s →
  ∃ s', Serialize_packet s p = Ok (s', p) ∧ sending s' (q ++ encode_packet p) ∧
    capacity s' = capacity s.
Proof.
  intros Ht Hwf Hs Hfit. unfold encode_packet in *. rewrite zlen_app, zlen_le_enc in Hfit.
  pose proof (zlen_nonneg (encode (body p))).
  unfold Serialize_packet, SerializeHead. wire_fold. send_field.
  destruct (wire_send s0 _ (body p) Hwf Hs0) as (s2 & E & Hs2 & Hc2); [zl|].
  rewrite E. simpl. destruct p as [ty b]; simpl in *.
  eexists; split; [done|]. rewrite <-app_assoc in Hs2. split; [done|congruence].
Qed.

Lemma Serialize_packet_recv s q ty0 (p : packet P) :
  in_u 32 (ui32PacketType p) → wire_wf (body p) → receiving s (encode_packet p ++ q) →
  ∃ s', Serialize_packet s (mkPacket ty0 default_obj) = Ok (s', p) ∧ receiving s' q.
Proof.
  intros Ht Hwf Hs. unfold encode_packet in *. rewrite <-app_assoc in Hs.
  unfold Serialize_packet, SerializeHead. simpl. wire_fold. recv_field.
  destruct (wire_recv s0 q (body p) Hwf Hs0) as (s2 & E & Hs2).
  rewrite E. simpl. destruct p as [ty b]; simpl in *. eauto.
Qed.

Lemma zlen_encode_packet (p : packet P) : zlen (encode_packet p) = 4 + zlen (encode (body p)).
Proof. unfold encode_packet. by rewrite zlen_app, zlen_le_enc. Qed.
End PacketLaws.
