(* ===== verification/Character.v ===== *)
(** * Characters: _framework/character_base.h *)
From S2P Require Import Prelude Buffer Wire.

(** ** Position *)
Record Position := mkPosition { zoneId : Z; posX : Z; posY : Z }.

Definition Position_default : Position := mkPosition 0 0 0.
Definition Position_ResetPos (p : Position) : Position := mkPosition 0 0 0.
Definition Position_SetPos3 (p : Position) (zone x y : Z) : Position := mkPosition zone x y.
Definition Position_SetPos2 (p : Position) (x y : Z) : Position := mkPosition (zoneId p) x y.
Definition Position_GetPos (p : Position) : Z * Z := (posX p, posY p).

Definition Position_Serialize (s : Serializer) (p : Position) : outcome (Serializer * Position) :=
  '(s1, z) ← Value_INT32 s (zoneId p);
  '(s2, x) ← Value_INT32 s1 (posX p);
  '(s3, y) ← Value_INT32 s2 (posY p);
  Ok (s3, mkPosition z x y).

#[export] Instance Position_wire : Wire Position := Position_Serialize.

#[export] Program Instance Position_laws : WireLaws Position := {|
  default_obj := Position_default;
  wire_wf p := in_s 32 (zoneId p) ∧ in_s 32 (posX p) ∧ in_s 32 (posY p);
  encode p := le_enc 4 (zoneId p) ++ le_enc 4 (posX p) ++ le_enc 4 (posY p) |}.
Next Obligation.
  intros s q [z x y] (?&?&?) Hs Hfit; simpl in *.
  unfold Serialize, Position_wire, Position_Serialize; simpl.
  send_fields Hs.
Qed.
Next Obligation.
  intros s q [z x y] (?&?&?) Hs; simpl in *.
  unfold Serialize, Position_wire, Position_Serialize; simpl.
  recv_fields.
Qed.

(** ** CharacterDbData *)
Record CharacterDbData := mkCharacterDbData { db_token : Z; db_pos : Position }.

Definition CharacterDbData_default : CharacterDbData := mkCharacterDbData 0 Position_default.

Definition CharacterDbData_Serialize (s : Serializer) (d : CharacterDbData)
    : outcome (Serializer * CharacterDbData) :=
  '(s1, t) ← Value_INT64 s (db_token d);
  '(s2, p) ← Position_Serialize s1 (db_pos d);
  Ok (s2, mkCharacterDbData t p).

#[export] Instance CharacterDbData_wire : Wire CharacterDbData := CharacterDbData_Serialize.

#[export] Program Instance CharacterDbData_laws : WireLaws CharacterDbData := {|
  default_obj := CharacterDbData_default;
  wire_wf d := in_s 64 (db_token d) ∧ wire_wf (db_pos d);
  encode d := le_enc 8 (db_token d) ++ encode (db_pos d) |}.
Next Obligation.
  intros s q [t p] (?&Hp) Hs Hfit. cbn [db_token db_pos] in *.
  pose proof (zlen_nonneg (encode p)).
  unfold Serialize, CharacterDbData_wire, CharacterDbData_Serialize. cbn [db_token db_pos].
  wire_fold. send_field.
  destruct (wire_send s0 _ p Hp Hs0) as (s2 & E & Hs2 & Hc2); [zl|].
  change (Position_Serialize s0 p) with (Serialize s0 p). rewrite E. simpl.
  eexists; split; [done|]. rewrite <-app_assoc in Hs2. split; [done|congruence].
Qed.
Next Obligation.
  intros s q [t p] (?&Hp) Hs. cbn [db_token db_pos] in *.
  unfold Serialize, CharacterDbData_wire, CharacterDbData_Serialize.
  rewrite <-app_assoc in Hs. cbn [db_token db_pos CharacterDbData_default].
  wire_fold. recv_field.
  destruct (wire_recv s0 q p Hp Hs0) as (s2 & E & Hs2).
  change (Position_Serialize s0 Position_default) with (Serialize s0 default_obj).
  rewrite E. simpl. eauto.
Qed.

Lemma zlen_encode_CharacterDbData (d : CharacterDbData) : zlen (encode d) = 20.
Proof. destruct d as [t [z x y]]. simpl. zl. Qed.

(** ** Character

    [_param] is never read in the repository and is left out. *)
Record Character := mkCharacter { ch_id : Z; ch_token : Z; ch_pos : Position }.

Definition Character_new : Character := mkCharacter 0 0 Position_default.
Definition SetId (c : Character) (id : Z) := mkCharacter id (ch_token c) (ch_pos c).
Definition GetId (c : Character) : Z := ch_id c.
Definition SetToken (c : Character) (token : Z) := mkCharacter (ch_id c) token (ch_pos c).
Definition GetToken (c : Character) : Z := ch_token c.
Definition ResetPos (c : Character) :=
  mkCharacter (ch_id c) (ch_token c) (Position_ResetPos (ch_pos c)).
Definition SetPos3 (c : Character) (zone x y : Z) :=
  mkCharacter (ch_id c) (ch_token c) (Position_SetPos3 (ch_pos c) zone x y).
Definition SetPos2 (c : Character) (x y : Z) :=
  mkCharacter (ch_id c) (ch_token c) (Position_SetPos2 (ch_pos c) x y).
Definition SetPos1 (c : Character) (pos : Position) := mkCharacter (ch_id c) (ch_token c) pos.
Definition GetPos (c : Character) : Z * Z := Position_GetPos (ch_pos c).
Definition GetZoneId (c : Character) : Z := zoneId (ch_pos c).
Definition GetPosX (c : Character) : Z := posX (ch_pos c).
Definition GetPosY (c : Character) : Z := posY (ch_pos c).
Definition GetDbData (c : Character) : CharacterDbData := mkCharacterDbData (ch_token c) (ch_pos c).
