(* ===== verification/Protocol.v ===== *)
(** * The packet catalogue: _framework/packet_protocol_cs.h, packet_protocol_sc.h

    One record per packet with its setter and [Serialize]; every fixed-layout
    packet is an instance of [Wire].  The two packets with a length field
    ([CS_P_ECHO]/[SC_P_ECHO] and [SC_P_ENTER_CHARACTER_LIST]) use it to index
    a fixed array and are treated on all inputs, hostile ones included. *)
From S2P Require Import Prelude Buffer Wire Character.

(** ** memcpy_s of the CRT

    A count larger than the destination (a negative int included, converted to
    size_t) calls the invalid-parameter handler. *)
Definition memcpy_s (dest : list Z) (destSize : Z) (src : list Z) (count : Z) : outcome (list Z) :=
  if u64 count =? 0 then Ok dest
  else if destSize <? u64 count then Fault InvalidParameter
  else d ← peek src 0 (u64 count); poke dest 0 d.

(** ** Packet types *)
Inductive PacketTypeC2S : Set :=
| C2S_invalid | C2S_auth | C2S_enter | C2S_leave | C2S_move | C2S_interaction
| C2S_heartbeat | C2S_echo | C2S_Max.

Definition PacketTypeC2S_value (t : PacketTypeC2S) : Z :=
  match t with
  | C2S_invalid => 0 | C2S_auth => 1 | C2S_enter => 2 | C2S_leave => 3 | C2S_move => 4
  | C2S_interaction => 5 | C2S_heartbeat => 6 | C2S_echo => 7 | C2S_Max => 8
  end.

Inductive PacketTypeS2C : Set :=
| S2C_invalid | S2C_auth_result | S2C_enter | S2C_enter_character | S2C_leave | S2C_move
| S2C_interaction | S2C_heartbeat | S2C_echo | S2C_Max.

Definition PacketTypeS2C_value (t : PacketTypeS2C) : Z :=
  match t with
  | S2C_invalid => 0 | S2C_auth_result => 1 | S2C_enter => 2 | S2C_enter_character => 3
  | S2C_leave => 4 | S2C_move => 5 | S2C_interaction => 6 | S2C_heartbeat => 7
  | S2C_echo => 8 | S2C_Max => 9
  end.

(** ** Client to server *)
Record CS_P_AUTH := mkCS_P_AUTH { cs_auth_id : Z }.
Definition CS_P_AUTH_SetId (p : CS_P_AUTH) (id : Z) := mkCS_P_AUTH id.
Definition CS_P_AUTH_Serialize (s : Serializer) (p : CS_P_AUTH) : outcome (Serializer * CS_P_AUTH) :=
  '(s1, id) ← Value_INT32 s (cs_auth_id p); Ok (s1, mkCS_P_AUTH id).

Record CS_P_ENTER := mkCS_P_ENTER { cs_enter_token : Z }.
Definition CS_P_ENTER_SetToken (p : CS_P_ENTER) (token : Z) := mkCS_P_ENTER token.
Definition CS_P_ENTER_Serialize (s : Serializer) (p : CS_P_ENTER) : outcome (Serializer * CS_P_ENTER) :=
  '(s1, t) ← Value_INT64 s (cs_enter_token p); Ok (s1, mkCS_P_ENTER t).

Record CS_P_LEAVE := mkCS_P_LEAVE { cs_leave_token : Z }.
Definition CS_P_LEAVE_SetToken (p : CS_P_LEAVE) (token : Z) := mkCS_P_LEAVE token.
Definition CS_P_LEAVE_Serialize (s : Serializer) (p : CS_P_LEAVE) : outcome (Serializer * CS_P_LEAVE) :=
  '(s1, t) ← Value_INT64 s (cs_leave_token p); Ok (s1, mkCS_P_LEAVE t).

Record CS_P_MOVE := mkCS_P_MOVE { cs_move_x : Z; cs_move_y : Z }.
Definition CS_P_MOVE_SetPos (p : CS_P_MOVE) (x y : Z) := mkCS_P_MOVE x y.
Definition CS_P_MOVE_Serialize (s : Serializer) (p : CS_P_MOVE) : outcome (Serializer * CS_P_MOVE) :=
  '(s1, x) ← Value_INT32 s (cs_move_x p);
  '(s2, y) ← Value_INT32 s1 (cs_move_y p);
  Ok (s2, mkCS_P_MOVE x y).

Record CS_P_INTERACTION := mkCS_P_INTERACTION { cs_int_targetToken : Z; cs_int_type : Z }.
Definition CS_P_INTERACTION_SetInteraction (p : CS_P_INTERACTION) (targetToken interactionType : Z) :=
  mkCS_P_INTERACTION targetToken interactionType.
Definition CS_P_INTERACTION_Serialize (s : Serializer) (p : CS_P_INTERACTION)
    : outcome (Serializer * CS_P_INTERACTION) :=
  '(s1, t) ← Value_INT64 s (cs_int_targetToken p);
  '(s2, k) ← Value_INT32 s1 (cs_int_type p);
  Ok (s2, mkCS_P_INTERACTION t k).

Record CS_P_HEARTBEAT := mkCS_P_HEARTBEAT {}.
Definition CS_P_HEARTBEAT_Serialize (s : Serializer) (p : CS_P_HEARTBEAT)
    : outcome (Serializer * CS_P_HEARTBEAT) := Ok (s, p).

Definition MAX_ECHO_DATA_LENGTH : Z := 32.

(** [char echoData[MAX_ECHO_DATA_LENGTH]{}] *)
Definition echo_zeros : list Z := replicate 32 0.

Record CS_P_ECHO := mkCS_P_ECHO { cs_echo_size : Z; cs_echo_data : list Z }.
Definition CS_P_ECHO_default : CS_P_ECHO := mkCS_P_ECHO 0 echo_zeros.
Definition CS_P_ECHO_SetData (p : CS_P_ECHO) (data : list Z) (size : Z) : outcome CS_P_ECHO :=
  d ← memcpy_s (cs_echo_data p) MAX_ECHO_DATA_LENGTH data size;
  Ok (mkCS_P_ECHO (Z.min MAX_ECHO_DATA_LENGTH size) d).
Definition CS_P_ECHO_Serialize (s : Serializer) (p : CS_P_ECHO) : outcome (Serializer * CS_P_ECHO) :=
  '(s1, n) ← Value_INT32 s (cs_echo_size p);
  '(s2, d) ← Value_chars s1 (cs_echo_data p) n;
  Ok (s2, mkCS_P_ECHO n d).

(** ** Server to client *)
Record SC_P_AUTH_RESULT := mkSC_P_AUTH_RESULT { sc_auth_id : Z; sc_auth_token : Z }.
Definition SC_P_AUTH_RESULT_SetToken (p : SC_P_AUTH_RESULT) (id token : Z) :=
  mkSC_P_AUTH_RESULT id token.
Definition SC_P_AUTH_RESULT_Serialize (s : Serializer) (p : SC_P_AUTH_RESULT)
    : outcome (Serializer * SC_P_AUTH_RESULT) :=
  '(s1, i) ← Value_INT32 s (sc_auth_id p);
  '(s2, t) ← Value_INT64 s1 (sc_auth_token p);
  Ok (s2, mkSC_P_AUTH_RESULT i t).

Record SC_P_ENTER := mkSC_P_ENTER { sc_enter_token : Z; sc_enter_x : Z; sc_enter_y : Z }.
Definition SC_P_ENTER_SetPos (p : SC_P_ENTER) (token x y : Z) := mkSC_P_ENTER token x y.
Definition SC_P_ENTER_Serialize (s : Serializer) (p : SC_P_ENTER) : outcome (Serializer * SC_P_ENTER) :=
  '(s1, t) ← Value_INT64 s (sc_enter_token p);
  '(s2, x) ← Value_INT32 s1 (sc_enter_x p);
  '(s3, y) ← Value_INT32 s2 (sc_enter_y p);
  Ok (s3, mkSC_P_ENTER t x y).

Definition MAX_SEND_COUNT_CHARACTER_DB_DATA : Z := 20.

Definition list_zeros : list CharacterDbData := replicate 20 CharacterDbData_default.

Record SC_P_ENTER_CHARACTER_LIST := mkSC_P_ENTER_CHARACTER_LIST {
  sc_list_count : Z;
  sc_list_data : list CharacterDbData }.
Definition SC_P_ENTER_CHARACTER_LIST_default : SC_P_ENTER_CHARACTER_LIST :=
  mkSC_P_ENTER_CHARACTER_LIST 0 list_zeros.
Definition SC_P_ENTER_CHARACTER_LIST_Reset (p : SC_P_ENTER_CHARACTER_LIST) :=
  mkSC_P_ENTER_CHARACTER_LIST 0 list_zeros.
(** [data[count++] = data; return 20 >= count] *)
Definition SC_P_ENTER_CHARACTER_LIST_SetData (p : SC_P_ENTER_CHARACTER_LIST) (d : CharacterDbData)
    : outcome (SC_P_ENTER_CHARACTER_LIST * bool) :=
  a ← aset (sc_list_data p) (sc_list_count p) d;
  let count := i32 (sc_list_count p + 1) in
  Ok (mkSC_P_ENTER_CHARACTER_LIST count a, count <=? MAX_SEND_COUNT_CHARACTER_DB_DATA).

(** The loop [for (idx = 0; idx < count; ++idx) data[idx].Serialize(ser)];
    [k] iterations are left, starting at [idx]. *)
Fixpoint Serialize_data (s : Serializer) (data : list CharacterDbData) (idx : Z) (k : nat)
    : outcome (Serializer * list CharacterDbData) :=
  match k with
  | O => Ok (s, data)
  | S k =>
      d ← aget data idx;
      '(s1, d1) ← CharacterDbData_Serialize s d;
      data1 ← aset data idx d1;
      Serialize_data s1 data1 (idx + 1) k
  end.

Definition SC_P_ENTER_CHARACTER_LIST_Serialize (s : Serializer) (p : SC_P_ENTER_CHARACTER_LIST)
    : outcome (Serializer * SC_P_ENTER_CHARACTER_LIST) :=
  '(s1, count) ← Value_INT32 s (sc_list_count p);
  '(s2, data) ← Serialize_data s1 (sc_list_data p) 0 (Z.to_nat count);
  Ok (s2, mkSC_P_ENTER_CHARACTER_LIST count data).

Record SC_P_LEAVE := mkSC_P_LEAVE { sc_leave_token : Z }.
Definition SC_P_LEAVE_SetToken (p : SC_P_LEAVE) (token : Z) := mkSC_P_LEAVE token.
Definition SC_P_LEAVE_Serialize (s : Serializer) (p : SC_P_LEAVE) : outcome (Serializer * SC_P_LEAVE) :=
  '(s1, t) ← Value_INT64 s (sc_leave_token p); Ok (s1, mkSC_P_LEAVE t).

Record SC_P_MOVE := mkSC_P_MOVE { sc_move_token : Z; sc_move_x : Z; sc_move_y : Z }.
Definition SC_P_MOVE_SetPos (p : SC_P_MOVE) (token x y : Z) := mkSC_P_MOVE token x y.
Definition SC_P_MOVE_Serialize (s : Serializer) (p : SC_P_MOVE) : outcome (Serializer * SC_P_MOVE) :=
  '(s1, t) ← Value_INT64 s (sc_move_token p);
  '(s2, x) ← Value_INT32 s1 (sc_move_x p);
  '(s3, y) ← Value_INT32 s2 (sc_move_y p);
  Ok (s3, mkSC_P_MOVE t x y).

Record SC_P_INTERACTION := mkSC_P_INTERACTION {
  sc_int_token : Z; sc_int_targetToken : Z; sc_int_type : Z }.
Definition SC_P_INTERACTION_SetInteraction (p : SC_P_INTERACTION) (token targetToken type : Z) :=
  mkSC_P_INTERACTION token targetToken type.
Definition SC_P_INTERACTION_Serialize (s : Serializer) (p : SC_P_INTERACTION)
    : outcome (Serializer * SC_P_INTERACTION) :=
  '(s1, t) ← Value_INT64 s (sc_int_token p);
  '(s2, g) ← Value_INT64 s1 (sc_int_targetToken p);
  '(s3, k) ← Value_INT32 s2 (sc_int_type p);
  Ok (s3, mkSC_P_INTERACTION t g k).

Record SC_P_HEARTBEAT := mkSC_P_HEARTBEAT {}.
Definition SC_P_HEARTBEAT_Serialize (s : Serializer) (p : SC_P_HEARTBEAT)
    : outcome (Serializer * SC_P_HEARTBEAT) := Ok (s, p).

Record SC_P_ECHO := mkSC_P_ECHO { sc_echo_token : Z; sc_echo_size : Z; sc_echo_data : list Z }.
Definition SC_P_ECHO_default : SC_P_ECHO := mkSC_P_ECHO 0 0 echo_zeros.
Definition SC_P_ECHO_SetData (p : SC_P_ECHO) (token : Z) (data : list Z) (size : Z)
    : outcome SC_P_ECHO :=
  d ← memcpy_s (sc_echo_data p) MAX_ECHO_DATA_LENGTH data size;
  Ok (mkSC_P_ECHO token (Z.min MAX_ECHO_DATA_LENGTH size) d).
Definition SC_P_ECHO_Serialize (s : Serializer) (p : SC_P_ECHO) : outcome (Serializer * SC_P_ECHO) :=
  '(s1, t) ← Value_INT64 s (sc_echo_token p);
  '(s2, n) ← Value_INT32 s1 (sc_echo_size p);
  '(s3, d) ← Value_chars s2 (sc_echo_data p) n;
  Ok (s3, mkSC_P_ECHO t n d).

(** ** Fixed-layout packets are serializable *)
Ltac solve_send := intros s q [] Hwf Hs Hfit; simpl in *; destruct_and?; send_fields Hs.
Ltac solve_recv := intros s q [] Hwf Hs; simpl in *; destruct_and?; recv_fields.

#[local] Obligation Tactic := idtac.

#[export] Instance CS_P_AUTH_wire : Wire CS_P_AUTH := CS_P_AUTH_Serialize.
#[export] Program Instance CS_P_AUTH_laws : WireLaws CS_P_AUTH := {|
  default_obj := mkCS_P_AUTH 0;
  wire_wf p := in_s 32 (cs_auth_id p);
  encode p := le_enc 4 (cs_auth_id p) |}.
Next Obligation. unfold Serialize, CS_P_AUTH_wire, CS_P_AUTH_Serialize. solve_send. Qed.
Next Obligation. unfold Serialize, CS_P_AUTH_wire, CS_P_AUTH_Serialize. solve_recv. Qed.

#[export] Instance CS_P_ENTER_wire : Wire CS_P_ENTER := CS_P_ENTER_Serialize.
#[export] Program Instance CS_P_ENTER_laws : WireLaws CS_P_ENTER := {|
  default_obj := mkCS_P_ENTER 0;
  wire_wf p := in_s 64 (cs_enter_token p);
  encode p := le_enc 8 (cs_enter_token p) |}.
Next Obligation. unfold Serialize, CS_P_ENTER_wire, CS_P_ENTER_Serialize. solve_send. Qed.
Next Obligation. unfold Serialize, CS_P_ENTER_wire, CS_P_ENTER_Serialize. solve_recv. Qed.

#[export] Instance CS_P_LEAVE_wire : Wire CS_P_LEAVE := CS_P_LEAVE_Serialize.
#[export] Program Instance CS_P_LEAVE_laws : WireLaws CS_P_LEAVE := {|
  default_obj := mkCS_P_LEAVE 0;
  wire_wf p := in_s 64 (cs_leave_token p);
  encode p := le_enc 8 (cs_leave_token p) |}.
Next Obligation. unfold Serialize, CS_P_LEAVE_wire, CS_P_LEAVE_Serialize. solve_send. Qed.
Next Obligation. unfold Serialize, CS_P_LEAVE_wire, CS_P_LEAVE_Serialize. solve_recv. Qed.

#[export] Instance CS_P_MOVE_wire : Wire CS_P_MOVE := CS_P_MOVE_Serialize.
#[export] Program Instance CS_P_MOVE_laws : WireLaws CS_P_MOVE := {|
  default_obj := mkCS_P_MOVE 0 0;
  wire_wf p := in_s 32 (cs_move_x p) ∧ in_s 32 (cs_move_y p);
  encode p := le_enc 4 (cs_move_x p) ++ le_enc 4 (cs_move_y p) |}.
Next Obligation. unfold Serialize, CS_P_MOVE_wire, CS_P_MOVE_Serialize. solve_send. Qed.
Next Obligation. unfold Serialize, CS_P_MOVE_wire, CS_P_MOVE_Serialize. solve_recv. Qed.

#[export] Instance CS_P_INTERACTION_wire : Wire CS_P_INTERACTION := CS_P_INTERACTION_Serialize.
#[export] Program Instance CS_P_INTERACTION_laws : WireLaws CS_P_INTERACTION := {|
  default_obj := mkCS_P_INTERACTION 0 0;
  wire_wf p := in_s 64 (cs_int_targetToken p) ∧ in_s 32 (cs_int_type p);
  encode p := le_enc 8 (cs_int_targetToken p) ++ le_enc 4 (cs_int_type p) |}.
Next Obligation. unfold Serialize, CS_P_INTERACTION_wire, CS_P_INTERACTION_Serialize. solve_send. Qed.
Next Obligation. unfold Serialize, CS_P_INTERACTION_wire, CS_P_INTERACTION_Serialize. solve_recv. Qed.

#[export] Instance CS_P_HEARTBEAT_wire : Wire CS_P_HEARTBEAT := CS_P_HEARTBEAT_Serialize.
#[export] Program Instance CS_P_HEARTBEAT_laws : WireLaws CS_P_HEARTBEAT := {|
  default_obj := mkCS_P_HEARTBEAT; wire_wf p := True; encode p := [] |}.
Next Obligation.
  intros s q [] _ Hs _. eexists; split; [done|]. by rewrite app_nil_r.
Qed.
Next Obligation. intros s q [] _ Hs. eexists; split; [done|]. done. Qed.

#[export] Instance SC_P_AUTH_RESULT_wire : Wire SC_P_AUTH_RESULT := SC_P_AUTH_RESULT_Serialize.
#[export] Program Instance SC_P_AUTH_RESULT_laws : WireLaws SC_P_AUTH_RESULT := {|
  default_obj := mkSC_P_AUTH_RESULT 0 0;
  wire_wf p := in_s 32 (sc_auth_id p) ∧ in_s 64 (sc_auth_token p);
  encode p := le_enc 4 (sc_auth_id p) ++ le_enc 8 (sc_auth_token p) |}.
Next Obligation. unfold Serialize, SC_P_AUTH_RESULT_wire, SC_P_AUTH_RESULT_Serialize. solve_send. Qed.
Next Obligation. unfold Serialize, SC_P_AUTH_RESULT_wire, SC_P_AUTH_RESULT_Serialize. solve_recv. Qed.

#[export] Instance SC_P_ENTER_wire : Wire SC_P_ENTER := SC_P_ENTER_Serialize.
#[export] Program Instance SC_P_ENTER_laws : WireLaws SC_P_ENTER := {|
  default_obj := mkSC_P_ENTER 0 0 0;
  wire_wf p := in_s 64 (sc_enter_token p) ∧ in_s 32 (sc_enter_x p) ∧ in_s 32 (sc_enter_y p);
  encode p := le_enc 8 (sc_enter_token p) ++ le_enc 4 (sc_enter_x p) ++ le_enc 4 (sc_enter_y p) |}.
Next Obligation. unfold Serialize, SC_P_ENTER_wire, SC_P_ENTER_Serialize. solve_send. Qed.
Next Obligation. unfold Serialize, SC_P_ENTER_wire, SC_P_ENTER_Serialize. solve_recv. Qed.

#[export] Instance SC_P_LEAVE_wire : Wire SC_P_LEAVE := SC_P_LEAVE_Serialize.
#[export] Program Instance SC_P_LEAVE_laws : WireLaws SC_P_LEAVE := {|
  default_obj := mkSC_P_LEAVE 0;
  wire_wf p := in_s 64 (sc_leave_token p);
  encode p := le_enc 8 (sc_leave_token p) |}.
Next Obligation. unfold Serialize, SC_P_LEAVE_wire, SC_P_LEAVE_Serialize. solve_send. Qed.
Next Obligation. unfold Serialize, SC_P_LEAVE_wire, SC_P_LEAVE_Serialize. solve_recv. Qed.

#[export] Instance SC_P_MOVE_wire : Wire SC_P_MOVE := SC_P_MOVE_Serialize.
#[export] Program Instance SC_P_MOVE_laws : WireLaws SC_P_MOVE := {|
  default_obj := mkSC_P_MOVE 0 0 0;
  wire_wf p := in_s 64 (sc_move_token p) ∧ in_s 32 (sc_move_x p) ∧ in_s 32 (sc_move_y p);
  encode p := le_enc 8 (sc_move_token p) ++ le_enc 4 (sc_move_x p) ++ le_enc 4 (sc_move_y p) |}.
Next Obligation. unfold Serialize, SC_P_MOVE_wire, SC_P_MOVE_Serialize. solve_send. Qed.
Next Obligation. unfold Serialize, SC_P_MOVE_wire, SC_P_MOVE_Serialize. solve_recv. Qed.

#[export] Instance SC_P_INTERACTION_wire : Wire SC_P_INTERACTION := SC_P_INTERACTION_Serialize.
#[export] Program Instance SC_P_INTERACTION_laws : WireLaws SC_P_INTERACTION := {|
  default_obj := mkSC_P_INTERACTION 0 0 0;
  wire_wf p := in_s 64 (sc_int_token p) ∧ in_s 64 (sc_int_targetToken p) ∧ in_s 32 (sc_int_type p);
  encode p := le_enc 8 (sc_int_token p) ++ le_enc 8 (sc_int_targetToken p) ++ le_enc 4 (sc_int_type p) |}.
Next Obligation. unfold Serialize, SC_P_INTERACTION_wire, SC_P_INTERACTION_Serialize. solve_send. Qed.
Next Obligation. unfold Serialize, SC_P_INTERACTION_wire, SC_P_INTERACTION_Serialize. solve_recv. Qed.

#[export] Instance SC_P_HEARTBEAT_wire : Wire SC_P_HEARTBEAT := SC_P_HEARTBEAT_Serialize.
#[export] Program Instance SC_P_HEARTBEAT_laws : WireLaws SC_P_HEARTBEAT := {|
  default_obj := mkSC_P_HEARTBEAT; wire_wf p := True; encode p := [] |}.
Next Obligation.
  intros s q [] _ Hs _. eexists; split; [done|]. by rewrite app_nil_r.
Qed.
Next Obligation. intros s q [] _ Hs. eexists; split; [done|]. done. Qed.

(** ** Packets with a length field

    The well-formed ones are those their setters build on a fresh object:
    the unused part of the array is zero (for the list: default). *)
Definition echo_wf (size : Z) (data : list Z) : Prop :=
  0 ≤ size ≤ MAX_ECHO_DATA_LENGTH ∧
  data = sub data 0 size ++ replicate (Z.to_nat (MAX_ECHO_DATA_LENGTH - size)) 0 ∧
  zlen data = MAX_ECHO_DATA_LENGTH.

Lemma echo_size_range size data : echo_wf size data → in_s 32 size.
Proof. unfold echo_wf, MAX_ECHO_DATA_LENGTH, in_s. lia. Qed.

Lemma echo_splice size data :
  echo_wf size data → splice echo_zeros 0 (sub data 0 size) = data.
Proof.
  unfold echo_wf, MAX_ECHO_DATA_LENGTH. intros (? & Hd & ?).
  unfold splice, echo_zeros. rewrite zlen_sub by lia. change (Z.to_nat 0) with 0%nat.
  rewrite take_0, app_nil_l. rewrite Hd at 2. f_equal. rewrite Z.add_0_l.
  rewrite drop_replicate. f_equal. lia.
Qed.

#[export] Instance CS_P_ECHO_wire : Wire CS_P_ECHO := CS_P_ECHO_Serialize.
#[export] Program Instance CS_P_ECHO_laws : WireLaws CS_P_ECHO := {|
  default_obj := CS_P_ECHO_default;
  wire_wf p := echo_wf (cs_echo_size p) (cs_echo_data p);
  encode p := le_enc 4 (cs_echo_size p) ++ sub (cs_echo_data p) 0 (cs_echo_size p) |}.
Next Obligation.
  intros s q [n d] Hwf Hs Hfit. cbn [cs_echo_size cs_echo_data] in *.
  pose proof (echo_size_range _ _ Hwf). pose proof Hwf as ((?&?)&_&?).
  rewrite zlen_app, zlen_le_enc, zlen_sub in Hfit by lia.
  unfold Serialize, CS_P_ECHO_wire, CS_P_ECHO_Serialize. cbn [cs_echo_size cs_echo_data].
  wire_fold. send_field.
  destruct (Value_chars_send s0 _ d n Hs0) as (s2 & E & Hs2 & Hc2);
    [lia|unfold MAX_ECHO_DATA_LENGTH in *; lia|zl|].
  rewrite E. simpl. eexists; split; [done|]. rewrite <-app_assoc in Hs2. split; [done|congruence].
Qed.
Next Obligation.
  intros s q [n d] Hwf Hs. cbn [cs_echo_size cs_echo_data] in *.
  pose proof (echo_size_range _ _ Hwf). pose proof Hwf as ((?&?)&_&?).
  rewrite <-app_assoc in Hs.
  unfold Serialize, CS_P_ECHO_wire, CS_P_ECHO_Serialize. cbn [cs_echo_size cs_echo_data CS_P_ECHO_default].
  wire_fold. recv_field.
  destruct (Value_chars_recv s0 (sub d 0 n) q echo_zeros Hs0) as (s2 & E & Hs2);
    [rewrite zlen_sub by lia; unfold MAX_ECHO_DATA_LENGTH in *; lia
    |rewrite zlen_sub by lia; done|].
  rewrite zlen_sub in E by lia. rewrite E. simpl.
  rewrite (echo_splice _ _ Hwf). eauto.
Qed.

#[export] Instance SC_P_ECHO_wire : Wire SC_P_ECHO := SC_P_ECHO_Serialize.
#[export] Program Instance SC_P_ECHO_laws : WireLaws SC_P_ECHO := {|
  default_obj := SC_P_ECHO_default;
  wire_wf p := in_s 64 (sc_echo_token p) ∧ echo_wf (sc_echo_size p) (sc_echo_data p);
  encode p := le_enc 8 (sc_echo_token p) ++ le_enc 4 (sc_echo_size p)
              ++ sub (sc_echo_data p) 0 (sc_echo_size p) |}.
Next Obligation.
  intros s q [t n d] [Ht Hwf] Hs Hfit. cbn [sc_echo_token sc_echo_size sc_echo_data] in *.
  pose proof (echo_size_range _ _ Hwf). pose proof Hwf as ((?&?)&_&?).
  rewrite !zlen_app, !zlen_le_enc, zlen_sub in Hfit by lia.
  unfold Serialize, SC_P_ECHO_wire, SC_P_ECHO_Serialize.
  cbn [sc_echo_token sc_echo_size sc_echo_data].
  wire_fold. repeat send_field.
  match goal with Hs : sending ?s1 _ |- _ =>
    destruct (Value_chars_send s1 _ d n Hs) as (s2 & E & Hs2 & Hc2) end;
    [lia|unfold MAX_ECHO_DATA_LENGTH in *; lia|zl|].
  rewrite E. simpl. eexists; split; [done|]. rewrite <-!app_assoc in Hs2. split; [done|congruence].
Qed.
Next Obligation.
  intros s q [t n d] [Ht Hwf] Hs. cbn [sc_echo_token sc_echo_size sc_echo_data] in *.
  pose proof (echo_size_range _ _ Hwf). pose proof Hwf as ((?&?)&_&?).
  rewrite <-!app_assoc in Hs.
  unfold Serialize, SC_P_ECHO_wire, SC_P_ECHO_Serialize.
  cbn [sc_echo_token sc_echo_size sc_echo_data SC_P_ECHO_default].
  wire_fold. repeat recv_field.
  match goal with Hs : receiving ?s1 _ |- _ =>
    destruct (Value_chars_recv s1 (sub d 0 n) q echo_zeros Hs) as (s2 & E & Hs2) end;
    [rewrite zlen_sub by lia; unfold MAX_ECHO_DATA_LENGTH in *; lia
    |rewrite zlen_sub by lia; done|].
  rewrite zlen_sub in E by lia. rewrite E. simpl.
  rewrite (echo_splice _ _ Hwf). eauto.
Qed.

Definition encode_data (ds : list CharacterDbData) : list Z := concat (encode <$> ds).

Lemma encode_data_cons d ds : encode_data (d :: ds) = encode d ++ encode_data ds.
Proof. done. Qed.

Lemma zlen_encode_data ds : zlen (encode_data ds) = 20 * zlen ds.
Proof.
  induction ds as [|d ds IH]; [done|]. rewrite encode_data_cons, zlen_app, zlen_cons, IH, zlen_encode_CharacterDbData. lia.
Qed.

Lemma Serialize_data_send k : ∀ idx s q data,
  0 ≤ idx → idx + Z.of_nat k ≤ zlen data →
  Forall wire_wf (sub data idx (Z.of_nat k)) → sending s q →
  zlen q + 20 * Z.of_nat k ≤ capacity s →
  ∃ s', Serialize_data s data idx k = Ok (s', data) ∧
    sending s' (q ++ encode_data (sub data idx (Z.of_nat k))) ∧ capacity s' = capacity s.
Proof.
  induction k as [|k IH]; intros idx s q data Hidx Hb Hwf Hs Hfit.
  { eexists. split; [done|]. by rewrite app_nil_r. }
  destruct (get_is_Some data idx) as [d Hd]; [lia|].
  replace (Z.of_nat (S k)) with (1 + Z.of_nat k) in Hwf |- * by lia.
  rewrite (sub_cons_get data idx _ d) in Hwf |- * by (done || lia).
  inversion Hwf as [|? ? Hd1 Hwf']; subst.
  pose proof (zlen_encode_CharacterDbData d) as Hl.
  destruct (wire_send s q d Hd1 Hs) as (s1 & E & Hs1 & Hc1); [lia|].
  cbn [Serialize_data]. rewrite (aget_ok _ _ d) by done. cbn [mbind outcome_bind].
  change (CharacterDbData_Serialize s d) with (Serialize s d). rewrite E. simpl.
  rewrite aset_ok by lia. simpl. rewrite (splice_get_same data idx d) by done.
  destruct (IH (idx + 1) s1 (q ++ encode d) data) as (s2 & E2 & Hs2 & Hc2);
    [lia|lia|done|done|rewrite zlen_app; lia|].
  rewrite E2. eexists; split; [done|]. rewrite <-app_assoc in Hs2. split; [done|congruence].
Qed.

Lemma Serialize_data_recv ds : ∀ idx s q arr,
  0 ≤ idx → idx + zlen ds ≤ zlen arr →
  (∀ i, idx ≤ i < idx + zlen ds → get arr i = Some CharacterDbData_default) →
  Forall wire_wf ds → receiving s (encode_data ds ++ q) →
  ∃ s', Serialize_data s arr idx (length ds) = Ok (s', splice arr idx ds) ∧ receiving s' q.
Proof.
  induction ds as [|d ds IH]; intros idx s q arr Hidx Hb Hdef Hwf Hs.
  { rewrite zlen_nil in Hb. eexists. split; [|exact Hs]. simpl. do 2 f_equal.
    apply blocks_eq; [blia|]. intros i Hi. rewrite get_splice by blia.
    rewrite bool_decide_false; [done|]. rewrite zlen_nil; lia. }
  inversion Hwf as [|? ? Hd1 Hwf']; subst. rewrite zlen_cons in Hb, Hdef.
  pose proof (zlen_nonneg ds).
  rewrite encode_data_cons, <-app_assoc in Hs.
  destruct (wire_recv s _ d Hd1 Hs) as (s1 & E & Hs1).
  cbn [Serialize_data length]. rewrite (aget_ok _ _ CharacterDbData_default) by (done || apply Hdef; lia).
  cbn [mbind outcome_bind].
  change (CharacterDbData_Serialize s CharacterDbData_default) with (Serialize s (default_obj (P:=CharacterDbData))).
  rewrite E. simpl. rewrite aset_ok by lia. simpl.
  destruct (IH (idx + 1) s1 q (splice arr idx [d])) as (s2 & E2 & Hs2); [lia|blia| |done|done|].
  { intros i Hi. rewrite get_splice by blia. rewrite bool_decide_false by (rewrite zlen_cons, zlen_nil; lia).
    apply Hdef; lia. }
  rewrite E2. eexists; split; [|done]. by rewrite splice_splice_cons by lia.
Qed.

Definition list_wf (p : SC_P_ENTER_CHARACTER_LIST) : Prop :=
  0 ≤ sc_list_count p ≤ MAX_SEND_COUNT_CHARACTER_DB_DATA ∧
  zlen (sc_list_data p) = MAX_SEND_COUNT_CHARACTER_DB_DATA ∧
  Forall wire_wf (sub (sc_list_data p) 0 (sc_list_count p)) ∧
  splice list_zeros 0 (sub (sc_list_data p) 0 (sc_list_count p)) = sc_list_data p.

Lemma get_list_zeros i : 0 ≤ i < 20 → get list_zeros i = Some CharacterDbData_default.
Proof. intros. unfold get, list_zeros. apply lookup_replicate_2. lia. Qed.

#[export] Instance SC_P_ENTER_CHARACTER_LIST_wire : Wire SC_P_ENTER_CHARACTER_LIST :=
  SC_P_ENTER_CHARACTER_LIST_Serialize.
#[export] Program Instance SC_P_ENTER_CHARACTER_LIST_laws : WireLaws SC_P_ENTER_CHARACTER_LIST := {|
  default_obj := SC_P_ENTER_CHARACTER_LIST_default;
  wire_wf := list_wf;
  encode p := le_enc 4 (sc_list_count p) ++ encode_data (sub (sc_list_data p) 0 (sc_list_count p)) |}.
Next Obligation.
  intros s q [n data] (Hn & Hl & Hwf & _) Hs Hfit. cbn [sc_list_count sc_list_data] in *.
  unfold MAX_SEND_COUNT_CHARACTER_DB_DATA in *.
  rewrite zlen_app, zlen_le_enc, zlen_encode_data, zlen_sub in Hfit by lia.
  assert (in_s 32 n) by zrange.
  unfold Serialize, SC_P_ENTER_CHARACTER_LIST_wire, SC_P_ENTER_CHARACTER_LIST_Serialize.
  cbn [sc_list_count sc_list_data]. wire_fold. send_field.
  destruct (Serialize_data_send (Z.to_nat n) 0 s0 (q ++ le_enc 4 n) data) as (s2 & E & Hs2 & Hc2);
    [lia|lia|by rewrite Z2Nat.id by lia|done|zl|].
  rewrite Z2Nat.id in Hs2 by lia. rewrite E. simpl.
  eexists; split; [done|]. rewrite <-app_assoc in Hs2. split; [done|congruence].
Qed.
Next Obligation.
  intros s q [n data] (Hn & Hl & Hwf & Hz) Hs. cbn [sc_list_count sc_list_data] in *.
  unfold MAX_SEND_COUNT_CHARACTER_DB_DATA in *.
  assert (in_s 32 n) by zrange. rewrite <-app_assoc in Hs.
  unfold Serialize, SC_P_ENTER_CHARACTER_LIST_wire, SC_P_ENTER_CHARACTER_LIST_Serialize.
  cbn [sc_list_count sc_list_data SC_P_ENTER_CHARACTER_LIST_default]. wire_fold. recv_field.
  pose proof (zlen_sub data 0 n ltac:(lia) ltac:(lia) ltac:(lia)) as Hsub.
  destruct (Serialize_data_recv (sub data 0 n) 0 s0 q list_zeros) as (s2 & E & Hs2);
    [lia|rewrite Hsub; change (zlen list_zeros) with 20; lia
    |intros; apply get_list_zeros; lia|done|done|].
  replace (length (sub data 0 n)) with (Z.to_nat n) in E by (unfold zlen in Hsub; lia).
  rewrite E. simpl. rewrite Hz. eauto.
Qed.

(** ** Messages

    The virtual call [packetData->Serialize] selects the method of the dynamic
    type: one constructor per packet class. *)
Inductive c2s : Type :=
| C_AUTH (p : CS_P_AUTH) | C_ENTER (p : CS_P_ENTER) | C_LEAVE (p : CS_P_LEAVE)
| C_MOVE (p : CS_P_MOVE) | C_INTERACTION (p : CS_P_INTERACTION)
| C_HEARTBEAT (p : CS_P_HEARTBEAT) | C_ECHO (p : CS_P_ECHO).

Inductive s2c : Type :=
| S_AUTH_RESULT (p : SC_P_AUTH_RESULT) | S_ENTER (p : SC_P_ENTER)
| S_ENTER_CHARACTER_LIST (p : SC_P_ENTER_CHARACTER_LIST) | S_LEAVE (p : SC_P_LEAVE)
| S_MOVE (p : SC_P_MOVE) | S_INTERACTION (p : SC_P_INTERACTION)
| S_HEARTBEAT (p : SC_P_HEARTBEAT) | S_ECHO (p : SC_P_ECHO).

(** The type each constructor passes to [PacketBaseC2S]/[PacketBaseS2C]. *)
Definition c2s_type (m : c2s) : Z :=
  PacketTypeC2S_value match m with
  | C_AUTH _ => C2S_auth | C_ENTER _ => C2S_enter | C_LEAVE _ => C2S_leave
  | C_MOVE _ => C2S_move | C_INTERACTION _ => C2S_interaction
  | C_HEARTBEAT _ => C2S_heartbeat | C_ECHO _ => C2S_echo
  end.
Definition s2c_type (m : s2c) : Z :=
  PacketTypeS2C_value match m with
  | S_AUTH_RESULT _ => S2C_auth_result | S_ENTER _ => S2C_enter
  | S_ENTER_CHARACTER_LIST _ => S2C_enter_character | S_LEAVE _ => S2C_leave
  | S_MOVE _ => S2C_move | S_INTERACTION _ => S2C_interaction
  | S_HEARTBEAT _ => S2C_heartbeat | S_ECHO _ => S2C_echo
  end.

Definition lift_wire {P Q} `{Wire P} (K : P → Q) (s : Serializer) (p : P) : outcome (Serializer * Q) :=
  '(s', p') ← Serialize s p; Ok (s', K p').

Definition c2s_Serialize (s : Serializer) (m : c2s) : outcome (Serializer * c2s) :=
  match m with
  | C_AUTH p => lift_wire C_AUTH s p | C_ENTER p => lift_wire C_ENTER s p
  | C_LEAVE p => lift_wire C_LEAVE s p | C_MOVE p => lift_wire C_MOVE s p
  | C_INTERACTION p => lift_wire C_INTERACTION s p
  | C_HEARTBEAT p => lift_wire C_HEARTBEAT s p | C_ECHO p => lift_wire C_ECHO s p
  end.
Definition s2c_Serialize (s : Serializer) (m : s2c) : outcome (Serializer * s2c) :=
  match m with
  | S_AUTH_RESULT p => lift_wire S_AUTH_RESULT s p | S_ENTER p => lift_wire S_ENTER s p
  | S_ENTER_CHARACTER_LIST p => lift_wire S_ENTER_CHARACTER_LIST s p
  | S_LEAVE p => lift_wire S_LEAVE s p | S_MOVE p => lift_wire S_MOVE s p
  | S_INTERACTION p => lift_wire S_INTERACTION s p
  | S_HEARTBEAT p => lift_wire S_HEARTBEAT s p | S_ECHO p => lift_wire S_ECHO s p
  end.

Definition c2s_encode (m : c2s) : list Z :=
  match m with
  | C_AUTH p => encode p | C_ENTER p => encode p | C_LEAVE p => encode p
  | C_MOVE p => encode p | C_INTERACTION p => encode p | C_HEARTBEAT p => encode p
  | C_ECHO p => encode p
  end.
Definition s2c_encode (m : s2c) : list Z :=
  match m with
  | S_AUTH_RESULT p => encode p | S_ENTER p => encode p
  | S_ENTER_CHARACTER_LIST p => encode p | S_LEAVE p => encode p | S_MOVE p => encode p
  | S_INTERACTION p => encode p | S_HEARTBEAT p => encode p | S_ECHO p => encode p
  end.
Definition c2s_wf (m : c2s) : Prop :=
  match m with
  | C_AUTH p => wire_wf p | C_ENTER p => wire_wf p | C_LEAVE p => wire_wf p
  | C_MOVE p => wire_wf p | C_INTERACTION p => wire_wf p | C_HEARTBEAT p => wire_wf p
  | C_ECHO p => wire_wf p
  end.
Definition s2c_wf (m : s2c) : Prop :=
  match m with
  | S_AUTH_RESULT p => wire_wf p | S_ENTER p => wire_wf p
  | S_ENTER_CHARACTER_LIST p => wire_wf p | S_LEAVE p => wire_wf p | S_MOVE p => wire_wf p
  | S_INTERACTION p => wire_wf p | S_HEARTBEAT p => wire_wf p | S_ECHO p => wire_wf p
  end.

(** The default object of the class of [m], the [P packet;] of the functor. *)
Definition c2s_fresh (m : c2s) : c2s :=
  match m with
  | C_AUTH _ => C_AUTH default_obj | C_ENTER _ => C_ENTER default_obj
  | C_LEAVE _ => C_LEAVE default_obj | C_MOVE _ => C_MOVE default_obj
  | C_INTERACTION _ => C_INTERACTION default_obj | C_HEARTBEAT _ => C_HEARTBEAT default_obj
  | C_ECHO _ => C_ECHO default_obj
  end.
Definition s2c_fresh (m : s2c) : s2c :=
  match m with
  | S_AUTH_RESULT _ => S_AUTH_RESULT default_obj | S_ENTER _ => S_ENTER default_obj
  | S_ENTER_CHARACTER_LIST _ => S_ENTER_CHARACTER_LIST default_obj
  | S_LEAVE _ => S_LEAVE default_obj | S_MOVE _ => S_MOVE default_obj
  | S_INTERACTION _ => S_INTERACTION default_obj | S_HEARTBEAT _ => S_HEARTBEAT default_obj
  | S_ECHO _ => S_ECHO default_obj
  end.

Lemma lift_wire_send {P Q} `{WireLaws P} (K : P → Q) s q p :
  wire_wf p → sending s q → zlen q + zlen (encode p) ≤ capacity s →
  ∃ s', lift_wire K s p = Ok (s', K p) ∧ sending s' (q ++ encode p) ∧ capacity s' = capacity s.
Proof.
  intros Hwf Hs Hfit. destruct (wire_send s q p Hwf Hs Hfit) as (s' & E & ?).
  unfold lift_wire. rewrite E. simpl. eauto.
Qed.
Lemma lift_wire_recv {P Q} `{WireLaws P} (K : P → Q) s q p :
  wire_wf p → receiving s (encode p ++ q) →
  ∃ s', lift_wire K s default_obj = Ok (s', K p) ∧ receiving s' q.
Proof.
  intros Hwf Hs. destruct (wire_recv s q p Hwf Hs) as (s' & E & ?).
  unfold lift_wire. rewrite E. simpl. eauto.
Qed.

Lemma c2s_send s q m :
  c2s_wf m → sending s q → zlen q + zlen (c2s_encode m) ≤ capacity s →
  ∃ s', c2s_Serialize s m = Ok (s', m) ∧ sending s' (q ++ c2s_encode m) ∧ capacity s' = capacity s.
Proof. destruct m; apply lift_wire_send. Qed.
Lemma c2s_recv s q m :
  c2s_wf m → receiving s (c2s_encode m ++ q) →
  ∃ s', c2s_Serialize s (c2s_fresh m) = Ok (s', m) ∧ receiving s' q.
Proof. destruct m; apply lift_wire_recv. Qed.
Lemma s2c_send s q m :
  s2c_wf m → sending s q → zlen q + zlen (s2c_encode m) ≤ capacity s →
  ∃ s', s2c_Serialize s m = Ok (s', m) ∧ sending s' (q ++ s2c_encode m) ∧ capacity s' = capacity s.
Proof. destruct m; apply lift_wire_send. Qed.
Lemma s2c_recv s q m :
  s2c_wf m → receiving s (s2c_encode m ++ q) →
  ∃ s', s2c_Serialize s (s2c_fresh m) = Ok (s', m) ∧ receiving s' q.
Proof. destruct m; apply lift_wire_recv. Qed.

Lemma c2s_type_range m : in_u 32 (c2s_type m).
Proof. destruct m; split; done. Qed.
Lemma s2c_type_range m : in_u 32 (s2c_type m).
Proof. destruct m; split; done. Qed.

(** No encoding exceeds the serializer. *)
Lemma c2s_encode_size m : c2s_wf m → zlen (c2s_encode m) ≤ 36.
Proof.
  destruct m as [[]|[]|[]|[]|[]|[]|[n d]]; simpl; intros Hwf; try zl.
  destruct Hwf as (?&?&?). unfold MAX_ECHO_DATA_LENGTH in *.
  rewrite zlen_app, zlen_le_enc, zlen_sub by lia. lia.
Qed.
Lemma s2c_encode_size m : s2c_wf m → zlen (s2c_encode m) ≤ 404.
Proof.
  destruct m as [[]|[]|[n d]|[]|[]|[]|[]|[t n d]]; simpl; intros Hwf; try zl.
  - destruct Hwf as (?&?&?). cbn [sc_list_count sc_list_data] in *.
    unfold MAX_SEND_COUNT_CHARACTER_DB_DATA in *.
    rewrite zlen_app, zlen_le_enc, zlen_encode_data, zlen_sub by lia. lia.
  - destruct Hwf as (?&?&?&?). unfold MAX_ECHO_DATA_LENGTH in *.
    rewrite !zlen_app, !zlen_le_enc, zlen_sub by lia. lia.
Qed.

(** ** Hostile lengths *)

(** C28: receiving [CS_P_ECHO].  The size field is not compared with the 32
    bytes of [echoData]: the receiver writes past the array exactly when the
    packet announces more than 32 bytes and carries them. *)
Theorem echo_receive_overflow_iff s n payload :
  in_s 32 n → receiving s (le_enc 4 n ++ payload) →
  CS_P_ECHO_Serialize s CS_P_ECHO_default = Fault OutOfBounds
  ↔ MAX_ECHO_DATA_LENGTH < n ≤ zlen payload.
Proof.
  intros Hn Hs. unfold CS_P_ECHO_Serialize, MAX_ECHO_DATA_LENGTH.
  cbn [cs_echo_size cs_echo_data CS_P_ECHO_default]. wire_fold. recv_field.
  unfold Value_chars. pose proof (receiving_size _ _ Hs0) as Hsz. pose proof Hs0 as [-> Hwf _].
  pose proof (zlen_nonneg payload). pose proof Hwf as [].
  destruct (decide (0 ≤ n ≤ zlen payload)) as [Hin|Hout].
  - rewrite wrapu_small by zrange.
    unfold BufferBase_Read, GetDataSize. rewrite Hsz. zbool.
    rewrite peek_ok by lia. simpl.
    destruct (decide (n ≤ 32)).
    + rewrite poke_ok by (rewrite ?zlen_sub by lia; change (zlen echo_zeros) with 32; lia).
      simpl. split; [done|lia].
    + rewrite poke_fault by (rewrite zlen_sub by lia; change (zlen echo_zeros) with 32; lia).
      simpl. split; [lia|done].
  - assert (zlen payload < u64 n).
    { destruct (decide (n < 0)).
      - rewrite wrapu_neg by zrange. zrange.
      - rewrite wrapu_small by zrange. lia. }
    rewrite linear_read_short by lia. simpl. split; [done|lia].
Qed.

Lemma hostile_echo_state :
  receiving (mkSerializer (mkBufferBase (le_enc 4 33 ++ replicate 34 7) 37 37 37 0 37) false)
    (le_enc 4 33 ++ replicate 33 7).
Proof. split; [done| |done]. split; simpl; (done || lia). Qed.

Lemma echo_receive_overflow_iff_witness :
  CS_P_ECHO_Serialize
    (mkSerializer (mkBufferBase (le_enc 4 33 ++ replicate 34 7) 37 37 37 0 37) false)
    CS_P_ECHO_default = Fault OutOfBounds
  ↔ MAX_ECHO_DATA_LENGTH < 33 ≤ zlen (replicate 33 7).
Proof.
  apply (echo_receive_overflow_iff _ 33 (replicate 33 7)).
  - zrange.
  - apply hostile_echo_state.
Defined.

Lemma Value_int_recv_any n f s q v0 :
  receiving s q → ∃ s' v q', Value_int n f s v0 = Ok (s', v) ∧ receiving s' q'.
Proof.
  intros Hs. unfold Value_int. destruct (decide (zlen q < Z.of_nat n)).
  - destruct (Value_repr_recv_short n s q (le_enc n v0)) as (s' & -> & ?); [done..|].
    simpl. eauto.
  - rewrite <-(sub_all q) in Hs.
    replace (zlen q) with (Z.of_nat n + (zlen q - Z.of_nat n)) in Hs by lia.
    rewrite sub_app in Hs by lia.
    destruct (Value_repr_recv n s (sub q 0 (Z.of_nat n)) _ (le_enc n v0) Hs) as (s' & -> & ?);
      [rewrite zlen_sub; lia|by rewrite zlen_le_enc|]. simpl. eauto.
Qed.

Lemma CharacterDbData_recv_any s q d :
  receiving s q → ∃ s' d' q', CharacterDbData_Serialize s d = Ok (s', d') ∧ receiving s' q'.
Proof.
  intros Hs. unfold CharacterDbData_Serialize, Position_Serialize. wire_fold.
  repeat match goal with
  | Hs : receiving ?s ?q |- context [Value_int ?n ?f ?s ?v] =>
      let E := fresh "E" in
      destruct (Value_int_recv_any n f s q v Hs) as (? & ? & ? & E & ?);
      rewrite E; simpl; clear E Hs; wire_fold
  end. eauto.
Qed.

Lemma Serialize_data_any k : ∀ idx s q data,
  0 ≤ idx ≤ zlen data → receiving s q →
  if bool_decide (zlen data < idx + Z.of_nat k)
  then Serialize_data s data idx k = Fault OutOfBounds
  else ∃ s' data' q', Serialize_data s data idx k = Ok (s', data') ∧ receiving s' q'.
Proof.
  induction k as [|k IH]; intros idx s q data Hidx Hs; cbn [Serialize_data].
  { rewrite bool_decide_false by lia. eauto. }
  destruct (decide (idx = zlen data)).
  { rewrite bool_decide_true by lia. by rewrite aget_fault by lia. }
  destruct (get_is_Some data idx) as [d Hd]; [lia|].
  rewrite (aget_ok _ _ d) by (done || lia). cbn [mbind outcome_bind].
  destruct (CharacterDbData_recv_any s q d Hs) as (s1 & d1 & q1 & -> & Hs1).
  cbn [mbind outcome_bind]. rewrite aset_ok by lia. cbn [mbind outcome_bind].
  specialize (IH (idx + 1) s1 q1 (splice data idx [d1])).
  rewrite zlen_splice in IH by zn.
  replace (idx + 1 + Z.of_nat k) with (idx + Z.of_nat (S k)) in IH by lia.
  apply IH; [lia|done].
Qed.

(** receiving [SC_P_ENTER_CHARACTER_LIST].  Whatever the payload, the
    client runs past [data] exactly when the announced count exceeds 20. *)
Theorem list_receive_overflow_iff s n payload :
  in_s 32 n → receiving s (le_enc 4 n ++ payload) →
  SC_P_ENTER_CHARACTER_LIST_Serialize s SC_P_ENTER_CHARACTER_LIST_default = Fault OutOfBounds
  ↔ MAX_SEND_COUNT_CHARACTER_DB_DATA < n.
Proof.
  intros Hn Hs. unfold SC_P_ENTER_CHARACTER_LIST_Serialize, MAX_SEND_COUNT_CHARACTER_DB_DATA.
  cbn [sc_list_count sc_list_data SC_P_ENTER_CHARACTER_LIST_default]. wire_fold. recv_field.
  pose proof (Serialize_data_any (Z.to_nat n) 0 s0 payload list_zeros) as Hany.
  change (zlen list_zeros) with 20 in Hany. specialize (Hany ltac:(lia) Hs0).
  case_bool_decide.
  - rewrite Hany. simpl. split; [lia|done].
  - destruct Hany as (s' & data' & q' & -> & _). simpl. split; [done|lia].
Qed.

Lemma list_receive_overflow_iff_witness :
  SC_P_ENTER_CHARACTER_LIST_Serialize
    (mkSerializer (mkBufferBase (le_enc 4 21 ++ [0]) 4 4 4 0 4) false)
    SC_P_ENTER_CHARACTER_LIST_default = Fault OutOfBounds
  ↔ MAX_SEND_COUNT_CHARACTER_DB_DATA < 21.
Proof.
  apply (list_receive_overflow_iff _ 21 []).
  - zrange.
  - split; [done| |done]. split; simpl; (done || lia).
Defined.

(** [SC_P_ENTER_CHARACTER_LIST::SetData] never reports a full packet.
    While the array has room the flag is true, the first call included; the
    call after the twentieth writes outside the array. *)
Theorem list_SetData_flag p d :
  0 ≤ sc_list_count p ≤ 20 → zlen (sc_list_data p) = 20 →
  SC_P_ENTER_CHARACTER_LIST_SetData p d =
    if sc_list_count p <? 20
    then Ok (mkSC_P_ENTER_CHARACTER_LIST (sc_list_count p + 1)
               (splice (sc_list_data p) (sc_list_count p) [d]), true)
    else Fault OutOfBounds.
Proof.
  intros Hc Hl. unfold SC_P_ENTER_CHARACTER_LIST_SetData, MAX_SEND_COUNT_CHARACTER_DB_DATA.
  destruct (Z.ltb_spec (sc_list_count p) 20).
  - rewrite aset_ok by lia. simpl. rewrite wraps_small by zrange.
    by zbool.
  - unfold aset. rewrite poke_fault; [done|zn].
Qed.

Lemma list_SetData_flag_witness :
  SC_P_ENTER_CHARACTER_LIST_SetData SC_P_ENTER_CHARACTER_LIST_default CharacterDbData_default
  = Ok (mkSC_P_ENTER_CHARACTER_LIST 1 (splice list_zeros 0 [CharacterDbData_default]), true).
Proof.
  apply (list_SetData_flag SC_P_ENTER_CHARACTER_LIST_default CharacterDbData_default);
    [simpl; lia|done].
Defined.

(** [SetData] of the echo packet on a fresh object.  A size within the
    array gives the well-formed packet with those bytes; a longer or negative
    size reaches the invalid-parameter handler, although the size field would
    have been clamped to 32. *)
Theorem echo_SetData_spec data size :
  in_s 32 size → size ≤ zlen data →
  if bool_decide (0 ≤ size ≤ MAX_ECHO_DATA_LENGTH)
  then ∃ p, CS_P_ECHO_SetData CS_P_ECHO_default data size = Ok p ∧ cs_echo_size p = size ∧
         sub (cs_echo_data p) 0 size = sub data 0 size ∧ echo_wf (cs_echo_size p) (cs_echo_data p)
  else CS_P_ECHO_SetData CS_P_ECHO_default data size = Fault InvalidParameter.
Proof.
  unfold in_s, CS_P_ECHO_SetData, memcpy_s, echo_wf, MAX_ECHO_DATA_LENGTH. intros Hs Hd.
  cbn [cs_echo_data CS_P_ECHO_default]. change (zlen echo_zeros) with 32.
  case_bool_decide.
  - rewrite wrapu_small by zrange. destruct (Z.eqb_spec size 0) as [->|].
    + simpl. eexists; split; [done|]. simpl. done.
    + zbool. rewrite peek_ok by lia. simpl.
      rewrite poke_ok by (rewrite ?zlen_sub by lia; change (zlen echo_zeros) with 32; lia).
      simpl. eexists; split; [done|]. cbn [cs_echo_size cs_echo_data].
      rewrite Z.min_r by lia.
      assert (sub (splice echo_zeros 0 (sub data 0 size)) 0 size = sub data 0 size) as Hsub.
      { rewrite <-(zlen_sub data 0 size) at 2 by lia. apply sub_splice_same; [lia|].
        rewrite zlen_sub by lia. change (zlen echo_zeros) with 32; lia. }
      split_and!; [done|done|lia|lia| |].
      * rewrite Hsub. unfold splice at 1. change (Z.to_nat 0) with 0%nat.
        rewrite take_0, app_nil_l. f_equal. rewrite zlen_sub by lia.
        unfold echo_zeros. rewrite drop_replicate. f_equal. lia.
      * rewrite zlen_splice; [done|lia|]. rewrite zlen_sub by lia.
        change (zlen echo_zeros) with 32; lia.
  - assert (32 < u64 size).
    { destruct (decide (size < 0)).
      - rewrite wrapu_neg by zrange. zrange.
      - rewrite wrapu_small by zrange. lia. }
    destruct (Z.eqb_spec (u64 size) 0); [lia|]. by zbool.
Qed.

Lemma echo_SetData_spec_witness :
  CS_P_ECHO_SetData CS_P_ECHO_default (replicate 33 65) 33 = Fault InvalidParameter.
Proof.
  apply (echo_SetData_spec (replicate 33 65) 33); [zrange|vm_compute; discriminate].
Defined.
