(* ===== verification/Packet.v ===== *)
(** * Framing and dispatch: _framework/packet.h, packet.cpp, _common.h

    A frame is head (8 bytes), payload, tail (12 bytes).  [MakeNetworkPacket]
    builds it, [ParseNetworkData] recognises it at the front of the receive
    ring, [PacketHandler] dispatches the payload on its type word. *)
From S2P Require Import Prelude Buffer Wire.

Inductive eResultCode : Set :=
| RC_succ | RC_fail | RC_invalid_packet | RC_socket_disconnected | RC_pending.
#[global] Instance eResultCode_eq_dec : EqDecision eResultCode.
Proof. solve_decision. Defined.

Definition PACKET_CHECK_HEAD_KEY : Z := 0x00000000.
Definition PACKET_CHECK_TAIL_KEY : Z := 0x10000000.
Definition MAX_PACKET_SIZE : Z := 1024 * 10.

(** ** Frame layout *)
Record PacketHead := mkPacketHead { ui32CheckHead : Z; ui32Length : Z }.
Record PacketTail := mkPacketTail { ui32CheckTail : Z; ui32PacketSeq : Z; ui32PacketTime : Z }.
Definition sizeof_PacketHead : Z := 8.
Definition sizeof_PacketTail : Z := 12.

(** Object representations. *)
Definition repr_PacketHead (h : PacketHead) : list Z :=
  le_enc 4 (ui32CheckHead h) ++ le_enc 4 (ui32Length h).
Definition repr_PacketTail (t : PacketTail) : list Z :=
  le_enc 4 (ui32CheckTail t) ++ le_enc 4 (ui32PacketSeq t) ++ le_enc 4 (ui32PacketTime t).
Definition read_PacketHead (m : list Z) : PacketHead :=
  mkPacketHead (le_dec (sub m 0 4)) (le_dec (sub m 4 4)).
Definition read_PacketTail (m : list Z) : PacketTail :=
  mkPacketTail (le_dec (sub m 0 4)) (le_dec (sub m 4 4)) (le_dec (sub m 8 4)).

(** [pSendData] and [pSendBuffer] are the memory behind the pointers; the
    DWORD reference [dwSendBufferSize] is an argument and a result.  [now] is
    [_time32(NULL)]. *)
Definition MakeNetworkPacket (pSendData : list Z) (dwSendDataSize : Z) (pSendBuffer : list Z)
    (dwSendBufferSize : Z) (packetSeq now : Z) : outcome (eResultCode * list Z * Z) :=
  let head := mkPacketHead PACKET_CHECK_HEAD_KEY
                (u32 (sizeof_PacketHead + dwSendDataSize + sizeof_PacketTail)) in
  let tail := mkPacketTail PACKET_CHECK_TAIL_KEY packetSeq (u32 now) in
  if dwSendBufferSize <? ui32Length head then Ok (RC_fail, pSendBuffer, dwSendBufferSize)
  else
    let nPos := 0 in
    b1 ← poke pSendBuffer nPos (repr_PacketHead head);
    let nPos := i32 (nPos + sizeof_PacketHead) in
    d ← peek pSendData 0 dwSendDataSize;
    b2 ← poke b1 nPos d;
    let nPos := i32 (nPos + dwSendDataSize) in
    b3 ← poke b2 nPos (repr_PacketTail tail);
    Ok (RC_succ, b3, ui32Length head).

Definition ParseNetworkData (Buffer : CircleBuffer) (dwPacketLength : Z)
    : outcome (eResultCode * Z) :=
  let dwDataSize := GetDataSize Buffer in
  if dwDataSize <? sizeof_PacketHead then Ok (RC_pending, dwPacketLength)
  else
    '(m, _) ← CircleBuffer_Read Buffer (repr_PacketHead (mkPacketHead 0 0)) sizeof_PacketHead;
    let Head := read_PacketHead m in
    if negb (PACKET_CHECK_HEAD_KEY =? ui32CheckHead Head) then Ok (RC_invalid_packet, dwPacketLength)
    else if dwDataSize <? ui32Length Head then Ok (RC_pending, dwPacketLength)
    else Ok (RC_succ, ui32Length Head).

(** ** Dispatch *)
Section Handler.
(** [T] is the receiver with everything a handler can change; [mem] is the
    uninitialised memory of a new [Serializer]. *)
Context {T : Type} (mem : list Z).

Definition PacketFunctorBase : Type := T → list Z → Z → outcome (T * bool).

Definition PacketFunctor_Execute {P} `{Wire P} (type : Z) (fresh : P)
    (func : T → P → outcome (T * bool)) : PacketFunctorBase := λ obj data length,
  unpack ← Serializer_recv mem data length;
  '(_, packet) ← Serialize_packet unpack (mkPacket type fresh);
  func obj (body packet).

(** [_packetFunctors[PACKET_MAX]]: the handlers are members of objects with
    static storage, so the array starts as null pointers. *)
Definition PacketHandler : Type := list (option PacketFunctorBase).
Definition PacketHandler_init (PACKET_MAX : Z) : PacketHandler :=
  replicate (Z.to_nat PACKET_MAX) None.

Definition Register {P} `{Wire P} (type : Z) (fresh : P) (func : T → P → outcome (T * bool))
    (h : PacketHandler) : outcome PacketHandler :=
  aset h type (Some (PacketFunctor_Execute type fresh func)).

Definition PacketHandler_Execute (h : PacketHandler) (obj : T) (data : list Z) (length : Z)
    : outcome (T * bool) :=
  unpack ← Serializer_recv mem data length;
  '(_, type) ← SerializeHead unpack 0;
  slot ← aget h type;
  match slot with
  | Some f => f obj data length
  | None => Ok (obj, false)
  end.
End Handler.
Arguments PacketFunctorBase : clear implicits.
Arguments PacketHandler : clear implicits.

(** ** Framing laws *)
Definition frame (payload : list Z) (seq now : Z) : list Z :=
  repr_PacketHead (mkPacketHead PACKET_CHECK_HEAD_KEY (zlen payload + 20))
  ++ payload ++ repr_PacketTail (mkPacketTail PACKET_CHECK_TAIL_KEY seq (u32 now)).

Lemma zlen_repr_PacketHead h : zlen (repr_PacketHead h) = 8.
Proof. unfold repr_PacketHead. rewrite zlen_app, !zlen_le_enc. lia. Qed.
Lemma zlen_repr_PacketTail t : zlen (repr_PacketTail t) = 12.
Proof. unfold repr_PacketTail. rewrite !zlen_app, !zlen_le_enc. lia. Qed.
#[export] Hint Rewrite zlen_repr_PacketHead zlen_repr_PacketTail : blocks.

Lemma zlen_frame p seq now : zlen (frame p seq now) = zlen p + 20.
Proof. unfold frame. zl. Qed.

Lemma read_repr_PacketHead (h : PacketHead) (rest : list Z) :
  in_u 32 (ui32CheckHead h) → in_u 32 (ui32Length h) →
  read_PacketHead (repr_PacketHead h ++ rest) = h.
Proof.
  intros H1 H2. unfold read_PacketHead, repr_PacketHead. destruct h as [c l]; simpl in *.
  rewrite <-app_assoc. rewrite (sub_app_here _ (le_enc 4 c)) by (by rewrite zlen_le_enc).
  rewrite sub_app_skip by (rewrite zlen_le_enc; lia). rewrite zlen_le_enc.
  change (4 - Z.of_nat 4) with 0. rewrite (sub_app_here _ (le_enc 4 l)) by (by rewrite zlen_le_enc).
  rewrite !le_dec_enc. change (8 * Z.of_nat 4) with 32. by rewrite !Z.mod_small by zrange.
Qed.

Section FramingLaws.
Implicit Types (payload buffer : list Z).

Lemma MakeNetworkPacket_ok payload n buffer bufsize seq now :
  0 ≤ n ≤ zlen payload → 0 ≤ bufsize ≤ zlen buffer → bufsize < 2 ^ 31 → n + 20 < 2 ^ 32 →
  MakeNetworkPacket payload n buffer bufsize seq now =
    if bufsize <? n + 20 then Ok (RC_fail, buffer, bufsize)
    else Ok (RC_succ, splice buffer 0 (frame (sub payload 0 n) seq now), n + 20).
Proof.
  intros Hn Hb H31 H32. unfold MakeNetworkPacket, sizeof_PacketHead, sizeof_PacketTail.
  cbn [ui32Length]. replace (8 + n + 12) with (n + 20) by lia.
  rewrite (wrapu_small 32 (n + 20)) by zrange.
  destruct (Z.ltb_spec bufsize (n + 20)); [done|].
  rewrite poke_ok by (rewrite ?zlen_repr_PacketHead; lia). simpl.
  rewrite peek_ok by lia. simpl. change (i32 (0 + 8)) with 8.
  rewrite poke_ok by (rewrite ?zlen_splice, ?zlen_sub by (rewrite ?zlen_repr_PacketHead; lia); lia).
  simpl. rewrite wraps_small by zrange.
  set (h := repr_PacketHead _). set (t := repr_PacketTail _).
  pose proof (zlen_repr_PacketHead (mkPacketHead PACKET_CHECK_HEAD_KEY (n + 20))) as Hh.
  pose proof (zlen_repr_PacketTail (mkPacketTail PACKET_CHECK_TAIL_KEY seq (u32 now))) as Ht.
  fold h in Hh. fold t in Ht.
  rewrite poke_ok by blia. simpl. do 3 f_equal.
  assert (frame (sub payload 0 n) seq now = h ++ sub payload 0 n ++ t) as ->.
  { unfold frame, h, t. by rewrite zlen_sub by lia. }
  apply blocks_eq; [blia|]. rewrite !zlen_splice by blia. intros i Hi.
  repeat (rewrite get_splice by blia). rewrite !zlen_app, zlen_sub, Hh, Ht by lia.
  repeat case_bool_decide; try lia; try done.
  - rewrite get_app_r by blia. rewrite get_app_r by blia.
    rewrite Hh, zlen_sub by lia. f_equal. lia.
  - rewrite get_app_r by blia. rewrite get_app_l by blia. f_equal. lia.
  - by rewrite get_app_l by blia.
Qed.

(** C13: [MakeNetworkPacket] writes exactly the frame of the payload at the
    front of the send buffer, leaves the rest of it alone and returns the
    frame length, whenever the frame fits; otherwise it fails and changes
    nothing. *)
Theorem MakeNetworkPacket_spec payload n buffer bufsize seq now :
  0 ≤ n ≤ zlen payload → 0 ≤ bufsize ≤ zlen buffer → bufsize < 2 ^ 31 → n + 20 < 2 ^ 32 →
  MakeNetworkPacket payload n buffer bufsize seq now =
    if bufsize <? n + 20 then Ok (RC_fail, buffer, bufsize)
    else Ok (RC_succ, splice buffer 0 (frame (sub payload 0 n) seq now), n + 20).
Proof. apply MakeNetworkPacket_ok. Qed.

Lemma MakeNetworkPacket_spec_witness :
  MakeNetworkPacket [1;2;3] 2 (replicate 32 0) 32 0 0
  = Ok (RC_succ, splice (replicate 32 0) 0 (frame (sub [1;2;3] 0 2) 0 0), 22).
Proof.
  apply (MakeNetworkPacket_spec [1;2;3] 2 (replicate 32 0) 32 0 0);
    vm_compute; intuition discriminate.
Defined.

(** The head at the front of the queued bytes. *)
Definition queue_head (q : list Z) : PacketHead := read_PacketHead q.

(** Complete case analysis of [ParseNetworkData] on the queued bytes.
    It never faults, never consumes, and only the first eight bytes and the
    amount of data decide. *)
Lemma ParseNetworkData_spec b len0 :
  wf_circle b →
  ParseNetworkData b len0 =
    let q := contents b in
    if zlen q <? 8 then Ok (RC_pending, len0)
    else if negb (ui32CheckHead (queue_head q) =? 0) then Ok (RC_invalid_packet, len0)
    else if zlen q <? ui32Length (queue_head q) then Ok (RC_pending, len0)
    else Ok (RC_succ, ui32Length (queue_head q)).
Proof.
  intros Hwf. unfold ParseNetworkData, GetDataSize, sizeof_PacketHead.
  pose proof (zlen_contents b Hwf) as Hl. cbn zeta. rewrite Hl.
  destruct (Z.ltb_spec (_nDataSize b) 8); [done|].
  rewrite Read_result by (done || rewrite ?zlen_repr_PacketHead; lia).
  cbn [mbind outcome_bind].
  rewrite splice_whole by (rewrite zlen_repr_PacketHead, zlen_sub; lia).
  assert (read_PacketHead (sub (contents b) 0 8) = queue_head (contents b)) as ->.
  { unfold queue_head, read_PacketHead. by rewrite !sub_sub by lia. }
  unfold PACKET_CHECK_HEAD_KEY. cbn zeta. by rewrite (Z.eqb_sym 0).
Qed.
End FramingLaws.

(** ** Frames in the receive ring *)
Section Stream.
Implicit Types (payload q rest : list Z).

Lemma queue_head_app q rest : 8 ≤ zlen q → queue_head (q ++ rest) = queue_head q.
Proof.
  intros. unfold queue_head, read_PacketHead. by rewrite !sub_app_prefix by lia.
Qed.
Lemma queue_head_sub q k : 8 ≤ k ≤ zlen q → queue_head (sub q 0 k) = queue_head q.
Proof. intros. unfold queue_head, read_PacketHead. by rewrite !sub_sub by lia. Qed.

Lemma queue_head_frame payload seq now rest :
  zlen payload + 20 < 2 ^ 32 →
  queue_head (frame payload seq now ++ rest) = mkPacketHead PACKET_CHECK_HEAD_KEY (zlen payload + 20).
Proof.
  intros. pose proof (zlen_nonneg payload). unfold queue_head, frame. rewrite <-app_assoc.
  apply read_repr_PacketHead; simpl; [done|zrange].
Qed.

(** C12: framing under arbitrary segmentation.  If the first [k] bytes of a
    stream that starts with a frame have arrived, [ParseNetworkData] answers
    "pending" until the frame is complete and then gives its exact length,
    whatever follows. *)
Theorem ParseNetworkData_segmented b payload seq now rest k len0 :
  wf_circle b → zlen payload + 20 < 2 ^ 32 →
  0 ≤ k ≤ zlen (frame payload seq now ++ rest) →
  contents b = sub (frame payload seq now ++ rest) 0 k →
  ParseNetworkData b len0 =
    if k <? zlen payload + 20 then Ok (RC_pending, len0)
    else Ok (RC_succ, zlen payload + 20).
Proof.
  intros Hwf Hsz Hk Hc. pose proof (zlen_nonneg payload).
  rewrite ParseNetworkData_spec by done. cbn zeta. rewrite Hc, zlen_sub by lia.
  destruct (Z.ltb_spec k 8); [by zbool|].
  rewrite queue_head_sub, queue_head_frame by lia. simpl.
  destruct (Z.ltb_spec k (zlen payload + 20)); done.
Qed.

Lemma ParseNetworkData_segmented_witness :
  ParseNetworkData
    (mkBufferBase (frame [5] 0 0 ++ [0]) 21 21 21 0 21) 0 = Ok (RC_succ, 21).
Proof.
  apply (ParseNetworkData_segmented (mkBufferBase (frame [5] 0 0 ++ [0]) 21 21 21 0 21)
           [5] 0 0 [] 21 0).
  - split; simpl; (done || lia).
  - done.
  - vm_compute. intuition discriminate.
  - reflexivity.
Defined.
End Stream.

(** ** Dispatch laws *)
Section DispatchLaws.
Context {T : Type} (mem : list Z).
Hypothesis mem_size : zlen mem = MAX_PACKET_BUFFER_SIZE + 1.

(** The type word [Execute] reads: 0 when the payload is shorter than a
    word, or too long for the serializer. *)
Definition type_word (data : list Z) (length : Z) : Z :=
  if (length <? 4) || (MAX_PACKET_BUFFER_SIZE <? length) then 0
  else u32 (le_dec (sub data 0 4)).

Lemma read_type_word data len :
  0 ≤ len → len ≤ zlen data ∨ MAX_PACKET_BUFFER_SIZE < len →
  ∃ s s', Serializer_recv mem data len = Ok s ∧ SerializeHead s 0 = Ok (s', type_word data len).
Proof.
  intros H0 Hlen. unfold type_word, SerializeHead, Value_UINT32.
  destruct (Z.ltb_spec MAX_PACKET_BUFFER_SIZE len) as [Hbig|Hsmall].
  - destruct (Serializer_recv_long mem data len mem_size Hbig) as (s & E & Hs).
    destruct (Value_repr_recv_short 4 s [] (le_enc 4 0) Hs) as (s' & E' & _); [done|].
    rewrite orb_true_r. exists s, s'. split; [done|]. rewrite E'. simpl. by rewrite le_dec_enc.
  - destruct (Serializer_recv_new mem data len mem_size) as (s & E & Hs); [lia|lia|].
    exists s. destruct (Z.ltb_spec len 4); simpl.
    + destruct (Value_repr_recv_short 4 s _ (le_enc 4 0) Hs) as (s' & E' & _);
        [rewrite zlen_sub; lia|].
      exists s'. split; [done|]. rewrite E'. simpl. by rewrite le_dec_enc.
    + replace len with (4 + (len - 4)) in Hs by lia. rewrite sub_app in Hs by lia.
      destruct (Value_repr_recv 4 s _ _ (le_enc 4 0) Hs) as (s' & E' & _);
        [rewrite zlen_sub; lia|by rewrite zlen_le_enc|].
      exists s'. split; [done|]. by rewrite E'.
Qed.

Lemma PacketHandler_Execute_ok (h : PacketHandler T) (obj : T) data len :
  0 ≤ len → len ≤ zlen data ∨ MAX_PACKET_BUFFER_SIZE < len →
  PacketHandler_Execute mem h obj data len =
    if zlen h <=? type_word data len then Fault OutOfBounds
    else match get h (type_word data len) with
         | Some (Some f) => f obj data len
         | _ => Ok (obj, false)
         end.
Proof.
  intros H0 Hlen. destruct (read_type_word data len H0 Hlen) as (s & s' & E & E').
  unfold PacketHandler_Execute. rewrite E. simpl. rewrite E'. simpl.
  assert (0 ≤ type_word data len).
  { unfold type_word. destruct (_ || _); [lia|]. by apply wrapu_range. }
  destruct (Z.leb_spec (zlen h) (type_word data len)).
  - by rewrite aget_fault by lia.
  - destruct (get_is_Some h (type_word data len)) as [x Hx]; [lia|].
    rewrite (aget_ok _ _ x) by done. simpl. rewrite Hx. by destruct x.
Qed.

(** C14: [PacketHandler::Execute] in terms of the type word.  There is no
    comparison with [PACKET_MAX]: a word at or beyond the table reads past
    the array; an empty slot answers false; otherwise the registered functor
    runs on the same payload. *)
Theorem PacketHandler_Execute_spec (h : PacketHandler T) (obj : T) data len :
  0 ≤ len → len ≤ zlen data ∨ MAX_PACKET_BUFFER_SIZE < len →
  PacketHandler_Execute mem h obj data len =
    if zlen h <=? type_word data len then Fault OutOfBounds
    else match get h (type_word data len) with
         | Some (Some f) => f obj data len
         | _ => Ok (obj, false)
         end.
Proof. apply PacketHandler_Execute_ok. Qed.

(** Only the first [len] bytes count. *)
Lemma Serializer_recv_sub data len :
  0 ≤ len ≤ zlen data → Serializer_recv mem data len = Serializer_recv mem (sub data 0 len) len.
Proof.
  intros Hl. unfold Serializer_recv, BufferBase_Write.
  destruct (_ <? _); [done|]. rewrite !peek_ok by (rewrite ?zlen_sub; lia).
  by rewrite sub_sub by lia.
Qed.

Lemma PacketFunctor_Execute_encoded {P} `{WireLaws P} type0 (func : T → P → outcome (T * bool))
    (p : packet P) obj rest :
  in_u 32 (ui32PacketType p) → wire_wf (body p) →
  zlen (encode_packet p) + zlen rest ≤ MAX_PACKET_BUFFER_SIZE →
  PacketFunctor_Execute mem type0 default_obj func obj (encode_packet p ++ rest)
    (zlen (encode_packet p ++ rest)) = func obj (body p).
Proof.
  intros Ht Hwf Hsz. unfold PacketFunctor_Execute.
  destruct (Serializer_recv_new mem (encode_packet p ++ rest) (zlen (encode_packet p ++ rest)) mem_size)
    as (s & E & Hs); [pose proof (zlen_nonneg (encode_packet p ++ rest)); lia|rewrite zlen_app; lia|].
  rewrite sub_all in Hs. rewrite E. simpl.
  destruct (Serialize_packet_recv s rest type0 p Ht Hwf Hs) as (s' & E' & _).
  rewrite E'. done.
Qed.

Lemma type_word_encoded (type : Z) (rest : list Z) :
  in_u 32 type → 4 + zlen rest ≤ MAX_PACKET_BUFFER_SIZE →
  type_word (le_enc 4 type ++ rest) (4 + zlen rest) = type.
Proof.
  intros Ht Hsz. pose proof (zlen_nonneg rest). unfold type_word.
  rewrite (sub_app_here _ (le_enc 4 type)) by (by rewrite zlen_le_enc).
  zbool. simpl. rewrite le_dec_enc. by apply u32_repr.
Qed.
End DispatchLaws.

Lemma PacketHandler_Execute_spec_witness :
  PacketHandler_Execute (T := unit) (replicate (Z.to_nat 10241) 0) (PacketHandler_init 8) tt
    (le_enc 4 77) 4 = Fault OutOfBounds.
Proof.
  apply (PacketHandler_Execute_spec (T := unit) (replicate (Z.to_nat 10241) 0) ltac:(vm_compute; reflexivity)
           (PacketHandler_init 8) tt (le_enc 4 77) 4); [lia|left; vm_compute; discriminate].
Defined.
