(* ===== verification/ObjectPool.v ===== *)
(** * Object pools: _lib/object_pool_mgr.h

    Objects are addresses; the addresses of one allocated block are
    consecutive.  [ObjectPool] hands out raw slots of doubling chunks,
    [ObjectMgrBase] (sessions, zones) keeps the list of the used ones,
    [ObjectPoolMgrBase] (connectors) recycles constructed objects.  Both
    managers implement [PoolSpec]. *)
From S2P Require Import Prelude.

(** [a, a+1, ..., a+n-1]: the result of [iota]. *)
Definition iota (a n : Z) : list Z := (λ i, a + Z.of_nat i) <$> seq 0 (Z.to_nat n).

Lemma elem_of_iota a n x : x ∈ iota a n ↔ a ≤ x < a + n.
Proof.
  unfold iota. rewrite list_elem_of_fmap. split.
  - intros (i & -> & Hi). apply elem_of_seq in Hi. lia.
  - intros Hx. exists (Z.to_nat (x - a)). rewrite elem_of_seq. split; lia.
Qed.
Lemma NoDup_iota a n : NoDup (iota a n).
Proof.
  unfold iota. apply NoDup_fmap_2; [|apply NoDup_seq]. intros i j. lia.
Qed.
Lemma length_iota a n : length (iota a n) = Z.to_nat n.
Proof. unfold iota. by rewrite length_fmap, length_seq. Qed.

(** The free store: the next unused address, and the blocks handed out. *)
Record Store := mkStore { st_next : Z; st_blocks : list (Z * Z) }.
Definition Store_init : Store := mkStore 1 [].
Definition allocate (s : Store) (n : Z) : Z * Store :=
  (st_next s, mkStore (st_next s + n) (st_blocks s ++ [(st_next s, n)])).

(** ** ObjectPool *)
Definition _initSize : Z := 100.

Record ObjectPool := mkObjectPool {
  op_poolList : list Z;        (** first address of each chunk *)
  op_freeList : list Z;        (** a vector: the back is the end of the list *)
  op_addBlockSize : Z;
  op_store : Store }.

Definition ObjectPool_init (st : Store) : ObjectPool := mkObjectPool [] [] _initSize st.

Definition ObjectPool_AddAlloc (p : ObjectPool) : ObjectPool :=
  let '(obj, st) := allocate (op_store p) (op_addBlockSize p) in
  mkObjectPool (op_poolList p ++ [obj])
    (op_freeList p ++ iota obj (op_addBlockSize p))
    (u64 (op_addBlockSize p * 2)) st.

(** [back] of an empty vector is undefined. *)
Definition GetFreeObjectPtr (p : ObjectPool) : outcome (Z * ObjectPool) :=
  let p := match op_freeList p with [] => ObjectPool_AddAlloc p | _ => p end in
  match last (op_freeList p) with
  | None => Fault EmptyContainer
  | Some object =>
      Ok (object, mkObjectPool (op_poolList p) (removelast (op_freeList p))
                    (op_addBlockSize p) (op_store p))
  end.

Definition SetFreeObjectPtr (p : ObjectPool) (object : Z) : ObjectPool :=
  mkObjectPool (op_poolList p) (op_freeList p ++ [object]) (op_addBlockSize p) (op_store p).

(** The destructor: the [deallocate(chunk, chunkSize)] calls it makes. *)
Fixpoint deallocate_calls (chunks : list Z) (chunkSize : Z) : list (Z * Z) :=
  match chunks with
  | [] => []
  | chunk :: chunks => (chunk, chunkSize) :: deallocate_calls chunks (u64 (chunkSize * 2))
  end.
Definition ObjectPool_destroy (p : ObjectPool) : list (Z * Z) :=
  deallocate_calls (op_poolList p) _initSize.

(** ** ObjectMgrBase *)
Record ObjectMgrBase := mkObjectMgrBase { om_pool : ObjectPool; om_usedList : list Z }.

Definition ObjectMgrBase_init (st : Store) : ObjectMgrBase :=
  mkObjectMgrBase (ObjectPool_init st) [].

Definition ObjectMgrBase_GetFreeObject (m : ObjectMgrBase) : outcome (Z * ObjectMgrBase) :=
  '(obj, p) ← GetFreeObjectPtr (om_pool m);
  Ok (obj, mkObjectMgrBase p (om_usedList m ++ [obj])).

Definition list_remove_all (x : Z) (l : list Z) : list Z := filter (λ y, y ≠ x) l.

Definition ObjectMgrBase_SetFreeObject (m : ObjectMgrBase) (obj : Z) : ObjectMgrBase :=
  let used := if bool_decide (obj ∈ om_usedList m)
              then list_remove_all obj (om_usedList m) else om_usedList m in
  mkObjectMgrBase (SetFreeObjectPtr (om_pool m) obj) used.

(** ** ObjectPoolMgrBase *)
Record ObjectPoolMgrBase := mkObjectPoolMgrBase {
  pm_poolList : list Z;
  pm_freeList : list Z;
  pm_usedList : list Z;
  pm_poolCount : Z;
  pm_store : Store }.

(** [k] rounds of [new T], each appended to the pool and the free list. *)
Fixpoint new_objects (k : nat) (pool free : list Z) (st : Store) : list Z * list Z * Store :=
  match k with
  | O => (pool, free, st)
  | S k => let '(obj, st) := allocate st 1 in new_objects k (pool ++ [obj]) (free ++ [obj]) st
  end.

Definition ObjectPoolMgrBase_init (initCount : Z) (st : Store) : ObjectPoolMgrBase :=
  let count := Z.max initCount 1 in
  let '(pool, free, st) := new_objects (Z.to_nat count) [] [] st in
  mkObjectPoolMgrBase pool free [] count st.

Definition ObjectPoolMgrBase_AddAlloc (m : ObjectPoolMgrBase) : ObjectPoolMgrBase :=
  let addPool := i32 (pm_poolCount m * 2) in
  let '(pool, free, st) :=
    new_objects (Z.to_nat addPool) (pm_poolList m) (pm_freeList m) (pm_store m) in
  mkObjectPoolMgrBase pool free (pm_usedList m) (i32 (pm_poolCount m + addPool)) st.

Definition ObjectPoolMgrBase_GetFreeObject (m : ObjectPoolMgrBase) : option Z * ObjectPoolMgrBase :=
  let m := match pm_freeList m with [] => ObjectPoolMgrBase_AddAlloc m | _ => m end in
  match pm_freeList m with
  | [] => (None, m)
  | obj :: free =>
      (Some obj, mkObjectPoolMgrBase (pm_poolList m) free (pm_usedList m ++ [obj])
                   (pm_poolCount m) (pm_store m))
  end.

Definition ObjectPoolMgrBase_SetFreeObject (m : ObjectPoolMgrBase) (obj : Z) : ObjectPoolMgrBase :=
  if bool_decide (obj ∈ pm_usedList m) then
    mkObjectPoolMgrBase (pm_poolList m) (obj :: pm_freeList m)
      (list_remove_all obj (pm_usedList m)) (pm_poolCount m) (pm_store m)
  else m.

(** ** What a client of a pool relies on *)
Class PoolSpec (M : Type) := {
  pool_acquire : M → option (Z * M);
  pool_release : M → Z → M;
  pool_used : M → list Z;
  pool_inv : M → Prop;
  pool_acquire_fresh m x m' :
    pool_inv m → pool_acquire m = Some (x, m') →
    (x ∉ pool_used m) ∧ pool_used m' = pool_used m ++ [x] ∧ pool_inv m';
  pool_release_used m x :
    pool_inv m → x ∈ pool_used m →
    pool_used (pool_release m x) = list_remove_all x (pool_used m) ∧ pool_inv (pool_release m x);
  pool_used_NoDup m : pool_inv m → NoDup (pool_used m) }.

Lemma elem_of_remove_all x y l : y ∈ list_remove_all x l ↔ y ∈ l ∧ y ≠ x.
Proof. unfold list_remove_all. rewrite list_elem_of_filter. tauto. Qed.
Lemma NoDup_remove_all x l : NoDup l → NoDup (list_remove_all x l).
Proof. apply NoDup_filter. Qed.
Lemma remove_all_perm x l : NoDup l → x ∈ l → l ≡ₚ x :: list_remove_all x l.
Proof.
  intros Hnd Hx. apply NoDup_Permutation; [done| |].
  - constructor; [by rewrite elem_of_remove_all; intros [_ ?]|by apply NoDup_remove_all].
  - intros y. rewrite elem_of_cons, elem_of_remove_all. destruct (decide (y = x)); subst; tauto.
Qed.

(** A client session: acquire, or release an object it holds. *)
Inductive pool_op := Acquire | Release (x : Z).
Fixpoint pool_run {M} `{PoolSpec M} (m : M) (ops : list pool_op) : option (M * list Z) :=
  match ops with
  | [] => Some (m, pool_used m)
  | Acquire :: ops => '(_, m') ← pool_acquire m; pool_run m' ops
  | Release x :: ops =>
      if bool_decide (x ∈ pool_used m) then pool_run (pool_release m x) ops else None
  end.

Lemma pool_run_NoDup {M} `{PoolSpec M} (m m' : M) ops held :
  pool_inv m → pool_run m ops = Some (m', held) → NoDup held ∧ pool_inv m'.
Proof.
  revert m. induction ops as [|[|x] ops IH]; simpl; intros m Hinv Hrun.
  - injection Hrun as <- <-. split; [by apply pool_used_NoDup|done].
  - destruct (pool_acquire m) as [[y m1]|] eqn:E; [|done]. simpl in Hrun.
    apply (IH m1); [|done]. by apply (pool_acquire_fresh m y m1).
  - case_bool_decide; [|done]. apply (IH (pool_release m x)); [|done].
    by apply pool_release_used.
Qed.

(** ** ObjectMgrBase implements the specification *)
Definition store_above (st : Store) (l : list Z) : Prop := Forall (λ x, x < st_next st) l.

Record om_inv (m : ObjectMgrBase) : Prop := {
  om_nodup : NoDup (op_freeList (om_pool m) ++ om_usedList m);
  om_below : store_above (op_store (om_pool m)) (op_freeList (om_pool m) ++ om_usedList m);
  om_block : 0 ≤ op_addBlockSize (om_pool m) }.

Lemma om_inv_init st : om_inv (ObjectMgrBase_init st).
Proof. split; simpl; [constructor|constructor|done]. Qed.

Lemma u64_nonneg z : 0 ≤ u64 z.
Proof. by apply wrapu_range. Qed.

Lemma om_inv_AddAlloc m :
  om_inv m → om_inv (mkObjectMgrBase (ObjectPool_AddAlloc (om_pool m)) (om_usedList m)).
Proof.
  intros [Hnd Hb Hsz]. unfold ObjectPool_AddAlloc. simpl.
  set (st := op_store (om_pool m)) in *. set (k := op_addBlockSize (om_pool m)) in *.
  unfold store_above in *. rewrite Forall_forall in Hb.
  split; simpl; [| |apply u64_nonneg].
  - rewrite <-app_assoc, (Permutation_app_comm (iota _ _)), app_assoc.
    apply NoDup_app. split_and!; [done| |apply NoDup_iota].
    intros x Hx Hio. apply elem_of_iota in Hio. apply Hb in Hx. lia.
  - apply Forall_forall. intros x. rewrite !elem_of_app. intros [[Hx|Hx]|Hx].
    + specialize (Hb x). rewrite elem_of_app in Hb. simpl. intuition lia.
    + apply elem_of_iota in Hx. simpl. lia.
    + specialize (Hb x). rewrite elem_of_app in Hb. simpl. intuition lia.
Qed.

Lemma snoc_removelast {A} (l : list A) x : last l = Some x → l = removelast l ++ [x].
Proof.
  destruct l as [|y l] using rev_ind; [done|].
  rewrite last_snoc. intros [= ->]. by rewrite removelast_last.
Qed.

Definition om_ready (m : ObjectMgrBase) : ObjectMgrBase :=
  match op_freeList (om_pool m) with
  | [] => mkObjectMgrBase (ObjectPool_AddAlloc (om_pool m)) (om_usedList m)
  | _ => m
  end.

Lemma om_GetFreeObject_eq m x m' :
  ObjectMgrBase_GetFreeObject m = Ok (x, m') →
  last (op_freeList (om_pool (om_ready m))) = Some x ∧
  om_usedList m' = om_usedList m ++ [x] ∧
  op_freeList (om_pool m') = removelast (op_freeList (om_pool (om_ready m))) ∧
  op_store (om_pool m') = op_store (om_pool (om_ready m)) ∧
  op_addBlockSize (om_pool m') = op_addBlockSize (om_pool (om_ready m)).
Proof.
  unfold ObjectMgrBase_GetFreeObject, GetFreeObjectPtr, om_ready.
  destruct (op_freeList (om_pool m)) as [|y l] eqn:E; simpl.
  - destruct (last _) eqn:El; simpl; [|done]. intros [= <- <-]. done.
  - rewrite E. simpl. destruct (last _) eqn:El; simpl; [|done]. intros [= <- <-]. done.
Qed.

Lemma om_acquire m x m' :
  om_inv m → ObjectMgrBase_GetFreeObject m = Ok (x, m') →
  (x ∉ om_usedList m) ∧ om_usedList m' = om_usedList m ++ [x] ∧ om_inv m'.
Proof.
  intros Hinv Hg. apply om_GetFreeObject_eq in Hg as (Hl & Hu & Hf & Hst & Hb).
  assert (om_inv (om_ready m)) as [Hnd Hbl Hsz].
  { unfold om_ready. destruct (op_freeList (om_pool m)); [by apply om_inv_AddAlloc|done]. }
  assert (om_usedList (om_ready m) = om_usedList m) as Hur.
  { unfold om_ready. by destruct (op_freeList (om_pool m)). }
  rewrite Hur in Hnd, Hbl. apply snoc_removelast in Hl. rewrite Hl in Hnd, Hbl.
  assert (removelast (op_freeList (om_pool (om_ready m))) ++ om_usedList m ++ [x]
          ≡ₚ (removelast (op_freeList (om_pool (om_ready m))) ++ [x]) ++ om_usedList m) as Hp.
  { rewrite <-app_assoc. f_equiv. apply Permutation_app_comm. }
  split_and!; [|done|].
  - apply NoDup_app in Hnd as (_ & Hd & _). apply Hd. set_solver.
  - split; rewrite ?Hf, ?Hu, ?Hst, ?Hb; [|unfold store_above in *|done]; by rewrite Hp.
Qed.

Lemma om_release m x :
  om_inv m → x ∈ om_usedList m →
  om_usedList (ObjectMgrBase_SetFreeObject m x) = list_remove_all x (om_usedList m) ∧
  om_inv (ObjectMgrBase_SetFreeObject m x).
Proof.
  intros [Hnd Hb Hsz] Hx. unfold ObjectMgrBase_SetFreeObject. rewrite bool_decide_true by done.
  split; [done|]. apply NoDup_app in Hnd as Hnd'. destruct Hnd' as (_ & _ & Hndu).
  assert ((op_freeList (om_pool m) ++ [x]) ++ list_remove_all x (om_usedList m)
          ≡ₚ op_freeList (om_pool m) ++ om_usedList m) as Hp.
  { rewrite <-app_assoc. f_equiv. simpl. by rewrite <-remove_all_perm. }
  split; simpl; [|unfold store_above in *|done]; by rewrite Hp.
Qed.

Definition om_acquire_opt (m : ObjectMgrBase) : option (Z * ObjectMgrBase) :=
  match ObjectMgrBase_GetFreeObject m with Ok r => Some r | Fault _ => None end.

#[export] Program Instance ObjectMgrBase_spec : PoolSpec ObjectMgrBase := {|
  pool_acquire := om_acquire_opt;
  pool_release := ObjectMgrBase_SetFreeObject;
  pool_used := om_usedList;
  pool_inv := om_inv |}.
Next Obligation.
  unfold om_acquire_opt. intros m x m' Hinv Hg.
  destruct (ObjectMgrBase_GetFreeObject m) as [[??]|] eqn:E; [|done].
  injection Hg as -> ->. by apply om_acquire.
Qed.
Next Obligation. intros. by apply om_release. Qed.
Next Obligation. intros m []. by apply NoDup_app in om_nodup0 as (_ & _ & ?). Qed.

(** ** ObjectPoolMgrBase implements the specification *)
Record pm_inv (m : ObjectPoolMgrBase) : Prop := {
  pm_partition : pm_poolList m ≡ₚ pm_freeList m ++ pm_usedList m;
  pm_nodup : NoDup (pm_poolList m);
  pm_below : store_above (pm_store m) (pm_poolList m) }.

Lemma new_objects_spec k : ∀ pool free st pool' free' st',
  new_objects k pool free st = (pool', free', st') →
  pool' = pool ++ iota (st_next st) (Z.of_nat k) ∧
  free' = free ++ iota (st_next st) (Z.of_nat k) ∧
  st_next st' = st_next st + Z.of_nat k.
Proof.
  induction k as [|k IH]; intros pool free st pool' free' st' E; cbn [new_objects] in E.
  { injection E as <- <- <-. simpl. rewrite !app_nil_r. split_and!; [done..|lia]. }
  simpl in E. apply IH in E as (-> & -> & ->). simpl.
  assert (iota (st_next st) (Z.of_nat (S k)) = st_next st :: iota (st_next st + 1) (Z.of_nat k)) as ->.
  { unfold iota. rewrite !Nat2Z.id. simpl. f_equal; [lia|].
    rewrite <-fmap_S_seq, <-list_fmap_compose. apply list_fmap_ext. intros; simpl; lia. }
  rewrite <-!app_assoc. simpl. split_and!; [done..|lia].
Qed.

Lemma pm_inv_grow m pool free st count k :
  pm_inv m → new_objects k (pm_poolList m) (pm_freeList m) (pm_store m) = (pool, free, st) →
  pm_inv (mkObjectPoolMgrBase pool free (pm_usedList m) count st).
Proof.
  intros [Hp Hnd Hb] E. apply new_objects_spec in E as (-> & -> & Hst).
  unfold store_above in *. rewrite Forall_forall in Hb.
  split; simpl.
  - rewrite Hp, <-!app_assoc. f_equiv. apply Permutation_app_comm.
  - apply NoDup_app. split_and!; [done| |apply NoDup_iota].
    intros x Hx Hio. apply elem_of_iota in Hio. apply Hb in Hx. lia.
  - unfold store_above. apply Forall_app. split; rewrite Forall_forall; intros x Hx.
    + apply Hb in Hx. lia.
    + apply elem_of_iota in Hx. lia.
Qed.

Lemma pm_inv_init n st : pm_inv (ObjectPoolMgrBase_init n st).
Proof.
  unfold ObjectPoolMgrBase_init.
  destruct (new_objects _ [] [] st) as [[pool free] st'] eqn:E.
  apply (pm_inv_grow (mkObjectPoolMgrBase [] [] [] 0 st) _ _ _ _ (Z.to_nat (Z.max n 1))); [|done].
  split; simpl; [done|constructor|constructor].
Qed.

Lemma pm_inv_AddAlloc m : pm_inv m → pm_inv (ObjectPoolMgrBase_AddAlloc m).
Proof.
  intros Hinv. unfold ObjectPoolMgrBase_AddAlloc. cbn zeta.
  destruct (new_objects _ _ _ _) as [[pool free] st'] eqn:E. by eapply pm_inv_grow.
Qed.

Lemma pm_acquire m x m' :
  pm_inv m → ObjectPoolMgrBase_GetFreeObject m = (Some x, m') →
  (x ∉ pm_usedList m) ∧ pm_usedList m' = pm_usedList m ++ [x] ∧ pm_inv m'.
Proof.
  intros Hinv. unfold ObjectPoolMgrBase_GetFreeObject. cbn zeta.
  set (m1 := match pm_freeList m with [] => ObjectPoolMgrBase_AddAlloc m | _ => m end).
  assert (pm_inv m1 ∧ pm_usedList m1 = pm_usedList m) as [[Hp Hnd Hb] Hu].
  { unfold m1. destruct (pm_freeList m); [|done]. split; [by apply pm_inv_AddAlloc|].
    unfold ObjectPoolMgrBase_AddAlloc. by destruct (new_objects _ _ _ _) as [[??]?]. }
  destruct (pm_freeList m1) as [|y free] eqn:E; [done|]. intros [= -> <-]. simpl.
  rewrite Hu in *. split_and!; [|done|].
  - rewrite Hp in Hnd. simpl in Hnd. apply NoDup_cons in Hnd as [Hnd _]. set_solver.
  - split; simpl; [|done|done]. rewrite Hp. simpl. by rewrite app_assoc, <-Permutation_cons_append.
Qed.

Lemma pm_release m x :
  pm_inv m → x ∈ pm_usedList m →
  pm_usedList (ObjectPoolMgrBase_SetFreeObject m x) = list_remove_all x (pm_usedList m) ∧
  pm_inv (ObjectPoolMgrBase_SetFreeObject m x).
Proof.
  intros [Hp Hnd Hb] Hx. unfold ObjectPoolMgrBase_SetFreeObject. rewrite bool_decide_true by done.
  split; [done|]. split; simpl; [|done|done]. rewrite Hp in Hnd |- *.
  apply NoDup_app in Hnd as (_ & _ & Hnd). rewrite (remove_all_perm x (pm_usedList m)) at 1 by done.
  by rewrite <-Permutation_middle.
Qed.

Definition pm_acquire_opt (m : ObjectPoolMgrBase) : option (Z * ObjectPoolMgrBase) :=
  match ObjectPoolMgrBase_GetFreeObject m with (Some x, m') => Some (x, m') | (None, _) => None end.

#[export] Program Instance ObjectPoolMgrBase_spec : PoolSpec ObjectPoolMgrBase := {|
  pool_acquire := pm_acquire_opt;
  pool_release := ObjectPoolMgrBase_SetFreeObject;
  pool_used := pm_usedList;
  pool_inv := pm_inv |}.
Next Obligation.
  unfold pm_acquire_opt. intros m x m' Hinv Hg.
  destruct (ObjectPoolMgrBase_GetFreeObject m) as [[y|] m1] eqn:E; [|done].
  injection Hg as -> ->. by apply pm_acquire.
Qed.
Next Obligation. intros. by apply pm_release. Qed.
Next Obligation.
  intros m [Hp Hnd _]. rewrite Hp in Hnd. by apply NoDup_app in Hnd as (_ & _ & ?).
Qed.

(** ** Properties *)

(** C18: no two live objects share an address.  Whatever sequence of
    acquisitions and releases of held objects a client makes on a fresh
    [ObjectMgrBase] (the manager of sessions and zones), the objects it holds
    are pairwise distinct. *)
Theorem ObjectMgrBase_no_alias st ops m held :
  pool_run (ObjectMgrBase_init st) ops = Some (m, held) → NoDup held.
Proof. intros Hrun. eapply (pool_run_NoDup (ObjectMgrBase_init st)); [apply om_inv_init|done]. Qed.

Lemma ObjectMgrBase_no_alias_witness :
  ∃ m held, pool_run (ObjectMgrBase_init Store_init) [Acquire; Acquire; Release 100; Acquire] = Some (m, held)
    ∧ NoDup held.
Proof.
  eexists _, _. split; [vm_compute; reflexivity|].
  eapply (ObjectMgrBase_no_alias Store_init [Acquire; Acquire; Release 100; Acquire]).
  vm_compute; reflexivity.
Defined.

(** the same for [ObjectPoolMgrBase] (the manager of connectors), for
    every initial count, zero and negative ones included. *)
Theorem ObjectPoolMgrBase_no_alias n st ops m held :
  pool_run (ObjectPoolMgrBase_init n st) ops = Some (m, held) → NoDup held.
Proof. intros Hrun. eapply (pool_run_NoDup (ObjectPoolMgrBase_init n st)); [apply pm_inv_init|done]. Qed.

Lemma ObjectPoolMgrBase_no_alias_witness :
  ∃ m held, pool_run (ObjectPoolMgrBase_init 1 Store_init) [Acquire; Acquire; Release 1; Acquire] = Some (m, held)
    ∧ NoDup held.
Proof.
  eexists _, _. split; [vm_compute; reflexivity|].
  eapply (ObjectPoolMgrBase_no_alias 1 Store_init [Acquire; Acquire; Release 1; Acquire]).
  vm_compute; reflexivity.
Defined.

Lemma remove_all_not_elem x l : x ∉ l → list_remove_all x l = l.
Proof.
  intros Hx. unfold list_remove_all. induction l as [|y l IH]; [done|].
  rewrite filter_cons_True by set_solver. f_equal. apply IH. set_solver.
Qed.

(** releasing twice.  [ObjectMgrBase::SetFreeObject] pushes the object
    on the free list even when it is not in use, so a second release makes the
    next two acquisitions return one and the same object; [ObjectPoolMgrBase]
    ignores the second release. *)
Theorem release_twice m m' x :
  om_inv m → x ∈ om_usedList m → pm_inv m' → x ∈ pm_usedList m' →
  (∃ m1 m2,
    ObjectMgrBase_GetFreeObject
      (ObjectMgrBase_SetFreeObject (ObjectMgrBase_SetFreeObject m x) x) = Ok (x, m1) ∧
    ObjectMgrBase_GetFreeObject m1 = Ok (x, m2)) ∧
  ObjectPoolMgrBase_SetFreeObject (ObjectPoolMgrBase_SetFreeObject m' x) x
    = ObjectPoolMgrBase_SetFreeObject m' x.
Proof.
  intros _ _ Hinv' Hx'. split.
  - assert (∀ p l, GetFreeObjectPtr (mkObjectPool p (l ++ [x]) (op_addBlockSize (om_pool m))
              (op_store (om_pool m))) = Ok (x, mkObjectPool p l (op_addBlockSize (om_pool m))
              (op_store (om_pool m)))) as Hg.
    { intros p l. unfold GetFreeObjectPtr. cbn [op_freeList].
      destruct (l ++ [x]) as [|z r] eqn:E; [by destruct l|]. rewrite <-E. cbn [op_freeList].
      by rewrite last_snoc, removelast_last. }
    eexists _, _. unfold ObjectMgrBase_GetFreeObject, ObjectMgrBase_SetFreeObject, SetFreeObjectPtr.
    cbn [om_pool om_usedList op_freeList op_poolList op_addBlockSize op_store].
    rewrite Hg. cbn [mbind outcome_bind]. split; [done|].
    cbn [om_pool]. by rewrite Hg.
  - destruct (pm_release m' x Hinv' Hx') as [Hu _].
    unfold ObjectPoolMgrBase_SetFreeObject at 1. rewrite bool_decide_false; [done|].
    rewrite Hu, elem_of_remove_all. tauto.
Qed.

Lemma release_twice_witness :
  let m := mkObjectMgrBase (mkObjectPool [1] [1;2] 200 (mkStore 101 [(1,100)])) [3] in
  let m' := mkObjectPoolMgrBase [3] [] [3] 1 (mkStore 4 []) in
  (∃ m1 m2,
    ObjectMgrBase_GetFreeObject
      (ObjectMgrBase_SetFreeObject (ObjectMgrBase_SetFreeObject m 3) 3) = Ok (3, m1) ∧
    ObjectMgrBase_GetFreeObject m1 = Ok (3, m2)) ∧
  ObjectPoolMgrBase_SetFreeObject (ObjectPoolMgrBase_SetFreeObject m' 3) 3
    = ObjectPoolMgrBase_SetFreeObject m' 3.
Proof.
  intros m m'. apply (release_twice m m' 3).
  - split; simpl; [apply (bool_decide_unpack _); vm_compute; done| |lia].
    repeat constructor.
  - apply (bool_decide_unpack _); vm_compute; done.
  - split; simpl; [done|apply (bool_decide_unpack _); vm_compute; done|repeat constructor].
  - apply (bool_decide_unpack _); vm_compute; done.
Defined.

(** *** Sized deallocation *)
Inductive raw_op := RawGet | RawSet (x : Z).
Fixpoint raw_run (p : ObjectPool) (ops : list raw_op) : outcome ObjectPool :=
  match ops with
  | [] => Ok p
  | RawGet :: ops => '(_, p') ← GetFreeObjectPtr p; raw_run p' ops
  | RawSet x :: ops => raw_run (SetFreeObjectPtr p x) ops
  end.

Definition chunk_inv (p : ObjectPool) : Prop :=
  st_blocks (op_store p) = deallocate_calls (op_poolList p) _initSize ∧
  op_addBlockSize p = Nat.iter (length (op_poolList p)) (λ s, u64 (s * 2)) _initSize.

Lemma deallocate_calls_snoc l c s :
  deallocate_calls (l ++ [c]) s
  = deallocate_calls l s ++ [(c, Nat.iter (length l) (λ s, u64 (s * 2)) s)].
Proof.
  revert s. induction l as [|x l IH]; intros s; [done|].
  cbn [deallocate_calls app length]. rewrite IH. by rewrite Nat.iter_succ_r.
Qed.

Lemma chunk_inv_AddAlloc p : chunk_inv p → chunk_inv (ObjectPool_AddAlloc p).
Proof.
  intros [Hb Hs]. unfold chunk_inv, ObjectPool_AddAlloc. simpl.
  rewrite deallocate_calls_snoc, Hb, Hs, length_app, Nat.add_1_r. done.
Qed.

Lemma chunk_inv_run ops : ∀ p p', chunk_inv p → raw_run p ops = Ok p' → chunk_inv p'.
Proof.
  induction ops as [|[|x] ops IH]; intros p p' Hinv Hrun; cbn [raw_run] in Hrun.
  - congruence.
  - apply bind_ok_inv in Hrun as ([y p1] & Hg & Hrun). apply (IH p1); [|done].
    unfold GetFreeObjectPtr in Hg.
    destruct (op_freeList p) as [|z l] eqn:E; cbn zeta in Hg.
    + destruct (last _); [|done]. injection Hg as <- <-. by apply chunk_inv_AddAlloc.
    + destruct (last _); [|done]. by injection Hg as <- <-.
  - by apply (IH (SetFreeObjectPtr p x)).
Qed.

(** the destructor of [ObjectPool] recomputes the doubling chunk sizes
    instead of storing them; after any use of the pool its [deallocate] calls
    are exactly the [allocate] calls made, each with its own size. *)
Theorem ObjectPool_destroy_matches n ops p :
  raw_run (ObjectPool_init (mkStore n [])) ops = Ok p →
  ObjectPool_destroy p = st_blocks (op_store p).
Proof.
  intros Hrun. symmetry. by apply (chunk_inv_run ops (ObjectPool_init (mkStore n []))).
Qed.

Lemma ObjectPool_destroy_matches_witness :
  ∃ p, raw_run (ObjectPool_init (mkStore 1 [])) (replicate 101 RawGet) = Ok p ∧
    ObjectPool_destroy p = st_blocks (op_store p).
Proof.
  eexists. split; [vm_compute; reflexivity|].
  apply (ObjectPool_destroy_matches 1 (replicate 101 RawGet)). vm_compute; reflexivity.
Defined.
