(* ===== verification/SharedPool.v ===== *)
(** * Shared objects and the ends of the pools: _lib/object_pool_mgr.h
    [ObjectPool::GetFreeObject] hands an object out as a [shared_ptr] whose
    deleter gives it back to the pool, which it knows by its address; and the
    destructors of the two managers. *)
From S2P Require Import Prelude.
From S2P Require Import ObjectPool.

(** The pool, until it is destroyed, and the [shared_ptr]s there are, each by
    its object. *)
Record SharedPool := mkSharedPool { sp_pool : option ObjectPool; sp_handles : list Z }.
Definition SharedPool_init (st : Store) : SharedPool := mkSharedPool (Some (ObjectPool_init st)) [].
Definition GetFreeObject (s : SharedPool) : outcome (Z * SharedPool) :=
  match sp_pool s with
  | None => Fault UseAfterFree
  | Some p => '(object, p) ← GetFreeObjectPtr p; Ok (object, mkSharedPool (Some p) (sp_handles s ++ [object]))
  end.
(** A copy of a [shared_ptr]. *)
Definition share (object : Z) (s : SharedPool) : SharedPool := mkSharedPool (sp_pool s) (sp_handles s ++ [object]).
Fixpoint remove_one (x : Z) (l : list Z) : list Z :=
  match l with [] => [] | y :: l => if bool_decide (y = x) then l else y :: remove_one x l end.
(** The deleter: [destroy_at(object)], and back into the free list. *)
Definition deleter (object : Z) (s : SharedPool) : outcome SharedPool :=
  match sp_pool s with
  | None => Fault UseAfterFree
  | Some p => Ok (mkSharedPool (Some (SetFreeObjectPtr p object)) (sp_handles s))
  end.
(** The end of one [shared_ptr]: the last one of its object calls the deleter. *)
Definition drop_shared (object : Z) (s : SharedPool) : outcome SharedPool :=
  let s := mkSharedPool (sp_pool s) (remove_one object (sp_handles s)) in
  if bool_decide (object ∈ sp_handles s) then Ok s else deleter object s.
Definition SharedPool_destroy (s : SharedPool) : SharedPool := mkSharedPool None (sp_handles s).
(** [~ObjectMgrBase] destroys its pool, and no object in use. *)
Definition ObjectMgrBase_destroy (m : ObjectMgrBase) : list (Z * Z) := ObjectPool_destroy (om_pool m).
(** [~ObjectPoolMgrBase]: the objects it deletes. *)
Definition ObjectPoolMgrBase_destroy (m : ObjectPoolMgrBase) : list Z := pm_poolList m.

(** ** Uses of a pool *)
Inductive shared_op := Get | Share (object : Z) | Drop (object : Z).
(** [None] for a copy or an end of a [shared_ptr] that does not exist. *)
Definition shared_exec (s : SharedPool) (o : shared_op) : option (outcome SharedPool) :=
  match o with
  | Get => Some ('(_, s) ← GetFreeObject s; Ok s)
  | Share x => if bool_decide (x ∈ sp_handles s) then Some (Ok (share x s)) else None
  | Drop x => if bool_decide (x ∈ sp_handles s) then Some (drop_shared x s) else None
  end.
Fixpoint shared_run (s : SharedPool) (ops : list shared_op) : option (outcome SharedPool) :=
  match ops with
  | [] => Some (Ok s)
  | o :: ops =>
      match shared_exec s o with
      | Some (Ok s) => shared_run s ops
      | r => r
      end
  end.

(** The objects that have handles are what a manager would have in use. *)
Definition shared_inv (s : SharedPool) : Prop :=
  ∃ p used, sp_pool s = Some p ∧ om_inv (mkObjectMgrBase p used) ∧ ∀ x, x ∈ used ↔ x ∈ sp_handles s.
Lemma elem_of_remove_one x y l : y ∈ remove_one x l → y ∈ l.
Proof. induction l as [|z l IH]; cbn; [done|]. case_bool_decide; [by right|]. rewrite !elem_of_cons. naive_solver. Qed.
Lemma elem_of_remove_one_ne x y l : y ≠ x → y ∈ remove_one x l ↔ y ∈ l.
Proof.
  intros Hne. split; [apply elem_of_remove_one|]. induction l as [|z l IH]; cbn; [done|].
  case_bool_decide; rewrite !elem_of_cons; naive_solver.
Qed.
Lemma GetFreeObject_manager p used x p' : GetFreeObjectPtr p = Ok (x, p') →
  ObjectMgrBase_GetFreeObject (mkObjectMgrBase p used) = Ok (x, mkObjectMgrBase p' (used ++ [x])).
Proof. intros E. unfold ObjectMgrBase_GetFreeObject. cbn [om_pool om_usedList]. by rewrite E. Qed.
Lemma GetFreeObject_ok s x s' : shared_inv s → GetFreeObject s = Ok (x, s') → x ∉ sp_handles s ∧ shared_inv s'.
Proof.
  intros (p & used & Hp & Hinv & Hu) E. unfold GetFreeObject in E. rewrite Hp in E.
  destruct (GetFreeObjectPtr p) as [[y p']|] eqn:Eg; [|done]. cbn in E. injection E as -> <-.
  destruct (om_acquire _ _ _ Hinv (GetFreeObject_manager p used x p' Eg)) as (Hx & _ & Hinv'). cbn in Hx.
  split; [by rewrite <-Hu|]. exists p', (used ++ [x]). split_and!; [done|done|]. cbn. intros y. by rewrite !elem_of_app, Hu.
Qed.
Lemma drop_ok s x : shared_inv s → x ∈ sp_handles s → ∃ s', drop_shared x s = Ok s' ∧ shared_inv s'.
Proof.
  intros (p & used & Hp & Hinv & Hu) Hx. unfold drop_shared, deleter. rewrite Hp. cbn [sp_handles sp_pool]. case_bool_decide as Hin.
  - eexists. split; [done|]. exists p, used. split_and!; [done|done|]. cbn. intros y. rewrite Hu. split; [|apply elem_of_remove_one].
    intros Hy. destruct (decide (y = x)) as [->|]; [done|]. by apply elem_of_remove_one_ne.
  - eexists. split; [done|]. assert (x ∈ used) as Hxu by by apply Hu.
    destruct (om_release _ _ Hinv Hxu) as [Er Hinv']. exists (SetFreeObjectPtr p x), (list_remove_all x used).
    split_and!; [done| |].
    + unfold ObjectMgrBase_SetFreeObject in Hinv'. cbn [om_usedList om_pool] in Hinv'. by rewrite bool_decide_true in Hinv'.
    + cbn. intros y. rewrite elem_of_remove_all, Hu. destruct (decide (y = x)) as [->|Hne]; [naive_solver|].
      rewrite elem_of_remove_one_ne by done. naive_solver.
Qed.
Lemma GetFreeObject_faults s f : shared_inv s → GetFreeObject s = Fault f → f = EmptyContainer.
Proof.
  intros (p & used & Hp & _) E. unfold GetFreeObject in E. rewrite Hp in E. destruct (GetFreeObjectPtr p) as [[]|g] eqn:Eg; [done|].
  injection E as <-. unfold GetFreeObjectPtr in Eg. by destruct (last _); [|injection Eg as <-].
Qed.
Lemma shared_run_ok ops : ∀ s r, shared_inv s → shared_run s ops = Some r →
  match r with Ok s' => shared_inv s' | Fault f => f = EmptyContainer end.
Proof.
  induction ops as [|o ops IH]; intros s r Hs E; [by injection E as <-|]. cbn [shared_run] in E.
  destruct o as [|x|x]; cbn [shared_exec] in E.
  - destruct (GetFreeObject s) as [[x s1]|f] eqn:Eg; cbn in E.
    + apply (IH s1); [|done]. by eapply GetFreeObject_ok.
    + injection E as <-. by eapply GetFreeObject_faults.
  - case_bool_decide as Hx; [|done]. apply (IH (share x s)); [|done]. destruct Hs as (p & used & Hp & Hinv & Hu).
    exists p, used. split_and!; [done|done|]. cbn. intros y. rewrite elem_of_app, list_elem_of_singleton, Hu. naive_solver.
  - case_bool_decide as Hx; [|done]. destruct (drop_ok s x Hs Hx) as (s1 & Ed & H1). rewrite Ed in E. by apply (IH s1).
Qed.

(** While the pool lives, shared objects never alias: after any copies and ends
    of [shared_ptr]s the next object handed out has none.  An end behind the
    pool's own is a use of the destroyed pool, if it is the last of its object. *)
Theorem shared_pool_no_alias n ops s x s' :
  shared_run (SharedPool_init (mkStore n [])) ops = Some (Ok s) → GetFreeObject s = Ok (x, s') →
  x ∉ sp_handles s ∧ drop_shared x (SharedPool_destroy s') = Fault UseAfterFree.
Proof.
  intros Hr Hg.
  assert (shared_inv (SharedPool_init (mkStore n []))) as H0.
  { exists (ObjectPool_init (mkStore n [])), []. split_and!; [done|apply om_inv_init|done]. }
  pose proof (shared_run_ok ops _ _ H0 Hr) as Hs. cbn in Hs. destruct (GetFreeObject_ok s x s' Hs Hg) as [Hx _]. split; [done|].
  assert (sp_handles s' = sp_handles s ++ [x]) as Eh.
  { unfold GetFreeObject in Hg. destruct (sp_pool s); [|done]. destruct (GetFreeObjectPtr _) as [[]|]; [|done]. by injection Hg as -> <-. }
  unfold drop_shared, deleter, SharedPool_destroy. cbn [sp_handles sp_pool]. rewrite Eh.
  rewrite bool_decide_false; [done|]. clear -Hx. induction (sp_handles s) as [|y l IH]; cbn.
  - rewrite bool_decide_true by done. by apply not_elem_of_nil.
  - apply not_elem_of_cons in Hx as [Hy Hx]. rewrite bool_decide_false by congruence. apply not_elem_of_cons. auto.
Qed.
(** [~ObjectPoolMgrBase] deletes every object once, in use or not. *)
Theorem ObjectPoolMgrBase_destroy_once m : pm_inv m →
  NoDup (ObjectPoolMgrBase_destroy m) ∧ ObjectPoolMgrBase_destroy m ≡ₚ pm_freeList m ++ pm_usedList m.
Proof. intros [Hp Hn _]. done. Qed.
