(* ===== verification/CommandQueue.v ===== *)
(** * The command queue: _lib/command_unit_base.h, command_unit_base.cpp
    Commands are heap objects created by the caller of [Add] and deleted by the
    queue after they ran.  [Tick] swaps the list out under the lock and runs
    it without the lock, so a command added while others run waits for the
    next [Tick].  The pointer-level queue is proved to implement a plain list
    of commands and to delete each of them, sequentially and under every interleaving of the producers
    with the thread that ticks. *)
From S2P Require Import Prelude.

Inductive eCommandUnitPriority : Set := Low | Normal | Highest | MAX.
#[global] Instance eCommandUnitPriority_eq_dec : EqDecision eCommandUnitPriority.
Proof. solve_decision. Defined.

(** [CommandUnitBase]: the priority of a command and the code behind its
    virtual [Operator].  [W] is everything a command can touch; the second
    component of the result lists the commands it passed to [Add]. *)
#[warnings="-register-all"]
Inductive CommandUnitBase (W : Type) : Type :=
| mkCommandUnitBase (priority : eCommandUnitPriority)
    (operator : W → outcome (W * list (CommandUnitBase W))).
Arguments mkCommandUnitBase {W} _ _.
Definition _priority {W} (c : CommandUnitBase W) : eCommandUnitPriority :=
  let 'mkCommandUnitBase p _ := c in p.
Definition run_Operator {W} (c : CommandUnitBase W) : W → outcome (W * list (CommandUnitBase W)) :=
  let 'mkCommandUnitBase _ op := c in op.

(** [DynamicCommandUnit]: the empty [std::function] is [None]. *)
Definition DynamicCommandUnit {W} (operation : option (W → outcome (W * list (CommandUnitBase W)))) :
    CommandUnitBase W :=
  mkCommandUnitBase Normal (λ w,
    match operation with
    | Some op => op w
    | None => Ok (w, [])
    end).

(** ** The queue *)

(** The commands that are alive, by address, and the next fresh address. *)
Record CmdHeap (Cmd : Type) := mkCmdHeap { ch_cells : gmap Z Cmd; ch_next : Z }.
Arguments mkCmdHeap {Cmd} _ _.
Arguments ch_cells {Cmd} _.
Arguments ch_next {Cmd} _.

Record CommandUnitQueue (Cmd : Type) := mkCommandUnitQueue {
  _cmds : list Z;
  q_heap : CmdHeap Cmd }.
Arguments mkCommandUnitQueue {Cmd} _ _.
Arguments _cmds {Cmd} _.
Arguments q_heap {Cmd} _.

Definition CommandUnitQueue_init {Cmd} (h : CmdHeap Cmd) : CommandUnitQueue Cmd :=
  mkCommandUnitQueue [] h.

(** [new Command(...)], as every caller of [Add] writes it. *)
Definition new_command {Cmd} (c : Cmd) (h : CmdHeap Cmd) : Z * CmdHeap Cmd :=
  (ch_next h, mkCmdHeap (<[ch_next h := c]> (ch_cells h)) (ch_next h + 1)).

(** [delete cmd]. *)
Definition delete_command {Cmd} (p : Z) (h : CmdHeap Cmd) : outcome (CmdHeap Cmd) :=
  match ch_cells h !! p with
  | Some _ => Ok (mkCmdHeap (delete p (ch_cells h)) (ch_next h))
  | None => Fault UseAfterFree
  end.

Definition load_command {Cmd} (p : Z) (h : CmdHeap Cmd) : outcome Cmd :=
  match ch_cells h !! p with
  | Some c => Ok c
  | None => Fault UseAfterFree
  end.

Definition Add {Cmd} (q : CommandUnitQueue Cmd) (op : Z) : CommandUnitQueue Cmd :=
  mkCommandUnitQueue (_cmds q ++ [op]) (q_heap q).

(** [Add(new Command(...))]. *)
Definition Add_new {Cmd} (q : CommandUnitQueue Cmd) (c : Cmd) : CommandUnitQueue Cmd :=
  let '(p, h) := new_command c (q_heap q) in Add (mkCommandUnitQueue (_cmds q) h) p.

Definition SwapOpList {Cmd} (q : CommandUnitQueue Cmd) (firingCmds : list Z) :
    CommandUnitQueue Cmd * list Z :=
  (mkCommandUnitQueue firingCmds (q_heap q), _cmds q).

Definition CommandUnitQueue_destroy {Cmd} (q : CommandUnitQueue Cmd) : outcome (CmdHeap Cmd) :=
  fold_outcome (λ h p, delete_command p h) (q_heap q) (_cmds q).

Section Firing.
Context {Cmd W : Type} (Operator : Cmd → W → outcome (W * list Cmd)).

Definition ProcessAndDelete (s : W * CommandUnitQueue Cmd) (cmd : Z) :
    outcome (W * CommandUnitQueue Cmd) :=
  let '(w, q) := s in
  c ← load_command cmd (q_heap q);
  '(w', added) ← Operator c w;
  let q' := foldl Add_new q added in
  h ← delete_command cmd (q_heap q');
  Ok (w', mkCommandUnitQueue (_cmds q') h).

Definition FireOps (s : W * CommandUnitQueue Cmd) : outcome (W * CommandUnitQueue Cmd) :=
  let '(w, q) := s in
  let '(q', firingCmds) := SwapOpList q [] in
  fold_outcome ProcessAndDelete (w, q') firingCmds.

Definition Tick (s : W * CommandUnitQueue Cmd) : outcome (W * CommandUnitQueue Cmd) := FireOps s.

(** *** What a queue holds

    The specification: run the commands in order, collect what they add. *)
Fixpoint fire_list (w : W) (l : list Cmd) : outcome (W * list Cmd) :=
  match l with
  | [] => Ok (w, [])
  | c :: l' =>
      '(w1, new1) ← Operator c w;
      '(w2, new2) ← fire_list w1 l';
      Ok (w2, new1 ++ new2)
  end.
Lemma fire_list_app w l l' :
  fire_list w (l ++ l') = '(w1, new1) ← fire_list w l; '(w2, new2) ← fire_list w1 l'; Ok (w2, new1 ++ new2).
Proof.
  revert w. induction l as [|c l IH]; intros w; cbn [fire_list app].
  { cbn. by destruct (fire_list w l') as [[]|]. }
  destruct (Operator c w) as [[w1 n1]|]; [|done]. cbn [mbind outcome_bind]. rewrite IH.
  destruct (fire_list w1 l) as [[w2 n2]|]; [|done]. cbn [mbind outcome_bind].
  destruct (fire_list w2 l') as [[w3 n3]|]; [|done]. cbn [mbind outcome_bind]. by rewrite app_assoc.
Qed.
End Firing.

(** The commands behind a list of pointers. *)
Definition cells {Cmd} (h : CmdHeap Cmd) (ps : list Z) : list Cmd := omap (ch_cells h !!.) ps.
Definition queued {Cmd} (q : CommandUnitQueue Cmd) : list Cmd := cells (q_heap q) (_cmds q).

(** A command that has not been deleted; one that nobody in [ps] points to. *)
Definition alive {Cmd} (h : CmdHeap Cmd) (p : Z) : Prop := is_Some (ch_cells h !! p).
Definition stray {Cmd} (h : CmdHeap Cmd) (ps : list Z) (p : Z) : Prop := alive h p ∧ p ∉ ps.
Definition dead {Cmd} (h : CmdHeap Cmd) (p : Z) : Prop := p < ch_next h ∧ ¬ alive h p.
(** From holding [ps] to holding [ps']: the others live on, the dead stay dead. *)
Record strays_kept {Cmd} (h : CmdHeap Cmd) (ps : list Z) (h' : CmdHeap Cmd) (ps' : list Z) : Prop := {
  sk_stray p : stray h ps p ↔ stray h' ps' p;
  sk_dead p : dead h p → dead h' p }.
(** All pointers in [ps] are distinct, alive, and older than the next one. *)
Record ptrs_ok {Cmd} (h : CmdHeap Cmd) (ps : list Z) : Prop := {
  ptrs_nodup : NoDup ps;
  ptrs_live p : p ∈ ps → is_Some (ch_cells h !! p);
  ptrs_next p : is_Some (ch_cells h !! p) → p < ch_next h }.
Definition queue_inv {Cmd} (q : CommandUnitQueue Cmd) : Prop := ptrs_ok (q_heap q) (_cmds q).

Section QueueLaws.
Context {Cmd : Type}.
Implicit Types (h : CmdHeap Cmd) (q : CommandUnitQueue Cmd) (ps : list Z).

Lemma cells_app h ps ps' : cells h (ps ++ ps') = cells h ps ++ cells h ps'.
Proof. apply omap_app. Qed.

Lemma cells_cons h p ps :
  cells h (p :: ps) = match ch_cells h !! p with Some c => c :: cells h ps | None => cells h ps end.
Proof. reflexivity. Qed.

Lemma cells_ext h h' ps :
  (∀ p, p ∈ ps → ch_cells h' !! p = ch_cells h !! p) → cells h' ps = cells h ps.
Proof.
  induction ps as [|p ps IH]; intros E; [done|]. rewrite !cells_cons, (E p) by set_solver.
  rewrite IH; [done|]. intros; apply E; set_solver.
Qed.

Lemma strays_kept_refl h ps : strays_kept h ps h ps.
Proof. done. Qed.
Lemma strays_kept_trans h1 ps1 h2 ps2 h3 ps3 :
  strays_kept h1 ps1 h2 ps2 → strays_kept h2 ps2 h3 ps3 → strays_kept h1 ps1 h3 ps3.
Proof. intros [H1 D1] [H2 D2]. split; intros p; [by rewrite H1|auto]. Qed.
Lemma ptrs_ok_fresh h ps : ptrs_ok h ps → (ch_next h ∉ ps) ∧ ch_cells h !! ch_next h = None.
Proof.
  intros [_ Hl Hn].
  assert (¬ is_Some (ch_cells h !! ch_next h)) as Hf by (intros ?%Hn; lia).
  split; [intros ?%Hl; done|by apply eq_None_not_Some].
Qed.

(** Cells of live pointers never change while the pointer is alive. *)
Definition same_cells h h' ps : Prop := ∀ p, p ∈ ps → ch_cells h' !! p = ch_cells h !! p.

(** Pointers held elsewhere ([ps]) and the queue's own are tracked together:
    a firing list is [ps]. *)
Lemma Add_new_ok q ps c :
  ptrs_ok (q_heap q) (ps ++ _cmds q) →
  let q' := Add_new q c in
  ptrs_ok (q_heap q') (ps ++ _cmds q') ∧
  same_cells (q_heap q) (q_heap q') (ps ++ _cmds q) ∧ queued q' = queued q ++ [c] ∧
  strays_kept (q_heap q) (ps ++ _cmds q) (q_heap q') (ps ++ _cmds q').
Proof.
  intros Hok. destruct (ptrs_ok_fresh _ _ Hok) as [Hfr Hno]. destruct Hok as [Hnd Hl Hn].
  assert (same_cells (q_heap q) (q_heap (Add_new q c)) (ps ++ _cmds q)) as Hsame.
  { intros p Hp. simpl. rewrite lookup_insert_ne; [done|]. set_solver. }
  split_and!; [|done| |].
  - split; simpl.
    + rewrite app_assoc. apply NoDup_app. split_and!; [done|set_solver|apply NoDup_singleton].
    + intros p Hp. destruct (decide (p = ch_next (q_heap q))) as [->|Hne].
      * rewrite lookup_insert_eq. eauto.
      * rewrite lookup_insert_ne by done. apply Hl. set_solver.
    + intros p. destruct (decide (p = ch_next (q_heap q))) as [->|Hne]; [lia|].
      rewrite lookup_insert_ne by done. intros ?%Hn. lia.
  - unfold queued at 1. simpl. rewrite cells_app. f_equal.
    + apply cells_ext. intros p Hp. apply Hsame. set_solver.
    + rewrite cells_cons. simpl. by rewrite lookup_insert_eq.
  - split; intros p; unfold dead, stray, alive; cbn; rewrite lookup_insert_is_Some'; [|naive_solver lia].
    rewrite !not_elem_of_app, list_elem_of_singleton. split; [|naive_solver].
    intros ([c' Hc'] & ? & ?). split_and!; try done; [by right; exists c'|]. intros ->. congruence.
Qed.

Lemma Add_all_ok (new : list Cmd) : ∀ q ps,
  ptrs_ok (q_heap q) (ps ++ _cmds q) →
  let q' := foldl Add_new q new in
  ptrs_ok (q_heap q') (ps ++ _cmds q') ∧
  same_cells (q_heap q) (q_heap q') ps ∧ queued q' = queued q ++ new ∧
  strays_kept (q_heap q) (ps ++ _cmds q) (q_heap q') (ps ++ _cmds q').
Proof.
  induction new as [|c new IH]; intros q ps Hok; cbn [foldl].
  { rewrite app_nil_r. split_and!; [done|by intros ?|done|apply strays_kept_refl]. }
  destruct (Add_new_ok q ps c Hok) as (Hok1 & Hc1 & Hq1 & Hs1).
  destruct (IH _ _ Hok1) as (Hok2 & Hc2 & Hq2 & Hs2). cbn zeta. split_and!; [done| | |].
  - intros p Hp. rewrite Hc2 by done. apply Hc1. set_solver.
  - by rewrite Hq2, Hq1, <-app_assoc.
  - by eapply strays_kept_trans.
Qed.

Lemma delete_command_ok h p ps :
  ptrs_ok h (p :: ps) →
  ∃ h', delete_command p h = Ok h' ∧ ptrs_ok h' ps ∧ same_cells h h' ps ∧ strays_kept h (p :: ps) h' ps ∧ dead h' p.
Proof.
  intros [[Hni Hnd]%NoDup_cons Hl Hn].
  destruct (Hl p) as [c Hc]; [set_solver|].
  assert (same_cells h (mkCmdHeap (delete p (ch_cells h)) (ch_next h)) ps) as Hsame.
  { intros p' Hp'. simpl. by rewrite lookup_delete_ne by set_solver. }
  unfold delete_command. rewrite Hc. eexists; split_and!; [done| |done| |].
  - split; [done| |].
    + intros p' Hp'. rewrite Hsame by done. apply Hl. set_solver.
    + intros p'. simpl. intros [_ Hp']%lookup_delete_is_Some. by apply Hn.
  - split; intros p'; unfold dead, stray, alive; cbn; rewrite lookup_delete_is_Some, ?not_elem_of_cons; naive_solver.
  - split; cbn; [by apply Hn|]. unfold alive. cbn. rewrite lookup_delete_is_Some. naive_solver.
Qed.

Lemma cells_live h ps p c : ch_cells h !! p = Some c → cells h (p :: ps) = c :: cells h ps.
Proof. intros E. by rewrite cells_cons, E. Qed.
End QueueLaws.

(** ** Sequential correctness *)
Section TickLaws.
Context {Cmd W : Type} (Operator : Cmd → W → outcome (W * list Cmd)).
Implicit Types (q : CommandUnitQueue Cmd).

Lemma ProcessAndDelete_ok w q p c ps :
  ptrs_ok (q_heap q) (p :: ps ++ _cmds q) → ch_cells (q_heap q) !! p = Some c →
  match Operator c w with
  | Fault f => ProcessAndDelete Operator (w, q) p = Fault f
  | Ok (w', new) => ∃ q', ProcessAndDelete Operator (w, q) p = Ok (w', q') ∧
      ptrs_ok (q_heap q') (ps ++ _cmds q') ∧
      same_cells (q_heap q) (q_heap q') ps ∧ queued q' = queued q ++ new ∧
      strays_kept (q_heap q) (p :: ps ++ _cmds q) (q_heap q') (ps ++ _cmds q') ∧ dead (q_heap q') p
  end.
Proof.
  intros Hok Hc. unfold ProcessAndDelete, load_command. rewrite Hc. cbn [mbind outcome_bind].
  destruct (Operator c w) as [[w' new]|f]; cbn [mbind outcome_bind]; [|done].
  destruct (Add_all_ok new q (p :: ps) Hok) as (Hok1 & Hc1 & Hq1 & Hs1).
  destruct (delete_command_ok _ _ _ Hok1) as (h' & -> & Hok2 & Hc2 & Hs2 & Hd2).
  cbn [mbind outcome_bind]. eexists; split_and!; [done|done| | | |done].
  - intros p' Hp'. simpl. rewrite Hc2 by set_solver. apply Hc1. set_solver.
  - rewrite <-Hq1. apply cells_ext. intros p' Hp'. simpl. apply Hc2. set_solver.
  - by eapply strays_kept_trans.
Qed.

Lemma fire_all_ok ps : ∀ w q,
  ptrs_ok (q_heap q) (ps ++ _cmds q) →
  match fire_list Operator w (cells (q_heap q) ps) with
  | Fault f => fold_outcome (ProcessAndDelete Operator) (w, q) ps = Fault f
  | Ok (w', new) => ∃ q', fold_outcome (ProcessAndDelete Operator) (w, q) ps = Ok (w', q') ∧
      queue_inv q' ∧ queued q' = queued q ++ new ∧
      strays_kept (q_heap q) (ps ++ _cmds q) (q_heap q') (_cmds q') ∧ Forall (dead (q_heap q')) ps
  end.
Proof.
  induction ps as [|p ps IH]; intros w q Hok.
  { exists q. rewrite app_nil_r. split_and!; [done..|apply strays_kept_refl|done]. }
  destruct (ptrs_live _ _ Hok p) as [c Hc]; [set_solver|].
  rewrite (cells_live _ _ _ _ Hc). cbn [fire_list fold_outcome].
  pose proof (ProcessAndDelete_ok w q p c ps Hok Hc) as HP.
  destruct (Operator c w) as [[w1 new1]|f]; cbn [mbind outcome_bind]; [|by rewrite HP].
  destruct HP as (q1 & -> & Hok1 & Hc1 & Hq1 & Hs1 & Hd1). cbn [mbind outcome_bind].
  specialize (IH w1 q1 Hok1). rewrite (cells_ext _ _ _ Hc1) in IH.
  destruct (fire_list Operator w1 _) as [[w2 new2]|f]; cbn [mbind outcome_bind]; [|done].
  destruct IH as (q2 & -> & Hinv & Hq2 & Hs2 & Hd2). exists q2. rewrite Hq2, Hq1, app_assoc. split_and!; [done..| |].
  - by eapply strays_kept_trans.
  - constructor; [by apply (sk_dead _ _ _ _ Hs2)|done].
Qed.

(** C15: one [Tick] runs exactly the commands that were queued when it began,
    in the order they were added, and deletes each of them once and nothing
    else: what is alive afterwards is what was alive and not queued, and the
    commands that were added meanwhile.  Those wait for the next [Tick], in the
    order they were added.  The queue itself never faults. *)
Theorem Tick_refines w q :
  queue_inv q →
  match fire_list Operator w (queued q) with
  | Fault f => Tick Operator (w, q) = Fault f
  | Ok (w', new) => ∃ q', Tick Operator (w, q) = Ok (w', q') ∧ queue_inv q' ∧ queued q' = new ∧
      (∀ p, p ∈ _cmds q → ¬ alive (q_heap q') p) ∧
      (∀ p, alive (q_heap q') p ↔ p ∈ _cmds q' ∨ alive (q_heap q) p ∧ p ∉ _cmds q)
  end.
Proof.
  intros Hinv. pose proof (fire_all_ok (_cmds q) w (mkCommandUnitQueue [] (q_heap q))) as H.
  simpl in H. rewrite app_nil_r in H. specialize (H Hinv).
  change (cells (q_heap q) (_cmds q)) with (queued q) in H.
  destruct (fire_list Operator w (queued q)) as [[w' new]|f]; [|done].
  destruct H as (q' & E & Hinv' & Hq & Hs & Hd). rewrite Forall_forall in Hd. exists q'. split_and!; [done..| |].
  - intros p Hp. by apply Hd.
  - intros p. pose proof (sk_stray _ _ _ _ Hs p) as Hp. unfold stray in Hp. cbn in Hp.
    pose proof (ptrs_live _ _ Hinv' p). destruct (decide (p ∈ _cmds q')); naive_solver.
Qed.
End TickLaws.

Lemma queue_inv_init {Cmd} : queue_inv (@CommandUnitQueue_init Cmd (mkCmdHeap ∅ 0)).
Proof.
  split; simpl; [constructor|set_solver|]. intros p. rewrite lookup_empty. by intros [].
Qed.
Lemma queue_inv_Add {Cmd} (q : CommandUnitQueue Cmd) c : queue_inv q → queue_inv (Add_new q c).
Proof. intros Hinv. by apply (Add_new_ok q [] c). Qed.

(** A command that runs once more in the next tick, and one that faults. *)
Definition demo_cmd (n : Z) (w : list Z) : outcome (list Z * list Z) :=
  if n =? 0 then Fault NullDeref else Ok (w ++ [n], if 10 <? n then [n - 10] else []).
Definition demo_queue (l : list Z) : CommandUnitQueue Z :=
  foldl Add_new (CommandUnitQueue_init (mkCmdHeap ∅ 0)) l.

Lemma Tick_refines_witness :
  queue_inv (demo_queue [12; 3; 15]) ∧
  ∃ q', Tick demo_cmd ([], demo_queue [12; 3; 15]) = Ok ([12; 3; 15], q') ∧
    queue_inv q' ∧ queued q' = [2; 5] ∧
    (∀ p, p ∈ _cmds (demo_queue [12; 3; 15]) → ¬ alive (q_heap q') p) ∧
    (∀ p, alive (q_heap q') p ↔
      p ∈ _cmds q' ∨ alive (q_heap (demo_queue [12; 3; 15])) p ∧ p ∉ _cmds (demo_queue [12; 3; 15])).
Proof.
  assert (queue_inv (demo_queue [12; 3; 15])) as Hinv
    by (do 3 apply queue_inv_Add; apply queue_inv_init).
  split; [done|]. exact (Tick_refines demo_cmd [] _ Hinv).
Defined.

(** The destructor deletes every waiting command exactly once. *)
Lemma CommandUnitQueue_destroy_ok {Cmd} (q : CommandUnitQueue Cmd) :
  queue_inv q → ∃ h, CommandUnitQueue_destroy q = Ok h ∧
    ∀ p, p ∈ _cmds q → ch_cells h !! p = None.
Proof.
  unfold queue_inv, CommandUnitQueue_destroy. destruct q as [ps h]. simpl.
  revert h. induction ps as [|p ps IH]; intros h Hok.
  { exists h. split; [done|]. set_solver. }
  cbn [fold_outcome]. destruct (delete_command_ok _ _ _ Hok) as (h1 & E1 & Hok1 & _).
  rewrite E1. cbn [mbind outcome_bind].
  destruct (IH h1 Hok1) as (h2 & E2 & H2). exists h2. split; [done|].
  intros p' [->|Hp']%elem_of_cons; [|by apply H2].
  assert (ch_cells h1 !! p = None) as H1.
  { unfold delete_command in E1. destruct (ch_cells h !! p); [|done].
    injection E1 as <-. apply lookup_delete_eq. }
  clear -E2 H1. revert h1 E2 H1. induction ps as [|x ps IH]; simpl; intros h1 E2 H1; [congruence|].
  apply bind_ok_inv in E2 as (h3 & E3 & E2). apply (IH h3); [done|].
  unfold delete_command in E3. destruct (ch_cells h1 !! x); [|done].
  injection E3 as <-. simpl. apply lookup_delete_None. auto.
Qed.

(** ** Interleavings

    [Add] is called by any thread, a running command included; one thread
    ticks.  Its position is [cs_firing] (what is left of [firingCmds]) and
    [cs_current] (the command whose [Operator] is running). *)
Section Interleaving.
Context {Cmd : Type}.

Inductive cq_event :=
| EvAdd (c : Cmd)   (** [Add(new ...)] under the lock, by any thread *)
| EvSwap            (** [FireOps]: the swap under the lock *)
| EvRun             (** [ProcessAndDelete]: the call of [Operator] begins *)
| EvDone.           (** it returned; [delete cmd] *)

Record cq_sys := mk_cq_sys {
  cs_queue : CommandUnitQueue Cmd;
  cs_firing : list Z;
  cs_current : option Z;
  cs_ran : list Cmd;      (** history: commands run so far, in order *)
  cs_added : list Cmd }.  (** history: commands added so far, in order *)

Definition cq_start : cq_sys :=
  mk_cq_sys (CommandUnitQueue_init (mkCmdHeap ∅ 0)) [] None [] [].

(** [None]: the event is not possible now. *)
Definition cq_exec (s : cq_sys) (e : cq_event) : option (outcome cq_sys) :=
  match e with
  | EvAdd c =>
      Some (Ok (mk_cq_sys (Add_new (cs_queue s) c) (cs_firing s) (cs_current s)
                  (cs_ran s) (cs_added s ++ [c])))
  | EvSwap =>
      match cs_current s, cs_firing s with
      | None, [] =>
          let '(q, firing) := SwapOpList (cs_queue s) [] in
          Some (Ok (mk_cq_sys q firing None (cs_ran s) (cs_added s)))
      | _, _ => None
      end
  | EvRun =>
      match cs_current s, cs_firing s with
      | None, p :: ps =>
          Some (c ← load_command p (q_heap (cs_queue s));
                Ok (mk_cq_sys (cs_queue s) ps (Some p) (cs_ran s ++ [c]) (cs_added s)))
      | _, _ => None
      end
  | EvDone =>
      match cs_current s with
      | Some p =>
          Some (h ← delete_command p (q_heap (cs_queue s));
                Ok (mk_cq_sys (mkCommandUnitQueue (_cmds (cs_queue s)) h) (cs_firing s) None
                      (cs_ran s) (cs_added s)))
      | None => None
      end
  end.

(** A schedule: events that are not possible are skipped. *)
Fixpoint cq_sched (s : cq_sys) (es : list cq_event) : outcome cq_sys :=
  match es with
  | [] => Ok s
  | e :: es' =>
      match cq_exec s e with
      | Some r => s' ← r; cq_sched s' es'
      | None => cq_sched s es'
      end
  end.

Definition held (s : cq_sys) : list Z := option_list (cs_current s) ++ cs_firing s.
Record cq_inv (s : cq_sys) : Prop := {
  cqi_ptrs : ptrs_ok (q_heap (cs_queue s)) (held s ++ _cmds (cs_queue s));
  cqi_fifo : cs_ran s ++ cells (q_heap (cs_queue s)) (cs_firing s) ++ queued (cs_queue s)
             = cs_added s }.

Lemma cq_exec_inv s e r :
  cq_inv s → cq_exec s e = Some r → ∃ s', r = Ok s' ∧ cq_inv s'.
Proof.
  destruct s as [q firing current ran added]. intros [Hp Hf].
  unfold held in Hp. destruct e as [c| | |]; simpl in *.
  - intros [= <-]. eexists; split; [done|].
    destruct (Add_new_ok q _ c Hp) as (Hok & Hsame & Hq & _).
    split; unfold held; cbn [cs_ran cs_queue cs_firing cs_added cs_current]; [done|].
    rewrite Hq, <-Hf.
    rewrite (cells_ext (q_heap q) (q_heap (Add_new q c)) firing); [by rewrite <-!app_assoc|].
    intros p Hin. apply Hsame. set_solver.
  - destruct current, firing; simpl in *; try done. intros [= <-]. eexists; split; [done|].
    split; unfold held; simpl; [by rewrite app_nil_r|]. unfold queued in *. simpl in *.
    by rewrite app_nil_r.
  - destruct current, firing as [|p ps]; simpl in *; try done. intros [= <-].
    destruct (ptrs_live _ _ Hp p) as [c Hc]; [set_solver|].
    change (ran ++ cells (q_heap q) (p :: ps) ++ queued q = added) in Hf.
    rewrite (cells_live _ _ _ _ Hc) in Hf.
    unfold load_command. rewrite Hc. simpl. eexists; split; [done|].
    split; unfold held; simpl; [done|]. by rewrite <-app_assoc.
  - destruct current as [p|]; simpl in *; try done. intros [= <-].
    destruct (delete_command_ok _ _ _ Hp) as (h & -> & Hok & Hsame & _).
    simpl. eexists; split; [done|]. split; unfold held, queued in *; simpl in *; [done|].
    rewrite <-Hf. f_equal. f_equal; apply cells_ext; intros; apply Hsame; set_solver.
Qed.

Lemma cq_sched_inv es : ∀ s, cq_inv s → ∃ s', cq_sched s es = Ok s' ∧ cq_inv s'.
Proof.
  induction es as [|e es IH]; intros s Hinv; simpl; [eauto|].
  destruct (cq_exec s e) as [r|] eqn:E; [|by apply IH].
  destruct (cq_exec_inv _ _ _ Hinv E) as (s1 & -> & H1). by apply IH.
Qed.

(** C16: whatever the interleaving of the threads, no command is used after its
    deletion or deleted twice, and the commands run so far, the rest of the
    batch being fired and the queue are together exactly the commands added,
    in the order of their [Add]: none is lost, repeated or overtaken. *)
Theorem CommandUnitQueue_interleaved es :
  ∃ s, cq_sched cq_start es = Ok s ∧
    cs_ran s ++ cells (q_heap (cs_queue s)) (cs_firing s) ++ queued (cs_queue s) = cs_added s.
Proof.
  destruct (cq_sched_inv es cq_start) as (s & Hs & [_ Hf]); [|eauto].
  split; simpl; [apply queue_inv_init|done].
Qed.
End Interleaving.
Arguments cq_event Cmd : clear implicits.
Arguments cq_sys Cmd : clear implicits.
