(* ===== verification/PacketQueue.v ===== *)
(** * The packet queues: _framework/packet_data_queue.h
    A queue has five phases, each a list under a lock and an auto-reset event.
    The framework pushes whole frames from the network threads and one thread
    of the program pops them.  [Pop] tests [empty()] before it takes the lock;
    with one consumer that is safe and no wake-up is lost, with two it is not. *)
From S2P Require Import Prelude Buffer.

Definition MAX_PACKET_QUEUE_PHASE : Z := 4.

(** [mem] is the uninitialised content of the buffer. *)
Record PacketStruct := mkPacketStruct { ps_base : BufferBase; _pConnector : option Z }.
Definition PacketStruct_new (mem : list Z) : PacketStruct :=
  mkPacketStruct (BufferBase_new mem MAX_PACKET_BUFFER_SIZE) None.

(** Packets are addresses here.  An event is its signalled flag. *)
Record PacketDataQueue := mkPacketDataQueue {
  _hQueueEvent : list bool;
  lstPacketQueue : list (list Z) }.

Definition PacketDataQueue_init : PacketDataQueue :=
  mkPacketDataQueue (replicate (Z.to_nat (MAX_PACKET_QUEUE_PHASE + 1)) false)
                    (replicate (Z.to_nat (MAX_PACKET_QUEUE_PHASE + 1)) []).

Definition ForceActivateQueueEvent (q : PacketDataQueue) : PacketDataQueue :=
  mkPacketDataQueue ((λ _, true) <$> _hQueueEvent q) (lstPacketQueue q).

Definition SetEvent (q : PacketDataQueue) (phase : Z) : outcome PacketDataQueue :=
  ev ← aset (_hQueueEvent q) phase true;
  Ok (mkPacketDataQueue ev (lstPacketQueue q)).

Definition size_t_fail : Z := u64 (-1).

Definition PacketDataQueue_Push (q : PacketDataQueue) (pPacketData : Z) (phase : Z) :
    outcome (PacketDataQueue * Z) :=
  if (0 >? phase) || (MAX_PACKET_QUEUE_PHASE <? phase) then Ok (q, size_t_fail)
  else
    l ← aget (lstPacketQueue q) phase;
    ls ← aset (lstPacketQueue q) phase (l ++ [pPacketData]);
    Ok (mkPacketDataQueue (_hQueueEvent q) ls, zlen (l ++ [pPacketData])).

(** The test of [Pop], made before the lock is taken. *)
Definition queue_empty (q : PacketDataQueue) (phase : Z) : outcome bool :=
  l ← aget (lstPacketQueue q) phase; Ok (match l with [] => true | _ => false end).

(** The rest of [Pop], under the lock: [begin], [*iter], [pop_front]. *)
Definition Pop_locked (q : PacketDataQueue) (phase : Z) : outcome (PacketDataQueue * Z) :=
  l ← aget (lstPacketQueue q) phase;
  match l with
  | [] => Fault EmptyContainer
  | pData :: l' =>
      ls ← aset (lstPacketQueue q) phase l';
      Ok (mkPacketDataQueue (_hQueueEvent q) ls, pData)
  end.

Definition PacketDataQueue_Pop (q : PacketDataQueue) (phase : Z) :
    outcome (PacketDataQueue * option Z) :=
  if (0 >? phase) || (MAX_PACKET_QUEUE_PHASE <? phase) then Ok (q, None)
  else
    e ← queue_empty q phase;
    if (e : bool) then Ok (q, None)
    else '(q', pData) ← Pop_locked q phase; Ok (q', Some pData).

Definition RecvPacketQueue_Push (q : PacketDataQueue) (pPacketData : option Z) (phase : Z) :
    outcome (PacketDataQueue * Z) :=
  match pPacketData with
  | None => Ok (q, size_t_fail)
  | Some p =>
      if (0 >? phase) || (MAX_PACKET_QUEUE_PHASE <=? phase) then Ok (q, size_t_fail)
      else
        '(q1, nDataSize) ← PacketDataQueue_Push q p phase;
        q2 ← SetEvent q1 phase;
        Ok (q2, nDataSize)
  end.

(** [WaitForSingleObject] on an auto-reset event: [None] when it would block. *)
Definition WaitEvent (q : PacketDataQueue) (phase : Z) : outcome (option PacketDataQueue) :=
  b ← aget (_hQueueEvent q) phase;
  if (b : bool) then
    ev ← aset (_hQueueEvent q) phase false;
    Ok (Some (mkPacketDataQueue ev (lstPacketQueue q)))
  else Ok None.

(** The body both classes share once the phase is known to be valid; the
    result is [None] when the caller blocks. *)
Definition Pop_or_wait (q : PacketDataQueue) (phase : Z) :
    outcome (option (PacketDataQueue * option Z)) :=
  '(q1, pPacket) ← PacketDataQueue_Pop q phase;
  match pPacket with
  | Some _ => Ok (Some (q1, pPacket))
  | None =>
      w ← WaitEvent q1 phase;
      match w with
      | None => Ok None
      | Some q2 => '(q3, p) ← PacketDataQueue_Pop q2 phase; Ok (Some (q3, p))
      end
  end.

Definition RecvPacketQueue_Pop (q : PacketDataQueue) (phase : Z) :
    outcome (option (PacketDataQueue * option Z)) :=
  if (0 >? phase) || (MAX_PACKET_QUEUE_PHASE <=? phase) then Ok (Some (q, None))
  else Pop_or_wait q phase.

Definition SendPacketQueue_Push (q : PacketDataQueue) (pPacketData : option Z) :
    outcome (PacketDataQueue * Z) :=
  match pPacketData with
  | None => Ok (q, size_t_fail)
  | Some p =>
      '(q1, nDataSize) ← PacketDataQueue_Push q p 0;
      q2 ← SetEvent q1 0;
      Ok (q2, nDataSize)
  end.
Definition SendPacketQueue_Pop (q : PacketDataQueue) : outcome (option (PacketDataQueue * option Z)) :=
  Pop_or_wait q 0.

(** Packets by address: [GetFreePacketStruct] and [ReleasePacketStruct]. *)
Record PacketHeap := mkPacketHeap { ph_cells : gmap Z PacketStruct; ph_next : Z }.
Definition GetFreePacketStruct (h : PacketHeap) (mem : list Z) : Z * PacketHeap :=
  (ph_next h, mkPacketHeap (<[ph_next h := PacketStruct_new mem]> (ph_cells h)) (ph_next h + 1)).
Definition ReleasePacketStruct (h : PacketHeap) (pPacket : option Z) : outcome PacketHeap :=
  match pPacket with
  | None => Ok h
  | Some p =>
      match ph_cells h !! p with
      | None => Fault UseAfterFree
      | Some _ => Ok (mkPacketHeap (delete p (ph_cells h)) (ph_next h))
      end
  end.

(** ** One phase at a time *)
Definition five_phases (q : PacketDataQueue) : Prop :=
  zlen (_hQueueEvent q) = 5 ∧ zlen (lstPacketQueue q) = 5.
(** What is queued in a phase, and whether its event is signalled. *)
Definition items (q : PacketDataQueue) (phase : Z) : list Z :=
  default [] (get (lstPacketQueue q) phase).
Definition signalled (q : PacketDataQueue) (phase : Z) : bool :=
  default false (get (_hQueueEvent q) phase).

Section Phases.
Implicit Types (q : PacketDataQueue).

Lemma five_init : five_phases PacketDataQueue_init.
Proof. split; reflexivity. Qed.

(** Each operation changes the one phase it is about. *)
Definition with_items q phase l : PacketDataQueue :=
  mkPacketDataQueue (_hQueueEvent q) (splice (lstPacketQueue q) phase [l]).
Definition with_event q phase b : PacketDataQueue :=
  mkPacketDataQueue (splice (_hQueueEvent q) phase [b]) (lstPacketQueue q).

Lemma with_items_spec q ph l : five_phases q → 0 ≤ ph ≤ 4 →
  five_phases (with_items q ph l) ∧ items (with_items q ph l) ph = l ∧
  (∀ ph', 0 ≤ ph' → ph' ≠ ph → items (with_items q ph l) ph' = items q ph') ∧
  (∀ ph', signalled (with_items q ph l) ph' = signalled q ph').
Proof.
  intros [He Hl] Hph. unfold with_items, five_phases, items, signalled. simpl.
  rewrite zlen_splice by blia. split_and!; [done|done| | |done].
  - by rewrite get_splice1, decide_True by lia.
  - intros ph' H0 Hne. by rewrite get_splice1, decide_False by lia.
Qed.

Lemma with_event_spec q ph b : five_phases q → 0 ≤ ph ≤ 4 →
  five_phases (with_event q ph b) ∧ signalled (with_event q ph b) ph = b ∧
  (∀ ph', items (with_event q ph b) ph' = items q ph').
Proof.
  intros [He Hl] Hph. unfold with_event, five_phases, items, signalled. simpl.
  rewrite zlen_splice by blia. split_and!; [done|done| |done].
  by rewrite get_splice1, decide_True by lia.
Qed.

Lemma SetEvent_eq q ph : five_phases q → 0 ≤ ph ≤ 4 → SetEvent q ph = Ok (with_event q ph true).
Proof. intros [He Hl] Hph. unfold SetEvent. by rewrite aset_ok by lia. Qed.

Lemma Push_eq q p ph : five_phases q → 0 ≤ ph ≤ 4 →
  PacketDataQueue_Push q p ph =
    Ok (with_items q ph (items q ph ++ [p]), zlen (items q ph ++ [p])).
Proof.
  intros [He Hl] Hph. unfold PacketDataQueue_Push, MAX_PACKET_QUEUE_PHASE.
  zcases. simpl. rewrite (aget_default []) by lia. cbn [mbind outcome_bind].
  by rewrite aset_ok by lia.
Qed.

Lemma queue_empty_eq q ph : five_phases q → 0 ≤ ph ≤ 4 →
  queue_empty q ph = Ok (bool_decide (items q ph = [])).
Proof.
  intros [He Hl] Hph. unfold queue_empty. rewrite (aget_default []) by lia.
  cbn [mbind outcome_bind]. unfold items. by destruct (default [] _).
Qed.

Lemma Pop_locked_eq q ph : five_phases q → 0 ≤ ph ≤ 4 →
  Pop_locked q ph = match items q ph with
                    | [] => Fault EmptyContainer
                    | p :: l => Ok (with_items q ph l, p)
                    end.
Proof.
  intros [He Hl] Hph. unfold Pop_locked. rewrite (aget_default []) by lia.
  cbn [mbind outcome_bind]. fold (items q ph). destruct (items q ph); [done|].
  by rewrite aset_ok by lia.
Qed.

Lemma Pop_eq q ph : five_phases q → 0 ≤ ph ≤ 4 →
  PacketDataQueue_Pop q ph = match items q ph with
                             | [] => Ok (q, None)
                             | p :: l => Ok (with_items q ph l, Some p)
                             end.
Proof.
  intros Hq Hph. unfold PacketDataQueue_Pop, MAX_PACKET_QUEUE_PHASE. zcases. simpl.
  rewrite queue_empty_eq, Pop_locked_eq by done. by destruct (items q ph).
Qed.

Lemma WaitEvent_eq q ph : five_phases q → 0 ≤ ph ≤ 4 →
  WaitEvent q ph = Ok (if signalled q ph then Some (with_event q ph false) else None).
Proof.
  intros [He Hl] Hph. unfold WaitEvent. rewrite (aget_default false) by lia.
  cbn [mbind outcome_bind]. fold (signalled q ph). destruct (signalled q ph); [|done].
  by rewrite aset_ok by lia.
Qed.
End Phases.

(** ** Interleavings

    Threads of one phase.  A consumer is in [RecvPacketQueue::Pop] between
    two calls' worth of atomic actions; a producer is in
    [RecvPacketQueue::Push].  [None] results are the nullptr [Pop] may return
    when the event was left over from an earlier packet. *)
Inductive consumer_pc : Set :=
| C_idle                  (** about to call [Pop] *)
| C_lock (second : bool)  (** [empty()] was false; the lock is not yet taken *)
| C_wait                  (** in [WaitForSingleObject] *)
| C_retry.                (** woken; second call of the base [Pop] *)
Inductive producer_pc : Set :=
| P_idle
| P_signal.               (** pushed; [SetEvent] not yet called *)
#[global] Instance producer_pc_eq_dec : EqDecision producer_pc.
Proof. solve_decision. Defined.
#[global] Instance consumer_pc_eq_dec : EqDecision consumer_pc.
Proof. solve_decision. Defined.

Inductive pq_event :=
| EvPush (i : nat) (p : Z)  (** producer i: the locked [push_back] *)
| EvSignal (i : nat)        (** producer i: [SetEvent] *)
| EvForce                   (** [ForceActivateQueueEvent], by the stopping thread *)
| EvTest (c : nat)          (** consumer c: [empty()] *)
| EvTake (c : nat)          (** consumer c: the locked part of [Pop] *)
| EvWake (c : nat).         (** consumer c: [WaitForSingleObject] returns *)

Record pq_sys := mk_pq_sys {
  pq_queue : PacketDataQueue;
  pq_producers : list producer_pc;
  pq_consumers : list consumer_pc;
  pq_pushed : list Z;     (** history of [push_back] *)
  pq_popped : list Z }.   (** history of packets returned by [Pop] *)

Section Interleaving.
Context (ph : Z).

Definition pq_start (producers consumers : nat) : pq_sys :=
  mk_pq_sys PacketDataQueue_init (replicate producers P_idle) (replicate consumers C_idle) [] [].

(** [None]: the event is not possible now. *)
Definition pq_exec (s : pq_sys) (e : pq_event) : option (outcome pq_sys) :=
  let '(mk_pq_sys q prods cns pushed popped) := s in
  match e with
  | EvPush i p =>
      match prods !! i with
      | Some P_idle => Some ('(q', _) ← PacketDataQueue_Push q p ph;
                             Ok (mk_pq_sys q' (<[i := P_signal]> prods) cns (pushed ++ [p]) popped))
      | _ => None
      end
  | EvSignal i =>
      match prods !! i with
      | Some P_signal => Some (q' ← SetEvent q ph;
                               Ok (mk_pq_sys q' (<[i := P_idle]> prods) cns pushed popped))
      | _ => None
      end
  | EvForce => Some (Ok (mk_pq_sys (ForceActivateQueueEvent q) prods cns pushed popped))
  | EvTest c =>
      match cns !! c with
      | Some C_idle => Some (e ← queue_empty q ph;
          Ok (mk_pq_sys q prods (<[c := if (e : bool) then C_wait else C_lock false]> cns) pushed popped))
      | Some C_retry => Some (e ← queue_empty q ph;
          Ok (mk_pq_sys q prods (<[c := if (e : bool) then C_idle else C_lock true]> cns) pushed popped))
      | _ => None
      end
  | EvTake c =>
      match cns !! c with
      | Some (C_lock _) => Some ('(q', p) ← Pop_locked q ph;
          Ok (mk_pq_sys q' prods (<[c := C_idle]> cns) pushed (popped ++ [p])))
      | _ => None
      end
  | EvWake c =>
      match cns !! c with
      | Some C_wait =>
          match WaitEvent q ph with
          | Ok (Some q') => Some (Ok (mk_pq_sys q' prods (<[c := C_retry]> cns) pushed popped))
          | Ok None => None
          | Fault f => Some (Fault f)
          end
      | _ => None
      end
  end.

(** A schedule; events that are not possible are skipped. *)
Fixpoint pq_sched (s : pq_sys) (es : list pq_event) : outcome pq_sys :=
  match es with
  | [] => Ok s
  | e :: es' =>
      match pq_exec s e with
      | Some r => s' ← r; pq_sched s' es'
      | None => pq_sched s es'
      end
  end.

(** *** One consumer *)
Record pq_inv (s : pq_sys) : Prop := {
  pqi_five : five_phases (pq_queue s);
  pqi_fifo : pq_popped s ++ items (pq_queue s) ph = pq_pushed s;
  pqi_safe b : pq_consumers s = [C_lock b] → items (pq_queue s) ph ≠ [];
  pqi_one : length (pq_consumers s) = 1%nat;
  pqi_wake : pq_consumers s = [C_wait] → items (pq_queue s) ph ≠ [] →
             signalled (pq_queue s) ph = true ∨ P_signal ∈ pq_producers s }.

Lemma one_consumer (cns : list consumer_pc) c pc :
  length cns = 1%nat → cns !! c = Some pc → cns = [pc] ∧ c = 0%nat.
Proof.
  destruct cns as [|x [|??]]; [done| |done]. intros _ Hc.
  destruct c; [by injection Hc as ->|by rewrite lookup_cons in Hc].
Qed.

Lemma signalled_force q : five_phases q → 0 ≤ ph ≤ 4 →
  five_phases (ForceActivateQueueEvent q) ∧ items (ForceActivateQueueEvent q) ph = items q ph ∧
  signalled (ForceActivateQueueEvent q) ph = true.
Proof.
  intros [He Hl] Hph. unfold five_phases, items, signalled. simpl.
  split_and!; [|done|done|].
  - unfold zlen in *. by rewrite length_fmap.
  - unfold get. rewrite list_lookup_fmap.
    change (_hQueueEvent q !! Z.to_nat ph) with (get (_hQueueEvent q) ph).
    by rewrite (get_default false) by lia.
Qed.
Lemma pq_inv_start n : pq_inv (pq_start n 1).
Proof.
  assert (items PacketDataQueue_init ph = []) as Hi.
  { unfold items, get. destruct (_ !! _) as [l|] eqn:E; [|done].
    by apply lookup_replicate in E as [-> _]. }
  by split; simpl; rewrite ?Hi; try apply five_init.
Qed.

Hypothesis (Hph : 0 ≤ ph ≤ 4).

Lemma pq_exec_inv s e r : pq_inv s → pq_exec s e = Some r → ∃ s', r = Ok s' ∧ pq_inv s'.
Proof.
  destruct s as [q prods cns pushed popped]. intros [H5 Hf Hs H1 Hw]; simpl in *.
  destruct e as [i p|i| |c|c|c]; simpl.
  - destruct (prods !! i) as [[]|] eqn:Ei; try done. rewrite Push_eq by done.
    cbn [mbind outcome_bind]. intros [= <-]. eexists; split; [done|].
    destruct (with_items_spec q ph (items q ph ++ [p]) H5 Hph) as (H5' & Hi & _ & Hsg).
    split; simpl; rewrite ?Hi, ?Hsg; [done|by rewrite app_assoc, Hf| |done|].
    + intros b _ Hnil. by destruct (items q ph).
    + intros _ _. right. apply list_elem_of_lookup. exists i.
      apply list_lookup_insert_eq. by eapply lookup_lt_Some.
  - destruct (prods !! i) as [[]|] eqn:Ei; try done. rewrite SetEvent_eq by done.
    cbn [mbind outcome_bind]. intros [= <-]. eexists; split; [done|].
    destruct (with_event_spec q ph true H5 Hph) as (H5' & Hsg & Hi).
    split; simpl; rewrite ?Hi, ?Hsg; auto.
  - intros [= <-]. eexists; split; [done|].
    destruct (signalled_force q H5 Hph) as (H5' & Hi & Hsg).
    split; simpl; rewrite ?Hi, ?Hsg; auto.
  - destruct (cns !! c) as [pc|] eqn:Ec; [|done].
    destruct (one_consumer _ _ _ H1 Ec) as [-> ->].
    destruct pc; try done; rewrite queue_empty_eq by done; cbn [mbind outcome_bind];
      intros [= <-]; (eexists; split; [done|]); case_bool_decide as Hb;
      split; simpl; try done.
  - destruct (cns !! c) as [pc|] eqn:Ec; [|done].
    destruct (one_consumer _ _ _ H1 Ec) as [-> ->].
    destruct pc as [|b| |]; try done. rewrite Pop_locked_eq by done.
    destruct (items q ph) as [|p l] eqn:El; [by destruct (Hs b)|].
    cbn [mbind outcome_bind]. intros [= <-]. eexists; split; [done|].
    destruct (with_items_spec q ph l H5 Hph) as (H5' & Hi & _ & Hsg).
    split; simpl; rewrite ?Hi; try done. by rewrite <-app_assoc.
  - destruct (cns !! c) as [pc|] eqn:Ec; [|done].
    destruct (one_consumer _ _ _ H1 Ec) as [-> ->].
    destruct pc; try done. rewrite WaitEvent_eq by done.
    destruct (signalled q ph); [|done]. intros [= <-]. eexists; split; [done|].
    destruct (with_event_spec q ph false H5 Hph) as (H5' & _ & Hi).
    split; simpl; rewrite ?Hi; done.
Qed.

Lemma pq_sched_inv es : ∀ s, pq_inv s → ∃ s', pq_sched s es = Ok s' ∧ pq_inv s'.
Proof.
  induction es as [|e es IH]; intros s Hinv; simpl; [eauto|].
  destruct (pq_exec s e) as [r|] eqn:E; [|by apply IH].
  destruct (pq_exec_inv _ _ _ Hinv E) as (s1 & -> & H2). by apply IH.
Qed.
End Interleaving.

(** C17: with one consumer thread, as the server and the client have, no
    interleaving with any number of producers makes [Pop] touch an empty list;
    packets come out in the order they were pushed, none lost or repeated; and
    no wake-up is lost: while the consumer waits with packets queued, either
    the event is signalled or a producer is about to signal it. *)
Theorem one_consumer_fifo ph producers es :
  0 ≤ ph ≤ 4 →
  ∃ s, pq_sched ph (pq_start producers 1) es = Ok s ∧
    pq_popped s ++ items (pq_queue s) ph = pq_pushed s ∧
    (pq_consumers s = [C_wait] → items (pq_queue s) ph ≠ [] →
     signalled (pq_queue s) ph = true ∨ P_signal ∈ pq_producers s).
Proof.
  intros Hph. destruct (pq_sched_inv ph Hph es _ (pq_inv_start ph producers)) as (s & Hs & []).
  eauto.
Qed.

Definition demo_schedule : list pq_event :=
  [EvTest 0; EvPush 0 7; EvPush 1 8; EvSignal 1; EvWake 0; EvTest 0; EvTake 0; EvTest 0].
Lemma one_consumer_fifo_witness :
  (0 ≤ 0 ≤ 4) ∧
  ∃ s, pq_sched 0 (pq_start 2 1) demo_schedule = Ok s ∧
    pq_popped s ++ items (pq_queue s) 0 = pq_pushed s ∧
    (pq_consumers s = [C_wait] → items (pq_queue s) 0 ≠ [] →
     signalled (pq_queue s) 0 = true ∨ P_signal ∈ pq_producers s).
Proof. split; [lia|]. apply (one_consumer_fifo 0 2 demo_schedule). lia. Defined.
Example demo_schedule_pops :
  pq_popped <$> pq_sched 0 (pq_start 2 1) demo_schedule = Ok [7].
Proof. vm_compute. reflexivity. Qed.

(** with two or more consumers the test outside the lock is a race: some
    schedule makes the second one take [begin()] of an empty list. *)
Theorem two_consumers_race ph producers consumers :
  0 ≤ ph ≤ 4 → (1 ≤ producers)%nat → (2 ≤ consumers)%nat →
  ∃ es, pq_sched ph (pq_start producers consumers) es = Fault EmptyContainer.
Proof.
  intros Hph Hp Hc. destruct producers as [|np]; [lia|]. destruct consumers as [|[|nc]]; [lia..|].
  exists [EvPush 0 1; EvTest 0; EvTest 1; EvTake 0; EvTake 1]. cbn -[queue_empty Pop_locked with_items PacketDataQueue_Push PacketDataQueue_init items].
  assert (items PacketDataQueue_init ph = []) as Hi.
  { unfold items, get. destruct (_ !! _) as [l|] eqn:E; [|done].
    by apply lookup_replicate in E as [-> _]. }
  rewrite Push_eq, Hi by (done || apply five_init). cbn -[queue_empty Pop_locked with_items PacketDataQueue_Push PacketDataQueue_init items].
  destruct (with_items_spec _ ph [1] five_init Hph) as (H5 & Hi1 & _ & _).
  rewrite queue_empty_eq, Hi1 by done. cbn -[queue_empty Pop_locked with_items PacketDataQueue_Push PacketDataQueue_init items].
  rewrite queue_empty_eq, Hi1 by done. cbn -[queue_empty Pop_locked with_items PacketDataQueue_Push PacketDataQueue_init items].
  rewrite Pop_locked_eq, Hi1 by done. cbn -[queue_empty Pop_locked with_items PacketDataQueue_Push PacketDataQueue_init items].
  destruct (with_items_spec _ ph [] H5 Hph) as (H5' & Hi2 & _ & _).
  by rewrite Pop_locked_eq, Hi2 by done.
Qed.

Lemma two_consumers_race_witness :
  (0 ≤ 0 ≤ 4) ∧ ∃ es, pq_sched 0 (pq_start 1 2) es = Fault EmptyContainer.
Proof. split; [lia|]. apply (two_consumers_race 0 1 2); lia. Defined.

(** ** Whole calls *)
Lemma RecvPush_eq q p ph : five_phases q → 0 ≤ ph < 4 →
  RecvPacketQueue_Push q (Some p) ph =
    Ok (with_event (with_items q ph (items q ph ++ [p])) ph true, zlen (items q ph ++ [p])).
Proof.
  intros Hq Hph. unfold RecvPacketQueue_Push, MAX_PACKET_QUEUE_PHASE. zcases. simpl.
  rewrite Push_eq by (done || lia). cbn [mbind outcome_bind].
  by rewrite SetEvent_eq by (apply with_items_spec || lia; (done || lia)).
Qed.

(** the complete behaviour of [RecvPacketQueue::Pop]: out-of-range phases
    give nullptr at once; the oldest packet if there is one; otherwise it
    blocks unless the event was left signalled, and then gives nullptr.  After
    [ForceActivateQueueEvent] it never blocks, so a stopping thread leaves. *)
Theorem RecvPacketQueue_Pop_spec q ph :
  five_phases q →
  RecvPacketQueue_Pop q ph =
    (if (ph <? 0) || (4 <=? ph) then Ok (Some (q, None))
     else match items q ph with
          | p :: l => Ok (Some (with_items q ph l, Some p))
          | [] => if signalled q ph then Ok (Some (with_event q ph false, None)) else Ok None
          end) ∧
  RecvPacketQueue_Pop (ForceActivateQueueEvent q) ph ≠ Ok None.
Proof.
  intros Hq.
  assert (∀ q, five_phases q → RecvPacketQueue_Pop q ph =
    (if (ph <? 0) || (4 <=? ph) then Ok (Some (q, None))
     else match items q ph with
          | p :: l => Ok (Some (with_items q ph l, Some p))
          | [] => if signalled q ph then Ok (Some (with_event q ph false, None)) else Ok None
          end)) as Heq.
  { clear q Hq. intros q Hq. unfold RecvPacketQueue_Pop, MAX_PACKET_QUEUE_PHASE. rewrite Z.gtb_ltb.
    zcases; simpl; try done. unfold Pop_or_wait. rewrite Pop_eq by (done || lia).
    destruct (items q ph) as [|p l] eqn:El; cbn [mbind outcome_bind]; [|done].
    rewrite WaitEvent_eq by (done || lia). cbn [mbind outcome_bind].
    destruct (signalled q ph); [|done].
    destruct (with_event_spec q ph false Hq) as (H5 & _ & Hi); [lia|].
    by rewrite Pop_eq, Hi, El by (done || lia). }
  split; [by apply Heq|].
  destruct (decide (0 ≤ ph ≤ 4)) as [Hph|].
  - destruct (signalled_force ph q Hq Hph) as (H5 & _ & Hs).
    rewrite Heq, Hs by done. destruct ((ph <? 0) || (4 <=? ph)); [done|]. by destruct (items _ ph).
  - unfold RecvPacketQueue_Pop, MAX_PACKET_QUEUE_PHASE. rewrite Z.gtb_ltb. by zcases.
Qed.

Lemma RecvPacketQueue_Pop_spec_witness :
  five_phases PacketDataQueue_init ∧
  RecvPacketQueue_Pop PacketDataQueue_init 0 = Ok None ∧
  RecvPacketQueue_Pop (ForceActivateQueueEvent PacketDataQueue_init) 0 ≠ Ok None.
Proof.
  split; [apply five_init|].
  exact (RecvPacketQueue_Pop_spec PacketDataQueue_init 0 five_init).
Defined.

#[global] Arguments RecvPacketQueue_Push : simpl never.
#[global] Arguments RecvPacketQueue_Pop : simpl never.
