(* ===== verification/System.v ===== *)
(** * The operating system, and the state of the network layer
    Winsock and the CRT are parameters: a call is recorded in a trace and
    answered by [os_call], which sees the whole trace before it.  [NetWorld] is
    what the singletons of _framework hold: the connectors behind their
    pointers, the connector pool, the receive queue and its packets, the
    members of [Network].  The connector itself is the record of
    _framework/connector.h. *)
From S2P Require Import Prelude Buffer Packet ObjectPool PacketQueue.

Inductive eNetworkOperator : Set := OP_SEND | OP_RECV | OP_ACCEPT.
#[global] Instance eNetworkOperator_eq_dec : EqDecision eNetworkOperator.
Proof. solve_decision. Defined.

(** Sockets are SOCKET values, connectors their addresses. *)
Definition INVALID_SOCKET : Z := u64 (-1).
Definition SOCKET_ERROR : Z := -1.
Definition WSA_IO_PENDING : Z := 997.
Definition WAIT_TIMEOUT : Z := 258.
Definition MAX_LEN_IP4_STRING : Z := 16.
Definition MAX_LEN_DOMAIN_STRING : Z := 1024.

Inductive syscall :=
| sys_WSAStartup
| sys_WSACleanup
| sys_WSASocket
| sys_WSAIoctl (s : Z)
| sys_bind (s port : Z)
| sys_listen (s backlog : Z)
| sys_WSAAccept (s : Z)
| sys_acceptEx (listener s conn : Z)
| sys_connect (s addr port : Z)
| sys_setsockopt (s : Z)
| sys_CreateIoCompletionPort (s conn : Z)
| sys_PostQueuedCompletionStatus (conn : option Z) (op : option eNetworkOperator)
| sys_WSARecv (s conn len : Z)
| sys_WSASend (s conn : Z) (data : list Z)   (** the bytes of the WSABUF *)
| sys_shutdown (s : Z)
| sys_closesocket (s : Z)
| sys_WSAGetLastError
| sys_GetTimeMilliSec
| sys_time32                 (** _time32(NULL) *)
| sys_localtime              (** CTimeSet().GetTime() *)
| sys_rand.

Class OS := {
  os_call : list syscall → syscall → Z;
  os_peer_ip : list syscall → Z → list Z;       (** getpeername and inet_ntop *)
  os_resolve : list Z → option (list Z);        (** getaddrinfo and inet_ntop *)
  os_pton : list Z → Z;                         (** InetPton *)
  os_accept_addr : list syscall → Z → Z * Z;    (** the address WSAAccept fills in *)
  os_mbstowcs : list Z → list Z;
  os_wcstombs : list Z → list Z;
  os_fresh : list Z }.                          (** content of [new char[...]] *)

(** ** Connectors: _framework/connector.h *)

(** [SendOverlapped] and [RecvOverlapped]; the [OVERLAPPED] itself belongs to
    the kernel. *)
Record SendOverlapped := mkSendOverlapped {
  so_pConnector : option Z;
  so_NetOp : eNetworkOperator;
  so_pBuffer : option NetworkBuffer }.
Record RecvOverlapped := mkRecvOverlapped {
  ro_pConnector : option Z;
  ro_NetOp : eNetworkOperator;
  ro_pBuffer : NetworkBuffer }.

Record Connector := mkConnector {
  _dwUid : Z;
  _param : option Z;          (** the session, by address *)
  _socket : Z;
  _szDomain : list Z;
  _wcsDomain : list Z;
  _wPort : Z;
  _SendRequest : SendOverlapped;
  _SendQueue : list NetworkBuffer;
  _dwSendRef : Z;
  _RecvRequest : RecvOverlapped;
  _RecvDataBuffer : CircleBuffer;
  _dwRecvRef : Z;
  funcDataParser : option (CircleBuffer → outcome Z);
  _biUpdateTimer : Z;
  _biHeartbeatTimer : Z;
  _SockAddr : Z * Z }.        (** address and port *)

(** The constructor; [++unique_connector_uid] is done by the caller. *)
Definition Connector_new `{OS} (uid : Z) : Connector :=
  mkConnector uid None INVALID_SOCKET [] [] 0
    (mkSendOverlapped None OP_SEND None) [] 0
    (mkRecvOverlapped None OP_SEND (NetworkBuffer_new os_fresh))
    (BufferBase_new os_fresh MAX_PACKET_BUFFER_SIZE) 0 None 0 0 (0, 0).

(** Assignments to single members. *)
Definition set_param v (c : Connector) := mkConnector (_dwUid c) v (_socket c) (_szDomain c) (_wcsDomain c) (_wPort c) (_SendRequest c) (_SendQueue c) (_dwSendRef c) (_RecvRequest c) (_RecvDataBuffer c) (_dwRecvRef c) (funcDataParser c) (_biUpdateTimer c) (_biHeartbeatTimer c) (_SockAddr c).
Definition set_socket v (c : Connector) := mkConnector (_dwUid c) (_param c) v (_szDomain c) (_wcsDomain c) (_wPort c) (_SendRequest c) (_SendQueue c) (_dwSendRef c) (_RecvRequest c) (_RecvDataBuffer c) (_dwRecvRef c) (funcDataParser c) (_biUpdateTimer c) (_biHeartbeatTimer c) (_SockAddr c).
Definition set_domain sz wcs port (c : Connector) := mkConnector (_dwUid c) (_param c) (_socket c) sz wcs port (_SendRequest c) (_SendQueue c) (_dwSendRef c) (_RecvRequest c) (_RecvDataBuffer c) (_dwRecvRef c) (funcDataParser c) (_biUpdateTimer c) (_biHeartbeatTimer c) (_SockAddr c).
Definition set_send req q ref (c : Connector) := mkConnector (_dwUid c) (_param c) (_socket c) (_szDomain c) (_wcsDomain c) (_wPort c) req q ref (_RecvRequest c) (_RecvDataBuffer c) (_dwRecvRef c) (funcDataParser c) (_biUpdateTimer c) (_biHeartbeatTimer c) (_SockAddr c).
Definition set_recv req ring ref (c : Connector) := mkConnector (_dwUid c) (_param c) (_socket c) (_szDomain c) (_wcsDomain c) (_wPort c) (_SendRequest c) (_SendQueue c) (_dwSendRef c) req ring ref (funcDataParser c) (_biUpdateTimer c) (_biHeartbeatTimer c) (_SockAddr c).
Definition set_parser v (c : Connector) := mkConnector (_dwUid c) (_param c) (_socket c) (_szDomain c) (_wcsDomain c) (_wPort c) (_SendRequest c) (_SendQueue c) (_dwSendRef c) (_RecvRequest c) (_RecvDataBuffer c) (_dwRecvRef c) v (_biUpdateTimer c) (_biHeartbeatTimer c) (_SockAddr c).
Definition set_timers u h (c : Connector) := mkConnector (_dwUid c) (_param c) (_socket c) (_szDomain c) (_wcsDomain c) (_wPort c) (_SendRequest c) (_SendQueue c) (_dwSendRef c) (_RecvRequest c) (_RecvDataBuffer c) (_dwRecvRef c) (funcDataParser c) u h (_SockAddr c).
Definition set_sockaddr v (c : Connector) := mkConnector (_dwUid c) (_param c) (_socket c) (_szDomain c) (_wcsDomain c) (_wPort c) (_SendRequest c) (_SendQueue c) (_dwSendRef c) (_RecvRequest c) (_RecvDataBuffer c) (_dwRecvRef c) (funcDataParser c) (_biUpdateTimer c) (_biHeartbeatTimer c) v.

(** The one-line accessors of the class. *)
Definition GetUID (c : Connector) : Z := _dwUid c.
Definition SetSocket (s : Z) (c : Connector) : Connector := set_socket s c.
Definition GetSocket (c : Connector) : Z := _socket c.
Definition GetActive (c : Connector) : bool := negb (INVALID_SOCKET =? _socket c).
Definition GetDomainA (c : Connector) : list Z := _szDomain c.
Definition GetDomain (c : Connector) : list Z := _wcsDomain c.
Definition GetPort (c : Connector) : Z := _wPort c.
Definition SetParam (p : option Z) (c : Connector) : Connector := set_param p c.
Definition GetParam (c : Connector) : option Z := _param c.
Definition GetUsed (c : Connector) : bool := bool_decide (is_Some (_param c)).
Definition GetSendRef (c : Connector) : Z := _dwSendRef c.
Definition GetRecvRef (c : Connector) : Z := _dwRecvRef c.
Definition IncSendRef (c : Connector) : Connector := set_send (_SendRequest c) (_SendQueue c) (u32 (_dwSendRef c + 1)) c.
Definition DecSendRef (c : Connector) : Connector := set_send (_SendRequest c) (_SendQueue c) (u32 (_dwSendRef c - 1)) c.
Definition IncRecvRef (c : Connector) : Connector := set_recv (_RecvRequest c) (_RecvDataBuffer c) (u32 (_dwRecvRef c + 1)) c.
Definition DecRecvRef (c : Connector) : Connector := set_recv (_RecvRequest c) (_RecvDataBuffer c) (u32 (_dwRecvRef c - 1)) c.
Definition CheckUpdateTimer (biCurrTime : Z) (c : Connector) : bool := _biUpdateTimer c <? biCurrTime.
Definition SetDataParser (f : option (CircleBuffer → outcome Z)) (c : Connector) : Connector := set_parser f c.

(** ** The world *)
Record NetWorld := mkNetWorld {
  nw_conns : gmap Z Connector;
  nw_mgr : ObjectPoolMgrBase;       (** ConnectorMgr *)
  nw_uid : Z;                       (** unique_connector_uid *)
  nw_recvq : PacketDataQueue;       (** RecvPacketQueue *)
  nw_packets : PacketHeap;
  nw_trace : list syscall;
  nw_hIOCP : Z;
  nw_ListenSock : Z }.
Definition set_nw_conns v w := mkNetWorld v (nw_mgr w) (nw_uid w) (nw_recvq w) (nw_packets w) (nw_trace w) (nw_hIOCP w) (nw_ListenSock w).
Definition set_nw_mgr v w := mkNetWorld (nw_conns w) v (nw_uid w) (nw_recvq w) (nw_packets w) (nw_trace w) (nw_hIOCP w) (nw_ListenSock w).
Definition set_nw_uid v w := mkNetWorld (nw_conns w) (nw_mgr w) v (nw_recvq w) (nw_packets w) (nw_trace w) (nw_hIOCP w) (nw_ListenSock w).
Definition set_nw_recvq v w := mkNetWorld (nw_conns w) (nw_mgr w) (nw_uid w) v (nw_packets w) (nw_trace w) (nw_hIOCP w) (nw_ListenSock w).
Definition set_nw_packets v w := mkNetWorld (nw_conns w) (nw_mgr w) (nw_uid w) (nw_recvq w) v (nw_trace w) (nw_hIOCP w) (nw_ListenSock w).
Definition set_nw_trace v w := mkNetWorld (nw_conns w) (nw_mgr w) (nw_uid w) (nw_recvq w) (nw_packets w) v (nw_hIOCP w) (nw_ListenSock w).
Definition set_nw_hIOCP v w := mkNetWorld (nw_conns w) (nw_mgr w) (nw_uid w) (nw_recvq w) (nw_packets w) (nw_trace w) v (nw_ListenSock w).
Definition set_nw_ListenSock v w := mkNetWorld (nw_conns w) (nw_mgr w) (nw_uid w) (nw_recvq w) (nw_packets w) (nw_trace w) (nw_hIOCP w) v.

Abbreviation net := (st NetWorld).

(** Call the operating system. *)
Definition sys `{OS} (c : syscall) : net Z := λ w,
  Ok (os_call (nw_trace w) c, set_nw_trace (nw_trace w ++ [c]) w).

(** Access through a [Connector*]. *)
Definition conn_get (p : Z) : net Connector := λ w,
  match nw_conns w !! p with Some c => Ok (c, w) | None => Fault UseAfterFree end.
Definition conn_set (p : Z) (c : Connector) : net unit := λ w,
  match nw_conns w !! p with
  | Some _ => Ok (tt, set_nw_conns (<[p := c]> (nw_conns w)) w)
  | None => Fault UseAfterFree
  end.
Definition conn_mod (p : Z) (f : Connector → Connector) : net unit :=
  c ← conn_get p; conn_set p (f c).
Definition conn_run {A} (p : Z) (f : Connector → outcome (Connector * A)) : net A :=
  c ← conn_get p; '(c', a) ← st_lift (f c); _ ← conn_set p c'; mret a.

(** ** ConnectorMgr: _framework/connector_mgr.h

    The pool allocates objects; each is constructed when it is allocated. *)
Definition construct_objects `{OS} (objs : list Z) (w : NetWorld) : NetWorld :=
  foldl (λ w p,
    match nw_conns w !! p with
    | Some _ => w
    | None => set_nw_conns (<[p := Connector_new (u32 (nw_uid w + 1))]> (nw_conns w))
                (set_nw_uid (u32 (nw_uid w + 1)) w)
    end) w objs.
Definition ConnectorMgr_initCount : Z := 10.
Definition ConnectorMgr_init `{OS} (st : Store) (w : NetWorld) : NetWorld :=
  let m := ObjectPoolMgrBase_init ConnectorMgr_initCount st in
  construct_objects (pm_poolList m) (set_nw_mgr m w).
Definition ConnectorMgr_GetFreeObject `{OS} : net (option Z) := λ w,
  let '(p, m) := ObjectPoolMgrBase_GetFreeObject (nw_mgr w) in
  Ok (p, construct_objects (pm_poolList m) (set_nw_mgr m w)).
Definition ConnectorMgr_SetFreeObject (p : Z) : net unit :=
  st_modify (λ w, set_nw_mgr (ObjectPoolMgrBase_SetFreeObject (nw_mgr w) p) w).
