(* ===== verification/Certify.v ===== *)
(** * Certification data: _framework/certifyData.h, certifyData.cpp
    A challenge of sixty digits, scrambled by xor with a key and spelled in one
    of ten alphabets of 64 characters.  A char is its byte; [i8] is its
    promotion to int. *)
From Stdlib Require Import String.
From S2P Require Import Prelude Buffer Wire Packet ObjectPool PacketQueue TimeSet System Text.
#[local] Open Scope string_scope.
#[local] Open Scope list_scope.
#[local] Open Scope Z_scope.

Definition MAX_STRING_LEN : Z := 60.
Definition MAX_CONVERT_BUFFER_LEN : Z := 80.
Definition MAX_ENC_STRING_LEN : Z := 10.

(** certifyConvertData.h *)
Definition szConvertTable : list (list Z) :=
  [ str "AKSBC+Z3a69psMDgwyxoiXLHhtn7cuTImdEYObrFz58JGlWVUfk40eNPQvqRj/12";
    str "Mv0oVS+PTjdzZEAr3eBf7lsOhIHGCgn4DFJkK/1LbtWNQmRy5xcqi9UuwYXap826";
    str "8fnXUH+CyMvGQeAwxhcrBLSWDTk1aE47z3q2sIbF5NliJ6pPuKZOgjR/Vt0Ydom9";
    str "Yq43A/PS7tDOedBJ0oVxZbunCFE+kGyrw5WIjpUHQhlTKgsviaL2cRM6z9fNXm18";
    str "8qvxAb3VN07Ph2BdfsCDXoU1gTyu6jE/FpmKGRlHr4YeILZ+iW5atzJncSMOQkw9";
    str "oWCUsSF2Zkqjz8Al7edBcLr6gxmvIQGHhyu9RKDE4MJbN+TfY0t1aOPXV/3inpw5";
    str "c26aq0o4Mhfp1SAKknJizlH5BNGECDr3YvF+b7QIT8ULOxdyjZ9mtPR/VguWXesw";
    str "8+KzAhxBPjNrLYCQ25HlRmwIgqpOJDvofbZ1dsWEFXeSGntay4kc60MUTi3Vu97/";
    str "k5+qA/LrBuXQGxCJ1KyD6aYREgNFPnMV40Hzm72IOswUS9eitocpl3TvfbjWZdh8";
    str "UtwSq/r6eFyKpxAav+5HQkcNBRfMoJI8h3XnLmCDZsgPEbT12z0dulGWjiYOV479" ].

Definition g_szCertifyString : list (list Z) :=
  [ str "123456789012345678901234567890123456789012345678901234567890";
    str "234567890123456789012345678901234567890123456789012345678901";
    str "345678901234567890123456789012345678901234567890123456789012";
    str "456789012345678901234567890123456789012345678901234567890123";
    str "567890123456789012345678901234567890123456789012345678901234";
    str "678901234567890123456789012345678901234567890123456789012345";
    str "789012345678901234567890123456789012345678901234567890123456";
    str "890123456789012345678901234567890123456789012345678901234567";
    str "901234567890123456789012345678901234567890123456789012345678";
    str "012345678901234567890123456789012345678901234567890123456789" ].

(** [g_VecBaseTable] as an argument and result. *)
Definition CertifyConvertTableInit (g : list (list Z)) : outcome (list (list Z)) :=
  g ← for_loop 10 1 10 0 (λ idx g, aset g idx []) g;
  for_loop 10 1 10 0 (λ idx g,
    for_loop 64 1 64 0 (λ offset g,
      t ← aget szConvertTable idx;
      c ← aget t offset;
      v ← aget g idx;
      aset g idx (v ++ [c])) g) g.

(** A char operand. *)
Definition char_at (m : list Z) (i : Z) : outcome Z := b ← aget m i; Ok (i8 b).

(** The inner loop of Recover: the position of the char in the table. *)
Fixpoint recover_char (n : nat) (table : list Z) (nEncKey enc : Z) : outcome Z :=
  match n with
  | O => Ok enc
  | S n' =>
      t ← char_at table nEncKey;
      if negb (enc =? t) then recover_char n' table (nEncKey + 1) enc else Ok (i8 nEncKey)
  end.

(** The bodies of the two loops; the state is the output buffer and its offset. *)
Definition Convert_chunk (table szString : list Z) (offset : Z) (s : list Z * Z) : outcome (list Z * Z) :=
  let '(szEncBuffer, n) := s in
  szTemp ← peek szString offset 3;
  t0 ← char_at szTemp 0;
  t1 ← char_at szTemp 1;
  t2 ← char_at szTemp 2;
  let enc0 := i8 (Z.shiftr (Z.land t0 0xFC) 2) in
  let enc1 := i8 (Z.lor (Z.shiftl (Z.land t0 0x03) 4) (Z.shiftr (Z.land t1 0xF0) 4)) in
  let enc2 := i8 (Z.lor (Z.shiftl (Z.land t1 0x0F) 2) (Z.shiftr (Z.land t2 0xC0) 6)) in
  let enc3 := i8 (Z.land t2 0x3F) in
  c0 ← aget table enc0; b ← aset szEncBuffer n c0;
  c1 ← aget table enc1; b ← aset b (n + 1) c1;
  c2 ← aget table enc2; b ← aset b (n + 2) c2;
  c3 ← aget table enc3; b ← aset b (n + 3) c3;
  Ok (b, n + 4).
Definition Recover_chunk (table szEncBuffer : list Z) (offset : Z) (s : list Z * Z) : outcome (list Z * Z) :=
  let '(szDecBuffer, n) := s in
  enc0 ← char_at szEncBuffer offset; enc0 ← recover_char 64 table 0 enc0;
  enc1 ← char_at szEncBuffer (offset + 1); enc1 ← recover_char 64 table 0 enc1;
  enc2 ← char_at szEncBuffer (offset + 2); enc2 ← recover_char 64 table 0 enc2;
  enc3 ← char_at szEncBuffer (offset + 3); enc3 ← recover_char 64 table 0 enc3;
  let dec0 := u8 (Z.lor (Z.shiftl enc0 2) (Z.shiftr enc1 4)) in
  let dec1 := u8 (Z.lor (Z.shiftl enc1 4) (Z.shiftr enc2 2)) in
  let dec2 := u8 (Z.lor (Z.shiftl enc2 6) enc3) in
  b ← aset szDecBuffer n dec0;
  b ← aset b (n + 1) dec1;
  b ← aset b (n + 2) dec2;
  Ok (b, n + 3).

(** The code common to [CertifyDataRecover] and the member [Recover]. *)
Definition recover_data (g : list (list Z)) (nConvertTable : Z) (szData : list Z) : outcome (list Z * Z) :=
  d ← peek szData 0 MAX_CONVERT_BUFFER_LEN;
  let szEncBuffer := d ++ [0] in
  table ← aget g nConvertTable;
  '(szDecBuffer, n) ← for_loop 20 4 MAX_CONVERT_BUFFER_LEN 0 (Recover_chunk table szEncBuffer)
    (replicate 81 0, 0);
  d ← peek szDecBuffer 0 MAX_CONVERT_BUFFER_LEN;
  szData ← poke szData 0 d;
  Ok (szData, n).
Definition CertifyDataRecover := recover_data.

(** ** CCertifyData *)
Record CCertifyData := mkCertifyData {
  _nStringIndex : Z;
  _nConvertTableID : Z;
  _nLastSendTime : Z;
  _nCheckCount : Z;
  _nEncKey : Z;
  _szString : list Z }.
Definition CCertifyData_new : CCertifyData := mkCertifyData 0 0 0 0 0 (replicate 81 0).
Definition cd_string v d := mkCertifyData (_nStringIndex d) (_nConvertTableID d) (_nLastSendTime d) (_nCheckCount d) (_nEncKey d) v.

Definition SetString_text (pszString : option (list Z)) (d : CCertifyData) : outcome (CCertifyData * Z) :=
  match pszString with
  | None => Ok (d, 0)
  | Some p =>
      let nStrLen := zlen (c_string p) in
      if 0 =? nStrLen then Ok (d, 0)
      else
        let nStrLen := if MAX_STRING_LEN <? nStrLen then MAX_STRING_LEN else nStrLen in
        t ← peek p 0 nStrLen;
        s ← poke (_szString d) 0 t;
        Ok (cd_string s d, nStrLen)
  end.
(** [strncpy_s(dst, 81, src, 60)]: the characters and a terminator. *)
Definition SetString (rand : Z) (d : CCertifyData) : outcome (CCertifyData * Z) :=
  let nRand := Z.rem rand 10 in
  let nRand := if 0 >? nRand then 0 else nRand in
  let nRand := if 10 <=? nRand then 9 else nRand in
  src ← aget g_szCertifyString nRand;
  s ← poke (_szString d) 0 (take (Z.to_nat MAX_STRING_LEN) src ++ [0]);
  Ok (mkCertifyData nRand (_nConvertTableID d) (_nLastSendTime d) (_nCheckCount d) (_nEncKey d) s, nRand).

Definition Convert (g : list (list Z)) (nConvertTableID : Z) (d : CCertifyData) : outcome (CCertifyData * Z) :=
  table ← aget g nConvertTableID;
  '(szEncBuffer, n) ← for_loop 20 3 MAX_STRING_LEN 0 (Convert_chunk table (_szString d)) (replicate 81 0, 0);
  e ← peek szEncBuffer 0 MAX_CONVERT_BUFFER_LEN;
  s ← poke (_szString d) 0 e;
  Ok (mkCertifyData (_nStringIndex d) nConvertTableID (_nLastSendTime d) (_nCheckCount d) (_nEncKey d) s, n).
Definition Recover (g : list (list Z)) (nConvertTableID : Z) (d : CCertifyData) : outcome (CCertifyData * Z) :=
  '(s, n) ← recover_data g nConvertTableID (_szString d);
  Ok (cd_string s d, n).

(** [Encrypt] with a machine word of [w] bytes. *)
Definition Encrypt_word (w : nat) (key : Z) (offset : Z) (s : list Z) : outcome (list Z) :=
  d ← peek s offset (Z.of_nat w);
  let nBuffer := wraps (8 * Z.of_nat w) (le_dec d) in
  let nBuffer := wraps (8 * Z.of_nat w) (Z.lxor nBuffer key) in
  poke s offset (le_enc w nBuffer).
Definition Encrypt_INT32 (nEncKey : Z) (s : list Z) : outcome (list Z) :=
  for_loop 20 4 MAX_CONVERT_BUFFER_LEN 0 (Encrypt_word 4 nEncKey) s.
Definition Encrypt_INT64 (ulEncKey : Z) (s : list Z) : outcome (list Z) :=
  for_loop 10 8 MAX_CONVERT_BUFFER_LEN 0 (Encrypt_word 8 ulEncKey) s.
Definition Encrypt_text (pszEncString : option (list Z)) (s : list Z) : outcome (list Z) :=
  match pszEncString with
  | None => Ok s
  | Some p =>
      let len := i32 (zlen (c_string p)) in
      if 0 >=? len then Ok s
      else
        let len := if MAX_ENC_STRING_LEN <? len then MAX_ENC_STRING_LEN else len in
        for_loop 80 len MAX_CONVERT_BUFFER_LEN 0 (λ offset s,
          szBuffer ← peek s offset len;
          key ← peek p 0 len;
          poke s offset (zip_with (λ a b, u8 (Z.lxor (i8 a) (i8 b))) szBuffer key)) s
  end.
Definition Decrypt_INT32 := Encrypt_INT32.

(** Time and random numbers come from the runtime, by the trace of calls. *)
Section Certify.
Context `{OS}.
Abbreviation cert := (st (list syscall * CCertifyData)).
Definition cert_sys (c : syscall) : cert Z := λ '(tr, d), Ok (os_call tr c, (tr ++ [c], d)).
Definition cert_run {A} (f : CCertifyData → outcome (CCertifyData * A)) : cert A := λ '(tr, d),
  match f d with Ok (d', a) => Ok (a, (tr, d')) | Fault e => Fault e end.

Definition InitCertify : cert unit :=
  t ← cert_sys sys_time32;
  cert_run (λ d, Ok (mkCertifyData (_nStringIndex d) (_nConvertTableID d) (i32 (t + SEC_A_SEC * 90))
                       (_nCheckCount d) (_nEncKey d) (_szString d), tt)).
Definition CheckSendTime (nCheckTime : Z) : cert bool :=
  last ← cert_run (λ d, Ok (d, _nLastSendTime d));
  if 0 >=? last then mret false
  else
    t32CurrTime ← cert_sys sys_time32;
    if i32 (last + nCheckTime) <=? t32CurrTime then
      cert_run (λ d, Ok (mkCertifyData (_nStringIndex d) (_nConvertTableID d) t32CurrTime
                           (_nCheckCount d) (_nEncKey d) (_szString d), true))
    else mret false.
Definition GetCheckCount (d : CCertifyData) : Z := _nCheckCount d.

Definition MakeCertifyData (g : list (list Z)) (nEncKey : Z) : cert Z :=
  nEncKey ← (if 0 =? nEncKey then
               r1 ← cert_sys sys_rand;
               r2 ← cert_sys sys_rand;
               mret (Z.lor (Z.shiftl (Z.rem r1 10000) 16) (Z.rem r2 10000))
             else mret nEncKey);
  r ← cert_sys sys_rand;
  _ ← cert_run (SetString r);
  _ ← cert_run (λ d, s ← Encrypt_INT32 nEncKey (_szString d);
         Ok (mkCertifyData (_nStringIndex d) (_nConvertTableID d) (_nLastSendTime d) (_nCheckCount d) nEncKey s, tt));
  r ← cert_sys sys_rand;
  let nRand := Z.rem r 10 in
  _ ← cert_run (Convert g nRand);
  cert_run (λ d, Ok (mkCertifyData (_nStringIndex d) (_nConvertTableID d) (_nLastSendTime d)
                       (i32 (_nCheckCount d + 1)) (_nEncKey d) (_szString d), _nConvertTableID d)).
Definition GetCertifyData (d : CCertifyData) (szCertifyData : list Z) : outcome (list Z * Z) :=
  e ← peek (_szString d) 0 MAX_CONVERT_BUFFER_LEN;
  b ← poke szCertifyData 0 e;
  Ok (b, _nConvertTableID d).

Definition CheckCertifyData (szData : list Z) (d : CCertifyData) : outcome (CCertifyData * bool) :=
  e ← peek szData 0 MAX_CONVERT_BUFFER_LEN;
  s ← poke (_szString d) 0 e;
  s ← Decrypt_INT32 (_nEncKey d) s;
  expected ← aget g_szCertifyString (_nStringIndex d);
  if negb (0 =? strncmp (length expected) s expected) then Ok (cd_string s d, false)
  else Ok (mkCertifyData (_nStringIndex d) (_nConvertTableID d) (_nLastSendTime d)
             (i32 (_nCheckCount d - 1)) (_nEncKey d) s, true).
End Certify.

(** ** Enumeration of small ranges *)
Definition upto (n : nat) : list Z := seqZ 0 (Z.of_nat n).
Lemma elem_of_upto n i : 0 ≤ i < Z.of_nat n → i ∈ upto n.
Proof. intros. apply elem_of_seqZ. lia. Qed.
Lemma enum1 (n : nat) (f g : Z → Z) i :
  forallb (λ i, f i =? g i) (upto n) = true → 0 ≤ i < Z.of_nat n → f i = g i.
Proof.
  rewrite forallb_forall. intros H Hi. apply Z.eqb_eq, H.
  by apply list_elem_of_In, elem_of_upto.
Qed.
Lemma enum2 (n k : nat) (f g : Z → Z → Z) i j :
  forallb (λ i, forallb (λ j, f i j =? g i j) (upto k)) (upto n) = true →
  0 ≤ i < Z.of_nat n → 0 ≤ j < Z.of_nat k → f i j = g i j.
Proof.
  rewrite forallb_forall. intros H Hi Hj. apply (enum1 k (f i) (g i)); [|done].
  apply H. by apply list_elem_of_In, elem_of_upto.
Qed.

(** ** Six-bit digits

    The masks and shifts of the code as quotients and remainders; the ors put
    disjoint fields together. *)
Lemma field_hi6 a : is_byte a → Z.shiftr (Z.land (i8 a) 0xFC) 2 = a / 4.
Proof. intros. by apply (enum1 256 (λ a, Z.shiftr (Z.land (i8 a) 0xFC) 2) (λ a, a / 4)); [vm_compute|]. Qed.
Lemma field_lo2 a : is_byte a → Z.land (i8 a) 0x03 = a mod 4.
Proof. intros. by apply (enum1 256 (λ a, Z.land (i8 a) 0x03) (λ a, a mod 4)); [vm_compute|]. Qed.
Lemma field_hi4 a : is_byte a → Z.shiftr (Z.land (i8 a) 0xF0) 4 = a / 16.
Proof. intros. by apply (enum1 256 (λ a, Z.shiftr (Z.land (i8 a) 0xF0) 4) (λ a, a / 16)); [vm_compute|]. Qed.
Lemma field_lo4 a : is_byte a → Z.land (i8 a) 0x0F = a mod 16.
Proof. intros. by apply (enum1 256 (λ a, Z.land (i8 a) 0x0F) (λ a, a mod 16)); [vm_compute|]. Qed.
Lemma field_hi2 a : is_byte a → Z.shiftr (Z.land (i8 a) 0xC0) 6 = a / 64.
Proof. intros. by apply (enum1 256 (λ a, Z.shiftr (Z.land (i8 a) 0xC0) 6) (λ a, a / 64)); [vm_compute|]. Qed.
Lemma field_lo6 a : is_byte a → Z.land (i8 a) 0x3F = a mod 64.
Proof. intros. by apply (enum1 256 (λ a, Z.land (i8 a) 0x3F) (λ a, a mod 64)); [vm_compute|]. Qed.
Lemma join_2_4 x y : 0 ≤ x < 4 → 0 ≤ y < 16 → Z.lor (Z.shiftl x 4) y = 16 * x + y.
Proof. intros. by apply (enum2 4 16 (λ x y, Z.lor (Z.shiftl x 4) y) (λ x y, 16 * x + y)); [vm_compute|..]. Qed.
Lemma join_4_2 x y : 0 ≤ x < 16 → 0 ≤ y < 4 → Z.lor (Z.shiftl x 2) y = 4 * x + y.
Proof. intros. by apply (enum2 16 4 (λ x y, Z.lor (Z.shiftl x 2) y) (λ x y, 4 * x + y)); [vm_compute|..]. Qed.
Lemma join_6_2 x y : 0 ≤ x < 64 → 0 ≤ y < 4 → Z.lor (Z.shiftl x 2) y = 4 * x + y.
Proof. intros. by apply (enum2 64 4 (λ x y, Z.lor (Z.shiftl x 2) y) (λ x y, 4 * x + y)); [vm_compute|..]. Qed.
Lemma join_6_4 x y : 0 ≤ x < 64 → 0 ≤ y < 16 → Z.lor (Z.shiftl x 4) y = 16 * x + y.
Proof. intros. by apply (enum2 64 16 (λ x y, Z.lor (Z.shiftl x 4) y) (λ x y, 16 * x + y)); [vm_compute|..]. Qed.
Lemma join_6_6 x y : 0 ≤ x < 64 → 0 ≤ y < 64 → Z.lor (Z.shiftl x 6) y = 64 * x + y.
Proof. intros. by apply (enum2 64 64 (λ x y, Z.lor (Z.shiftl x 6) y) (λ x y, 64 * x + y)); [vm_compute|..]. Qed.
Ltac bytes_lia := unfold is_byte, in_s in *; Z.div_mod_to_equations; lia.

(** The digits of three bytes, and the bytes of four digits. *)
Definition digits (a b c : Z) : list Z := [a / 4; 16 * (a mod 4) + b / 16; 4 * (b mod 16) + c / 64; c mod 64].
Section Digits.
Context (a b c : Z) (Ha : is_byte a) (Hb : is_byte b) (Hc : is_byte c).
Lemma digit0 : i8 (Z.shiftr (Z.land (i8 a) 0xFC) 2) = a / 4.
Proof using Ha Hb Hc. rewrite field_hi6 by done. apply wraps_small; [done|bytes_lia]. Qed.
Lemma digit1 : i8 (Z.lor (Z.shiftl (Z.land (i8 a) 0x03) 4) (Z.shiftr (Z.land (i8 b) 0xF0) 4)) = 16 * (a mod 4) + b / 16.
Proof using Ha Hb Hc. rewrite field_lo2, field_hi4, join_2_4 by bytes_lia. apply wraps_small; [done|bytes_lia]. Qed.
Lemma digit2 : i8 (Z.lor (Z.shiftl (Z.land (i8 b) 0x0F) 2) (Z.shiftr (Z.land (i8 c) 0xC0) 6)) = 4 * (b mod 16) + c / 64.
Proof using Ha Hb Hc. rewrite field_lo4, field_hi2, join_4_2 by bytes_lia. apply wraps_small; [done|bytes_lia]. Qed.
Lemma digit3 : i8 (Z.land (i8 c) 0x3F) = c mod 64.
Proof using Ha Hb Hc. rewrite field_lo6 by done. apply wraps_small; [done|bytes_lia]. Qed.
Lemma digits_range : Forall (λ e, 0 ≤ e < 64) (digits a b c).
Proof using Ha Hb Hc. repeat constructor; bytes_lia. Qed.
Lemma undigit0 : u8 (Z.lor (Z.shiftl (a / 4) 2) (Z.shiftr (16 * (a mod 4) + b / 16) 4)) = a.
Proof using Ha Hb Hc.
  rewrite (Z.shiftr_div_pow2 _ 4) by done. change (2 ^ 4) with 16.
  rewrite join_6_2 by bytes_lia. unfold wrapu. change (2 ^ 8) with 256. bytes_lia.
Qed.
Lemma undigit1 : u8 (Z.lor (Z.shiftl (16 * (a mod 4) + b / 16) 4) (Z.shiftr (4 * (b mod 16) + c / 64) 2)) = b.
Proof using Ha Hb Hc.
  rewrite (Z.shiftr_div_pow2 _ 2) by done. change (2 ^ 2) with 4.
  rewrite join_6_4 by bytes_lia. unfold wrapu. change (2 ^ 8) with 256. bytes_lia.
Qed.
Lemma undigit2 : u8 (Z.lor (Z.shiftl (4 * (b mod 16) + c / 64) 6) (c mod 64)) = c.
Proof using Ha Hb Hc. rewrite join_6_6 by bytes_lia. unfold wrapu. change (2 ^ 8) with 256. bytes_lia. Qed.
End Digits.

(** ** Alphabets *)

(** A table of 64 characters, each found at its position. *)
Definition alphabet (t : list Z) : Prop :=
  zlen t = 64 ∧ Forall is_byte t ∧
  ∀ e, 0 ≤ e < 64 → recover_char 64 t 0 (i8 (default 0 (get t e))) = Ok e.
Definition alphabet_b (t : list Z) : bool :=
  (zlen t =? 64) && forallb (λ b, bool_decide (is_byte b)) t &&
  forallb (λ e, bool_decide (is_ok (recover_char 64 t 0 (i8 (default 0 (get t e))))) &&
    (match recover_char 64 t 0 (i8 (default 0 (get t e))) with Ok x => x =? e | Fault _ => false end)) (upto 64).
Lemma alphabet_b_ok t : alphabet_b t = true → alphabet t.
Proof.
  unfold alphabet_b. rewrite !andb_true_iff. intros [[Hl Hb] He]. split_and!.
  - lia.
  - rewrite Forall_forall. intros b Hin. rewrite forallb_forall in Hb.
    apply (bool_decide_unpack _). rewrite Hb; [done|]. by apply list_elem_of_In.
  - intros e Hr. rewrite forallb_forall in He.
    specialize (He e). rewrite andb_true_iff in He. destruct He as [_ He].
    { by apply list_elem_of_In, elem_of_upto. }
    destruct (recover_char _ _ _ _); [|done]. f_equal. lia.
Qed.
Lemma tables_ok : length szConvertTable = 10%nat ∧ Forall alphabet szConvertTable.
Proof.
  split; [done|]. rewrite Forall_forall. intros t Ht. apply alphabet_b_ok.
  assert (forallb alphabet_b szConvertTable = true) as E by (vm_compute; reflexivity).
  rewrite forallb_forall in E. apply E. by apply list_elem_of_In.
Qed.
Lemma table_lookup id : 0 ≤ id < 10 → ∃ t, aget szConvertTable id = Ok t ∧ alphabet t.
Proof.
  intros. destruct tables_ok as [Hl Ht].
  destruct (get_is_Some szConvertTable id) as [t E]; [unfold zlen; rewrite Hl; lia|].
  exists t. split; [apply aget_ok; [lia|done]|]. rewrite Forall_forall in Ht. apply Ht.
  by eapply list_elem_of_lookup_2.
Qed.

(** ** The two loops *)

(** Consecutive stores. *)
Lemma aset_next (buf d : list Z) n x :
  0 ≤ n → n + zlen d < zlen buf → aset (splice buf n d) (n + zlen d) x = Ok (splice buf n (d ++ [x])).
Proof.
  intros. pose proof (zlen_nonneg d). rewrite aset_ok by (rewrite zlen_splice; lia).
  by rewrite splice_splice_app by (change (zlen [x]) with 1; lia).
Qed.
Ltac store_next :=
  match goal with
  | |- context [aset (splice ?b ?n ?d) (?n + ?k) ?x] =>
      change (aset (splice b n d) (n + k) x) with (aset (splice b n d) (n + zlen d) x);
      rewrite aset_next by (unfold zlen in *; cbn [length app]; lia); cbn [mbind outcome_bind app]
  end.
Definition entry (t : list Z) (e : Z) : Z := default 0 (get t e).
Lemma aget_entry t e : alphabet t → 0 ≤ e < 64 → aget t e = Ok (entry t e).
Proof. intros [Hl _] He. apply aget_default. lia. Qed.
Lemma entry_byte t e : alphabet t → is_byte (entry t e).
Proof.
  intros (_ & Hb & _). unfold entry. destruct (get t e) eqn:E; [|done].
  cbn. eapply Forall_lookup_1; [exact Hb|exact E].
Qed.

Lemma get_sub3 s off a b c : sub s off 3 = [a; b; c] → char_at (sub s off 3) 0 = Ok (i8 a) ∧
  char_at (sub s off 3) 1 = Ok (i8 b) ∧ char_at (sub s off 3) 2 = Ok (i8 c).
Proof. by intros ->. Qed.
Lemma Convert_chunk_ok t s offset buf n a b c :
  alphabet t → is_byte a → is_byte b → is_byte c →
  0 ≤ offset → offset + 3 ≤ zlen s → sub s offset 3 = [a; b; c] → 0 ≤ n → n + 4 ≤ zlen buf →
  Convert_chunk t s offset (buf, n) = Ok (splice buf n (entry t <$> digits a b c), n + 4).
Proof.
  intros Ht Ha Hb Hc ?? Hs ??. unfold Convert_chunk. rewrite peek_ok by lia. cbn [mbind outcome_bind].
  destruct (get_sub3 _ _ _ _ _ Hs) as (-> & -> & ->). cbn [mbind outcome_bind].
  rewrite (digit0 a b c), (digit1 a b c), (digit2 a b c), (digit3 a b c) by done.
  pose proof (digits_range a b c Ha Hb Hc) as Hr. unfold digits in Hr. rewrite !Forall_cons in Hr.
  destruct Hr as (D0 & D1 & D2 & D3 & _).
  rewrite (aget_entry t _ Ht D0). cbn [mbind outcome_bind]. rewrite aset_ok by lia. cbn [mbind outcome_bind].
  rewrite (aget_entry t _ Ht D1), (aget_entry t _ Ht D2), (aget_entry t _ Ht D3). cbn [mbind outcome_bind].
  do 3 store_next.
  done.
Qed.

Lemma Recover_chunk_ok t s offset buf n a b c :
  alphabet t → is_byte a → is_byte b → is_byte c →
  0 ≤ offset → offset + 4 ≤ zlen s → sub s offset 4 = entry t <$> digits a b c → 0 ≤ n → n + 3 ≤ zlen buf →
  Recover_chunk t s offset (buf, n) = Ok (splice buf n [a; b; c], n + 3).
Proof.
  intros Ht Ha Hb Hc ?? Hs ??.
  assert (∀ k e, 0 ≤ k < 4 → get (digits a b c) k = Some e → 0 ≤ e < 64 →
    (enc ← char_at s (offset + k); recover_char 64 t 0 enc) = Ok e) as Hk.
  { intros k e Hk Hd He. unfold char_at. rewrite (aget_ok _ _ (entry t e)); [cbn [mbind outcome_bind]|lia|].
    - by apply Ht.
    - rewrite <-(get_sub s offset 4) by lia. rewrite Hs. unfold get in *. by rewrite list_lookup_fmap, Hd. }
  pose proof (digits_range a b c Ha Hb Hc) as Hr. unfold digits in Hr. rewrite !Forall_cons in Hr.
  destruct Hr as (D0 & D1 & D2 & D3 & _).
  assert (∀ k e (K : Z → outcome (list Z * Z)), 0 ≤ k < 4 → get (digits a b c) k = Some e → 0 ≤ e < 64 →
    (enc ← char_at s (offset + k); enc ← recover_char 64 t 0 enc; K enc) = K e) as Hseq.
  { intros k e K Hk' Hd He. specialize (Hk k e Hk' Hd He). destruct (char_at s (offset + k)); [|done].
    cbn [mbind outcome_bind] in *. rewrite Hk. done. }
  unfold Recover_chunk. rewrite <-(Z.add_0_r offset) at 1.
  rewrite (Hseq 0 (a / 4)) by done. rewrite (Hseq 1 (16 * (a mod 4) + b / 16)) by done.
  rewrite (Hseq 2 (4 * (b mod 16) + c / 64)) by done. rewrite (Hseq 3 (c mod 64)) by done.
  rewrite (undigit0 a b c), (undigit1 a b c), (undigit2 a b c) by done.
  rewrite aset_ok by lia. cbn [mbind outcome_bind].
  do 2 store_next.
  done.
Qed.

(** The text in an alphabet, three bytes to four characters. *)
Fixpoint spell (t s : list Z) : list Z :=
  match s with
  | a :: b :: c :: s' => (entry t <$> digits a b c) ++ spell t s'
  | _ => []
  end.
Lemma take3 (s : list Z) : 3 ≤ zlen s → ∃ a b c s', s = a :: b :: c :: s'.
Proof. destruct s as [|a [|b [|c s']]]; [zn..|eauto]. Qed.

Lemma Convert_loop t s :
  alphabet t → Forall is_byte s → zlen s = 81 →
  ∃ buf, for_loop 20 3 MAX_STRING_LEN 0 (Convert_chunk t s) (replicate 81 0, 0) = Ok (buf, 80) ∧
    zlen buf = 81 ∧ sub buf 0 80 = spell t (sub s 0 60).
Proof.
  intros Ht Hs Hl.
  destruct (for_loop_all 3 MAX_STRING_LEN (Convert_chunk t s)
    (λ i r, r.2 = 4 * i ∧ zlen r.1 = 81 ∧ sub r.1 0 (4 * i) ++ spell t (sub s (3 * i) (60 - 3 * i)) = spell t (sub s 0 60))
    20 20 0 (replicate 81 0, 0)) as ([buf n] & E & Hn & Hb & Hsp); [lia|done|lia| |done|].
  - intros j [buf n] Hj (Hn & Hb & Hsp). cbn [fst snd] in *. subst n.
    destruct (take3 (sub s (3 * j) (60 - 3 * j))) as (a & b & c & s' & Es); [rewrite zlen_sub; lia|].
    assert (sub s (3 * j) 3 = [a; b; c]) as E3.
    { transitivity (sub (sub s (3 * j) (60 - 3 * j)) 0 3); [rewrite sub_sub by lia; f_equal; lia|]. by rewrite Es. }
    assert (sub s (3 * (j + 1)) (60 - 3 * (j + 1)) = s') as E4.
    { transitivity (sub (sub s (3 * j) (60 - 3 * j)) 3 (60 - 3 * (j + 1))); [rewrite sub_sub by lia; f_equal; lia|].
      rewrite Es. change (a :: b :: c :: s') with ([a; b; c] ++ s'). rewrite sub_app_skip by done.
      assert (zlen (sub s (3 * j) (60 - 3 * j)) = 60 - 3 * j) as Hz by (rewrite zlen_sub; lia).
      rewrite Es, !zlen_cons in Hz. replace (60 - 3 * (j + 1)) with (zlen s') by lia. apply sub_all. }
    assert (Forall is_byte [a; b; c]) as Hby by (rewrite <-E3; by apply sub_Forall).
    rewrite !Forall_cons in Hby. destruct Hby as (? & ? & ? & _).
    pose proof (eq_refl : zlen (entry t <$> digits a b c) = 4) as H4. set (d := entry t <$> digits a b c) in *.
    rewrite Z.add_0_l, (Z.mul_comm j).
    eexists. split; [apply (Convert_chunk_ok _ _ _ _ _ a b c); first [done|lia]|].
    cbn [fst snd]. fold d. split; [lia|]. split; [rewrite zlen_splice; lia|].
    rewrite E4, <-Hsp, Es. cbn [spell]. fold d. rewrite app_assoc. f_equal.
    replace (4 * (j + 1)) with (4 * j + 4) by lia. rewrite sub_app by (rewrite ?zlen_splice; lia).
    f_equal; [rewrite sub_splice_disjoint; lia || done|].
    rewrite Z.add_0_l, <-H4. apply sub_splice_same; lia.
  - exists buf. cbn [fst snd] in *. split; [rewrite E; f_equal; f_equal; lia|]. split; [done|].
    replace (60 - 3 * Z.of_nat 20) with 0 in Hsp by lia. rewrite sub_nil, app_nil_r in Hsp. exact Hsp.
Qed.

Lemma splice_append (x d y : list Z) off :
  off = zlen x → zlen d ≤ zlen y → splice (x ++ y) off d = x ++ d ++ drop (Z.to_nat (zlen d)) y.
Proof.
  intros -> ?. pose proof (zlen_nonneg d). unfold splice. f_equal; [unfold zlen; by rewrite Nat2Z.id, take_app_length|].
  f_equal. rewrite drop_app_ge by zn. f_equal. zn.
Qed.
(** The first three bytes of what is left, and the rest. *)
Lemma next3 (s : list Z) j :
  0 ≤ j → zlen s = 60 → 3 * j < 60 → ∃ a b c, sub s (3 * j) (60 - 3 * j) =
    a :: b :: c :: sub s (3 * (j + 1)) (60 - 3 * (j + 1)) ∧ sub s (3 * j) 3 = [a; b; c].
Proof.
  intros Hj Hl Hlt. destruct (Z_lt_le_dec (60 - 3 * j) 3) as [?|H3]; [lia|].
  destruct (take3 (sub s (3 * j) 3)) as (a & b & c & r & E); [rewrite zlen_sub; lia|].
  assert (r = []) as ->.
  { apply zlen_zero_nil. apply (f_equal zlen) in E. rewrite zlen_sub, !zlen_cons in E by lia. lia. }
  exists a, b, c. split; [|done]. replace (60 - 3 * j) with (3 + (60 - 3 * (j + 1))) by lia.
  rewrite sub_app by lia. rewrite E. cbn [app]. by replace (3 * j + 3) with (3 * (j + 1)) by lia.
Qed.

Lemma Recover_loop t enc p :
  alphabet t → Forall is_byte p → zlen p = 60 → zlen enc = 81 → sub enc 0 80 = spell t p →
  for_loop 20 4 MAX_CONVERT_BUFFER_LEN 0 (Recover_chunk t enc) (replicate 81 0, 0) = Ok (p ++ replicate 21 0, 60).
Proof.
  intros Ht Hp Hl He Hsp.
  destruct (for_loop_all 4 MAX_CONVERT_BUFFER_LEN (Recover_chunk t enc)
    (λ i r, r = (sub p 0 (3 * i) ++ replicate (Z.to_nat (81 - 3 * i)) 0, 3 * i) ∧
            sub enc (4 * i) (80 - 4 * i) = spell t (sub p (3 * i) (60 - 3 * i)))
    20 20 0 (replicate 81 0, 0)) as (r & E & -> & _); [lia|done|lia| |split; [done|]|].
  - intros j r Hj [-> Hj4].
    destruct (next3 p j) as (a & b & c & E1 & E3); [lia|done|lia|].
    assert (Forall is_byte [a; b; c]) as Hby by (rewrite <-E3; by apply sub_Forall).
    rewrite !Forall_cons in Hby. destruct Hby as (? & ? & ? & _).
    rewrite E1 in Hj4. cbn [spell] in Hj4.
    replace (80 - 4 * j) with (4 + (80 - 4 * (j + 1))) in Hj4 by lia. rewrite sub_app in Hj4 by lia.
    apply app_inj_1 in Hj4 as [Hd Hrest]; [|apply Nat2Z.inj; apply (zlen_sub enc (4 * j) 4); lia].
    pose proof (zlen_sub p 0 (3 * j)) as Hz.
    eexists. rewrite Z.add_0_l, (Z.mul_comm j). split.
    { apply (Recover_chunk_ok _ _ _ _ _ a b c); rewrite ?zlen_app, ?zlen_replicate; first [done|lia]. }
    split; [|rewrite <-Hrest; f_equal; lia]. f_equal; [|lia].
    rewrite splice_append by (rewrite ?zlen_replicate; unfold zlen in *; cbn [length]; lia).
    replace (3 * (j + 1)) with (3 * j + 3) at 1 by lia. rewrite sub_app by lia. rewrite Z.add_0_l, E3, <-app_assoc.
    do 2 f_equal. rewrite drop_replicate. f_equal. unfold zlen. cbn [length]. lia.
  - change (sub enc 0 80 = spell t (sub p 0 60)). rewrite <-Hl, sub_all. exact Hsp.
  - rewrite E. change (3 * Z.of_nat 20) with 60.
    assert (sub p 0 60 = p) as -> by (rewrite <-Hl; apply sub_all). done.
Qed.

Lemma recover_data_ok g id t szData p :
  aget g id = Ok t → alphabet t → Forall is_byte p → zlen p = 60 →
  80 ≤ zlen szData → sub szData 0 80 = spell t p →
  recover_data g id szData = Ok (splice szData 0 (p ++ replicate 20 0), 60).
Proof.
  intros Hg Ht Hp Hl Hd Hsp. unfold recover_data, MAX_CONVERT_BUFFER_LEN.
  rewrite peek_ok by lia. cbn [mbind outcome_bind]. rewrite Hg. cbn [mbind outcome_bind].
  assert (zlen (sub szData 0 80) = 80) as Hs by (rewrite zlen_sub; lia).
  rewrite (Recover_loop t _ p); [|done..| |].
  2:{ rewrite zlen_app, Hs. done. }
  2:{ by rewrite sub_app_here. }
  cbn [mbind outcome_bind].
  assert (sub (p ++ replicate 21 0) 0 80 = p ++ replicate 20 0) as Es.
  { change (replicate 21 0) with (replicate 20 0 ++ [0]). rewrite app_assoc. apply sub_app_here.
    rewrite zlen_app, Hl. done. }
  rewrite peek_ok by (rewrite ?zlen_app, ?Hl; done). cbn [mbind outcome_bind]. rewrite Es.
  assert (zlen (p ++ replicate 20 0) = 80) by (rewrite zlen_app, Hl; done).
  by rewrite poke_ok by lia.
Qed.

(** ** Scrambling *)

(** The reference: every byte below [n] xor the key, repeated. *)
Definition xor_stream (n : Z) (key s : list Z) : list Z :=
  imap (λ i b, if decide (Z.of_nat i < n) then Z.lxor b (default 0 (get key (Z.of_nat i mod zlen key))) else b) s.
Lemma zlen_xor_stream n key s : zlen (xor_stream n key s) = zlen s.
Proof. unfold zlen, xor_stream. by rewrite length_imap. Qed.
Lemma get_xor_stream n key s i :
  0 ≤ i → get (xor_stream n key s) i =
    (λ b, if decide (i < n) then Z.lxor b (default 0 (get key (i mod zlen key))) else b) <$> get s i.
Proof. intros. unfold get, xor_stream. rewrite list_lookup_imap. by rewrite Z2Nat.id by done. Qed.
Lemma xor_stream_involutive n key s : xor_stream n key (xor_stream n key s) = s.
Proof.
  apply blocks_eq; [by rewrite !zlen_xor_stream|]. intros i [Hi _]. rewrite !get_xor_stream by done.
  destruct (get s i) as [b|]; [|done]. cbn. f_equal. case_decide; [|done].
  by rewrite Z.lxor_assoc, Z.lxor_nilpotent, Z.lxor_0_r.
Qed.

(** A loop whose body xors the next piece of the key's length. *)
Section XorLoop.
Context (key s : list Z) (body : Z → list Z → outcome (list Z)).
Hypothesis Hkey : 0 < zlen key.
Hypothesis Hbody : ∀ offset s', Forall is_byte s' → 0 ≤ offset → offset + zlen key ≤ zlen s' →
  body offset s' = Ok (splice s' offset (zip_with Z.lxor (sub s' offset (zlen key)) key)).
Hypothesis Hbytes : Forall is_byte s.
Hypothesis Hkb : Forall is_byte key.

Lemma lxor_byte a b : is_byte a → is_byte b → is_byte (Z.lxor a b).
Proof.
  unfold is_byte. intros Ha Hb. rewrite <-(Z.mod_small a (2 ^ 8)), <-(Z.mod_small b (2 ^ 8)) by (change (2 ^ 8) with 256; lia).
  rewrite <-mod_lxor by done. by apply Z.mod_pos_bound.
Qed.
Lemma get_zip_lxor (a b : list Z) i :
  get (zip_with Z.lxor a b) i = (x ← get a i; y ← get b i; Some (Z.lxor x y)).
Proof. unfold get. apply lookup_zip_with. Qed.
Lemma xor_stream_bytes n : Forall is_byte (xor_stream n key s).
Proof.
  apply Forall_lookup_2. intros i x Hx. unfold xor_stream in Hx. rewrite list_lookup_imap in Hx.
  destruct (s !! i) as [b|] eqn:Eb; [|done]. cbn in Hx. injection Hx as <-.
  pose proof (Forall_lookup_1 _ _ _ _ Hbytes Eb). case_decide; [|done].
  apply lxor_byte; [done|]. destruct (get key _) eqn:Ek; [|done]. by eapply Forall_lookup_1.
Qed.
Lemma xor_piece j :
  0 ≤ j → (j + 1) * zlen key ≤ zlen s →
  body (j * zlen key) (xor_stream (j * zlen key) key s) = Ok (xor_stream ((j + 1) * zlen key) key s).
Proof.
  intros Hj Hl. set (L := zlen key) in *. set (s' := xor_stream (j * L) key s).
  assert (zlen s' = zlen s) as Hs' by apply zlen_xor_stream.
  rewrite Hbody by first [apply xor_stream_bytes | nia]. f_equal.
  assert (zlen (zip_with Z.lxor (sub s' (j * L) L) key) = L) as Hz.
  { assert (Z.of_nat (length key) = L) by done.
    assert (Z.of_nat (length (sub s' (j * L) L)) = L) by (apply zlen_sub; nia).
    unfold zlen. rewrite length_zip_with. lia. }
  apply blocks_eq; [rewrite zlen_splice, zlen_xor_stream by nia; done|].
  intros i Hi. rewrite zlen_splice, Hs' in Hi by nia. rewrite get_splice by nia. rewrite Hz.
  unfold s' at 2. rewrite !get_xor_stream by lia. case_bool_decide as Hc.
  - assert (i mod L = i - j * L) as Hm.
    { replace i with ((i - j * L) + j * L) at 1 by lia. rewrite Z.mod_add by lia. apply Z.mod_small. lia. }
    rewrite get_zip_lxor, get_sub by nia. replace (j * L + (i - j * L)) with i by lia. unfold s'. rewrite get_xor_stream by lia.
    destruct (get_is_Some s i) as [b ->]; [lia|]. cbn. fold L. rewrite Hm.
    rewrite decide_False by lia. rewrite decide_True by nia.
    destruct (get_is_Some key (i - j * L)) as [k ->]; [lia|]. done.
  - destruct (get s i); [|done]. cbn. f_equal. destruct (decide (i < j * L)); [by rewrite decide_True by nia|].
    rewrite decide_False by nia. done.
Qed.
Lemma xor_stream_0 : xor_stream 0 key s = s.
Proof.
  apply blocks_eq; [apply zlen_xor_stream|]. intros i [Hi _]. rewrite get_xor_stream by done.
  destruct (get s i); [|done]. cbn. by rewrite decide_False by lia.
Qed.
Lemma xor_loop (k : nat) fuel limit :
  (k ≤ fuel)%nat → (Z.of_nat k - 1) * zlen key < limit ≤ Z.of_nat k * zlen key → Z.of_nat k * zlen key ≤ zlen s →
  for_loop fuel (zlen key) limit 0 body s = Ok (xor_stream (Z.of_nat k * zlen key) key s).
Proof.
  intros Hf Hl Hs. destruct (for_loop_all (zlen key) limit body (λ j r, r = xor_stream (j * zlen key) key s)
    k fuel 0 s) as (r & E & ->); [lia|lia|done| |by rewrite Z.mul_0_l, xor_stream_0|done].
  intros j r Hj ->. eexists. split; [|done]. rewrite Z.add_0_l. apply xor_piece; nia.
Qed.
(** The loop that runs over the end of the array. *)
Lemma xor_loop_fault (k : nat) fuel limit :
  (k < fuel)%nat → Z.of_nat k * zlen key < limit → Z.of_nat k * zlen key ≤ zlen s →
  (∀ s', zlen s' = zlen s → body (Z.of_nat k * zlen key) s' = Fault OutOfBounds) →
  for_loop fuel (zlen key) limit 0 body s = Fault OutOfBounds.
Proof.
  intros Hf Hl Hs Hout. destruct (for_loop_steps (zlen key) limit body (λ j r, r = xor_stream (j * zlen key) key s)
    k (fuel - k) 0 0 s) as (r & E & ->); [lia|nia| |by rewrite Z.mul_0_l, xor_stream_0|].
  { intros j r Hj ->. eexists. split; [|done]. rewrite Z.add_0_l, Z.sub_0_r. apply xor_piece; nia. }
  replace fuel with (k + (fuel - k))%nat by lia. rewrite E.
  destruct (fuel - k)%nat as [|m] eqn:Em; [lia|]. cbn [for_loop]. rewrite Z.add_0_l.
  rewrite (proj2 (Z.ltb_lt _ _)) by lia. rewrite Hout by (by rewrite zlen_xor_stream). done.
Qed.
End XorLoop.

Lemma Encrypt_word_ok w key offset s :
  (0 < w)%nat → Forall is_byte s → 0 ≤ offset → offset + zlen (le_enc w key) ≤ zlen s →
  Encrypt_word w key offset s =
    Ok (splice s offset (zip_with Z.lxor (sub s offset (zlen (le_enc w key))) (le_enc w key))).
Proof.
  intros Hw Hs Ho Hl. rewrite zlen_le_enc in *. unfold Encrypt_word.
  rewrite peek_ok by lia. cbn [mbind outcome_bind].
  rewrite le_enc_wraps, le_enc_lxor, le_enc_wraps.
  assert (length (sub s offset (Z.of_nat w)) = w) as Hlen by (apply Nat2Z.inj, (zlen_sub s offset (Z.of_nat w)); lia).
  assert (le_enc w (le_dec (sub s offset (Z.of_nat w))) = sub s offset (Z.of_nat w)) as ->.
  { rewrite <-Hlen at 1. by apply le_enc_dec, sub_Forall. }
  apply poke_ok; [done|]. unfold zlen at 1. rewrite length_zip_with, Hlen, length_le_enc. lia.
Qed.

Lemma xor_char a b : is_byte a → is_byte b → u8 (Z.lxor (i8 a) (i8 b)) = Z.lxor a b.
Proof.
  intros. unfold wrapu. rewrite mod_lxor by done.
  assert (∀ a, is_byte a → i8 a mod 2 ^ 8 = a) as E; [|by rewrite !E].
  intros x Hx. apply (enum1 256 (λ x, i8 x mod 2 ^ 8) (λ x, x)); [by vm_compute|done].
Qed.

(** The number of bytes the loop of [Encrypt_text] touches. *)
Definition covered (L : Z) : Z := (MAX_CONVERT_BUFFER_LEN + L - 1) / L * L.

Section Encrypt.
Context (s : list Z).
Hypothesis Hs : Forall is_byte s.
Hypothesis Hl : zlen s = 81.

Lemma Encrypt_INT32_ok key : Encrypt_INT32 key s = Ok (xor_stream 80 (le_enc 4 key) s).
Proof.
  pose proof (zlen_le_enc 4 key) as Hk. unfold Encrypt_INT32. change 4 with (Z.of_nat 4). rewrite <-Hk.
  rewrite (xor_loop (le_enc 4 key) s) with (k := 20%nat); rewrite ?Hk; first [done|lia|idtac].
  - intros. apply Encrypt_word_ok; first [done|lia].
  - apply le_enc_bytes.
Qed.
Lemma Encrypt_INT64_ok key : Encrypt_INT64 key s = Ok (xor_stream 80 (le_enc 8 key) s).
Proof.
  pose proof (zlen_le_enc 8 key) as Hk. unfold Encrypt_INT64. change 8 with (Z.of_nat 8). rewrite <-Hk.
  rewrite (xor_loop (le_enc 8 key) s) with (k := 10%nat); rewrite ?Hk; first [done|lia|idtac].
  - intros. apply Encrypt_word_ok; first [done|lia].
  - apply le_enc_bytes.
Qed.

(** A C string in an array. *)
Definition in_array (p t : list Z) : Prop := ∃ rest, p = t ++ 0 :: rest ∧ Forall (λ c, is_byte c ∧ c ≠ 0) t.
Lemma c_string_app t rest : Forall (λ c, is_byte c ∧ c ≠ 0) t → c_string (t ++ 0 :: rest) = t.
Proof.
  induction 1 as [|c t [_ Hc] _ IH]; [done|]. cbn [app c_string]. rewrite (proj2 (Z.eqb_neq _ _)) by done. by rewrite IH.
Qed.

Lemma Encrypt_text_ok p t :
  in_array p t → 0 < zlen t < 2 ^ 31 →
  Encrypt_text (Some p) s =
    let L := Z.min (zlen t) MAX_ENC_STRING_LEN in
    if bool_decide (L = 6 ∨ L = 7) then Fault OutOfBounds
    else Ok (xor_stream (covered L) (take (Z.to_nat L) t) s).
Proof.
  intros (rest & -> & Ht) Hlt. unfold Encrypt_text. rewrite c_string_app by done.
  rewrite wraps_small by (try done; zrange). destruct (Z.geb_spec 0 (zlen t)); [lia|].
  replace (if MAX_ENC_STRING_LEN <? zlen t then MAX_ENC_STRING_LEN else zlen t) with (Z.min (zlen t) MAX_ENC_STRING_LEN)
    by (destruct (Z.ltb_spec MAX_ENC_STRING_LEN (zlen t)); lia).
  cbn zeta. set (L := Z.min _ _). unfold MAX_ENC_STRING_LEN in L.
  assert (1 ≤ L ≤ 10 ∧ L ≤ zlen t) as [HL HLt] by lia. set (key := take (Z.to_nat L) t).
  assert (zlen key = L) as Hk by (unfold key; rewrite zlen_take; lia).
  assert (Forall is_byte key) as Hkb by (apply Forall_take; eapply Forall_impl; [exact Ht|]; tauto).
  set (body := λ (offset : Z) (s : list Z), szBuffer ← peek s offset L; _).
  assert (∀ offset s', Forall is_byte s' → 0 ≤ offset → offset + zlen key ≤ zlen s' →
    body offset s' = Ok (splice s' offset (zip_with Z.lxor (sub s' offset (zlen key)) key))) as Hbody.
  { intros offset s' Hs' Ho Hle. rewrite Hk in Hle |- *. unfold body. rewrite (peek_ok s') by lia. cbn [mbind outcome_bind].
    rewrite peek_ok by (rewrite ?zlen_app; pose proof (zlen_nonneg (0 :: rest)); lia). cbn [mbind outcome_bind].
    rewrite sub_app_prefix by lia. change (sub t 0 L) with key.
    assert (zip_with (λ a b, u8 (Z.lxor (i8 a) (i8 b))) (sub s' offset L) key =
            zip_with Z.lxor (sub s' offset L) key) as ->.
    { assert (Forall is_byte (sub s' offset L)) as Hsb by (by apply sub_Forall). clear -Hsb Hkb.
      revert Hkb. generalize key. induction Hsb as [|a l Ha _ IH]; intros [|b k] Hkb; try done.
      apply Forall_cons in Hkb as [Hb Hkb]. cbn [zip_with]. f_equal; [by apply xor_char|by apply IH]. }
    apply poke_ok; [done|]. unfold zlen at 1. rewrite length_zip_with.
    pose proof (zlen_sub s' offset L). unfold zlen in *. lia. }
  assert (∀ offset s', zlen s' = 81 → 81 < offset + L → body offset s' = Fault OutOfBounds) as Hout.
  { intros offset s' Hs' Ho. unfold body. by rewrite (peek_fault s') by lia. }
  change MAX_CONVERT_BUFFER_LEN with 80. case_bool_decide as H67.
  - rewrite <-Hk at 1. destruct H67 as [E|E].
    + apply (xor_loop_fault key s body) with (k := 13%nat); try done; try lia. intros s' Hs'. apply Hout; lia.
    + apply (xor_loop_fault key s body) with (k := 11%nat); try done; try lia. intros s' Hs'. apply Hout; lia.
  - assert (∃ k : nat, (k ≤ 80)%nat ∧ covered L = Z.of_nat k * L ∧ (Z.of_nat k - 1) * L < 80 ≤ Z.of_nat k * L ∧
      Z.of_nat k * L ≤ 81) as (k & Hk80 & -> & Hk1 & Hk2).
    { exists (Z.to_nat ((80 + L - 1) / L)). unfold covered, MAX_CONVERT_BUFFER_LEN.
      assert (L = 1 ∨ L = 2 ∨ L = 3 ∨ L = 4 ∨ L = 5 ∨ L = 8 ∨ L = 9 ∨ L = 10) as HC by lia.
      clear -HC. clearbody L. by repeat destruct HC as [->|HC]; [..|subst]; vm_compute; intuition first [discriminate|lia]. }
    rewrite <-Hk. apply (xor_loop key s body); try done; rewrite ?Hk; lia.
Qed.
End Encrypt.

(** ** The challenge *)
Lemma sub_xor_stream n m key s : 0 ≤ m ≤ n → m ≤ zlen s → sub (xor_stream n key s) 0 m = xor_stream m key (sub s 0 m).
Proof.
  intros. apply blocks_eq; [by rewrite zlen_xor_stream, !zlen_sub by (rewrite ?zlen_xor_stream; lia)|].
  intros i Hi. rewrite zlen_sub in Hi by (rewrite ?zlen_xor_stream; lia).
  rewrite get_sub, !get_xor_stream, get_sub by lia. rewrite Z.add_0_l.
  destruct (get s i); [|done]. cbn. f_equal. by rewrite !decide_True by lia.
Qed.

Definition challenge (i : Z) : list Z := default [] (get g_szCertifyString i).
Definition challenge_ok (t : list Z) : Prop := zlen t = 60 ∧ Forall (λ c, is_byte c ∧ c ≠ 0) t.
#[global] Instance challenge_ok_dec t : Decision (challenge_ok t) := _.
Lemma challenge_spec i : 0 ≤ i < 10 → aget g_szCertifyString i = Ok (challenge i) ∧ challenge_ok (challenge i).
Proof.
  intros Hi. split; [apply aget_default; exact Hi|].
  assert (Forall challenge_ok g_szCertifyString) as H by (apply (bool_decide_unpack _); vm_compute; exact I).
  rewrite Forall_forall in H. apply H. eapply list_elem_of_lookup_2. by apply (get_default [] _ i).
Qed.

Section Challenge.
Context `{OS}.
Implicit Types (d : CCertifyData) (tr : list syscall).

(** The state after [MakeCertifyData] with key [k]: the spelled and scrambled
    text of the challenge. *)
Record certified (d : CCertifyData) (id : Z) : Prop := {
  ce_index : 0 ≤ _nStringIndex d < 10;
  ce_table : _nConvertTableID d = id ∧ 0 ≤ id < 10;
  ce_len : zlen (_szString d) = 81;
  ce_bytes : Forall is_byte (_szString d);
  ce_text : ∃ t, aget szConvertTable id = Ok t ∧
    sub (_szString d) 0 80 = spell t (xor_stream 60 (le_enc 4 (_nEncKey d)) (challenge (_nStringIndex d))) }.

Lemma SetString_ok r d :
  zlen (_szString d) = 81 → Forall is_byte (_szString d) →
  ∃ i s, SetString r d = Ok (mkCertifyData i (_nConvertTableID d) (_nLastSendTime d) (_nCheckCount d) (_nEncKey d) s, i) ∧
    0 ≤ i < 10 ∧ zlen s = 81 ∧ Forall is_byte s ∧ sub s 0 60 = challenge i.
Proof.
  intros Hl Hb. unfold SetString. set (i := if 10 <=? _ then _ else _).
  assert (0 ≤ i < 10) as Hi.
  { subst i. destruct (Z.gtb_spec 0 (Z.rem r 10)); [done|]. destruct (Z.leb_spec 10 (Z.rem r 10)); lia. }
  destruct (challenge_spec i Hi) as [-> [Hc Hcb]]. cbn [mbind outcome_bind].
  unfold MAX_STRING_LEN. rewrite take_ge by zn. assert (zlen (challenge i ++ [0]) = 61) as H61 by (rewrite zlen_app, Hc; done).
  rewrite poke_ok by lia. cbn [mbind outcome_bind]. exists i. eexists. split_and!; [done|lia|lia|..].
  - rewrite zlen_splice; lia.
  - apply splice_Forall; [done|]. apply Forall_app. split; [|by repeat constructor].
    eapply Forall_impl; [exact Hcb|]. tauto.
  - transitivity (sub (sub (splice (_szString d) 0 (challenge i ++ [0])) 0 61) 0 60).
    { rewrite sub_sub by lia. done. }
    rewrite sub_splice_prefix by lia. by apply sub_app_here.
Qed.

Lemma xor_stream_is_bytes n key s : Forall is_byte s → Forall is_byte key → Forall is_byte (xor_stream n key s).
Proof. intros. by apply xor_stream_bytes. Qed.
Lemma spell_bytes t s : alphabet t → Forall is_byte (spell t s).
Proof.
  intros Ht. remember (length s) as n eqn:Hn. assert (length s ≤ n)%nat as Hle by lia. clear Hn. revert s Hle.
  induction n as [|n IH]; intros [|a [|b [|c s]]] Hle; try done; cbn [length] in Hle; [lia|].
  cbn [spell]. apply Forall_app. split; [|apply IH; lia].
  apply Forall_fmap, Forall_forall. intros e _. by apply entry_byte.
Qed.

Lemma Convert_ok id d t :
  aget szConvertTable id = Ok t → alphabet t → zlen (_szString d) = 81 → Forall is_byte (_szString d) →
  ∃ s, Convert szConvertTable id d =
      Ok (mkCertifyData (_nStringIndex d) id (_nLastSendTime d) (_nCheckCount d) (_nEncKey d) s, 80) ∧
    zlen s = 81 ∧ Forall is_byte s ∧ sub s 0 80 = spell t (sub (_szString d) 0 60).
Proof.
  intros Ht Ha Hl Hb. destruct (Convert_loop t (_szString d) Ha Hb Hl) as (buf & E & Hbl & Hsp).
  unfold Convert. rewrite Ht. cbn [mbind outcome_bind]. rewrite E. cbn [mbind outcome_bind].
  unfold MAX_CONVERT_BUFFER_LEN. rewrite peek_ok by lia. cbn [mbind outcome_bind].
  assert (zlen (sub buf 0 80) = 80) as Hz by (apply zlen_sub; lia).
  rewrite poke_ok by lia. cbn [mbind outcome_bind]. eexists. split_and!; [done|rewrite zlen_splice; lia|..].
  - apply splice_Forall; [done|]. rewrite Hsp. by apply spell_bytes.
  - rewrite sub_splice_prefix by lia. done.
Qed.

(** The documented range of [rand]. *)
Definition rand_nonneg : Prop := ∀ tr, 0 ≤ os_call tr sys_rand.

Lemma MakeCertifyData_ok key tr d :
  rand_nonneg → zlen (_szString d) = 81 → Forall is_byte (_szString d) →
  ∃ id tr' d', MakeCertifyData szConvertTable key (tr, d) = Ok (id, (tr', d')) ∧ certified d' id ∧
    _nCheckCount d' = i32 (_nCheckCount d + 1) ∧ (key ≠ 0 → _nEncKey d' = key).
Proof.
  intros Hr Hl Hb. unfold MakeCertifyData.
  assert (∃ k tr1, (if 0 =? key then
               r1 ← cert_sys sys_rand; r2 ← cert_sys sys_rand;
               mret (Z.lor (Z.shiftl (Z.rem r1 10000) 16) (Z.rem r2 10000))
             else mret key) (tr, d) = Ok (k, (tr1, d)) ∧ (key ≠ 0 → k = key)) as (k & tr1 & E1 & Hk).
  { destruct (Z.eqb_spec 0 key) as [<-|Hne]; [|by eexists _, _]. eexists _, _. split; [reflexivity|lia]. }
  rewrite (st_bind_ok _ _ _ _ _ E1). clear E1.
  erewrite (st_bind_ok (cert_sys sys_rand)) by reflexivity. cbv beta.
  destruct (SetString_ok (os_call tr1 sys_rand) d Hl Hb) as (i & s1 & E2 & Hi & Hl1 & Hb1 & Ht1).
  erewrite st_bind_ok by (unfold cert_run; rewrite E2; reflexivity). cbv beta.
  erewrite st_bind_ok by (unfold cert_run; cbn [_szString]; rewrite Encrypt_INT32_ok by done; reflexivity). cbv beta.
  erewrite (st_bind_ok (cert_sys sys_rand)) by reflexivity. cbv beta zeta.
  set (r := os_call _ sys_rand). set (d1 := mkCertifyData _ _ _ _ _ _).
  assert (0 ≤ Z.rem r 10 < 10) as Hid by (apply Z.rem_bound_pos; [apply Hr|lia]).
  destruct (table_lookup (Z.rem r 10) Hid) as (t & Ht & Ha).
  assert (Forall is_byte (_szString d1)) as Hb2 by (apply xor_stream_is_bytes; [done|apply le_enc_bytes]).
  assert (zlen (_szString d1) = 81) as Hl2 by (cbn; by rewrite zlen_xor_stream).
  destruct (Convert_ok _ d1 t Ht Ha Hl2 Hb2) as (s2 & E3 & Hl3 & Hb3 & Hsp).
  erewrite st_bind_ok by (unfold cert_run; rewrite E3; reflexivity). cbv beta.
  eexists _, _, _. split; [reflexivity|]. split; [|done].
  split; try done. exists t. split; [done|]. cbn [_szString d1 _nStringIndex _nEncKey] in *.
  rewrite Hsp. f_equal. rewrite sub_xor_stream by lia. by rewrite Ht1.
Qed.

(** What the peer computes from the certification data. *)
Lemma certified_answer d id buf :
  certified d id → 80 ≤ zlen buf → Forall is_byte buf →
  ∃ sent answer, GetCertifyData d buf = Ok (sent, id) ∧
    CertifyDataRecover szConvertTable id sent = Ok (answer, 60) ∧ 80 ≤ zlen answer ∧ Forall is_byte answer ∧
    sub answer 0 60 = xor_stream 60 (le_enc 4 (_nEncKey d)) (challenge (_nStringIndex d)).
Proof.
  intros [Hi [Hid Hr] Hl Hb (t & Ht & Hsp)] Hbuf Hbb.
  destruct (table_lookup id Hr) as (t' & Ht' & Ha). assert (t' = t) as -> by congruence.
  destruct (challenge_spec _ Hi) as [_ [Hc Hcb]].
  assert (Forall is_byte (challenge (_nStringIndex d))) as Hcb' by (eapply Forall_impl; [exact Hcb|]; tauto).
  set (p := xor_stream 60 _ _) in *.
  assert (zlen p = 60) as Hp by (unfold p; by rewrite zlen_xor_stream).
  assert (Forall is_byte p) as Hpb by (apply xor_stream_is_bytes; [done|apply le_enc_bytes]).
  assert (zlen (sub (_szString d) 0 80) = 80) as Hz by (apply zlen_sub; lia).
  assert (zlen (p ++ replicate 20 0) = 80) as Hz2 by (rewrite zlen_app, Hp; done).
  unfold GetCertifyData, MAX_CONVERT_BUFFER_LEN. rewrite peek_ok by lia. cbn [mbind outcome_bind].
  rewrite poke_ok by lia. cbn [mbind outcome_bind]. rewrite Hid. eexists _, _. split; [reflexivity|].
  unfold CertifyDataRecover. split.
  { apply (recover_data_ok _ _ t); try done; [by rewrite zlen_splice by lia|]. rewrite sub_splice_prefix by lia. done. }
  rewrite !zlen_splice by (rewrite ?zlen_splice; lia). split; [done|]. split.
  { apply splice_Forall; [by apply splice_Forall, sub_Forall|].
    apply Forall_app. split; [done|by apply Forall_replicate]. }
  transitivity (sub (sub (splice (splice buf 0 (sub (_szString d) 0 80)) 0 (p ++ replicate 20 0)) 0 80) 0 60).
  { rewrite sub_sub by lia. done. }
  rewrite sub_splice_prefix by (rewrite ?zlen_splice; lia). by apply sub_app_here.
Qed.

Lemma CheckCertifyData_ok d id szData :
  certified d id → 80 ≤ zlen szData → Forall is_byte szData →
  ∃ d', CheckCertifyData szData d =
      Ok (d', bool_decide (sub szData 0 60 = xor_stream 60 (le_enc 4 (_nEncKey d)) (challenge (_nStringIndex d)))) ∧
    (sub szData 0 60 = xor_stream 60 (le_enc 4 (_nEncKey d)) (challenge (_nStringIndex d)) →
     _nCheckCount d' = i32 (_nCheckCount d - 1)).
Proof.
  intros [Hi _ Hl Hb _] Hd Hdb. destruct (challenge_spec _ Hi) as [Hc [Hcl Hcb]].
  unfold CheckCertifyData, MAX_CONVERT_BUFFER_LEN, Decrypt_INT32.
  assert (zlen (sub szData 0 80) = 80) as Hz by (apply zlen_sub; lia).
  rewrite (peek_ok szData) by lia. cbn [mbind outcome_bind]. rewrite poke_ok by lia. cbn [mbind outcome_bind].
  set (s := splice _ _ _). assert (zlen s = 81) as Hs by (unfold s; rewrite zlen_splice; lia).
  rewrite Encrypt_INT32_ok by (done || (apply splice_Forall; [done|by apply sub_Forall])). cbn [mbind outcome_bind].
  rewrite Hc. cbn [mbind outcome_bind]. set (k := le_enc 4 _). set (c := challenge _) in *.
  assert (sub s 0 60 = sub szData 0 60) as H60.
  { transitivity (sub (sub s 0 80) 0 60); [by rewrite sub_sub by lia|].
    unfold s. rewrite sub_splice_prefix by lia. by rewrite sub_sub by lia. }
  assert (strncmp (length c) (xor_stream 80 k s) c = 0 ↔ sub szData 0 60 = xor_stream 60 k c) as Hiff.
  { rewrite strncmp_prefix_r by (eapply Forall_impl; [exact Hcb|]; tauto).
    transitivity (sub (xor_stream 80 k s) 0 60 = c).
    - split.
      + intros [r Hr]. rewrite Hr. by apply sub_app_here.
      + intros <-. exists (sub (xor_stream 80 k s) 60 (zlen (xor_stream 80 k s) - 60)).
        rewrite sub_split; [done|]. rewrite zlen_xor_stream. lia.
    - rewrite sub_xor_stream, H60 by lia. split; [intros <-|intros ->]; by rewrite xor_stream_involutive. }
  destruct (Z.eqb_spec 0 (strncmp (length c) (xor_stream 80 k s) c)) as [E|E]; cbn [negb]; eexists; split.
  - by rewrite bool_decide_true by (by apply Hiff).
  - done.
  - rewrite bool_decide_false by (intros ?%Hiff; lia). done.
  - intros ?%Hiff. lia.
Qed.
End Challenge.

(** C33: the certification round trip.  For any key and any results of rand, the
    data made and sent is recovered by the peer into an answer that the maker
    accepts, and no other answer is: a reply passes exactly when its first
    sixty bytes are those of the recovered data.  An accepted reply takes the
    check counter back to where it was. *)
Theorem certify_roundtrip `{OS} key tr d buf :
  rand_nonneg → zlen (_szString d) = 81 → Forall is_byte (_szString d) → - 2 ^ 31 ≤ _nCheckCount d < 2 ^ 31 - 1 →
  80 ≤ zlen buf → Forall is_byte buf →
  ∃ id tr' d' sent answer,
    MakeCertifyData szConvertTable key (tr, d) = Ok (id, (tr', d')) ∧
    GetCertifyData d' buf = Ok (sent, id) ∧ CertifyDataRecover szConvertTable id sent = Ok (answer, 60) ∧
    (∃ d'', CheckCertifyData answer d' = Ok (d'', true)) ∧
    ∀ reply, 80 ≤ zlen reply → Forall is_byte reply →
      ∃ d'' ok, CheckCertifyData reply d' = Ok (d'', ok) ∧ (ok = true ↔ sub reply 0 60 = sub answer 0 60) ∧
                (ok = true → _nCheckCount d'' = _nCheckCount d).
Proof.
  intros Hr Hl Hb Hcount Hbuf Hbb.
  destruct (MakeCertifyData_ok key tr d Hr Hl Hb) as (id & tr' & d' & E1 & Hc & Hn & _).
  destruct (certified_answer d' id buf Hc Hbuf Hbb) as (sent & answer & E2 & E3 & Hal & Hab & Ha).
  exists id, tr', d', sent, answer. split; [done|]. split; [done|]. split; [done|]. split.
  { destruct (CheckCertifyData_ok d' id answer Hc Hal Hab) as (d'' & E & _). exists d''. rewrite E, Ha.
    by rewrite bool_decide_true. }
  intros reply Hrl Hrb. destruct (CheckCertifyData_ok d' id reply Hc Hrl Hrb) as (d'' & E & Hd).
  rewrite <-Ha in E, Hd. eexists d'', _. split; [exact E|]. split; [apply bool_decide_eq_true|].
  intros Hok%bool_decide_eq_true. rewrite (Hd Hok), Hn.
  rewrite (wraps_small 32 (_nCheckCount d + 1)) by (done || zrange).
  rewrite wraps_small by (done || zrange). lia.
Qed.

(** C34: the three ways to scramble are one.  [Encrypt] with a 32-bit key, a
    64-bit key or a string xors the 80 characters with the bytes of the key
    over and over; used twice it gives the text back.  With a string of six or
    of seven characters the last piece leaves the array. *)
Theorem Encrypt_equivalence s k32 k64 p t :
  zlen s = 81 → Forall is_byte s → in_array p t → 0 < zlen t < 2 ^ 31 →
  let L := Z.min (zlen t) MAX_ENC_STRING_LEN in
  Encrypt_INT32 k32 s = Ok (xor_stream 80 (le_enc 4 k32) s) ∧
  Encrypt_INT64 k64 s = Ok (xor_stream 80 (le_enc 8 k64) s) ∧
  Encrypt_text (Some p) s = (if bool_decide (L = 6 ∨ L = 7) then Fault OutOfBounds
                             else Ok (xor_stream (covered L) (take (Z.to_nat L) t) s)) ∧
  ∀ n key, xor_stream n key (xor_stream n key s) = s.
Proof.
  intros Hl Hb Hp Ht L. split; [by apply Encrypt_INT32_ok|]. split; [by apply Encrypt_INT64_ok|].
  split; [by apply Encrypt_text_ok|]. intros. apply xor_stream_involutive.
Qed.

(** ** Instances *)
#[local] Instance cert_demo_os : OS :=
  {| os_call := λ _ c, match c with sys_rand => 7 | _ => 0 end; os_peer_ip := λ _ _, []; os_resolve := λ _, None;
     os_pton := λ _, 0; os_accept_addr := λ _ _, (0, 0); os_mbstowcs := λ s, s; os_wcstombs := λ s, s; os_fresh := [] |}.
Lemma certify_roundtrip_witness :
  ∃ id tr' d' sent answer,
    MakeCertifyData szConvertTable 77 ([], CCertifyData_new) = Ok (id, (tr', d')) ∧
    GetCertifyData d' (replicate 80 0) = Ok (sent, id) ∧ CertifyDataRecover szConvertTable id sent = Ok (answer, 60) ∧
    (∃ d'', CheckCertifyData answer d' = Ok (d'', true)) ∧
    ∀ reply, 80 ≤ zlen reply → Forall is_byte reply →
      ∃ d'' ok, CheckCertifyData reply d' = Ok (d'', ok) ∧ (ok = true ↔ sub reply 0 60 = sub answer 0 60) ∧
                (ok = true → _nCheckCount d'' = _nCheckCount CCertifyData_new).
Proof.
  apply (certify_roundtrip 77 [] CCertifyData_new (replicate 80 0)).
  - intros tr. discriminate.
  - reflexivity.
  - by apply Forall_replicate.
  - split; [discriminate|reflexivity].
  - discriminate.
  - by apply Forall_replicate.
Defined.
Lemma Encrypt_equivalence_witness :
  let L := Z.min (zlen [65; 66; 67]) MAX_ENC_STRING_LEN in
  Encrypt_INT32 5 (replicate 81 0) = Ok (xor_stream 80 (le_enc 4 5) (replicate 81 0)) ∧
  Encrypt_INT64 6 (replicate 81 0) = Ok (xor_stream 80 (le_enc 8 6) (replicate 81 0)) ∧
  Encrypt_text (Some [65; 66; 67; 0]) (replicate 81 0) = (if bool_decide (L = 6 ∨ L = 7) then Fault OutOfBounds
     else Ok (xor_stream (covered L) (take (Z.to_nat L) [65; 66; 67]) (replicate 81 0))) ∧
  ∀ n key, xor_stream n key (xor_stream n key (replicate 81 0)) = replicate 81 0.
Proof.
  apply (Encrypt_equivalence (replicate 81 0) 5 6 [65; 66; 67; 0] [65; 66; 67]).
  - reflexivity.
  - by apply Forall_replicate.
  - exists []. split; [reflexivity|]. repeat constructor; discriminate.
  - split; reflexivity.
Defined.

(** Filling the tables. *)
Lemma CertifyConvertTableInit_ok g : length g = 10%nat → CertifyConvertTableInit g = Ok szConvertTable.
Proof.
  intros Hg. do 10 (destruct g as [|? g]; [discriminate|]). destruct g; [|discriminate]. vm_compute. reflexivity.
Qed.
