(* ===== verification/Connector.v ===== *)
(** * Connectors: _framework/connector.h, connector.cpp, connector_impl.cpp
    The send side of a connector is a queue of buffers with at most one
    overlapped send outstanding; the receive side is one overlapped receive
    and a ring from which one frame per completion is cut. *)
From S2P Require Import Prelude Buffer Packet ObjectPool PacketQueue TimeSet System.

(** ** Send side: pure on the connector; [self] is [this] *)
Section Operations.
Context `{OS}.

Definition AddSendQueue (self : Z) (pSendData : option (list Z)) (dwSendDataSize : Z)
    (c : Connector) : outcome (Connector * Z) :=
  '(pSendBuffer, nRet) ← SetSendData (NetworkBuffer_new os_fresh) (Some self) pSendData dwSendDataSize;
  if 0 >? nRet then Ok (c, -1)
  else
    let q := _SendQueue c ++ [pSendBuffer] in
    Ok (set_send (_SendRequest c) q (_dwSendRef c) c, i32 (zlen q)).

(** The part of [SendPrepare] under the queue lock. *)
Definition SendPrepare_locked (self : Z) (c : Connector) : outcome (Connector * Z) :=
  match _SendQueue c with
  | [] => Fault EmptyContainer
  | pSendData :: q =>
      let c1 := set_send (mkSendOverlapped (Some self) OP_SEND (Some pSendData)) q (_dwSendRef c) c in
      Ok (IncSendRef c1, i32 (GetDataSize (nb_base pSendData)))
  end.
Definition SendPrepare (self : Z) (c : Connector) : outcome (Connector * Z) :=
  if bool_decide (_SendQueue c = []) then Ok (c, 0)
  else if 0 <? _dwSendRef c then Ok (c, 0)
  else SendPrepare_locked self c.

Definition SendComplete (dwSendSize : Z) (c : Connector) : outcome (Connector * Z) :=
  match so_pBuffer (_SendRequest c) with
  | None => Ok (c, 0)
  | Some pBuffer =>
      let req := _SendRequest c in
      if dwSendSize <? GetDataSize (nb_base pBuffer) then
        let base := set_nDataSize (u32 (_nDataSize (nb_base pBuffer) - dwSendSize)) (nb_base pBuffer) in
        let wsa := mkWSABUF ((λ off, off + dwSendSize) <$> wsa_buf (_WSABuffer pBuffer))
                            (u32 (wsa_len (_WSABuffer pBuffer) - dwSendSize)) in
        let pBuffer' := mkNetworkBuffer base wsa (nb_pConnector pBuffer) in
        Ok (set_send (mkSendOverlapped (so_pConnector req) (so_NetOp req) (Some pBuffer'))
              (_SendQueue c) (_dwSendRef c) c, i32 (_nDataSize base))
      else
        let c1 := DecSendRef c in
        Ok (set_send (mkSendOverlapped (so_pConnector req) (so_NetOp req) None)
              (_SendQueue c1) (_dwSendRef c1) c1, 0)
  end.

(** The bytes the WSABUF describes, read when the kernel takes them. *)
Definition wsa_bytes (nb : NetworkBuffer) : outcome (list Z) :=
  match wsa_buf (_WSABuffer nb) with
  | None => Fault NullDeref
  | Some off => peek (_pBuffer (nb_base nb)) off (wsa_len (_WSABuffer nb))
  end.
Definition GetSendWSABuffer (c : Connector) : outcome NetworkBuffer :=
  match so_pBuffer (_SendRequest c) with
  | None => Fault NullDeref
  | Some nb => Ok nb
  end.
Definition GetRecvWSABuffer (c : Connector) : NetworkBuffer := ro_pBuffer (_RecvRequest c).

(** ** Receive side *)
Definition nb_Reset (nb : NetworkBuffer) : outcome NetworkBuffer :=
  b ← BufferBase_Reset (nb_base nb); Ok (mkNetworkBuffer b (_WSABuffer nb) (nb_pConnector nb)).

Definition RecvPrepare (self : Z) (c : Connector) : outcome (Connector * Z) :=
  nb ← nb_Reset (ro_pBuffer (_RecvRequest c));
  let '(nb', nRet) := SetRecvData nb (Some self) in
  let c1 := set_recv (mkRecvOverlapped (Some self) OP_RECV nb') (_RecvDataBuffer c) (_dwRecvRef c) c in
  Ok (if negb (nRet =? 0) then IncRecvRef c1 else c1, nRet).

Definition AcceptPrepare_conn (self : Z) (c : Connector) : outcome (Connector * Z) :=
  nb ← nb_Reset (ro_pBuffer (_RecvRequest c));
  let '(nb', nRet) := SetAcceptData nb (Some self) in
  let c1 := set_recv (mkRecvOverlapped (Some self) OP_ACCEPT nb') (_RecvDataBuffer c) (_dwRecvRef c) c in
  Ok (if negb (nRet =? 0) then IncRecvRef c1 else c1, nRet).

(** [DataParser] of svr and of cli: the same text.  [nPacketLength] is an int
    passed as a DWORD&. *)
Definition DataParser (ring : CircleBuffer) : outcome Z :=
  '(result, nPacketLength) ← ParseNetworkData ring 0;
  match result with
  | RC_invalid_packet => Ok (-1)
  | _ => Ok (i32 nPacketLength)
  end.

(** The parser of the framework library itself. *)
Definition DefaultDataParser (buffer : CircleBuffer) : outcome Z :=
  '(m, _) ← CircleBuffer_Read buffer (le_enc 4 0) 4;
  let nPacketLength := i32 (le_dec m) in
  if i32 (GetDataSize buffer) <? nPacketLength then Ok 0 else Ok nPacketLength.

Definition DataParsing (c : Connector) : outcome Z :=
  match funcDataParser c with
  | Some f => f (_RecvDataBuffer c)
  | None => DefaultDataParser (_RecvDataBuffer c)
  end.

(** *** Cutting a frame: the body of [RecvComplete]

    [rs] is the receive queue and its packets; the result is negative when
    the caller must disconnect. *)
Definition RecvComplete (self : Z) (dwRecvSize : Z) (c : Connector)
    (rs : PacketDataQueue * PacketHeap) : outcome (Connector * (PacketDataQueue * PacketHeap) * Z) :=
  let '(q, h) := rs in
  let req := _RecvRequest c in
  let nb := ro_pBuffer req in
  let nb' := mkNetworkBuffer (set_nDataSize dwRecvSize (nb_base nb)) (_WSABuffer nb) (nb_pConnector nb) in
  let pRecvData := _pBuffer (nb_base nb) in
  let c1 := DecRecvRef (set_recv (mkRecvOverlapped (ro_pConnector req) (ro_NetOp req) nb')
                          (_RecvDataBuffer c) (_dwRecvRef c) c) in
  if GetEmptySize (_RecvDataBuffer c1) <? dwRecvSize then Ok (c1, (q, h), -1)
  else
    '(ring, _) ← CircleBuffer_Write (_RecvDataBuffer c1) pRecvData dwRecvSize;
    let c2 := set_recv (_RecvRequest c1) ring (_dwRecvRef c1) c1 in
    nPacketLength ← DataParser ring;
    if 0 <? nPacketLength then
      let '(p, h1) := GetFreePacketStruct h os_fresh in
      let pPacket := PacketStruct_new os_fresh in
      '(d, n) ← CircleBuffer_Read ring (_pBuffer (ps_base pPacket)) nPacketLength;
      let pPacket' := mkPacketStruct (set_nDataSize n (set_pBuffer d (ps_base pPacket))) (Some self) in
      let '(ring', _) := CircleBuffer_Erase ring nPacketLength in
      let c3 := set_recv (_RecvRequest c2) ring' (_dwRecvRef c2) c2 in
      let h2 := mkPacketHeap (<[p := pPacket']> (ph_cells h1)) (ph_next h1) in
      '(q', _) ← RecvPacketQueue_Push q (Some p) 0;
      Ok (c3, (q', h2), i32 (GetDataSize ring'))
    else Ok (c2, (q, h), -1).

(** The same, on the world. *)
Definition net_RecvComplete (self dwRecvSize : Z) : net Z :=
  c ← conn_get self;
  '(c', (q, h), r) ← (λ w, st_lift (RecvComplete self dwRecvSize c (nw_recvq w, nw_packets w)) w);
  _ ← conn_set self c';
  _ ← st_modify (λ w, set_nw_packets h (set_nw_recvq q w));
  mret r.

(** ** Names, timers, release *)
Definition truncate_copy (n : Z) (s : list Z) : list Z := take (Z.to_nat (n - 1)) s.
Definition SetDomainA (pszDomain : list Z) (wPort : Z) (c : Connector) : Connector :=
  let sz := truncate_copy MAX_LEN_DOMAIN_STRING pszDomain in
  set_domain sz (truncate_copy MAX_LEN_DOMAIN_STRING (os_mbstowcs sz)) wPort c.
(** [wcsncpy_s] is given the length itself, not [_TRUNCATE]. *)
Definition SetDomain (pwcsDomain : list Z) (wPort : Z) (c : Connector) : outcome Connector :=
  if zlen pwcsDomain <? MAX_LEN_DOMAIN_STRING then
    Ok (set_domain (truncate_copy MAX_LEN_DOMAIN_STRING (os_wcstombs pwcsDomain)) pwcsDomain wPort c)
  else Fault InvalidParameter.
Definition GetSocket2IP (tr : list syscall) (c : Connector) : list Z := os_peer_ip tr (_socket c).
Definition ConvertSocket2IP (self : Z) : net unit := λ w,
  conn_mod self (λ c,
    let ip := os_peer_ip (nw_trace w) (_socket c) in
    set_domain ip (truncate_copy MAX_LEN_IP4_STRING (os_mbstowcs ip)) (_wPort c) c) w.

(** The server's timer: armed on first use. *)
Definition svr_DoUpdate (biCurrTime : Z) (c : Connector) : Connector * bool :=
  let c := if 0 =? _biUpdateTimer c
           then set_timers (i64 (biCurrTime + MILLISEC_A_MIN)) (_biHeartbeatTimer c) c else c in
  if _biUpdateTimer c <? biCurrTime
  then (set_timers (i64 (biCurrTime + MILLISEC_A_MIN)) (_biHeartbeatTimer c) c, true)
  else (c, false).
(** The client's. *)
Definition cli_DoUpdate (biCurrTime : Z) (c : Connector) : Connector * bool :=
  if _biUpdateTimer c <? biCurrTime
  then (set_timers (i64 (biCurrTime + MILLISEC_A_SEC)) (_biHeartbeatTimer c) c, true)
  else (c, false).
Definition cli_CheckHeartbeat (biCurrTime : Z) (c : Connector) : Connector * bool :=
  if GetActive c && (_biHeartbeatTimer c <? biCurrTime)
  then (set_timers (_biUpdateTimer c) (i64 (biCurrTime + MILLISEC_A_SEC * 30)) c, true)
  else (c, false).

(** [shutdown], [closesocket]; [_socket = INVALID_SOCKET]. *)
Definition close_own_socket (self : Z) : net unit :=
  c ← conn_get self;
  if negb (INVALID_SOCKET =? _socket c) then
    _ ← sys (sys_shutdown (_socket c));
    _ ← sys (sys_closesocket (_socket c));
    conn_mod self (SetSocket INVALID_SOCKET)
  else mret tt.

Definition Connector_Release (self : Z) : net unit :=
  _ ← close_own_socket self;
  conn_mod self (λ c,
    match so_pBuffer (_SendRequest c) with
    | Some _ => set_send (mkSendOverlapped (so_pConnector (_SendRequest c)) (so_NetOp (_SendRequest c)) None)
                  (_SendQueue c) (_dwSendRef c) c
    | None => c
    end).

Definition TryRelease (self : Z) : net unit :=
  _ ← close_own_socket self;
  c ← conn_get self;
  if bool_decide (_param c = None) then
    _ ← Connector_Release self;
    ConnectorMgr_SetFreeObject self
  else mret tt.
End Operations.

(** Fresh memory has the size that was asked for. *)
Class OSLaws `{OS} := { os_fresh_len : zlen os_fresh = MAX_PACKET_BUFFER_SIZE + 1 }.

(** ** What the send side holds *)

(** The unsent bytes of a buffer. *)
Record sbuf (nb : NetworkBuffer) (bs : list Z) : Prop := {
  sb_size : _nDataSize (nb_base nb) = zlen bs;
  sb_small : 0 < zlen bs < 2 ^ 31;
  sb_wsa : wsa_len (_WSABuffer nb) = zlen bs;
  sb_bytes : wsa_bytes nb = Ok bs }.

(** [out]: the send in flight; [q]: the queue behind it. *)
Record send_state (c : Connector) (out : option (list Z)) (q : list (list Z)) : Prop := {
  ss_out : match out with
           | None => so_pBuffer (_SendRequest c) = None ∧ _dwSendRef c = 0
           | Some b => _dwSendRef c = 1 ∧ ∃ nb, so_pBuffer (_SendRequest c) = Some nb ∧ sbuf nb b
           end;
  ss_queue : Forall2 sbuf (_SendQueue c) q }.

Section SendLaws.
Context `{OSLaws}.
Implicit Types (c : Connector) (q : list (list Z)).

Lemma wsa_bytes_sub nb off bs :
  wsa_buf (_WSABuffer nb) = Some off → wsa_bytes nb = Ok bs →
  0 ≤ off ∧ off + zlen bs ≤ zlen (_pBuffer (nb_base nb)) ∧
  0 ≤ wsa_len (_WSABuffer nb) ∧ zlen bs = wsa_len (_WSABuffer nb) ∧
  bs = sub (_pBuffer (nb_base nb)) off (wsa_len (_WSABuffer nb)).
Proof.
  intros E. unfold wsa_bytes. rewrite E. unfold peek. case_bool_decide as Hb; [|done].
  intros [= <-]. rewrite zlen_sub by lia. split_and!; [lia..|done].
Qed.

Lemma sbuf_new self src n :
  0 < n ≤ MAX_PACKET_BUFFER_SIZE → n ≤ zlen src →
  ∃ nb, SetSendData (NetworkBuffer_new os_fresh) (Some self) (Some src) n = Ok (nb, n) ∧
        sbuf nb (sub src 0 n).
Proof.
  intros Hn Hs. pose proof os_fresh_len as Hf. unfold MAX_PACKET_BUFFER_SIZE in *.
  unfold SetSendData. simpl. unfold MAX_PACKET_BUFFER_SIZE.
  destruct (Z.ltb_spec (1024 * 10) n); [lia|].
  rewrite peek_ok by lia. cbn [mbind outcome_bind].
  rewrite poke_ok by blia. cbn [mbind outcome_bind].
  eexists; split; [f_equal; f_equal; simpl; apply wraps_small; [lia|unfold in_s; lia]|].
  split; simpl; rewrite ?zlen_sub by lia; [done|lia|done|].
  unfold wsa_bytes. simpl. rewrite peek_ok by blia.
  f_equal. apply sub_splice_prefix; blia.
Qed.

Lemma AddSendQueue_ok self src n c out q :
  send_state c out q → 0 < n ≤ MAX_PACKET_BUFFER_SIZE → n ≤ zlen src → zlen q < 2 ^ 31 - 1 →
  ∃ c', AddSendQueue self (Some src) n c = Ok (c', zlen q + 1) ∧
        send_state c' out (q ++ [sub src 0 n]) ∧ _socket c' = _socket c.
Proof.
  intros [Ho Hq] Hn Hs Hl. destruct (sbuf_new self src n Hn Hs) as (nb & E & Hnb).
  unfold AddSendQueue. rewrite E. cbn [mbind outcome_bind].
  rewrite Z.gtb_ltb. zcases.
  pose proof (Forall2_length _ _ _ Hq). eexists. split; [|split].
  - assert (i32 (zlen (_SendQueue c ++ [nb])) = zlen q + 1) as ->; [|done].
    rewrite zlen_app, zlen_cons, zlen_nil. unfold zlen in *.
    rewrite wraps_small; [lia|lia|unfold in_s; lia].
  - split; simpl; [done|]. apply Forall2_app; [done|]. by constructor.
  - done.
Qed.

Lemma SendPrepare_idle self c q :
  send_state c None q →
  match q with
  | [] => SendPrepare self c = Ok (c, 0)
  | b :: q' => ∃ c', SendPrepare self c = Ok (c', zlen b) ∧ send_state c' (Some b) q' ∧
                     _socket c' = _socket c
  end.
Proof.
  intros [[Ho Hr] Hq]. unfold SendPrepare. destruct q as [|b q'].
  - inversion Hq as [E|]. by rewrite bool_decide_true.
  - inversion Hq as [|nb ? l ? Hnb Hl E]; subst. rewrite bool_decide_false by done.
    rewrite Hr. simpl. unfold SendPrepare_locked. rewrite <-E. simpl.
    destruct Hnb as [Hsz Hsm Hwl Hwb].
    unfold GetDataSize. rewrite Hsz, (wraps_small 32) by (unfold in_s; lia).
    eexists. split; [done|split; [|done]].
    split; simpl; [|done]. split; [by rewrite Hr|]. eexists; split; [done|]. by split.
Qed.

Lemma SendPrepare_busy self c b q :
  send_state c (Some b) q → SendPrepare self c = Ok (c, 0).
Proof.
  intros [[Hr _] _]. unfold SendPrepare. case_bool_decide; [done|]. by rewrite Hr.
Qed.

Lemma SendComplete_partial k c b q :
  send_state c (Some b) q → 0 < k < zlen b →
  ∃ c', SendComplete k c = Ok (c', zlen b - k) ∧
        send_state c' (Some (sub b k (zlen b - k))) q ∧ _socket c' = _socket c.
Proof.
  intros [(Hr & nb & Hb & [Hsz Hsm Hwl Hwb]) Hq] Hk. unfold SendComplete. rewrite Hb.
  unfold GetDataSize. rewrite Hsz. zcases.
  assert (u32 (zlen b - k) = zlen b - k) as E by (apply wrapu_small; unfold in_u; lia).
  destruct (wsa_buf (_WSABuffer nb)) as [off|] eqn:Eo.
  2:{ unfold wsa_bytes in Hwb. by rewrite Eo in Hwb. }
  destruct (wsa_bytes_sub _ _ _ Eo Hwb) as (Ho1 & Ho2 & _ & _ & Hbs). rewrite Hwl in Hbs.
  simpl. rewrite E, (wraps_small 32) by (unfold in_s; lia).
  eexists. split; [done|split; [|done]]. split; simpl; [|done]. split; [done|].
  eexists; split; [done|]. split; simpl; rewrite ?zlen_sub by lia; [done|lia|by rewrite Hwl, E|].
  unfold wsa_bytes. simpl. rewrite Hwl, E, peek_ok by lia. f_equal.
  rewrite Hbs at 2. by rewrite sub_sub by lia.
Qed.

Lemma SendComplete_full k c b q :
  send_state c (Some b) q → zlen b ≤ k →
  ∃ c', SendComplete k c = Ok (c', 0) ∧ send_state c' None q ∧ _socket c' = _socket c.
Proof.
  intros [(Hr & nb & Hb & [Hsz Hsm Hwl Hwb]) Hq] Hk. unfold SendComplete. rewrite Hb.
  unfold GetDataSize. rewrite Hsz. zcases. eexists; split; [done|]. split; [|done].
  split; simpl; [|done]. split; [done|]. by rewrite Hr.
Qed.

Lemma send_state_socket s c out q : send_state c out q → send_state (set_socket s c) out q.
Proof. by intros []. Qed.
Lemma send_state_new uid : send_state (Connector_new uid) None [].
Proof. split; simpl; [done|constructor]. Qed.
End SendLaws.

(** ** What the receive side holds *)

(** [DataParser] on the queued bytes: the length of the frame at the front, 0
    when it is not complete, -1 when the check word is wrong. *)
Definition cut (q : list Z) : Z :=
  if zlen q <? 8 then 0
  else if negb (ui32CheckHead (queue_head q) =? 0) then -1
  else if zlen q <? ui32Length (queue_head q) then 0
  else ui32Length (queue_head q).

Record recv_state (c : Connector) (q : list Z) : Prop := {
  rs_ring : wf_circle (_RecvDataBuffer c);
  rs_size : _nBufferSize (_RecvDataBuffer c) = MAX_PACKET_BUFFER_SIZE;
  rs_contents : contents (_RecvDataBuffer c) = q;
  rs_bytes : Forall is_byte q;
  rs_mem : zlen (_pBuffer (nb_base (ro_pBuffer (_RecvRequest c)))) = MAX_PACKET_BUFFER_SIZE + 1;
  rs_nb : _nBufferSize (nb_base (ro_pBuffer (_RecvRequest c))) = MAX_PACKET_BUFFER_SIZE }.

(** The memory the overlapped receive writes to. *)
Definition recv_memory (c : Connector) : list Z := _pBuffer (nb_base (ro_pBuffer (_RecvRequest c))).

(** What a queued packet is. *)
Definition packet_of (h : PacketHeap) (p : Z) : option (option Z * list Z) :=
  pk ← ph_cells h !! p;
  if bool_decide (0 ≤ _nDataSize (ps_base pk) ≤ zlen (_pBuffer (ps_base pk)))
  then Some (_pConnector pk, sub (_pBuffer (ps_base pk)) 0 (_nDataSize (ps_base pk))) else None.

Lemma packet_of_cell h p c bytes :
  packet_of h p = Some (c, bytes) →
  ∃ pk more, ph_cells h !! p = Some pk ∧ _pConnector pk = c ∧ _nDataSize (ps_base pk) = zlen bytes ∧
    _pBuffer (ps_base pk) = bytes ++ more.
Proof.
  unfold packet_of. destruct (ph_cells h !! p) as [pk|]; [|done]. cbn [mbind option_bind].
  case_bool_decide as Hb; [|done]. intros [= <- <-].
  exists pk, (sub (_pBuffer (ps_base pk)) (_nDataSize (ps_base pk)) (zlen (_pBuffer (ps_base pk)) - _nDataSize (ps_base pk))).
  rewrite zlen_sub, sub_split by lia. done.
Qed.

Section RecvLaws.
Context `{OSLaws}.
Implicit Types (c : Connector) (q d : list Z).

Lemma queue_head_length q : Forall is_byte q → 0 ≤ ui32Length (queue_head q) < 2 ^ 32.
Proof.
  intros Hb. unfold queue_head, read_PacketHead. simpl.
  pose proof (le_dec_bound (sub q 4 4) (sub_Forall _ _ _ _ Hb)) as [H1 H2]. split; [done|].
  eapply Z.lt_le_trans; [done|]. apply Z.pow_le_mono_r; [lia|]. unfold sub. rewrite length_take. lia.
Qed.

Lemma cut_bound q : Forall is_byte q → cut q ≤ zlen q ∧ -1 ≤ cut q.
Proof.
  intros Hb. pose proof (queue_head_length q Hb). pose proof (zlen_nonneg q). unfold cut.
  zcases; cbn [negb]; lia.
Qed.

Lemma DataParser_spec ring :
  wf_circle ring → Forall is_byte (contents ring) → DataParser ring = Ok (cut (contents ring)).
Proof.
  intros Hwf Hb. unfold DataParser. rewrite ParseNetworkData_spec by done. cbn zeta.
  pose proof (queue_head_length _ Hb). pose proof (zlen_contents _ Hwf). pose proof Hwf as [].
  unfold cut. destruct (zlen (contents ring) <? 8); [done|]. destruct (negb _); [done|].
  zcases; [done|]. cbn [mbind outcome_bind]. f_equal. apply wraps_small; [lia|]. unfold in_s. lia.
Qed.

Lemma recv_state_new uid : recv_state (Connector_new uid) [].
Proof.
  pose proof os_fresh_len. unfold Connector_new.
  destruct (new_wf os_fresh MAX_PACKET_BUFFER_SIZE) as [Hwf Hc]; [unfold MAX_PACKET_BUFFER_SIZE; lia|done|].
  by split.
Qed.

(** [RecvPrepare] leaves the ring alone and never fails. *)
Lemma RecvPrepare_ok self c q :
  recv_state c q →
  ∃ c', RecvPrepare self c = Ok (c', MAX_PACKET_BUFFER_SIZE) ∧ recv_state c' q ∧
        _dwRecvRef c' = u32 (_dwRecvRef c + 1) ∧ _socket c' = _socket c ∧
        ro_pConnector (_RecvRequest c') = Some self ∧
        (∀ out sq, send_state c out sq → send_state c' out sq).
Proof.
  intros [Hwf Hs Hc Hb Hm Hn]. unfold RecvPrepare, nb_Reset, BufferBase_Reset.
  rewrite Hn.
  assert (zlen (replicate (Z.to_nat MAX_PACKET_BUFFER_SIZE) 0) = MAX_PACKET_BUFFER_SIZE) as Hz
    by (rewrite zlen_replicate; unfold MAX_PACKET_BUFFER_SIZE; lia).
  revert Hz. generalize (replicate (Z.to_nat MAX_PACKET_BUFFER_SIZE) 0). intros zs Hz.
  rewrite poke_ok by lia.
  cbn [mbind outcome_bind]. unfold SetRecvData. simpl. rewrite Hn.
  eexists. split; [done|]. split_and!; try done.
  - split; simpl; try done.
    by rewrite zlen_splice by lia.
  - by intros out sq [].
Qed.

(** The complete behaviour of [RecvComplete]. *)
Lemma RecvComplete_ok self n c q pq h :
  recv_state c q → five_phases pq → 0 ≤ n ≤ MAX_PACKET_BUFFER_SIZE →
  Forall is_byte (sub (recv_memory c) 0 n) →
  let q' := q ++ sub (recv_memory c) 0 n in
  ∃ c' rs' r, RecvComplete self n c (pq, h) = Ok (c', rs', r) ∧
    _socket c' = _socket c ∧ _dwRecvRef c' = u32 (_dwRecvRef c - 1) ∧
    (∀ out sq, send_state c out sq → send_state c' out sq) ∧
    if MAX_PACKET_BUFFER_SIZE <? zlen q' then r = -1 ∧ rs' = (pq, h) ∧ recv_state c' q
    else if 0 <? cut q' then
      r = zlen q' - cut q' ∧ recv_state c' (sub q' (cut q') (zlen q' - cut q')) ∧
      five_phases rs'.1 ∧ items rs'.1 0 = items pq 0 ++ [ph_next h] ∧
      packet_of rs'.2 (ph_next h) = Some (Some self, sub q' 0 (cut q')) ∧
      ph_next rs'.2 = ph_next h + 1 ∧
      (∀ p, p ≠ ph_next h → packet_of rs'.2 p = packet_of h p)
    else r = -1 ∧ rs' = (pq, h) ∧ recv_state c' q'.
Proof.
  intros [Hwf Hs Hc Hb Hm Hn] H5 Hnr Hd q'. unfold recv_memory in *.
  pose proof Hwf as []. pose proof (zlen_contents _ Hwf) as Hl. rewrite Hc in Hl.
  assert (zlen q' = zlen q + n) as Hq' by (unfold q'; rewrite zlen_app, zlen_sub; lia).
  unfold RecvComplete. simpl. unfold GetEmptySize. rewrite Hs, <-Hl in *.
  rewrite u32_small by (unfold MAX_PACKET_BUFFER_SIZE in *; lia).
  destruct (Z.ltb_spec (MAX_PACKET_BUFFER_SIZE - zlen q) n) as [Hover|Hfit].
  { eexists _, _, _. split; [done|]. zbool. split_and!; try done. by intros ?? []. }
  rewrite Write_result by (done || lia). cbn [mbind outcome_bind].
  set (ring := Write_post _ _ _).
  assert (wf_circle ring) as Hwf1 by (apply Write_wf; done || lia).
  assert (contents ring = q') as Hc1.
  { unfold ring. rewrite Write_contents by (done || lia). by rewrite Hc. }
  assert (Forall is_byte q') as Hb' by (by apply Forall_app).
  assert (_nBufferSize ring = MAX_PACKET_BUFFER_SIZE) as Hs1.
  { rewrite <-Hs. unfold ring, Write_post. by destruct (_ <? _). }
  rewrite DataParser_spec, Hc1 by (done || by rewrite Hc1). cbn [mbind outcome_bind].
  destruct (cut_bound q' Hb') as [Hcut _]. zbool.
  destruct (Z.ltb_spec 0 (cut q')) as [Hpos|Hneg].
  2:{ eexists _, _, _. split; [done|]. split_and!; try done. by intros ?? []. }
  pose proof (zlen_contents _ Hwf1) as Hl1. rewrite Hc1 in Hl1.
  pose proof os_fresh_len as Hf. unfold PacketStruct_new. simpl.
  rewrite Read_result by (done || lia). cbn [mbind outcome_bind]. rewrite Hc1.
  destruct (Erase_result ring (cut q') Hwf1) as (ring' & -> & Hwf2 & Hs2 & Hc2); [lia|].
  cbn zeta. rewrite RecvPush_eq by (done || lia). cbn [mbind outcome_bind].
  destruct (with_items_spec pq 0 (items pq 0 ++ [ph_next h]) H5) as (H5' & Hi & _); [lia|].
  destruct (with_event_spec _ 0 true H5') as (H5'' & _ & Hi'); [lia|].
  pose proof (zlen_contents _ Hwf2) as Hl2. rewrite Hc2, Hc1, zlen_sub in Hl2 by lia.
  eexists _, _, _. split; [done|]. split_and!; try done; cbn [fst snd].
  - by intros ?? [].
  - unfold GetDataSize. rewrite <-Hl2, <-Hl1. apply wraps_small; [lia|]. unfold in_s. pose proof Hwf1 as []. lia.
  - split; simpl; try done; [by rewrite Hs2|by rewrite Hc2, Hc1, Hl1|by apply sub_Forall].
  - unfold packet_of. simpl. rewrite lookup_insert_eq. simpl.
    rewrite bool_decide_true
      by (rewrite ?zlen_splice; rewrite ?zlen_sub by lia; unfold MAX_PACKET_BUFFER_SIZE in *; lia).
    do 2 f_equal.
    apply sub_splice_prefix; rewrite ?zlen_sub by lia; unfold MAX_PACKET_BUFFER_SIZE in *; lia.
  - intros p Hp. unfold packet_of. simpl. by rewrite !lookup_insert_ne by done.
Qed.
End RecvLaws.
