(* ===== verification/Network.v ===== *)
(** * The network layer: _framework/network.h, network.cpp
    One definition per member function of [Network]; a thread function is
    given by its preparation and by one iteration of its loop, so that a run is
    a sequence of such steps.  Output to the log is left out, the reads it makes
    through pointers are kept. *)
From S2P Require Import Prelude Buffer Packet ObjectPool PacketQueue TimeSet Config System Connector.

Inductive net_thread : Set := Worker_Thread | Accept_Thread | Update_Thread.

Section Network.
Context `{OS}.

(** ** Sending *)

(** The [WSASend] of the outstanding buffer; true when it failed for another
    reason than [WSA_IO_PENDING]. *)
Definition post_send (self : Z) : net bool :=
  c ← conn_get self;
  nb ← st_lift (GetSendWSABuffer c);
  d ← st_lift (wsa_bytes nb);
  nRet ← sys (sys_WSASend (GetSocket c) self d);
  if nRet =? SOCKET_ERROR then
    nErrorCode ← sys sys_WSAGetLastError;
    mret (negb (WSA_IO_PENDING =? nErrorCode))
  else mret false.
Definition post_recv (self : Z) : net bool :=
  c ← conn_get self;
  nRet ← sys (sys_WSARecv (GetSocket c) self (wsa_len (_WSABuffer (GetRecvWSABuffer c))));
  if nRet =? SOCKET_ERROR then
    nErrorCode ← sys sys_WSAGetLastError;
    mret (negb (WSA_IO_PENDING =? nErrorCode))
  else mret false.

Definition Network_Write (pConnector : option Z) (pSendData : option (list Z)) (iSendDataSize : Z) :
    net eResultCode :=
  match pConnector with
  | None => mret RC_fail
  | Some self =>
      c ← conn_get self;
      if INVALID_SOCKET =? GetSocket c then mret RC_socket_disconnected
      else
        n ← conn_run self (AddSendQueue self pSendData (u32 iSendDataSize));
        if 0 >? n then mret RC_fail
        else
          c ← conn_get self;
          if 0 =? GetSendRef c then
            n ← conn_run self (SendPrepare self);
            if 0 >? n then mret RC_fail
            else
              failed ← post_send self;
              if (failed : bool) then mret RC_fail else mret RC_succ
          else mret RC_succ
  end.
Definition Connector_AddSendData (self : Z) (pSendData : option (list Z)) (dwSendDataSize : Z) :
    net eResultCode :=
  Network_Write (Some self) pSendData (i32 dwSendDataSize).

(** The server's heartbeat of a connector sends the object representation
    [obj] of a CS_P_HEARTBEAT, not a frame. *)
Definition svr_CheckHeartbeat (self : Z) (obj : list Z) (biCurrTime : Z) : net bool :=
  _ ← conn_mod self (λ c, if 0 =? _biHeartbeatTimer c
        then set_timers (_biUpdateTimer c) (i64 (biCurrTime + MILLISEC_A_SEC * 30)) c else c);
  c ← conn_get self;
  if GetActive c && (_biHeartbeatTimer c <? biCurrTime) then
    _ ← conn_set self (set_timers (_biUpdateTimer c) (i64 (biCurrTime + MILLISEC_A_SEC * 30)) c);
    _ ← Connector_AddSendData self (Some obj) (zlen obj);
    mret true
  else mret false.

(** ** Disconnecting *)
Definition Network_Disconnect (pConnector : option Z) : net bool :=
  match pConnector with
  | None => mret false
  | Some self =>
      c ← conn_get self;
      _ ← (if negb (INVALID_SOCKET =? GetSocket c) then
             _ ← sys (sys_shutdown (GetSocket c));
             _ ← sys (sys_closesocket (GetSocket c));
             conn_mod self (SetSocket INVALID_SOCKET)
           else mret tt);
      c ← conn_get self;
      _ ← (if negb (GetRecvRef c =? 0) then
             _ ← sys (sys_PostQueuedCompletionStatus (Some self) (Some OP_RECV)); mret tt
           else mret tt);
      mret true
  end.
Definition Network_Disconnect_socket (socket : Z) : net unit :=
  if negb (INVALID_SOCKET =? socket) then
    _ ← sys (sys_shutdown socket);
    _ ← sys (sys_closesocket socket); mret tt
  else mret tt.

(** ** Completions *)

(** [PacketLog] reads the first bytes of the buffer, six of a long one. *)
Definition PacketLog_reads (pPacketData : list Z) (nPacketDataSize : Z) : outcome unit :=
  _ ← peek pPacketData 0 (if 1024 <? nPacketDataSize then 6 else Z.max 0 nPacketDataSize); Ok tt.

Definition DoSend (self dwSendCompleteSize : Z) : net unit :=
  c ← conn_get self;
  nb ← st_lift (GetSendWSABuffer c);
  _ ← st_lift (PacketLog_reads (_pBuffer (nb_base nb)) (i32 dwSendCompleteSize));
  nRemainData ← conn_run self (SendComplete dwSendCompleteSize);
  go_on ← (if 0 <? nRemainData then mret true
           else n ← conn_run self (SendPrepare self); mret (0 <? n));
  if (go_on : bool) then
    failed ← post_send self;
    if (failed : bool) then _ ← Network_Disconnect (Some self); mret tt else mret tt
  else mret tt.

(** What [DoRecv] does with the result of [RecvComplete]. *)
Definition receive_again (self nResult : Z) : net unit :=
  if 0 >? nResult then _ ← Network_Disconnect (Some self); mret tt
  else
    n ← conn_run self (RecvPrepare self);
    if 0 <? n then
      failed ← post_recv self;
      if (failed : bool) then _ ← Network_Disconnect (Some self); mret tt else mret tt
    else mret tt.

Definition DoRecv (self dwRecvCompleteSize : Z) : net unit :=
  c ← conn_get self;
  _ ← st_lift (PacketLog_reads (recv_memory c) (i32 dwRecvCompleteSize));
  nResult ← net_RecvComplete self dwRecvCompleteSize;
  receive_again self nResult.

(** ** Accepting *)
Definition DoAccept (self : Z) : net unit :=
  c ← conn_get self;
  _ ← sys (sys_setsockopt (GetSocket c));
  _ ← ConvertSocket2IP self;
  iocp ← st_gets nw_hIOCP;
  hRet ← sys (sys_CreateIoCompletionPort (GetSocket c) self);
  if negb (hRet =? iocp) then
    _ ← sys (sys_closesocket (GetSocket c)); ConnectorMgr_SetFreeObject self
  else
    n ← conn_run self (RecvPrepare self);
    if 0 >=? n then
      _ ← sys (sys_closesocket (GetSocket c)); ConnectorMgr_SetFreeObject self
    else
      failed ← post_recv self;
      if (failed : bool) then
        _ ← sys (sys_closesocket (GetSocket c)); ConnectorMgr_SetFreeObject self
      else mret tt.

Definition AcceptPrepare : net unit :=
  pConnector ← ConnectorMgr_GetFreeObject;
  acceptSocket ← sys sys_WSASocket;
  if INVALID_SOCKET =? acceptSocket then mret tt
  else
    match pConnector with
    | None => λ _, Fault NullDeref
    | Some self =>
        _ ← conn_mod self (SetSocket acceptSocket);
        _ ← conn_run self (AcceptPrepare_conn self);
        l ← st_gets nw_ListenSock;
        bRet ← sys (sys_acceptEx l acceptSocket self);
        if bRet =? 0 then
          e ← sys sys_WSAGetLastError;
          if negb (e =? WSA_IO_PENDING) then _ ← Network_Disconnect (Some self); mret tt else mret tt
        else mret tt
    end.
Definition AcceptPrepare_n (nCount : Z) : net unit :=
  st_each (λ _, AcceptPrepare) (iota 0 nCount).

Definition InitListenSocket (port : Z) : net bool :=
  listenSock ← sys sys_WSASocket;
  if INVALID_SOCKET =? listenSock then mret false
  else
    iocp ← st_gets nw_hIOCP;
    hRet ← sys (sys_CreateIoCompletionPort listenSock 0);
    if negb (hRet =? iocp) then mret false
    else
      b ← sys (sys_bind listenSock (u16 port));
      if SOCKET_ERROR =? b then mret false
      else
        l ← sys (sys_listen listenSock 10);
        if SOCKET_ERROR =? l then mret false
        else
          _ ← st_modify (set_nw_ListenSock listenSock);
          iRet ← sys (sys_WSAIoctl listenSock);
          mret (negb (SOCKET_ERROR =? iRet)).

(** The preparation of [AcceptThread]: the listening socket. *)
Definition AcceptThread_listen (port : Z) : net (option Z) :=
  listenSock ← sys sys_WSASocket;
  if INVALID_SOCKET =? listenSock then mret None
  else
    b ← sys (sys_bind listenSock (u16 port));
    if SOCKET_ERROR =? b then mret None
    else
      l ← sys (sys_listen listenSock 10);
      if SOCKET_ERROR =? l then mret None
      else _ ← st_modify (set_nw_ListenSock listenSock); mret (Some listenSock).

(** One iteration of its loop. *)
Definition AcceptThread_step (listenSock : Z) : net unit :=
  AcceptSock ← sys (sys_WSAAccept listenSock);
  AcceptAddr ← st_gets (λ w, os_accept_addr (nw_trace w) AcceptSock);
  if INVALID_SOCKET =? AcceptSock then mret tt
  else
    _ ← sys (sys_setsockopt AcceptSock);
    _ ← sys (sys_setsockopt AcceptSock);
    pConnector ← ConnectorMgr_GetFreeObject;
    match pConnector with
    | None => _ ← sys (sys_closesocket AcceptSock); mret tt
    | Some self =>
        _ ← conn_mod self (λ c, set_sockaddr AcceptAddr (SetSocket AcceptSock c));
        _ ← ConvertSocket2IP self;
        iocp ← st_gets nw_hIOCP;
        hRet ← sys (sys_CreateIoCompletionPort AcceptSock self);
        if negb (iocp =? hRet) then
          _ ← sys (sys_closesocket AcceptSock); ConnectorMgr_SetFreeObject self
        else
          n ← conn_run self (RecvPrepare self);
          if 0 >=? n then
            _ ← sys (sys_closesocket AcceptSock); ConnectorMgr_SetFreeObject self
          else
            failed ← post_recv self;
            if (failed : bool) then
              _ ← sys (sys_closesocket AcceptSock); ConnectorMgr_SetFreeObject self
            else mret tt
    end.

(** ** The worker threads *)

(** What [GetQueuedCompletionStatus] gives: its result, the transferred size,
    the completion key, and the overlapped structure, which is the send or the
    receive request of a connector ([true]: the send request). *)
Record completion := mkCompletion {
  cp_bRet : bool;
  cp_dwIOSize : Z;
  cp_key : option Z;
  cp_lpOverlapped : option (Z * bool);
  cp_error : Z }.

(** The zero-byte completion of a send or a receive. *)
Definition peer_closed (self : Z) (netOp : eNetworkOperator) : net unit :=
  c ← conn_get self;
  _ ← (if negb (INVALID_SOCKET =? GetSocket c) then
         _ ← sys (sys_shutdown (GetSocket c));
         _ ← sys (sys_closesocket (GetSocket c)); mret tt
       else mret tt);
  c ← conn_get self;
  _ ← (if negb (GetSendRef c =? 0) || negb (GetRecvRef c =? 0) then
         match netOp with
         | OP_SEND => conn_mod self DecSendRef
         | OP_RECV => conn_mod self DecRecvRef
         | OP_ACCEPT => mret tt
         end
       else mret tt);
  c ← conn_get self;
  if (GetSendRef c =? 0) || (GetRecvRef c =? 0) then TryRelease self else mret tt.

(** One iteration of [WorkerThread]. *)
Definition WorkerThread_step (e : completion) : net unit :=
  if negb (cp_bRet e) then
    if WAIT_TIMEOUT =? cp_error e then mret tt
    else match cp_lpOverlapped e with
         | None => mret tt
         | Some _ =>
             match cp_key e with
             | Some p => _ ← Network_Disconnect (Some p); mret tt
             | None => mret tt
             end
         end
  else
    match cp_lpOverlapped e with
    | None => mret tt
    | Some (owner, is_send) =>
        o ← conn_get owner;
        let netOp := if (is_send : bool) then so_NetOp (_SendRequest o) else ro_NetOp (_RecvRequest o) in
        match (if (is_send : bool) then so_pConnector (_SendRequest o) else ro_pConnector (_RecvRequest o)) with
        | None => mret tt
        | Some self =>
            if negb (bool_decide (netOp = OP_ACCEPT)) && (0 =? cp_dwIOSize e) then peer_closed self netOp
            else match netOp with
                 | OP_ACCEPT => _ ← DoAccept self; AcceptPrepare
                 | OP_SEND => DoSend self (cp_dwIOSize e)
                 | OP_RECV => DoRecv self (cp_dwIOSize e)
                 end
        end
    end.

(** [Network::DoUpdate] of svr and cli does nothing; the loop asks the time. *)
Definition Network_DoUpdate (biCurrTime : Z) : net eResultCode := mret RC_succ.
Definition UpdateThread_net_step : net unit :=
  biCurrTime ← sys sys_GetTimeMilliSec;
  _ ← Network_DoUpdate biCurrTime; mret tt.

(** ** Connecting *)
Definition isalpha (ch : Z) : bool :=
  ((65 <=? ch) && (ch <=? 90)) || ((97 <=? ch) && (ch <=? 122)).
Definition char_at (s : list Z) (i : Z) : Z := default 0 (get s i).

Definition lookup_host (hostname : list Z) : outcome (option (list Z)) :=
  if zlen hostname <? MAX_LEN_DOMAIN_STRING then Ok (os_resolve hostname)
  else Fault InvalidParameter.

Definition DoConnect (self : Z) (addr port : Z) : net (option Z) :=
  s ← sys sys_WSASocket;
  _ ← conn_mod self (SetSocket s);
  if INVALID_SOCKET =? s then _ ← TryRelease self; mret None
  else
    _ ← sys (sys_setsockopt s);
    _ ← sys (sys_setsockopt s);
    nRet ← sys (sys_connect s addr port);
    if SOCKET_ERROR =? nRet then _ ← sys sys_WSAGetLastError; _ ← TryRelease self; mret None
    else
      _ ← conn_mod self (set_sockaddr (addr, port));
      iocp ← st_gets nw_hIOCP;
      hRet ← sys (sys_CreateIoCompletionPort s self);
      if negb (iocp =? hRet) then _ ← TryRelease self; mret None
      else
        n ← conn_run self (RecvPrepare self);
        if 0 >=? n then _ ← TryRelease self; mret None
        else
          failed ← post_recv self;
          if (failed : bool) then _ ← TryRelease self; mret None else mret (Some self).

(** [Connect(const WCHAR*, WORD)]: a failed lookup leaves the address 0. *)
Definition Connect_w (pwcsDomain : list Z) (wPort : Z) : net (option Z) :=
  pConn ← ConnectorMgr_GetFreeObject;
  match pConn with
  | None => mret None
  | Some self =>
      _ ← conn_run self (λ c, c' ← SetDomain pwcsDomain wPort c; Ok (c', tt));
      if isalpha (char_at pwcsDomain 0) then
        c ← conn_get self;
        r ← st_lift (lookup_host (GetDomainA c));
        DoConnect self (match r with Some ip => os_pton ip | None => 0 end) wPort
      else DoConnect self (os_pton pwcsDomain) wPort
  end.
(** [Connect(const string, WORD)]: a failed lookup gives nullptr. *)
Definition Connect_s (strDomain : list Z) (wPort : Z) : net (option Z) :=
  pConn ← ConnectorMgr_GetFreeObject;
  match pConn with
  | None => mret None
  | Some self =>
      _ ← conn_mod self (SetDomainA strDomain wPort);
      if isalpha (char_at strDomain 0) then
        c ← conn_get self;
        r ← st_lift (lookup_host (GetDomainA c));
        match r with
        | Some ip => DoConnect self (os_pton ip) wPort
        | None => mret None
        end
      else DoConnect self (os_pton strDomain) wPort
  end.

(** ** Start and stop *)
Definition Network_Initialize (cfg : NetworkConfig) : net (bool * list net_thread) :=
  r ← sys sys_WSAStartup;
  if negb (0 =? r) then mret (false, [])
  else
    iocp ← sys (sys_CreateIoCompletionPort INVALID_SOCKET 0);
    _ ← st_modify (set_nw_hIOCP iocp);
    if 0 =? iocp then mret (false, [])
    else
      let workers := replicate (Z.to_nat (workerThreadCount cfg)) Worker_Thread in
      accept ← (if doListen cfg then
                  if useAcceptEx cfg then
                    _ ← InitListenSocket (si_port (listenClient cfg));
                    _ ← AcceptPrepare_n (nAcceptPrepareCount cfg); mret []
                  else mret [Accept_Thread]
                else mret []);
      mret (true, workers ++ accept ++ [Update_Thread]).

Definition Network_Stop (cfg : NetworkConfig) : net bool :=
  _ ← st_each (λ _, _ ← sys (sys_PostQueuedCompletionStatus None None); mret tt)
        (iota 0 (workerThreadCount cfg));
  l ← st_gets nw_ListenSock;
  _ ← (if negb (INVALID_SOCKET =? l) then
         _ ← sys (sys_closesocket l); st_modify (set_nw_ListenSock INVALID_SOCKET)
       else mret tt);
  mret true.
Definition Network_Finalize : net bool := _ ← sys sys_WSACleanup; mret true.
End Network.

(** ** Running code on a world *)
Section WorldLaws.
Context `{OS}.
Implicit Types (w : NetWorld) (c : Connector).

Lemma conn_get_ok p c w : nw_conns w !! p = Some c → conn_get p w = Ok (c, w).
Proof. unfold conn_get. by intros ->. Qed.
Lemma conn_set_ok p c c' w :
  nw_conns w !! p = Some c → conn_set p c' w = Ok (tt, set_nw_conns (<[p := c']> (nw_conns w)) w).
Proof. unfold conn_set. by intros ->. Qed.
Lemma conn_mod_ok p f c w :
  nw_conns w !! p = Some c →
  conn_mod p f w = Ok (tt, set_nw_conns (<[p := f c]> (nw_conns w)) w).
Proof. intros Hc. unfold conn_mod, mbind, st_bind. by rewrite (conn_get_ok _ _ _ Hc), (conn_set_ok _ _ _ _ Hc). Qed.
Lemma conn_run_ok {A} p (f : Connector → outcome (Connector * A)) c c' a w :
  nw_conns w !! p = Some c → f c = Ok (c', a) →
  conn_run p f w = Ok (a, set_nw_conns (<[p := c']> (nw_conns w)) w).
Proof.
  intros Hc Hf. unfold conn_run, mbind, st_bind, st_lift.
  by rewrite (conn_get_ok _ _ _ Hc), Hf, (conn_set_ok _ _ _ _ Hc).
Qed.
Lemma sys_ok x w : sys x w = Ok (os_call (nw_trace w) x, set_nw_trace (nw_trace w ++ [x]) w).
Proof. reflexivity. Qed.
End WorldLaws.

(** Run the first call of a sequence with the given equation. *)
Tactic Notation "step" "by" uconstr(e) := erewrite st_bind_ok by (eapply e; eauto); cbv beta iota.
Ltac step_ret := erewrite st_bind_ok by reflexivity; cbv beta iota.
Ltac step_with H := erewrite st_bind_ok by (apply H); cbv beta iota.

(** ** The send side *)

(** The data passed to [WSASend] for a connector, in order. *)
Definition sends (p : Z) (tr : list syscall) : list (list Z) :=
  omap (λ x, match x with sys_WSASend _ p' d => if decide (p' = p) then Some d else None | _ => None end) tr.
Lemma sends_app p tr tr' : sends p (tr ++ tr') = sends p tr ++ sends p tr'.
Proof. apply omap_app. Qed.

(** The kernel takes every send, at once or later. *)
Definition sends_accepted `{OS} : Prop := ∀ tr s p d,
  os_call tr (sys_WSASend s p d) ≠ SOCKET_ERROR ∨
  os_call (tr ++ [sys_WSASend s p d]) sys_WSAGetLastError = WSA_IO_PENDING.

Inductive send_event :=
| Ev_Write (src : list Z) (n : Z)   (** [Network::Write] of the first n bytes of src *)
| Ev_Sent (k : Z).                  (** completion of k bytes of the outstanding send *)

Section Sending.
Context `{OSLaws} (p : Z).

(** The world and the bytes the kernel has sent. *)
Definition send_exec (s : NetWorld * list Z) (e : send_event) : option (outcome (NetWorld * list Z)) :=
  let '(w, sent) := s in
  match e with
  | Ev_Write src n => Some ('(_, w') ← Network_Write (Some p) (Some src) n w; Ok (w', sent))
  | Ev_Sent k =>
      match (c ← nw_conns w !! p; so_pBuffer (_SendRequest c)) with
      | None => None
      | Some nb =>
          match wsa_bytes nb with
          | Fault f => Some (Fault f)
          | Ok bs =>
              if bool_decide (0 < k ≤ zlen bs)
              then Some ('(_, w') ← DoSend p k w; Ok (w', sent ++ sub bs 0 k))
              else None
          end
      end
  end.
(** Completions that cannot happen are skipped. *)
Fixpoint send_run (s : NetWorld * list Z) (es : list send_event) : outcome (NetWorld * list Z) :=
  match es with
  | [] => Ok s
  | e :: es' =>
      match send_exec s e with
      | Some r => s' ← r; send_run s' es'
      | None => send_run s es'
      end
  end.

Definition written (es : list send_event) : list Z :=
  mjoin ((λ e, match e with Ev_Write src n => sub src 0 n | Ev_Sent _ => [] end) <$> es).
Definition event_ok (e : send_event) : Prop :=
  match e with
  | Ev_Write src n => 0 < n ≤ MAX_PACKET_BUFFER_SIZE ∧ n ≤ zlen src
  | Ev_Sent _ => True
  end.

Record send_inv (s : NetWorld * list Z) (done : list Z) (budget : Z) : Prop := {
  si_conn : ∃ c out q, nw_conns s.1 !! p = Some c ∧ send_state c out q ∧ _socket c ≠ INVALID_SOCKET ∧
    s.2 ++ default [] out ++ mjoin q = done ∧ (out = None → q = []) ∧ zlen q ≤ budget ∧
    (∀ b, out = Some b → last (sends p (nw_trace s.1)) = Some b) }.

Hypothesis Haccept : sends_accepted.

Lemma post_send_ok w c b q :
  nw_conns w !! p = Some c → send_state c (Some b) q →
  ∃ w', post_send p w = Ok (false, w') ∧ nw_conns w' = nw_conns w ∧
        sends p (nw_trace w') = sends p (nw_trace w) ++ [b].
Proof.
  intros Hc [(_ & nb & Hnb & [_ _ _ Hb]) _]. unfold post_send.
  step by conn_get_ok. unfold GetSendWSABuffer. rewrite Hnb.
  step_ret. rewrite Hb. step_ret. step_with sys_ok.
  destruct (Z.eqb_spec (os_call (nw_trace w) (sys_WSASend (GetSocket c) p b)) SOCKET_ERROR) as [E|E].
  - step_with sys_ok. simpl.
    destruct (Haccept (nw_trace w) (GetSocket c) p b) as [?|E']; [done|]. rewrite E'.
    eexists; split; [done|]. split; [done|]. simpl. rewrite !sends_app. simpl.
    by rewrite decide_True, app_nil_r.
  - eexists; split; [done|]. split; [done|]. simpl. rewrite !sends_app. simpl. by rewrite decide_True.
Qed.

(** Queue the rest: [SendPrepare] and [WSASend] of an idle connector. *)
Lemma start_send w c b q :
  nw_conns w !! p = Some c → send_state c None (b :: q) →
  ∃ c' w' w'', conn_run p (SendPrepare p) w = Ok (zlen b, w') ∧ post_send p w' = Ok (false, w'') ∧
    nw_conns w'' !! p = Some c' ∧ send_state c' (Some b) q ∧ _socket c' = _socket c ∧
    last (sends p (nw_trace w'')) = Some b ∧ 0 < zlen b.
Proof.
  intros Hc Hs. assert (0 < zlen b) as Hpos.
  { destruct Hs as [_ Hq]. inversion Hq as [|? ? ? ? []]; subst. lia. }
  destruct (SendPrepare_idle p c (b :: q) Hs) as (c1 & E1 & Hs1 & Hk1).
  pose proof (conn_run_ok _ _ _ _ _ _ Hc E1) as Hrun.
  set (w1 := set_nw_conns (<[p:=c1]> (nw_conns w)) w) in *.
  assert (nw_conns w1 !! p = Some c1) as Hc1 by (unfold w1; simpl; by rewrite lookup_insert_eq).
  destruct (post_send_ok w1 c1 b q Hc1 Hs1) as (w2 & E2 & Hw2 & Ht).
  exists c1, w1, w2. rewrite Hw2, Ht, last_snoc. split_and!; done.
Qed.

Lemma Write_ok w sent done budget src n :
  send_inv (w, sent) done budget → budget < 2 ^ 31 - 1 → event_ok (Ev_Write src n) →
  ∃ w', Network_Write (Some p) (Some src) n w = Ok (RC_succ, w') ∧
        send_inv (w', sent) (done ++ sub src 0 n) (budget + 1).
Proof.
  intros [(c & out & q & Hc & Hs & Hk & Hd & Hidle & Hq & Hl)] Hbud [Hn Hsrc]. cbn [fst snd] in *.
  unfold Network_Write. step by conn_get_ok. unfold GetSocket.
  rewrite (proj2 (Z.eqb_neq _ _)) by done. cbv iota.
  rewrite (u32_small n) by (unfold MAX_PACKET_BUFFER_SIZE in *; lia).
  destruct (AddSendQueue_ok p src n c out q Hs Hn Hsrc) as (c1 & E1 & Hs1 & Hk1); [lia|].
  step by conn_run_ok. pose proof (zlen_nonneg q).
  destruct (Z.gtb_spec 0 (zlen q + 1)); [lia|]. cbv iota.
  set (w1 := set_nw_conns (<[p:=c1]> (nw_conns w)) w) in *.
  assert (nw_conns w1 !! p = Some c1) as Hc1 by (unfold w1; simpl; by rewrite lookup_insert_eq).
  step by conn_get_ok. unfold GetSendRef.
  destruct out as [b|].
  - destruct (ss_out _ _ _ Hs1) as (Hr & _). rewrite Hr. cbn [Z.eqb].
    eexists; split; [done|]. split. exists c1, (Some b), (q ++ [sub src 0 n]). simpl in *.
    split_and!; try done; [congruence| |rewrite zlen_app, zlen_cons, zlen_nil; lia].
    rewrite <-Hd, !join_app, <-!app_assoc. simpl. by rewrite app_nil_r.
  - destruct (ss_out _ _ _ Hs1) as (_ & Hr). rewrite Hr. cbn [Z.eqb].
    rewrite Hidle in * by done. simpl in *.
    destruct (start_send w1 c1 _ [] Hc1 Hs1) as (c2 & w2 & w3 & E2 & E3 & Hc2 & Hs2 & Hk2 & Hl2 & _).
    step_with E2. pose proof (zlen_nonneg (sub src 0 n)).
    destruct (Z.gtb_spec 0 (zlen (sub src 0 n))); [lia|].
    step_with E3. eexists; split; [done|]. split.
    exists c2, (Some (sub src 0 n)), []. simpl in *.
    split_and!; try done; [congruence| |rewrite zlen_nil; lia|congruence].
    rewrite <-Hd. by rewrite !app_nil_r.
Qed.

Lemma PacketLog_reads_ok m k : 0 ≤ k ≤ zlen m → k < 2 ^ 31 → PacketLog_reads m (i32 k) = Ok tt.
Proof.
  intros Hk Hs. unfold PacketLog_reads. rewrite (wraps_small 32) by (unfold in_s; lia).
  by rewrite peek_ok by (destruct (Z.ltb_spec 1024 k); lia).
Qed.

Lemma DoSend_ok w sent done budget k c nb bs :
  send_inv (w, sent) done budget → nw_conns w !! p = Some c →
  so_pBuffer (_SendRequest c) = Some nb → wsa_bytes nb = Ok bs → 0 < k ≤ zlen bs →
  ∃ w', DoSend p k w = Ok (tt, w') ∧ send_inv (w', sent ++ sub bs 0 k) done budget.
Proof.
  intros [(c0 & out & q & Hc & Hs & Hk & Hd & Hidle & Hq & Hl)] Hc' Hnb Hbs Hkb.
  cbn [fst snd] in *. assert (c0 = c) as -> by congruence.
  destruct out as [b|]; [|destruct (ss_out _ _ _ Hs); congruence].
  destruct (ss_out _ _ _ Hs) as (_ & nb' & Hnb' & Hsb). assert (nb' = nb) as -> by congruence.
  pose proof Hsb as [Hsz Hsm Hwl Hwb]. assert (b = bs) as -> by congruence.
  unfold DoSend. step by conn_get_ok. unfold GetSendWSABuffer. rewrite Hnb. step_ret.
  destruct (wsa_buf (_WSABuffer nb)) as [off|] eqn:Eo.
  2:{ unfold wsa_bytes in Hbs. by rewrite Eo in Hbs. }
  destruct (wsa_bytes_sub _ _ _ Eo Hbs) as (Ho1 & Ho2 & _).
  rewrite PacketLog_reads_ok by lia. step_ret.
  destruct (decide (k < zlen bs)) as [Hlt|Hge].
  - destruct (SendComplete_partial k c bs q Hs) as (c1 & E1 & Hs1 & Hk1); [lia|].
    step by conn_run_ok. set (w1 := set_nw_conns _ w).
    destruct (Z.ltb_spec 0 (zlen bs - k)); [|lia]. step_ret.
    assert (nw_conns w1 !! p = Some c1) as Hc1 by (unfold w1; simpl; by rewrite lookup_insert_eq).
    destruct (post_send_ok w1 c1 _ q Hc1 Hs1) as (w2 & E2 & Hw2 & Ht).
    step_with E2. eexists; split; [done|]. split.
    exists c1, (Some (sub bs k (zlen bs - k))), q. cbn [fst snd]. rewrite Hw2, Ht, last_snoc.
    split_and!; try done; try congruence.
    rewrite <-Hd. cbn [default id]. rewrite <-!app_assoc, (app_assoc (sub bs 0 k)), sub_split by lia. done.
  - assert (k = zlen bs) as -> by lia. rewrite sub_all.
    destruct (SendComplete_full (zlen bs) c bs q Hs) as (c1 & E1 & Hs1 & Hk1); [lia|].
    step by conn_run_ok. set (w1 := set_nw_conns _ w). cbn [Z.ltb Z.compare].
    assert (nw_conns w1 !! p = Some c1) as Hc1 by (unfold w1; simpl; by rewrite lookup_insert_eq).
    rewrite app_assoc in Hd. cbn [default] in Hd.
    destruct q as [|b' q'].
    + pose proof (SendPrepare_idle p c1 [] Hs1) as E2. cbv iota in E2.
      pose proof (conn_run_ok _ _ _ _ _ _ Hc1 E2) as E3.
      erewrite st_bind_ok by (erewrite st_bind_ok by apply E3; reflexivity). cbv beta iota.
      cbn [Z.ltb Z.compare]. eexists; split; [done|]. split.
      exists c1, None, []. cbn [fst snd]. rewrite <-Hd. simpl. rewrite lookup_insert_eq.
      split_and!; try done; congruence.
    + destruct (start_send w1 c1 b' q' Hc1 Hs1)
        as (c2 & w2 & w3 & E2 & E3 & Hc2 & Hs2 & Hk2 & Hl2 & Hpos).
      erewrite st_bind_ok by (erewrite st_bind_ok by apply E2; reflexivity). cbv beta iota.
      destruct (Z.ltb_spec 0 (zlen b')); [|lia].
      step_with E3. eexists; split; [done|]. split.
      exists c2, (Some b'), q'. cbn [fst snd]. rewrite <-Hd.
      rewrite zlen_cons in Hq. split_and!; try done; try congruence. lia.
Qed.

Lemma send_exec_ok s e done budget :
  send_inv s done budget → budget < 2 ^ 31 - 1 → event_ok e →
  match send_exec s e with
  | Some r => ∃ s', r = Ok s' ∧ send_inv s' (done ++ written [e]) (budget + 1)
  | None => written [e] = []
  end.
Proof.
  destruct s as [w sent]. intros Hinv Hb He. destruct e as [src n|k]; cbn [send_exec].
  - destruct (Write_ok _ _ _ _ _ _ Hinv Hb He) as (w' & E & Hinv').
    rewrite E. eexists; split; [done|]. unfold written. simpl. by rewrite app_nil_r.
  - destruct (nw_conns w !! p) as [c|] eqn:Hc; cbn [mbind option_bind]; [|done].
    destruct (so_pBuffer (_SendRequest c)) as [nb|] eqn:Hnb; [|done].
    destruct (wsa_bytes nb) as [bs|f] eqn:Hbs.
    + case_bool_decide as Hk; [|done].
      destruct (DoSend_ok _ _ _ _ k c nb bs Hinv Hc Hnb Hbs Hk) as (w' & E & [Hinv']).
      rewrite E. eexists; split; [done|]. simpl. rewrite app_nil_r. split.
      destruct Hinv' as (c' & out & q & ?). exists c', out, q. destruct_and!. split_and!; try done. lia.
    + destruct Hinv as [(c0 & out & q & Hc0 & Hs & _)]. cbn [fst] in Hc0.
      assert (c0 = c) as -> by congruence.
      destruct out as [b|]; destruct (ss_out _ _ _ Hs) as [? Ho]; [|congruence].
      destruct Ho as (nb' & Hnb' & []). congruence.
Qed.

Lemma send_run_ok es : ∀ s done budget,
  send_inv s done budget → budget + zlen es < 2 ^ 31 → Forall event_ok es →
  ∃ s', send_run s es = Ok s' ∧ send_inv s' (done ++ written es) (budget + zlen es).
Proof.
  induction es as [|e es IH]; intros s done budget Hinv Hb Hes.
  { exists s. split; [done|]. unfold written. simpl. by rewrite app_nil_r, Z.add_0_r. }
  inversion Hes; subst. rewrite zlen_cons in *. pose proof (zlen_nonneg es).
  assert (written (e :: es) = written [e] ++ written es) as ->.
  { unfold written. simpl. by rewrite app_nil_r. }
  pose proof (send_exec_ok s e done budget Hinv) as He. cbn [send_run].
  destruct (send_exec s e) as [r|].
  - destruct He as (s1 & -> & Hinv1); [lia|done|]. cbn [mbind outcome_bind].
    destruct (IH s1 _ _ Hinv1) as (s2 & E2 & Hinv2); [lia|done|]. exists s2. split; [done|].
    rewrite app_assoc. by replace (budget + (1 + zlen es)) with (budget + 1 + zlen es) by lia.
  - rewrite He by (done || lia). destruct (IH s done (budget + 1)) as (s2 & E2 & Hinv2); [|lia|done|].
    + destruct Hinv as [(c & out & q & ?)]. split. exists c, out, q. destruct_and!. split_and!; try done. lia.
    + exists s2. split; [done|]. by replace (budget + (1 + zlen es)) with (budget + 1 + zlen es) by lia.
Qed.
End Sending.

(** the byte stream of a connection.  Starting from an idle connector,
    under any sequence of writes and completions of any sizes: nothing faults,
    at most one send is outstanding, it is the last one posted, and the bytes
    the kernel has sent, those of the outstanding send and those of the queue
    are together exactly the data written, in the order of the [Write] calls.
    When nothing is outstanding the queue is empty, so everything written has
    been sent. *)
Theorem send_stream_fifo `{OSLaws} p w c es :
  sends_accepted → nw_conns w !! p = Some c → send_state c None [] → _socket c ≠ INVALID_SOCKET →
  Forall event_ok es → zlen es < 2 ^ 31 →
  ∃ w' sent c' out q, send_run p (w, []) es = Ok (w', sent) ∧
    nw_conns w' !! p = Some c' ∧ send_state c' out q ∧
    sent ++ default [] out ++ mjoin q = written es ∧
    (out = None → q = []) ∧
    (∀ b, out = Some b → last (sends p (nw_trace w')) = Some b).
Proof.
  intros Ha Hc Hs Hk Hes Hl.
  destruct (send_run_ok p Ha es (w, []) [] 0) as ([w' sent] & E & [Hinv]); [|lia|done|].
  - split. exists c, None, []. split_and!; done.
  - destruct Hinv as (c' & out & q & ?). destruct_and!. exists w', sent, c', out, q. done.
Qed.

(** A system whose every call succeeds. *)
#[export] Instance demo_os : OS := {|
  os_call tr x := match x with
    | sys_WSASocket => 100 + zlen tr | sys_WSAAccept _ => 100 + zlen tr
    | sys_CreateIoCompletionPort _ _ => 7 | sys_acceptEx _ _ _ => 1 | _ => 0 end;
  os_peer_ip _ _ := [49; 46; 50]; os_resolve _ := Some [49]; os_pton _ := 5;
  os_accept_addr _ _ := (9, 9);
  os_mbstowcs s := s; os_wcstombs s := s;
  os_fresh := replicate (Z.to_nat (MAX_PACKET_BUFFER_SIZE + 1)) 205 |}.
#[export] Instance demo_os_laws : @OSLaws demo_os.
Proof. split. vm_compute. reflexivity. Qed.
Definition demo_world : NetWorld :=
  mkNetWorld {[ 1 := set_socket 50 (Connector_new 1) ]} (mkObjectPoolMgrBase [1] [] [1] 1 (mkStore 2 []))
    1 PacketDataQueue_init (mkPacketHeap ∅ 0) [] 7 INVALID_SOCKET.
Definition demo_sends : list send_event :=
  [Ev_Write [1; 2; 3] 3; Ev_Write [4; 5] 2; Ev_Sent 2; Ev_Write [6] 1; Ev_Sent 1; Ev_Sent 1].
Lemma send_stream_fifo_witness :
  ∃ w' sent c' out q, send_run 1 (demo_world, []) demo_sends = Ok (w', sent) ∧
    nw_conns w' !! 1 = Some c' ∧ send_state c' out q ∧
    sent ++ default [] out ++ mjoin q = [1; 2; 3; 4; 5; 6] ∧
    (out = None → q = []) ∧
    (∀ b, out = Some b → last (sends 1 (nw_trace w')) = Some b).
Proof.
  apply (send_stream_fifo 1 demo_world (set_socket 50 (Connector_new 1)) demo_sends).
  - intros tr s p d. left. discriminate.
  - reflexivity.
  - apply send_state_socket, send_state_new.
  - discriminate.
  - repeat constructor; vm_compute; intuition discriminate.
  - reflexivity.
Defined.

(** ** Two writers

    [Network::Write] as the sequence of its actions on shared state; the
    locks of the connector protect only the queue itself. *)
Inductive write_pc : Set :=
| W_start     (** the socket test and [AddSendQueue] *)
| W_queued    (** [GetSendRef] *)
| W_prepare   (** [SendPrepare] *)
| W_post      (** [WSASend] *)
| W_done (r : eResultCode).

Section Writers.
Context `{OS}.

Definition Write_step (self : Z) (src : list Z) (n : Z) (pc : write_pc) : net write_pc :=
  match pc with
  | W_start =>
      c ← conn_get self;
      if INVALID_SOCKET =? GetSocket c then mret (W_done RC_socket_disconnected)
      else
        k ← conn_run self (AddSendQueue self (Some src) (u32 n));
        mret (if 0 >? k then W_done RC_fail else W_queued)
  | W_queued =>
      c ← conn_get self;
      mret (if 0 =? GetSendRef c then W_prepare else W_done RC_succ)
  | W_prepare =>
      k ← conn_run self (SendPrepare self);
      mret (if 0 >? k then W_done RC_fail else W_post)
  | W_post =>
      failed ← post_send self;
      mret (W_done (if (failed : bool) then RC_fail else RC_succ))
  | W_done r => mret (W_done r)
  end.

(** The call when nothing interferes: four steps are enough. *)
Fixpoint Write_steps (fuel : nat) (self : Z) (src : list Z) (n : Z) (pc : write_pc) : net write_pc :=
  match fuel with
  | O => mret pc
  | S fuel' => pc' ← Write_step self src n pc; Write_steps fuel' self src n pc'
  end.

Lemma Write_steps_done fuel self src n r w :
  Write_steps fuel self src n (W_done r) w = Ok (W_done r, w).
Proof. induction fuel; [done|]. by cbn. Qed.

Lemma Write_steps_refine self src n w :
  Write_steps 4 self src n W_start w =
    match Network_Write (Some self) (Some src) n w with
    | Ok (r, w') => Ok (W_done r, w')
    | Fault f => Fault f
    end.
Proof.
  unfold Network_Write. cbn [Write_steps Write_step]. unfold mbind, st_bind, mret, st_ret.
  destruct (conn_get self w) as [[c w0]|]; [|done].
  destruct (INVALID_SOCKET =? GetSocket c); [done|].
  destruct (conn_run self (AddSendQueue self (Some src) (u32 n)) w0) as [[k w1]|]; [|done].
  destruct (0 >? k); [done|].
  cbn [Write_steps Write_step]. unfold mbind, st_bind, mret, st_ret.
  destruct (conn_get self w1) as [[c1 w2]|]; [|done].
  destruct (0 =? GetSendRef c1); [|done].
  cbn [Write_steps Write_step]. unfold mbind, st_bind, mret, st_ret.
  destruct (conn_run self (SendPrepare self) w2) as [[k' w3]|]; [|done].
  destruct (0 >? k'); [done|].
  cbn [Write_steps Write_step]. unfold mbind, st_bind, mret, st_ret.
  destruct (post_send self w3) as [[failed w4]|]; [|done]. by destruct failed.
Qed.

(** Two threads write to one connector; the schedule names the thread. *)
Fixpoint two_writers (self : Z) (d1 d2 : list Z) (sched : list bool) (pcs : write_pc * write_pc) :
    net (write_pc * write_pc) :=
  match sched with
  | [] => mret pcs
  | true :: sched' =>
      pc ← Write_step self d1 (zlen d1) pcs.1; two_writers self d1 d2 sched' (pc, pcs.2)
  | false :: sched' =>
      pc ← Write_step self d2 (zlen d2) pcs.2; two_writers self d1 d2 sched' (pcs.1, pc)
  end.
End Writers.

Section WriterLaws.
Context `{OSLaws} (p : Z).
Implicit Types (w : NetWorld) (c : Connector).

Lemma two_writers_step d1 d2 (b : bool) sched pcs w pc w' :
  Write_step p (if b then d1 else d2) (zlen (if b then d1 else d2)) (if b then pcs.1 else pcs.2) w
    = Ok (pc, w') →
  two_writers p d1 d2 (b :: sched) pcs w =
    two_writers p d1 d2 sched (if b then (pc, pcs.2) else (pcs.1, pc)) w'.
Proof. intros E. destruct b; cbn [two_writers]; by step_with E. Qed.

Lemma step_start w c q d :
  nw_conns w !! p = Some c → send_state c None q → _socket c ≠ INVALID_SOCKET →
  0 < zlen d ≤ MAX_PACKET_BUFFER_SIZE → zlen q < 10 →
  ∃ c', Write_step p d (zlen d) W_start w = Ok (W_queued, set_nw_conns (<[p := c']> (nw_conns w)) w) ∧
        send_state c' None (q ++ [d]) ∧ _socket c' = _socket c.
Proof.
  intros Hc Hs Hk Hd Hq. cbn [Write_step]. step by conn_get_ok. unfold GetSocket.
  rewrite (proj2 (Z.eqb_neq _ _)) by done. cbv iota.
  rewrite u32_small by (unfold MAX_PACKET_BUFFER_SIZE in Hd; lia).
  destruct (AddSendQueue_ok p d (zlen d) c None q Hs Hd) as (c1 & E1 & Hs1 & Hk1); [lia|lia|].
  exists c1. rewrite sub_all in Hs1. step by conn_run_ok. pose proof (zlen_nonneg q).
  by destruct (Z.gtb_spec 0 (zlen q + 1)); [lia|].
Qed.

Lemma step_queued w c q d :
  nw_conns w !! p = Some c → send_state c None q →
  Write_step p d (zlen d) W_queued w = Ok (W_prepare, w).
Proof.
  intros Hc [[_ Hr] _]. cbn [Write_step]. step by conn_get_ok. unfold GetSendRef. by rewrite Hr.
Qed.

Lemma step_prepare w c c' k d :
  nw_conns w !! p = Some c → SendPrepare p c = Ok (c', k) → 0 ≤ k →
  Write_step p d (zlen d) W_prepare w = Ok (W_post, set_nw_conns (<[p := c']> (nw_conns w)) w).
Proof.
  intros Hc E Hk. cbn [Write_step]. step by conn_run_ok. by destruct (Z.gtb_spec 0 k); [lia|].
Qed.

Lemma step_post w c b q d :
  sends_accepted → nw_conns w !! p = Some c → send_state c (Some b) q →
  ∃ w', Write_step p d (zlen d) W_post w = Ok (W_done RC_succ, w') ∧ nw_conns w' = nw_conns w ∧
        sends p (nw_trace w') = sends p (nw_trace w) ++ [b].
Proof.
  intros Ha Hc Hs. destruct (post_send_ok p Ha w c b q Hc Hs) as (w' & E & ? & ?).
  exists w'. cbn [Write_step]. by step_with E.
Qed.
End WriterLaws.

(** Both test [GetSendRef] before either is in [SendPrepare]. *)
Definition overlapping : list bool := [true; false; true; false; true; true; false; false].

(** C29: when two threads are in [Write] for one idle connector at once, both
    can pass the test of the send count.  The second [SendPrepare] then finds a
    send outstanding and returns 0, which [Write] does not take for a refusal:
    the first message is posted twice and the second stays in the queue. *)
Theorem concurrent_writes_duplicate `{OSLaws} p w c d1 d2 :
  sends_accepted → nw_conns w !! p = Some c → send_state c None [] → _socket c ≠ INVALID_SOCKET →
  0 < zlen d1 ≤ MAX_PACKET_BUFFER_SIZE → 0 < zlen d2 ≤ MAX_PACKET_BUFFER_SIZE →
  ∃ w' c', two_writers p d1 d2 overlapping (W_start, W_start) w =
             Ok ((W_done RC_succ, W_done RC_succ), w') ∧
    sends p (nw_trace w') = sends p (nw_trace w) ++ [d1; d1] ∧
    nw_conns w' !! p = Some c' ∧ send_state c' (Some d1) [d2].
Proof.
  intros Ha Hc Hs Hk Hd1 Hd2. unfold overlapping.
  destruct (step_start p w c [] d1 Hc Hs Hk Hd1) as (c1 & E1 & Hs1 & Hk1); [by rewrite zlen_nil|].
  erewrite (two_writers_step p d1 d2 true) by exact E1. cbv iota. set (w1 := set_nw_conns _ w).
  assert (nw_conns w1 !! p = Some c1) as Hc1 by apply lookup_insert_eq.
  destruct (step_start p w1 c1 [d1] d2 Hc1 Hs1) as (c2 & E2 & Hs2 & Hk2); [congruence|done|done|].
  erewrite (two_writers_step p d1 d2 false) by exact E2. cbv iota. set (w2 := set_nw_conns _ w1).
  assert (nw_conns w2 !! p = Some c2) as Hc2 by apply lookup_insert_eq.
  erewrite (two_writers_step p d1 d2 true) by exact (step_queued p w2 c2 _ d1 Hc2 Hs2). cbv iota.
  erewrite (two_writers_step p d1 d2 false) by exact (step_queued p w2 c2 _ d2 Hc2 Hs2). cbv iota.
  destruct (SendPrepare_idle p c2 [d1; d2] Hs2) as (c3 & E3 & Hs3 & _).
  erewrite (two_writers_step p d1 d2 true) by exact (step_prepare p w2 c2 c3 _ d1 Hc2 E3 (zlen_nonneg _)). cbv iota.
  set (w3 := set_nw_conns _ w2).
  assert (nw_conns w3 !! p = Some c3) as Hc3 by apply lookup_insert_eq.
  destruct (step_post p w3 c3 d1 [d2] d1 Ha Hc3 Hs3) as (w4 & E4 & Hw4 & Ht4).
  erewrite (two_writers_step p d1 d2 true) by exact E4. cbv iota. rewrite <-Hw4 in Hc3.
  pose proof (SendPrepare_busy p c3 d1 [d2] Hs3) as E5.
  erewrite (two_writers_step p d1 d2 false) by exact (step_prepare p w4 c3 c3 0 d2 Hc3 E5 (Z.le_refl 0)). cbv iota.
  set (w5 := set_nw_conns _ w4).
  assert (nw_conns w5 !! p = Some c3) as Hc5 by apply lookup_insert_eq.
  destruct (step_post p w5 c3 d1 [d2] d2 Ha Hc5 Hs3) as (w6 & E6 & Hw6 & Ht6).
  erewrite (two_writers_step p d1 d2 false) by exact E6. cbv iota.
  exists w6, c3. rewrite Hw6, Ht6. cbn [nw_trace w5 set_nw_conns]. rewrite Ht4.
  split_and!; [done| |done|done]. by rewrite <-app_assoc.
Qed.

Lemma concurrent_writes_duplicate_witness :
  ∃ w' c', two_writers 1 [1; 2; 3] [4; 5] overlapping (W_start, W_start) demo_world =
             Ok ((W_done RC_succ, W_done RC_succ), w') ∧
    sends 1 (nw_trace w') = [[1; 2; 3]; [1; 2; 3]] ∧
    nw_conns w' !! 1 = Some c' ∧ send_state c' (Some [1; 2; 3]) [[4; 5]].
Proof.
  apply (concurrent_writes_duplicate 1 demo_world (set_socket 50 (Connector_new 1)) [1; 2; 3] [4; 5]).
  - intros tr s p d. left. discriminate.
  - reflexivity.
  - apply send_state_socket, send_state_new.
  - discriminate.
  - vm_compute; intuition discriminate.
  - vm_compute; intuition discriminate.
Defined.

(** ** The receive side *)

(** The kernel puts [d] into the buffer of the posted receive. *)
Definition fill (d : list Z) (c : Connector) : Connector :=
  let req := _RecvRequest c in
  let nb := ro_pBuffer req in
  set_recv (mkRecvOverlapped (ro_pConnector req) (ro_NetOp req)
              (mkNetworkBuffer (set_pBuffer (splice (_pBuffer (nb_base nb)) 0 d) (nb_base nb))
                 (_WSABuffer nb) (nb_pConnector nb)))
    (_RecvDataBuffer c) (_dwRecvRef c) c.
Definition receive_chunk `{OS} (p : Z) (d : list Z) : net unit :=
  _ ← conn_mod p (fill d); DoRecv p (zlen d).

(** The specification of one completion: the queued bytes and the chunk give
    one frame and the rest, or the connection is dropped. *)
Definition feed (q d : list Z) : option (list Z * list Z) :=
  let q' := q ++ d in
  if MAX_PACKET_BUFFER_SIZE <? zlen q' then None
  else if 0 <? cut q' then Some (sub q' 0 (cut q'), sub q' (cut q') (zlen q' - cut q'))
  else None.
Fixpoint feed_all (q : list Z) (ds : list (list Z)) : option (list (list Z) * list Z) :=
  match ds with
  | [] => Some ([], q)
  | d :: ds' =>
      '(f, rest) ← feed q d;
      '(fs, rest') ← feed_all rest ds';
      Some (f :: fs, rest')
  end.

Definition recvs_accepted `{OS} : Prop := ∀ tr s p n,
  os_call tr (sys_WSARecv s p n) ≠ SOCKET_ERROR ∨
  os_call (tr ++ [sys_WSARecv s p n]) sys_WSAGetLastError = WSA_IO_PENDING.

Definition is_recv (x : syscall) : Prop := match x with sys_WSARecv _ _ _ => True | _ => False end.
Definition chunk_ok (d : list Z) : Prop := 0 < zlen d ≤ MAX_PACKET_BUFFER_SIZE ∧ Forall is_byte d.

Section Receiving.
Context `{OSLaws} (p : Z).
Implicit Types (w : NetWorld) (c : Connector).

Lemma fill_ok c q d :
  recv_state c q → chunk_ok d →
  recv_state (fill d c) q ∧ sub (recv_memory (fill d c)) 0 (zlen d) = d.
Proof.
  intros [Hwf Hs Hc Hb Hm Hn] [Hd Hdb]. unfold recv_memory. simpl. split.
  - split; simpl; try done. by rewrite zlen_splice by lia.
  - apply sub_splice_prefix; lia.
Qed.

Lemma close_ok w c :
  nw_conns w !! p = Some c →
  mbind (M := net) (λ _, mbind (M := net) (λ _, conn_mod p (SetSocket INVALID_SOCKET))
    (sys (sys_closesocket (_socket c)))) (sys (sys_shutdown (_socket c))) w =
  Ok (tt, set_nw_conns (<[p := set_socket INVALID_SOCKET c]> (nw_conns w))
            (set_nw_trace (nw_trace w ++ [sys_shutdown (_socket c); sys_closesocket (_socket c)]) w)).
Proof.
  intros Hc. unfold mbind, st_bind, sys. erewrite conn_mod_ok by apply Hc. simpl. by rewrite <-app_assoc.
Qed.

Lemma Disconnect_open w c :
  nw_conns w !! p = Some c → _socket c ≠ INVALID_SOCKET →
  ∃ w' tr, Network_Disconnect (Some p) w = Ok (true, w') ∧
    nw_conns w' = <[p := set_socket INVALID_SOCKET c]> (nw_conns w) ∧
    nw_recvq w' = nw_recvq w ∧ nw_packets w' = nw_packets w ∧
    nw_trace w' = nw_trace w ++ tr ∧
    sys_closesocket (_socket c) ∈ tr ∧ Forall (λ x, ¬ is_recv x) tr.
Proof.
  intros Hc Hk. unfold Network_Disconnect. step by conn_get_ok. unfold GetSocket.
  rewrite (proj2 (Z.eqb_neq INVALID_SOCKET _)) by done. cbn [negb].
  erewrite st_bind_ok by (by apply close_ok). cbv beta iota.
  set (w1 := set_nw_conns _ _).
  assert (nw_conns w1 !! p = Some (set_socket INVALID_SOCKET c)) as Hc1 by apply lookup_insert_eq.
  step by conn_get_ok.
  destruct (negb (GetRecvRef (set_socket INVALID_SOCKET c) =? 0)).
  - cbv iota. erewrite st_bind_ok by (step_with sys_ok; reflexivity). cbv beta.
    exists (set_nw_trace (nw_trace w1 ++ [sys_PostQueuedCompletionStatus (Some p) (Some OP_RECV)]) w1),
      [sys_shutdown (_socket c); sys_closesocket (_socket c); sys_PostQueuedCompletionStatus (Some p) (Some OP_RECV)].
    split_and!; try done; [simpl; by rewrite <-!app_assoc|set_solver|repeat constructor; tauto].
  - cbv iota. step_ret. exists w1, [sys_shutdown (_socket c); sys_closesocket (_socket c)].
    split_and!; try done; [set_solver|repeat constructor; tauto].
Qed.

Lemma post_recv_ok w c :
  recvs_accepted → nw_conns w !! p = Some c →
  ∃ w' tr, post_recv p w = Ok (false, w') ∧ nw_conns w' = nw_conns w ∧
    nw_recvq w' = nw_recvq w ∧ nw_packets w' = nw_packets w ∧ nw_trace w' = nw_trace w ++ tr ∧
    sys_WSARecv (_socket c) p (wsa_len (_WSABuffer (GetRecvWSABuffer c))) ∈ tr.
Proof.
  intros Ha Hc. unfold post_recv. step by conn_get_ok. step_with sys_ok. unfold GetSocket.
  set (x := sys_WSARecv _ _ _).
  destruct (Z.eqb_spec (os_call (nw_trace w) x) SOCKET_ERROR) as [E|E].
  - step_with sys_ok. simpl.
    destruct (Ha (nw_trace w) (_socket c) p (wsa_len (_WSABuffer (GetRecvWSABuffer c)))) as [?|E']; [done|].
    fold x in E'. rewrite E'. eexists _, [x; sys_WSAGetLastError]. split; [done|].
    split_and!; try done; [simpl; by rewrite <-app_assoc|set_solver].
  - eexists _, [x]. split; [done|]. split_and!; try done. set_solver.
Qed.

(** What a connection that is still open looks like. *)
Record open_conn w (q : list Z) : Prop := {
  oc_conn : ∃ c, nw_conns w !! p = Some c ∧ recv_state c q ∧ _socket c ≠ INVALID_SOCKET;
  oc_queue : five_phases (nw_recvq w) }.

(** The packets of this queue, in order, with their connectors. *)
Definition arrived w : list (option (option Z * list Z)) :=
  packet_of (nw_packets w) <$> items (nw_recvq w) 0.
(** Packets still queued are distinct and lie below the next address. *)
Definition packets_old w : Prop :=
  Forall (λ x, x < ph_next (nw_packets w)) (items (nw_recvq w) 0) ∧ NoDup (items (nw_recvq w) 0).

Lemma net_RecvComplete_ok w n c c' rs' r :
  nw_conns w !! p = Some c →
  RecvComplete p n c (nw_recvq w, nw_packets w) = Ok (c', rs', r) →
  net_RecvComplete p n w =
    Ok (r, set_nw_packets rs'.2 (set_nw_recvq rs'.1 (set_nw_conns (<[p := c']> (nw_conns w)) w))).
Proof.
  intros Hc E. unfold net_RecvComplete. step by conn_get_ok. unfold mbind, st_bind, st_lift.
  rewrite E. destruct rs' as [q h]. by erewrite conn_set_ok by apply Hc.
Qed.

Lemma receive_again_drop w c :
  nw_conns w !! p = Some c → _socket c ≠ INVALID_SOCKET →
  ∃ w' tr, receive_again p (-1) w = Ok (tt, w') ∧ nw_trace w' = nw_trace w ++ tr ∧
    arrived w' = arrived w ∧ Forall (λ x, ¬ is_recv x) tr ∧
    ∃ c', nw_conns w' !! p = Some c' ∧ _socket c' = INVALID_SOCKET.
Proof.
  intros Hc Hk. unfold receive_again. cbn [Z.gtb Z.compare].
  destruct (Disconnect_open w c Hc Hk) as (w2 & tr & E2 & Hw2 & Hq2 & Hp2 & Ht2 & _ & Hnr).
  step_with E2. exists w2, tr. split_and!; try done.
  - unfold arrived. by rewrite Hq2, Hp2.
  - exists (set_socket INVALID_SOCKET c). rewrite Hw2. by rewrite lookup_insert_eq.
Qed.

Lemma receive_again_go w c q r :
  recvs_accepted → nw_conns w !! p = Some c → recv_state c q → _socket c ≠ INVALID_SOCKET → 0 ≤ r →
  ∃ w' tr, receive_again p r w = Ok (tt, w') ∧ nw_trace w' = nw_trace w ++ tr ∧
    nw_recvq w' = nw_recvq w ∧ nw_packets w' = nw_packets w ∧ Exists is_recv tr ∧
    ∃ c', nw_conns w' !! p = Some c' ∧ recv_state c' q ∧ _socket c' ≠ INVALID_SOCKET.
Proof.
  intros Ha Hc Hr Hk Hr0. unfold receive_again.
  destruct (Z.gtb_spec 0 r); [lia|].
  destruct (RecvPrepare_ok p c q Hr) as (c2 & E2 & Hr2 & _ & Hk2 & _ & _).
  step by conn_run_ok. set (w2 := set_nw_conns _ w).
  destruct (Z.ltb_spec 0 MAX_PACKET_BUFFER_SIZE) as [_|Hc0]; [|by vm_compute in Hc0].
  assert (nw_conns w2 !! p = Some c2) as Hc2 by apply lookup_insert_eq.
  destruct (post_recv_ok w2 c2 Ha Hc2) as (w3 & tr & E3 & Hw3 & Hq3 & Hp3 & Ht3 & Hin).
  step_with E3. exists w3, tr. split_and!; try done.
  - apply Exists_exists. eexists; split; [apply Hin|done].
  - exists c2. rewrite Hw3. split_and!; [done|done|congruence].
Qed.

Lemma receive_chunk_ok w q d :
  recvs_accepted → open_conn w q → packets_old w → chunk_ok d →
  ∃ w' tr, receive_chunk p d w = Ok (tt, w') ∧ nw_trace w' = nw_trace w ++ tr ∧
    match feed q d with
    | Some (f, rest) => open_conn w' rest ∧ packets_old w' ∧
        arrived w' = arrived w ++ [Some (Some p, f)] ∧ Exists is_recv tr
    | None => arrived w' = arrived w ∧ Forall (λ x, ¬ is_recv x) tr ∧
        ∃ c', nw_conns w' !! p = Some c' ∧ _socket c' = INVALID_SOCKET
    end.
Proof.
  intros Ha [(c & Hc & Hr & Hk) H5] Hold Hd. pose proof Hd as [Hdl Hdb].
  unfold receive_chunk. step by conn_mod_ok. set (w0 := set_nw_conns _ w).
  assert (nw_conns w0 !! p = Some (fill d c)) as Hc0 by apply lookup_insert_eq.
  destruct (fill_ok c q d Hr Hd) as [Hr0 Hsub]. set (c0 := fill d c) in *.
  unfold DoRecv. step by conn_get_ok.
  rewrite PacketLog_reads_ok by (pose proof (rs_mem _ _ Hr0); unfold recv_memory, MAX_PACKET_BUFFER_SIZE in *; lia).
  step_ret.
  destruct (RecvComplete_ok p (zlen d) c0 q (nw_recvq w0) (nw_packets w0) Hr0)
    as (c1 & rs1 & r & E & Hk1 & _ & _ & Hcase); [done|lia|by rewrite Hsub|].
  rewrite Hsub in Hcase. step_with (net_RecvComplete_ok w0 _ _ _ _ _ Hc0 E).
  set (w1 := set_nw_packets _ _).
  assert (nw_conns w1 !! p = Some c1) as Hc1 by apply lookup_insert_eq.
  assert (_socket c1 ≠ INVALID_SOCKET) as Hk1' by (rewrite Hk1; done).
  unfold feed. cbn zeta. destruct (MAX_PACKET_BUFFER_SIZE <? zlen (q ++ d)).
  { destruct Hcase as (-> & -> & _). by apply (receive_again_drop w1 c1). }
  destruct (Z.ltb_spec 0 (cut (q ++ d))) as [Hpos|].
  2:{ destruct Hcase as (-> & -> & _). by apply (receive_again_drop w1 c1). }
  destruct Hcase as (-> & Hr1 & H51 & Hi1 & Hp1 & Hn1 & Hpk1).
  assert (Forall is_byte (q ++ d)) as Hqd by (apply Forall_app; split; [apply (rs_bytes _ _ Hr)|done]).
  destruct (cut_bound _ Hqd) as [Hcut _].
  destruct (receive_again_go w1 c1 _ (zlen (q ++ d) - cut (q ++ d)) Ha Hc1 Hr1 Hk1')
    as (w3 & tr & E3 & Ht3 & Hq3 & Hp3 & Hin & Hconn); [lia|].
  exists w3, tr. split_and!; [done|done| |unfold packets_old|unfold arrived|done].
  - split; [done|]. by rewrite Hq3.
  - rewrite Hq3, Hp3. cbn [nw_recvq nw_packets w1 set_nw_conns set_nw_packets set_nw_recvq].
    rewrite Hi1, Hn1. destruct Hold as [Hlt Hnd]. split.
    + apply Forall_app. split; [|repeat constructor; cbn; lia]. eapply Forall_impl; [apply Hlt|]. cbn. intros; lia.
    + apply NoDup_app. split_and!; [done| |apply NoDup_singleton]. intros x Hx Hx'.
      apply list_elem_of_singleton in Hx' as ->. rewrite Forall_forall in Hlt. apply Hlt in Hx. cbn in Hx. lia.
  - rewrite Hq3, Hp3. cbn [nw_recvq nw_packets w1 set_nw_conns set_nw_packets set_nw_recvq].
    rewrite Hi1, fmap_app. cbn [fmap list_fmap]. rewrite Hp1. f_equal.
    apply list_fmap_ext. intros i x Hx. apply Hpk1.
    assert (x < ph_next (nw_packets w)); [|cbn; lia].
    destruct Hold as [Hlt _]. rewrite Forall_lookup in Hlt. by eapply Hlt.
Qed.
End Receiving.

Lemma cut_frame payload seq now rest k :
  zlen payload + 20 < 2 ^ 32 → 0 ≤ k ≤ zlen (frame payload seq now ++ rest) →
  cut (sub (frame payload seq now ++ rest) 0 k) = if k <? zlen payload + 20 then 0 else zlen payload + 20.
Proof.
  intros Hs Hk. pose proof (zlen_nonneg payload). unfold cut. rewrite zlen_sub by lia.
  destruct (Z.ltb_spec k 8); [by zbool|].
  rewrite queue_head_sub, queue_head_frame by lia. simpl. by zcases.
Qed.

Lemma feed_all_bytes ds : ∀ q fs rest,
  Forall is_byte q → Forall chunk_ok ds → feed_all q ds = Some (fs, rest) →
  length fs = length ds ∧ mjoin fs ++ rest = q ++ mjoin ds.
Proof.
  induction ds as [|d ds IH]; intros q fs rest Hq Hds E; cbn [feed_all] in E.
  { injection E as <- <-. by rewrite app_nil_r. }
  inversion Hds as [|? ? [_ Hd] Hds']; subst.
  unfold feed in E. cbn zeta in E. destruct (_ <? _); [done|].
  assert (Forall is_byte (q ++ d)) as Hb by (by apply Forall_app).
  destruct (Z.ltb_spec 0 (cut (q ++ d))); [|done]. cbn [mbind option_bind] in E.
  destruct (feed_all _ ds) as [[fs1 rest1]|] eqn:E1; [|done]. injection E as <- <-.
  destruct (IH _ _ _ (sub_Forall _ _ _ _ Hb) Hds' E1) as [Hl Hj].
  destruct (cut_bound _ Hb). simpl. split; [by rewrite Hl|].
  rewrite <-app_assoc, Hj, !app_assoc. by rewrite sub_split by lia.
Qed.

(** A run of completions on which every chunk completes a frame. *)
Lemma receive_run_ok `{OSLaws} p ds : ∀ q w fs rest,
  recvs_accepted → Forall chunk_ok ds → open_conn p w q → packets_old w → feed_all q ds = Some (fs, rest) →
  ∃ w', st_each (receive_chunk p) ds w = Ok (tt, w') ∧ open_conn p w' rest ∧ packets_old w' ∧
    arrived w' = arrived w ++ ((λ f, Some (Some p, f)) <$> fs).
Proof.
  induction ds as [|d ds IH]; intros q w fs rest Ha Hds Ho Hold E; cbn [feed_all] in E.
  { injection E as <- <-. exists w. cbn. by rewrite app_nil_r. }
  apply Forall_cons in Hds as [Hd Hds].
  destruct (receive_chunk_ok p w q d Ha Ho Hold Hd) as (w1 & tr & E1 & _ & Hc).
  destruct (feed q d) as [[f r]|]; [|done]. cbn [mbind option_bind] in E.
  destruct Hc as (Ho1 & Hold1 & Har & _).
  destruct (feed_all r ds) as [[fs1 rest1]|] eqn:E2; [|done]. injection E as <- <-.
  destruct (IH _ _ _ _ Ha Hds Ho1 Hold1 E2) as (w2 & E3 & Ho2 & Hold2 & Har2). exists w2.
  cbn [st_each]. rewrite E1. split_and!; [done..|]. by rewrite Har2, Har, <-app_assoc.
Qed.

(** receiving a stream, whatever the chunks the kernel delivers.  As long
    as every chunk completes a frame, each completion queues exactly one packet
    with its connector, posts the next receive and leaves the rest in the ring;
    the packets and the rest are together exactly the bytes received. *)
Theorem receive_stream `{OSLaws} p w ds fs rest :
  recvs_accepted → open_conn p w [] → packets_old w → Forall chunk_ok ds →
  feed_all [] ds = Some (fs, rest) →
  ∃ w', st_each (receive_chunk p) ds w = Ok (tt, w') ∧ open_conn p w' rest ∧
    arrived w' = arrived w ++ ((λ f, Some (Some p, f)) <$> fs) ∧
    length fs = length ds ∧ mjoin fs ++ rest = mjoin ds.
Proof.
  intros Ha Ho Hold Hds Hf.
  destruct (feed_all_bytes ds [] fs rest) as [Hl Hj]; [constructor|done|done|].
  destruct (receive_run_ok p ds [] w fs rest) as (w' & ? & ? & _ & ?); [done..|]. by exists w'.
Qed.

(** one completion at a frame boundary.  With the first [k] bytes of a
    stream that begins with a frame: if they contain the frame, it is queued
    and the connection goes on with the rest; if they do not - a frame split by
    the network - the connection is closed, nothing is queued and no receive
    is posted. *)
Theorem split_frame_drops `{OSLaws} p w payload seq now rest k :
  recvs_accepted → open_conn p w [] → packets_old w →
  Forall is_byte payload → Forall is_byte rest →
  zlen payload + 20 ≤ MAX_PACKET_BUFFER_SIZE → 1 ≤ k ≤ MAX_PACKET_BUFFER_SIZE →
  k ≤ zlen (frame payload seq now ++ rest) →
  ∃ w' tr, receive_chunk p (sub (frame payload seq now ++ rest) 0 k) w = Ok (tt, w') ∧
    nw_trace w' = nw_trace w ++ tr ∧
    if k <? zlen payload + 20 then
      arrived w' = arrived w ∧ Forall (λ x, ¬ is_recv x) tr ∧
      ∃ c', nw_conns w' !! p = Some c' ∧ _socket c' = INVALID_SOCKET
    else
      arrived w' = arrived w ++ [Some (Some p, frame payload seq now)] ∧ Exists is_recv tr ∧
      open_conn p w' (sub rest 0 (k - zlen payload - 20)).
Proof.
  intros Ha Ho Hold Hpb Hrb Hp Hk Hkl. unfold MAX_PACKET_BUFFER_SIZE in *.
  assert (Forall is_byte (frame payload seq now ++ rest)) as Hb.
  { unfold frame, repr_PacketHead, repr_PacketTail. rewrite !Forall_app. split_and!; auto using le_enc_bytes. }
  assert (chunk_ok (sub (frame payload seq now ++ rest) 0 k)) as Hd.
  { split; [rewrite zlen_sub by lia; unfold MAX_PACKET_BUFFER_SIZE; lia|by apply sub_Forall]. }
  destruct (receive_chunk_ok p w [] _ Ha Ho Hold Hd) as (w' & tr & E & Ht & Hc).
  exists w', tr. split; [done|]. split; [done|].
  unfold feed in Hc. cbn [app] in Hc. cbn zeta in Hc.
  rewrite cut_frame, zlen_sub in Hc by lia. unfold MAX_PACKET_BUFFER_SIZE in Hc.
  rewrite (proj2 (Z.ltb_ge (1024 * 10) k)) in Hc by lia. pose proof (zlen_nonneg payload).
  destruct (Z.ltb_spec k (zlen payload + 20)) as [|Hge]; [done|].
  rewrite (proj2 (Z.ltb_lt 0 (zlen payload + 20))) in Hc by lia.
  rewrite !sub_sub in Hc by lia. pose proof (zlen_frame payload seq now) as Hf.
  rewrite !Z.add_0_l, (sub_app_here _ (frame payload seq now)), sub_app_skip in Hc by lia.
  destruct Hc as (Ho' & _ & Har & Hex). split_and!; [done|done|].
  rewrite Hf in Ho'. replace (zlen payload + 20 - (zlen payload + 20)) with 0 in Ho' by lia.
  by replace (k - zlen payload - 20) with (k - (zlen payload + 20)) by lia.
Qed.

Lemma demo_open : open_conn 1 demo_world [].
Proof.
  split; [|apply five_init]. exists (set_socket 50 (Connector_new 1)).
  split_and!; [done| |done]. destruct (recv_state_new 1). by split.
Qed.
Lemma demo_recvs : recvs_accepted.
Proof. intros tr s q n. left. discriminate. Qed.
Definition demo_frame (b : Z) : list Z := frame [b] 1 2.

Lemma receive_stream_witness :
  ∃ w', st_each (receive_chunk 1) [demo_frame 7 ++ [0; 0]; sub (demo_frame 8) 2 19] demo_world = Ok (tt, w') ∧
    open_conn 1 w' [] ∧
    arrived w' = arrived demo_world ++ [Some (Some 1, demo_frame 7); Some (Some 1, demo_frame 8)] ∧
    2%nat = 2%nat ∧
    mjoin [demo_frame 7; demo_frame 8] ++ [] = mjoin [demo_frame 7 ++ [0; 0]; sub (demo_frame 8) 2 19].
Proof.
  apply (receive_stream 1 demo_world [demo_frame 7 ++ [0; 0]; sub (demo_frame 8) 2 19]
           [demo_frame 7; demo_frame 8] []).
  - apply demo_recvs.
  - apply demo_open.
  - split; constructor.
  - repeat constructor; apply (bool_decide_unpack _); vm_compute; done.
  - vm_compute. reflexivity.
Defined.

Lemma split_frame_drops_witness :
  ∃ w' tr, receive_chunk 1 (sub (demo_frame 7 ++ []) 0 20) demo_world = Ok (tt, w') ∧
    nw_trace w' = nw_trace demo_world ++ tr ∧
    arrived w' = arrived demo_world ∧ Forall (λ x, ¬ is_recv x) tr ∧
    ∃ c', nw_conns w' !! 1 = Some c' ∧ _socket c' = INVALID_SOCKET.
Proof.
  apply (split_frame_drops 1 demo_world [7] 1 2 [] 20).
  - apply demo_recvs.
  - apply demo_open.
  - split; constructor.
  - apply (bool_decide_unpack _). vm_compute. done.
  - constructor.
  - vm_compute; intuition discriminate.
  - vm_compute; intuition discriminate.
  - vm_compute; intuition discriminate.
Defined.

(** ** Releasing *)
Section Releasing.
Context `{OS}.

(** [closesocket] calls for a socket, with their [shutdown]. *)
Definition closing (s : Z) : list syscall := [sys_shutdown s; sys_closesocket s].

Lemma close_own_socket_ok p w c :
  nw_conns w !! p = Some c →
  close_own_socket p w =
    Ok (tt, if INVALID_SOCKET =? _socket c then w
            else set_nw_conns (<[p := set_socket INVALID_SOCKET c]> (nw_conns w))
                   (set_nw_trace (nw_trace w ++ closing (_socket c)) w)).
Proof.
  intros Hc. unfold close_own_socket. step by conn_get_ok.
  destruct (INVALID_SOCKET =? _socket c); [done|]. cbn [negb]. by apply close_ok.
Qed.

Definition drop_buffer (c : Connector) : Connector :=
  match so_pBuffer (_SendRequest c) with
  | Some _ => set_send (mkSendOverlapped (so_pConnector (_SendRequest c)) (so_NetOp (_SendRequest c)) None)
                (_SendQueue c) (_dwSendRef c) c
  | None => c
  end.

Lemma set_same p c w : nw_conns w !! p = Some c → set_nw_conns (<[p := c]> (nw_conns w)) w = w.
Proof. intros Hc. rewrite insert_id by done. by destruct w. Qed.

Lemma Connector_Release_closed p w c :
  nw_conns w !! p = Some c → _socket c = INVALID_SOCKET →
  Connector_Release p w = Ok (tt, set_nw_conns (<[p := drop_buffer c]> (nw_conns w)) w).
Proof.
  intros Hc Hk. unfold Connector_Release. erewrite st_bind_ok by (by apply close_own_socket_ok).
  rewrite Hk. cbn -[conn_mod]. by erewrite conn_mod_ok by apply Hc.
Qed.

Lemma TryRelease_ok p w c :
  nw_conns w !! p = Some c →
  ∃ w' c', TryRelease p w = Ok (tt, w') ∧ nw_conns w' !! p = Some c' ∧
    nw_trace w' = nw_trace w ++ (if INVALID_SOCKET =? _socket c then [] else closing (_socket c)) ∧
    _socket c' = INVALID_SOCKET ∧ _param c' = _param c ∧
    _RecvDataBuffer c' = _RecvDataBuffer c ∧ _SendQueue c' = _SendQueue c ∧
    _dwSendRef c' = _dwSendRef c ∧
    match _param c with
    | None => nw_mgr w' = ObjectPoolMgrBase_SetFreeObject (nw_mgr w) p ∧ so_pBuffer (_SendRequest c') = None
    | Some _ => nw_mgr w' = nw_mgr w ∧ _SendRequest c' = _SendRequest c
    end.
Proof.
  intros Hc. unfold TryRelease. erewrite st_bind_ok by (by apply close_own_socket_ok). cbv beta.
  set (w1 := if INVALID_SOCKET =? _socket c then w else set_nw_conns _ _).
  assert (∃ c1, nw_conns w1 !! p = Some c1 ∧ c1 = set_socket INVALID_SOCKET c) as (c1 & Hc1 & E1).
  { unfold w1. destruct (Z.eqb_spec INVALID_SOCKET (_socket c)) as [E|].
    - exists c. split; [done|]. destruct c; simpl in *. by subst.
    - eexists; split; [apply lookup_insert_eq|done]. }
  assert (nw_trace w1 = nw_trace w ++ (if INVALID_SOCKET =? _socket c then [] else closing (_socket c))) as Ht.
  { unfold w1. destruct (_ =? _); [by rewrite app_nil_r|done]. }
  assert (nw_mgr w1 = nw_mgr w) as Hm by (unfold w1; by destruct (_ =? _)).
  step by conn_get_ok. replace (_param c1) with (_param c) by (by rewrite E1).
  destruct (_param c) as [u|] eqn:Eu; cbn [bool_decide].
  - rewrite bool_decide_false by done. exists w1, c1. rewrite E1. split_and!; try done. by rewrite <-E1.
  - rewrite bool_decide_true by done.
    erewrite st_bind_ok by (apply Connector_Release_closed; [done|by rewrite E1]). cbv beta.
    eexists _, (drop_buffer c1). split; [done|].
    cbn [nw_conns nw_trace nw_mgr set_nw_mgr set_nw_conns]. rewrite lookup_insert_eq, Hm, E1.
    unfold drop_buffer. cbn. destruct (so_pBuffer (_SendRequest c)) eqn:Eb; split_and!; done.
Qed.

(** [TryRelease] on every branch.  It closes the socket if it is open; a
    connector whose session is gone is put back into the pool, one that has a
    session is not.  The receive ring, the send queue and the send count are
    not cleared, so they are what the next connection on this object starts
    with. *)
Theorem TryRelease_spec p w c :
  nw_conns w !! p = Some c →
  ∃ w' c', TryRelease p w = Ok (tt, w') ∧ nw_conns w' !! p = Some c' ∧
    nw_trace w' = nw_trace w ++ (if INVALID_SOCKET =? _socket c then [] else closing (_socket c)) ∧
    _socket c' = INVALID_SOCKET ∧ _param c' = _param c ∧
    _RecvDataBuffer c' = _RecvDataBuffer c ∧ _SendQueue c' = _SendQueue c ∧
    _dwSendRef c' = _dwSendRef c ∧
    match _param c with
    | None => nw_mgr w' = ObjectPoolMgrBase_SetFreeObject (nw_mgr w) p ∧ so_pBuffer (_SendRequest c') = None
    | Some _ => nw_mgr w' = nw_mgr w ∧ _SendRequest c' = _SendRequest c
    end.
Proof. apply TryRelease_ok. Qed.

(** the zero-byte completion of a receive on a connection without a
    session closes the socket handle twice: [WorkerThread] closes it without
    resetting [_socket], and [TryRelease] closes it again. *)
Theorem zero_completion_closes_twice p w c s :
  nw_conns w !! p = Some c → _socket c = s → s ≠ INVALID_SOCKET →
  ro_pConnector (_RecvRequest c) = Some p → ro_NetOp (_RecvRequest c) = OP_RECV →
  _dwRecvRef c = 1 → _dwSendRef c = 0 → _param c = None →
  ∃ w', WorkerThread_step (mkCompletion true 0 (Some p) (Some (p, false)) 0) w = Ok (tt, w') ∧
    nw_trace w' = nw_trace w ++ closing s ++ closing s ∧
    nw_mgr w' = ObjectPoolMgrBase_SetFreeObject (nw_mgr w) p.
Proof.
  intros Hc Hs Hk Ho Hop Hr Hsr Hpar. unfold WorkerThread_step. cbn [cp_bRet cp_lpOverlapped cp_dwIOSize negb].
  step by conn_get_ok. rewrite Ho, Hop. rewrite bool_decide_false by done. cbn [negb andb Z.eqb].
  unfold peer_closed. step by conn_get_ok. unfold GetSocket. rewrite Hs.
  rewrite (proj2 (Z.eqb_neq INVALID_SOCKET _)) by done. cbn [negb].
  erewrite st_bind_ok by (step_with sys_ok; step_with sys_ok; reflexivity). cbv beta iota.
  set (w1 := set_nw_trace _ _). assert (nw_conns w1 !! p = Some c) as Hc1 by done.
  step by conn_get_ok. unfold GetSendRef, GetRecvRef. rewrite Hsr, Hr. cbn [negb Z.eqb orb].
  erewrite st_bind_ok by (by apply conn_mod_ok). cbv beta.
  set (w2 := set_nw_conns _ w1).
  assert (nw_conns w2 !! p = Some (DecRecvRef c)) as Hc2 by apply lookup_insert_eq.
  step by conn_get_ok.
  replace (_dwSendRef (DecRecvRef c)) with 0 by (by cbn). cbn [Z.eqb orb].
  destruct (TryRelease_ok p w2 (DecRecvRef c) Hc2) as (w3 & c3 & E3 & _ & Ht3 & _ & _ & _ & _ & _ & Hm3).
  replace (_param (DecRecvRef c)) with (@None Z) in Hm3 by (by cbn). destruct Hm3 as [Hm3 _].
  replace (_socket (DecRecvRef c)) with s in Ht3 by (by cbn).
  rewrite (proj2 (Z.eqb_neq INVALID_SOCKET _)) in Ht3 by done.
  exists w3. split_and!; [done| |done]. rewrite Ht3. cbn [nw_trace w2 w1 set_nw_conns set_nw_trace].
  by rewrite <-!app_assoc.
Qed.
End Releasing.

Lemma TryRelease_spec_witness :
  ∃ w' c', TryRelease 1 demo_world = Ok (tt, w') ∧ nw_conns w' !! 1 = Some c' ∧
    nw_trace w' = [] ++ [sys_shutdown 50; sys_closesocket 50] ∧
    _socket c' = INVALID_SOCKET ∧ _param c' = None ∧
    _RecvDataBuffer c' = _RecvDataBuffer (Connector_new 1) ∧ _SendQueue c' = [] ∧
    _dwSendRef c' = 0 ∧
    nw_mgr w' = ObjectPoolMgrBase_SetFreeObject (nw_mgr demo_world) 1 ∧
    so_pBuffer (_SendRequest c') = None.
Proof. apply (TryRelease_spec 1 demo_world (set_socket 50 (Connector_new 1))). reflexivity. Defined.

(** A connection with one receive posted. *)
Definition demo_posted : Connector :=
  set_recv (mkRecvOverlapped (Some 1) OP_RECV (NetworkBuffer_new os_fresh))
    (BufferBase_new os_fresh MAX_PACKET_BUFFER_SIZE) 1 (set_socket 50 (Connector_new 1)).
Definition demo_world_posted : NetWorld := set_nw_conns {[ 1 := demo_posted ]} demo_world.
Lemma zero_completion_closes_twice_witness :
  ∃ w', WorkerThread_step (mkCompletion true 0 (Some 1) (Some (1, false)) 0) demo_world_posted = Ok (tt, w') ∧
    nw_trace w' = [] ++ [sys_shutdown 50; sys_closesocket 50] ++ [sys_shutdown 50; sys_closesocket 50] ∧
    nw_mgr w' = ObjectPoolMgrBase_SetFreeObject (nw_mgr demo_world) 1.
Proof.
  apply (zero_completion_closes_twice 1 demo_world_posted demo_posted 50); first [reflexivity | discriminate].
Defined.
