(* ===== verification/NetFrame.v ===== *)
(** * What the network layer leaves alone
    Three preorders on the state of _framework/network.cpp, and the functions
    that respect them: [same_elsewhere], a call on one connector changes no
    other; [links_kept], nothing changes which session a connector belongs to;
    [quiet], nothing but a receive changes the queue of received packets. *)
From S2P Require Import Prelude Buffer Packet ObjectPool PacketQueue TimeSet Config System Connector Network.

(** ** Locality: an operation on one connector leaves the others alone *)
Definition same_elsewhere (p : Z) (w w' : NetWorld) : Prop :=
  ∀ p', p' ≠ p → nw_conns w' !! p' = nw_conns w !! p' ∧ sends p' (nw_trace w') = sends p' (nw_trace w).
#[export] Instance same_elsewhere_pre p : PreOrder (same_elsewhere p).
Proof.
  split; [done|]. intros w1 w2 w3 H1 H2 p' Hp. destruct (H1 p' Hp), (H2 p' Hp). split; congruence.
Qed.
Definition only {A} (p : Z) (m : net A) : Prop := respects (same_elsewhere p) m.

Section Locality.
Context `{OS} (p : Z).
Lemma only_conn_get : respects (same_elsewhere p) (conn_get p).
Proof. intros w b w'. unfold conn_get. destruct (_ !! _); [|done]. by intros [= <- <-]. Qed.
Lemma only_conn_set c : respects (same_elsewhere p) (conn_set p c).
Proof.
  intros w b w'. unfold conn_set. destruct (_ !! _); [|done]. intros [= <- <-] p' Hp. simpl.
  by rewrite lookup_insert_ne.
Qed.
Lemma only_sys x :
  (∀ p', p' ≠ p → sends p' [x] = []) → respects (same_elsewhere p) (sys x).
Proof. intros Hx w b w' [= <- <-] p' Hp. simpl. by rewrite sends_app, Hx, app_nil_r. Qed.
End Locality.
#[export] Hint Resolve only_conn_get only_conn_set : respects.
#[export] Hint Extern 1 (respects (same_elsewhere _) (sys _)) =>
  apply only_sys; intros ? ?; simpl; first [done | by rewrite decide_False by congruence] : respects.

Lemma only_conn_run {A} p (f : Connector → outcome (Connector * A)) : respects (same_elsewhere p) (conn_run p f).
Proof. unfold conn_run. respects_tac. Qed.
Lemma only_conn_mod p f : respects (same_elsewhere p) (conn_mod p f).
Proof. unfold conn_mod. respects_tac. Qed.
#[export] Hint Resolve only_conn_run only_conn_mod : respects.
Lemma only_post_send `{OS} p : respects (same_elsewhere p) (post_send p).
Proof. unfold post_send. respects_tac. Qed.
#[export] Hint Resolve only_post_send : respects.
Lemma only_Write `{OS} p d n : only p (Network_Write (Some p) d n).
Proof. unfold only, Network_Write. respects_tac. Qed.

(** ** The session a connector belongs to

    No function of the network layer gives a connector to a session or takes
    it away, and no connector is ever destroyed. *)
Definition links (w : NetWorld) : gmap Z Z := omap _param (nw_conns w).
Record links_kept (w w' : NetWorld) : Prop := {
  lk_links : links w' = links w;
  lk_live p : is_Some (nw_conns w !! p) → is_Some (nw_conns w' !! p) }.
#[export] Instance links_kept_pre : PreOrder links_kept.
Proof.
  split; [by split|]. intros w1 w2 w3 [L1 D1] [L2 D2]. split; [congruence|auto].
Qed.
Lemma links_lookup w p k : nw_conns w !! p = Some k → links w !! p = _param k.
Proof. intros Hk. unfold links. by rewrite lookup_omap, Hk. Qed.
Lemma links_inv w p q : links w !! p = Some q → ∃ k, nw_conns w !! p = Some k ∧ _param k = Some q.
Proof. unfold links. rewrite lookup_omap. destruct (nw_conns w !! p) as [k|]; [|done]. cbn. eauto. Qed.
Lemma links_kept_conn w w' p k :
  links_kept w w' → nw_conns w !! p = Some k → ∃ k', nw_conns w' !! p = Some k' ∧ _param k' = _param k.
Proof.
  intros [Hl Hd] Hk. destruct (Hd p) as [k' Hk']; [by eexists|]. exists k'. split; [done|].
  by rewrite <-(links_lookup _ _ _ Hk'), Hl, (links_lookup _ _ _ Hk).
Qed.

(** Nothing but [RecvComplete] touches the received packets either. *)
Record quiet (w w' : NetWorld) : Prop := {
  qt_links : links_kept w w';
  qt_recvq : nw_recvq w' = nw_recvq w;
  qt_packets : nw_packets w' = nw_packets w }.
#[export] Instance quiet_pre : PreOrder quiet.
Proof. split; [by split|]. intros w1 w2 w3 [L1 Q1 P1] [L2 Q2 P2]. split; [by etrans|congruence..]. Qed.

Section Quiet.
Context `{OS}.

Lemma links_insert w p c c' :
  nw_conns w !! p = Some c → _param c' = _param c →
  links_kept w (set_nw_conns (<[p := c']> (nw_conns w)) w).
Proof.
  intros Hc Hp. split.
  - apply map_eq. intros q. unfold links. rewrite !lookup_omap. cbn [nw_conns set_nw_conns].
    destruct (decide (q = p)) as [->|Hne]; [|by rewrite lookup_insert_ne].
    by rewrite lookup_insert_eq, Hc.
  - intros q Hq. cbn [nw_conns set_nw_conns]. apply lookup_insert_is_Some'. by right.
Qed.
Lemma quiet_conn_get p : respects quiet (conn_get p).
Proof. intros w b w'. unfold conn_get. destruct (_ !! _); [|done]. by intros [= <- <-]. Qed.
Lemma quiet_sys x : respects quiet (sys x).
Proof. by intros w b w' [= <- <-]. Qed.
Lemma quiet_conn_run {A} p (f : Connector → outcome (Connector * A)) :
  (∀ c c' a, f c = Ok (c', a) → _param c' = _param c) → respects quiet (conn_run p f).
Proof.
  intros Hf w a w' E. unfold conn_run in E.
  apply st_bind_inv in E as (c & w1 & E1 & E). unfold conn_get in E1.
  destruct (nw_conns w !! p) as [c0|] eqn:Hc; [|done]. injection E1 as <- <-.
  apply st_bind_inv in E as ([c' b] & w1 & E1 & E). unfold st_lift in E1.
  destruct (f c0) as [[c1 b1]|] eqn:Ef; [|done]. injection E1 as <- <- <-.
  apply st_bind_inv in E as (u & w1 & E1 & E). unfold conn_set in E1. rewrite Hc in E1.
  injection E1 as <- <-. injection E as <- <-. split; [|done..].
  apply (links_insert _ _ _ _ Hc). by eapply Hf.
Qed.
Lemma quiet_conn_mod p f : (∀ c, _param (f c) = _param c) → respects quiet (conn_mod p f).
Proof.
  intros Hf w a w' E. unfold conn_mod in E. apply st_bind_inv in E as (c & w1 & E1 & E).
  unfold conn_get in E1. destruct (nw_conns w !! p) as [c0|] eqn:Hc; [|done]. injection E1 as <- <-.
  unfold conn_set in E. rewrite Hc in E. injection E as <- <-. split; [|done..].
  by apply (links_insert _ _ _ _ Hc).
Qed.
Lemma AddSendQueue_param p d n c c' a : AddSendQueue p d n c = Ok (c', a) → _param c' = _param c.
Proof.
  unfold AddSendQueue. intros E. apply bind_ok_inv in E as ([b r] & _ & E).
  by case_match; simplify_eq.
Qed.
Lemma SendPrepare_param p c c' a : SendPrepare p c = Ok (c', a) → _param c' = _param c.
Proof. unfold SendPrepare, SendPrepare_locked. intros E. by repeat case_match; simplify_eq. Qed.
Lemma SendComplete_param n c c' a : SendComplete n c = Ok (c', a) → _param c' = _param c.
Proof. unfold SendComplete. intros E. by repeat case_match; simplify_eq. Qed.
Lemma RecvPrepare_param p c c' a : RecvPrepare p c = Ok (c', a) → _param c' = _param c.
Proof.
  unfold RecvPrepare. intros E. apply bind_ok_inv in E as (nb & _ & E).
  by repeat case_match; simplify_eq.
Qed.
Lemma AcceptPrepare_param p c c' a : AcceptPrepare_conn p c = Ok (c', a) → _param c' = _param c.
Proof.
  unfold AcceptPrepare_conn. intros E. apply bind_ok_inv in E as (nb & _ & E).
  by repeat case_match; simplify_eq.
Qed.
Lemma construct_quiet objs w : quiet w (construct_objects objs w).
Proof.
  unfold construct_objects. revert w. induction objs as [|p objs IH]; intros w; [done|].
  cbn [foldl]. etrans; [|apply IH]. destruct (nw_conns w !! p) eqn:E; [done|]. split; [|done..]. split.
  - apply map_eq. intros q. unfold links. rewrite !lookup_omap. cbn [nw_conns set_nw_conns set_nw_uid].
    destruct (decide (q = p)) as [->|Hne]; [|by rewrite lookup_insert_ne].
    by rewrite lookup_insert_eq, E.
  - intros q Hq. apply lookup_insert_is_Some'. by right.
Qed.
Lemma quiet_GetFreeObject : respects quiet ConnectorMgr_GetFreeObject.
Proof.
  intros w a w' E. unfold ConnectorMgr_GetFreeObject in E.
  destruct (ObjectPoolMgrBase_GetFreeObject (nw_mgr w)) as [q m]. injection E as <- <-.
  etrans; [|apply construct_quiet]. by split.
Qed.
Lemma quiet_modify (f : NetWorld → NetWorld) : (∀ w, quiet w (f w)) → respects quiet (st_modify f).
Proof. apply respects_modify. Qed.
End Quiet.

#[export] Hint Resolve quiet_conn_get quiet_sys quiet_GetFreeObject : respects.
#[export] Hint Resolve AddSendQueue_param SendPrepare_param SendComplete_param : respects.
#[export] Hint Resolve RecvPrepare_param AcceptPrepare_param : respects.
#[export] Hint Extern 2 (respects quiet (conn_run _ _)) => apply quiet_conn_run : respects.
#[export] Hint Extern 2 (respects quiet (conn_mod _ _)) =>
  apply quiet_conn_mod; intros ?; repeat case_match; reflexivity : respects.
#[export] Hint Extern 2 (respects quiet (st_modify _)) => apply quiet_modify; done : respects.

Section QuietFunctions.
Context `{OS}.
Lemma quiet_post_send p : respects quiet (post_send p).
Proof. unfold post_send. respects_tac. Qed.
Lemma quiet_post_recv p : respects quiet (post_recv p).
Proof. unfold post_recv. respects_tac. Qed.
Hint Resolve quiet_post_send quiet_post_recv : respects.
Lemma quiet_Write p d n : respects quiet (Network_Write p d n).
Proof. unfold Network_Write. respects_tac. Qed.
Lemma quiet_Disconnect p : respects quiet (Network_Disconnect p).
Proof. unfold Network_Disconnect. respects_tac. Qed.
Lemma quiet_close_own_socket p : respects quiet (close_own_socket p).
Proof. unfold close_own_socket. respects_tac. Qed.
Lemma quiet_ConvertSocket2IP p : respects quiet (ConvertSocket2IP p).
Proof. intros w a w' E. unfold ConvertSocket2IP in E. eapply quiet_conn_mod; [|exact E]. done. Qed.
Hint Resolve quiet_Write quiet_Disconnect quiet_close_own_socket quiet_ConvertSocket2IP : respects.
Lemma quiet_SetFreeObject p : respects quiet (ConnectorMgr_SetFreeObject p).
Proof. unfold ConnectorMgr_SetFreeObject. respects_tac. Qed.
Lemma quiet_Release p : respects quiet (Connector_Release p).
Proof. unfold Connector_Release. respects_tac. Qed.
Hint Resolve quiet_SetFreeObject quiet_Release : respects.
Lemma quiet_TryRelease p : respects quiet (TryRelease p).
Proof. unfold TryRelease. respects_tac. Qed.
Lemma quiet_AddSendData p d n : respects quiet (Connector_AddSendData p d n).
Proof. unfold Connector_AddSendData. respects_tac. Qed.
Lemma quiet_DoSend p n : respects quiet (DoSend p n).
Proof. unfold DoSend. respects_tac. Qed.
Lemma quiet_receive_again p n : respects quiet (receive_again p n).
Proof. unfold receive_again. respects_tac. Qed.
Lemma quiet_DoAccept p : respects quiet (DoAccept p).
Proof. unfold DoAccept. respects_tac. Qed.
Lemma quiet_AcceptPrepare : respects quiet AcceptPrepare.
Proof. unfold AcceptPrepare. respects_tac. Qed.
Lemma quiet_AcceptThread_step s : respects quiet (AcceptThread_step s).
Proof. unfold AcceptThread_step. respects_tac. Qed.
Hint Resolve quiet_TryRelease : respects.
Lemma quiet_peer_closed p op : respects quiet (peer_closed p op).
Proof. unfold peer_closed. respects_tac. Qed.
Lemma quiet_DoConnect p a n : respects quiet (DoConnect p a n).
Proof. unfold DoConnect. respects_tac. Qed.
End QuietFunctions.
#[export] Hint Resolve quiet_Write quiet_Disconnect quiet_TryRelease quiet_AddSendData : respects.
#[export] Hint Resolve quiet_DoSend quiet_receive_again quiet_DoAccept quiet_AcceptPrepare quiet_AcceptThread_step : respects.
#[export] Hint Resolve quiet_peer_closed quiet_DoConnect quiet_post_recv quiet_post_send : respects.

(** The worker threads: everything a completion can lead to. *)
Section LinksKept.
Context `{OS}.
Lemma links_of_quiet {A} (m : net A) : respects quiet m → respects links_kept m.
Proof. apply respects_weaken. by intros w w' []. Qed.
Hint Extern 3 (respects links_kept _) => apply links_of_quiet; solve [eauto with respects] : respects.
Lemma links_Write p d n : respects links_kept (Network_Write p d n).
Proof. eauto with respects. Qed.
Lemma RecvComplete_param p n c rs c' rs' r : RecvComplete p n c rs = Ok (c', rs', r) → _param c' = _param c.
Proof.
  unfold RecvComplete. intros E. repeat first [case_match; simplify_eq/=; try done | apply bind_ok_inv in E as (? & ? & E)].
Qed.
Lemma links_RecvComplete p n : respects links_kept (net_RecvComplete p n).
Proof.
  intros w a w' E. unfold net_RecvComplete in E. apply st_bind_inv in E as (c & w1 & E1 & E).
  unfold conn_get in E1. destruct (nw_conns w !! p) as [c0|] eqn:Hc; [|done]. injection E1 as <- <-.
  apply st_bind_inv in E as ([[c' [q h]] r] & w1 & E1 & E). unfold st_lift in E1.
  destruct (RecvComplete p n c0 (nw_recvq w, nw_packets w)) as [[[c1 [q1 h1]] r1]|] eqn:Ef; [|done]. injection E1 as <- <- <- <- <-.
  apply st_bind_inv in E as (u & w1 & E1 & E). unfold conn_set in E1. rewrite Hc in E1.
  injection E1 as <- <-. injection E as <- <-.
  etrans; [exact (links_insert _ _ _ _ Hc (RecvComplete_param _ _ _ _ _ _ _ Ef))|]. by split.
Qed.
Hint Resolve links_RecvComplete : respects.
Lemma links_DoRecv p n : respects links_kept (DoRecv p n).
Proof. unfold DoRecv. respects_tac. Qed.
Hint Resolve links_DoRecv : respects.
Lemma links_WorkerThread_step e : respects links_kept (WorkerThread_step e).
Proof. unfold WorkerThread_step. respects_tac. Qed.
Lemma links_AcceptThread_step s : respects links_kept (AcceptThread_step s).
Proof. eauto with respects. Qed.
End LinksKept.

(** ** A call on a live connector never meets a destroyed one *)
Definition live (p : Z) (w : NetWorld) : Prop := is_Some (nw_conns w !! p).
Lemma live_kept p w w' : links_kept w w' → live p w → live p w'.
Proof. intros [_ Hl]. apply Hl. Qed.

Section Alive.
Context `{OS} (p : Z).

Lemma faults_SetSendData nb k d n : faults no_dangling (SetSendData nb k d n).
Proof. unfold SetSendData. keeps_tac. Qed.
Hint Resolve faults_SetSendData : keeps.
Lemma faults_AddSendQueue d n c : faults no_dangling (AddSendQueue p d n c).
Proof. unfold AddSendQueue. keeps_tac. Qed.
Lemma faults_SendPrepare c : faults no_dangling (SendPrepare p c).
Proof. unfold SendPrepare, SendPrepare_locked. keeps_tac. Qed.
Lemma faults_GetSendWSABuffer c : faults no_dangling (GetSendWSABuffer c).
Proof. unfold GetSendWSABuffer. keeps_tac. Qed.
Lemma faults_wsa_bytes nb : faults no_dangling (wsa_bytes nb).
Proof. unfold wsa_bytes. keeps_tac. Qed.
Hint Resolve faults_AddSendQueue faults_SendPrepare faults_GetSendWSABuffer faults_wsa_bytes : keeps.

Lemma live_sys F x : keeps F (live p) (sys x).
Proof. by intros w Hw. Qed.
Lemma live_conn_get F : keeps F (live p) (conn_get p).
Proof. intros w [c Hc]. unfold conn_get. rewrite Hc. by exists c. Qed.
Lemma live_conn_set F c : keeps F (live p) (conn_set p c).
Proof. intros w [c0 Hc]. unfold conn_set. rewrite Hc. exists c. apply lookup_insert_eq. Qed.
Lemma live_modify F (f : NetWorld → NetWorld) :
  (∀ w, nw_conns (f w) = nw_conns w) → keeps F (live p) (st_modify f).
Proof. intros Hf. apply keeps_modify. intros w. unfold live. by rewrite Hf. Qed.
Hint Resolve live_sys live_conn_get live_conn_set : keeps.
Hint Extern 2 (keeps _ (live _) (st_modify _)) => apply live_modify; reflexivity : keeps.
Lemma live_conn_mod F f : keeps F (live p) (conn_mod p f).
Proof. unfold conn_mod. keeps_tac. Qed.
Lemma live_conn_run {A} F (f : Connector → outcome (Connector * A)) :
  (∀ c, faults F (f c)) → keeps F (live p) (conn_run p f).
Proof. intros Hf. unfold conn_run. keeps_tac. Qed.
Hint Resolve live_conn_mod : keeps.
Hint Extern 2 (keeps _ (live _) (conn_run _ _)) => apply live_conn_run; intros ? : keeps.
Lemma live_post_send : keeps no_dangling (live p) (post_send p).
Proof. unfold post_send. keeps_tac. Qed.
Hint Resolve live_post_send : keeps.
Lemma live_Write d n : keeps no_dangling (live p) (Network_Write (Some p) d n).
Proof. unfold Network_Write. keeps_tac. Qed.
Lemma live_AddSendData d n : keeps no_dangling (live p) (Connector_AddSendData p d n).
Proof. apply live_Write. Qed.
Lemma live_close_own_socket F : keeps F (live p) (close_own_socket p).
Proof. unfold close_own_socket. keeps_tac. Qed.
Hint Resolve live_close_own_socket : keeps.
Lemma live_Release F : keeps F (live p) (Connector_Release p).
Proof. unfold Connector_Release. keeps_tac. Qed.
Hint Resolve live_Release : keeps.
Lemma live_TryRelease F : keeps F (live p) (TryRelease p).
Proof. unfold TryRelease, ConnectorMgr_SetFreeObject. keeps_tac. Qed.
End Alive.
#[export] Hint Resolve live_sys live_conn_get live_conn_mod live_AddSendData live_TryRelease : keeps.
