(* ===== verification/Duplex.v ===== *)
(** * The two directions of a connection
    Sending and receiving on a connector of _framework/network.cpp share the
    connector object, the socket and the worker threads.  Two preorders say
    what each direction leaves alone: [deaf], what a send does not change, and
    [mute], what a receive does not change.  With them the two streams of a
    connection are what they are on their own, however their completions come
    in between each other. *)
From S2P Require Import Prelude Buffer Packet ObjectPool PacketQueue TimeSet Config System Connector.
From S2P Require Import Network NetFrame.

(** Connectors related one by one; none is destroyed. *)
Definition conns_rel (R : Connector → Connector → Prop) (w w' : NetWorld) : Prop :=
  ∀ p k, nw_conns w !! p = Some k → ∃ k', nw_conns w' !! p = Some k' ∧ R k k'.
#[export] Instance conns_rel_pre R `{!PreOrder R} : PreOrder (conns_rel R).
Proof.
  split; [intros w p k Hk; by exists k|]. intros w1 w2 w3 H1 H2 p k Hk.
  destruct (H1 p k Hk) as (k1 & Hk1 & ?), (H2 p k1 Hk1) as (k2 & ? & ?). exists k2. split; [done|by etrans].
Qed.

Record same_receiver (k k' : Connector) : Prop := {
  sr_request : _RecvRequest k' = _RecvRequest k;
  sr_ring : _RecvDataBuffer k' = _RecvDataBuffer k }.
Record same_sender (k k' : Connector) : Prop := {
  sn_request : _SendRequest k' = _SendRequest k;
  sn_queue : _SendQueue k' = _SendQueue k;
  sn_ref : _dwSendRef k' = _dwSendRef k }.
#[export] Instance same_receiver_pre : PreOrder same_receiver.
Proof. split; [by split|]. intros k1 k2 k3 [] []. split; congruence. Qed.
#[export] Instance same_sender_pre : PreOrder same_sender.
Proof. split; [by split|]. intros k1 k2 k3 [] []. split; congruence. Qed.

(** Nothing is sent. *)
Definition unsent (w w' : NetWorld) : Prop := ∀ p, sends p (nw_trace w') = sends p (nw_trace w).
#[export] Instance unsent_pre : PreOrder unsent.
Proof. split; [done|]. intros w1 w2 w3 H1 H2 p. by rewrite H2. Qed.

Section ConnsRel.
Context (R : Connector → Connector → Prop) `{!PreOrder R}.

Lemma rel_insert w p k k' :
  nw_conns w !! p = Some k → R k k' → conns_rel R w (set_nw_conns (<[p := k']> (nw_conns w)) w).
Proof.
  intros Hk HR q j Hj. cbn [nw_conns set_nw_conns]. destruct (decide (q = p)) as [->|Hne].
  - rewrite lookup_insert_eq. exists k'. split; [done|]. by assert (j = k) as -> by congruence.
  - rewrite lookup_insert_ne by done. by exists j.
Qed.
Lemma rel_conn_get p : respects (conns_rel R) (conn_get p).
Proof. intros w b w'. unfold conn_get. destruct (_ !! _); [|done]. by intros [= <- <-]. Qed.
Lemma rel_sys `{OS} x : respects (conns_rel R) (sys x).
Proof. intros w b w' [= <- <-] p k Hk. by exists k. Qed.
Lemma rel_conn_run {A} p (f : Connector → outcome (Connector * A)) :
  (∀ k k' a, f k = Ok (k', a) → R k k') → respects (conns_rel R) (conn_run p f).
Proof.
  intros Hf w a w' E. unfold conn_run in E. apply st_bind_inv in E as (c & w1 & E1 & E).
  unfold conn_get in E1. destruct (nw_conns w !! p) as [c0|] eqn:Hc; [|done]. injection E1 as <- <-.
  apply st_bind_inv in E as ([c' b] & w1 & E1 & E). unfold st_lift in E1.
  destruct (f c0) as [[c1 b1]|] eqn:Ef; [|done]. injection E1 as <- <- <-.
  apply st_bind_inv in E as (u & w1 & E1 & E). unfold conn_set in E1. rewrite Hc in E1.
  injection E1 as <- <-. injection E as <- <-. apply (rel_insert _ _ c0); [done|by eapply Hf].
Qed.
Lemma rel_conn_mod p f : (∀ k, R k (f k)) → respects (conns_rel R) (conn_mod p f).
Proof.
  intros Hf w a w' E. unfold conn_mod in E. apply st_bind_inv in E as (c & w1 & E1 & E).
  unfold conn_get in E1. destruct (nw_conns w !! p) as [c0|] eqn:Hc; [|done]. injection E1 as <- <-.
  unfold conn_set in E. rewrite Hc in E. injection E as <- <-. by apply (rel_insert _ _ c0).
Qed.
End ConnsRel.
#[export] Hint Resolve rel_conn_get rel_sys : respects.

(** ** What a send leaves alone *)
Section Deaf.
Context `{OS}.
Abbreviation deaf := (conns_rel same_receiver).

Lemma AddSendQueue_deaf p d n k k' a : AddSendQueue p d n k = Ok (k', a) → same_receiver k k'.
Proof.
  unfold AddSendQueue. intros E. apply bind_ok_inv in E as ([b r] & _ & E). by case_match; simplify_eq.
Qed.
Lemma SendPrepare_deaf p k k' a : SendPrepare p k = Ok (k', a) → same_receiver k k'.
Proof. unfold SendPrepare, SendPrepare_locked. intros E. by repeat case_match; simplify_eq. Qed.
Lemma SendComplete_deaf n k k' a : SendComplete n k = Ok (k', a) → same_receiver k k'.
Proof. unfold SendComplete. intros E. by repeat case_match; simplify_eq. Qed.
Lemma deaf_AddSendQueue p d n : respects deaf (conn_run p (AddSendQueue p d n)).
Proof. apply rel_conn_run; [apply _|intros ???; apply AddSendQueue_deaf]. Qed.
Lemma deaf_SendPrepare p : respects deaf (conn_run p (SendPrepare p)).
Proof. apply rel_conn_run; [apply _|intros ???; apply SendPrepare_deaf]. Qed.
Lemma deaf_SendComplete p n : respects deaf (conn_run p (SendComplete n)).
Proof. apply rel_conn_run; [apply _|intros ???; apply SendComplete_deaf]. Qed.
Lemma deaf_SetSocket p s : respects deaf (conn_mod p (SetSocket s)).
Proof. apply rel_conn_mod; [apply _|]. by intros k. Qed.
Hint Resolve deaf_AddSendQueue deaf_SendPrepare deaf_SendComplete deaf_SetSocket : respects.
Lemma deaf_post_send p : respects deaf (post_send p).
Proof. unfold post_send. respects_tac. Qed.
Lemma deaf_Disconnect p : respects deaf (Network_Disconnect p).
Proof. unfold Network_Disconnect. respects_tac. Qed.
Hint Resolve deaf_post_send deaf_Disconnect : respects.
Lemma deaf_Write p d n : respects deaf (Network_Write p d n).
Proof. unfold Network_Write. respects_tac. Qed.
Lemma deaf_DoSend p n : respects deaf (DoSend p n).
Proof. unfold DoSend. respects_tac. Qed.
End Deaf.

(** ** What a receive leaves alone *)
Section Mute.
Context `{OS}.
Abbreviation mute := (conns_rel same_sender).

Lemma RecvPrepare_mute p k k' a : RecvPrepare p k = Ok (k', a) → same_sender k k'.
Proof.
  unfold RecvPrepare. intros E. apply bind_ok_inv in E as (nb & _ & E). by repeat case_match; simplify_eq.
Qed.
Lemma RecvComplete_mute p n k rs k' rs' r : RecvComplete p n k rs = Ok (k', rs', r) → same_sender k k'.
Proof.
  unfold RecvComplete. intros E.
  by repeat first [case_match; simplify_eq/=; try done | apply bind_ok_inv in E as (? & ? & E)].
Qed.
Lemma mute_RecvComplete p n : respects mute (net_RecvComplete p n).
Proof.
  intros w a w' E. unfold net_RecvComplete in E. apply st_bind_inv in E as (c & w1 & E1 & E).
  unfold conn_get in E1. destruct (nw_conns w !! p) as [c0|] eqn:Hc; [|done]. injection E1 as <- <-.
  apply st_bind_inv in E as ([[c' [q h]] r] & w1 & E1 & E). unfold st_lift in E1.
  destruct (RecvComplete p n c0 (nw_recvq w, nw_packets w)) as [[[c1 [q1 h1]] r1]|] eqn:Ef; [|done]. injection E1 as <- <- <- <- <-.
  apply st_bind_inv in E as (u & w1 & E1 & E). unfold conn_set in E1. rewrite Hc in E1.
  injection E1 as <- <-. injection E as <- <-.
  exact (rel_insert same_sender w p c0 c1 Hc (RecvComplete_mute _ _ _ _ _ _ _ Ef)).
Qed.
Lemma mute_RecvPrepare p : respects mute (conn_run p (RecvPrepare p)).
Proof. apply rel_conn_run; [apply _|intros ???; apply RecvPrepare_mute]. Qed.
Lemma mute_SetSocket p s : respects mute (conn_mod p (SetSocket s)).
Proof. apply rel_conn_mod; [apply _|]. by intros k. Qed.
Lemma mute_fill p d : respects mute (conn_mod p (fill d)).
Proof. apply rel_conn_mod; [apply _|]. by intros k. Qed.
Hint Resolve mute_RecvComplete mute_RecvPrepare mute_SetSocket mute_fill : respects.
Lemma mute_receive_chunk p d : respects mute (receive_chunk p d).
Proof. unfold receive_chunk, DoRecv, receive_again, post_recv, Network_Disconnect. respects_tac. Qed.

Lemma unsent_same {A} (m : net A) : (∀ w a w', m w = Ok (a, w') → nw_trace w' = nw_trace w) → respects unsent m.
Proof. intros Hm w a w' E p. by rewrite (Hm _ _ _ E). Qed.
Lemma unsent_conn_get p : respects unsent (conn_get p).
Proof. apply unsent_same. intros w a w'. unfold conn_get. destruct (_ !! _); [|done]. by intros [= _ <-]. Qed.
Lemma unsent_conn_set p c : respects unsent (conn_set p c).
Proof. apply unsent_same. intros w a w'. unfold conn_set. destruct (_ !! _); [|done]. by intros [= _ <-]. Qed.
Lemma unsent_sys x : (∀ p, sends p [x] = []) → respects unsent (sys x).
Proof. intros Hx w a w' [= _ <-] p. cbn [nw_trace set_nw_trace]. by rewrite sends_app, Hx, app_nil_r. Qed.
Lemma unsent_modify (f : NetWorld → NetWorld) : (∀ w, nw_trace (f w) = nw_trace w) → respects unsent (st_modify f).
Proof. intros Hf. apply unsent_same. intros w a w' [= _ <-]. apply Hf. Qed.
Hint Resolve unsent_conn_get unsent_conn_set : respects.
Hint Extern 1 (respects unsent (sys _)) => apply unsent_sys; reflexivity : respects.
Hint Extern 1 (respects unsent (st_modify _)) => apply unsent_modify; reflexivity : respects.
Lemma unsent_complete p n k :
  respects unsent (λ w, st_lift (S := NetWorld) (RecvComplete p n k (nw_recvq w, nw_packets w)) w).
Proof.
  apply unsent_same. intros w a w'. cbv beta. unfold st_lift. destruct (RecvComplete _ _ _ _); [|done]. by intros [= _ <-].
Qed.
Hint Resolve unsent_complete : respects.
Lemma unsent_receive_chunk p d : respects unsent (receive_chunk p d).
Proof.
  unfold receive_chunk, DoRecv, receive_again, post_recv, Network_Disconnect, net_RecvComplete, conn_mod, conn_run.
  respects_tac.
Qed.
End Mute.

Lemma links_receive_chunk `{OS} p d : respects links_kept (receive_chunk p d).
Proof.
  unfold receive_chunk. apply respects_bind; [apply _| |intros _; apply links_DoRecv].
  apply (links_of_quiet (conn_mod p (fill d))). by apply quiet_conn_mod.
Qed.

Lemma only_complete `{OS} p q n k :
  respects (same_elsewhere p) (λ w, st_lift (S := NetWorld) (RecvComplete q n k (nw_recvq w, nw_packets w)) w).
Proof.
  intros w a w'. cbv beta. unfold st_lift. destruct (RecvComplete _ _ _ _); [|done]. by intros [= _ <-].
Qed.
Lemma only_modify p (f : NetWorld → NetWorld) :
  (∀ w, nw_conns (f w) = nw_conns w ∧ nw_trace (f w) = nw_trace w) → respects (same_elsewhere p) (st_modify f).
Proof. intros Hf w a w' [= _ <-] q _. destruct (Hf w) as [-> ->]. done. Qed.
#[local] Hint Resolve only_complete : respects.
#[local] Hint Extern 1 (respects (same_elsewhere _) (st_modify _)) => apply only_modify; done : respects.
Lemma only_receive_chunk `{OS} p d : only p (receive_chunk p d).
Proof.
  unfold only, receive_chunk, DoRecv, receive_again, post_recv, Network_Disconnect, net_RecvComplete. respects_tac.
Qed.

Lemma only_DoSend `{OS} p n : only p (DoSend p n).
Proof. unfold only, DoSend, Network_Disconnect. respects_tac. Qed.

(** ** What the relations carry over *)
Section Kept.
Context `{OSLaws} (p : Z).
Implicit Types (w : NetWorld).

Lemma recv_state_same k k' q : same_receiver k k' → recv_state k q → recv_state k' q.
Proof. intros [Hq Hr] []. split; rewrite ?Hq, ?Hr; done. Qed.
Lemma send_state_same k k' out q : same_sender k k' → send_state k out q → send_state k' out q.
Proof. intros [Hr Hq Hn] []. split; rewrite ?Hr, ?Hq, ?Hn; done. Qed.

(** Sending: what was received stays, as long as the socket does. *)
Lemma open_kept w w' q :
  conns_rel same_receiver w w' → quiet w w' →
  (∀ k, nw_conns w' !! p = Some k → _socket k ≠ INVALID_SOCKET) → open_conn p w q →
  open_conn p w' q ∧ arrived w' = arrived w ∧ (packets_old w → packets_old w').
Proof.
  intros Hr [_ Hq Hp] Hs [(k & Hk & Hrs & _) H5]. destruct (Hr p k Hk) as (k' & Hk' & Hkk).
  unfold arrived, packets_old. rewrite Hq, Hp. split_and!; try done. split; [|by rewrite Hq].
  exists k'. split_and!; [done|by eapply recv_state_same|by apply Hs].
Qed.
Lemma send_inv_open w sent said budget k :
  send_inv p (w, sent) said budget → nw_conns w !! p = Some k → _socket k ≠ INVALID_SOCKET.
Proof. intros [(k0 & out & q & Hk & _ & Hs & _)] Hk'. cbn [fst] in Hk. by assert (k0 = k) as <- by congruence. Qed.

(** Receiving: what was sent stays, as long as the socket does. *)
Lemma sent_kept w w' sent said budget :
  conns_rel same_sender w w' → unsent w w' →
  (∀ k, nw_conns w' !! p = Some k → _socket k ≠ INVALID_SOCKET) →
  send_inv p (w, sent) said budget → send_inv p (w', sent) said budget.
Proof.
  intros Hr Hu Hs [(k & out & q & Hk & Hst & _ & ?)]. cbn [fst snd] in *.
  destruct (Hr p k Hk) as (k' & Hk' & Hkk). split. exists k', out, q. cbn [fst snd]. rewrite Hu.
  destruct_and!. split_and!; [done|by eapply send_state_same|by apply Hs|done..].
Qed.
Lemma open_conn_socket w q k : open_conn p w q → nw_conns w !! p = Some k → _socket k ≠ INVALID_SOCKET.
Proof. intros [(k0 & Hk0 & _ & Hs) _] Hk. by assert (k0 = k) as <- by congruence. Qed.
Lemma send_inv_prefix w sent said budget : send_inv p (w, sent) said budget → sent `prefix_of` said.
Proof. intros [(k & out & q & _ & _ & _ & <- & _)]. by eexists. Qed.
Lemma send_inv_more s said b b' : send_inv p s said b → b ≤ b' → send_inv p s said b'.
Proof. intros [(k & out & q & ?)] Hb. split. exists k, out, q. destruct_and!. split_and!; try done. lia. Qed.
End Kept.

(** ** A connection in both directions *)

(** A completion or a call: a write, the completion of a send, of a receive. *)
Inductive link_event := Sends (e : send_event) | Receives (d : list Z).
Definition received (es : list link_event) : list (list Z) :=
  omap (λ e, match e with Receives d => Some d | Sends _ => None end) es.
Definition sending (es : list link_event) : list send_event :=
  omap (λ e, match e with Sends e => Some e | Receives _ => None end) es.

Section Link.
Context `{OSLaws} (p : Z).

(** The world and the bytes the kernel has sent; completions of a send that is
    not outstanding are skipped. *)
Definition link_step (s : NetWorld * list Z) (e : link_event) : outcome (NetWorld * list Z) :=
  match e with
  | Sends e => match send_exec p s e with Some r => r | None => Ok s end
  | Receives d => '(_, w') ← receive_chunk p d s.1; Ok (w', s.2)
  end.

(** Both directions as they should be: [said] is written, [q] received but not
    cut yet. *)
Record link_inv (s : NetWorld * list Z) (said q : list Z) (budget : Z) : Prop := {
  li_send : send_inv p s said budget;
  li_open : open_conn p s.1 q;
  li_old : packets_old s.1 }.

Hypothesis Hsends : sends_accepted.
Hypothesis Hrecvs : recvs_accepted.

Lemma send_exec_frame s e r : send_exec p s e = Some (Ok r) → conns_rel same_receiver s.1 r.1 ∧ quiet s.1 r.1.
Proof.
  destruct s as [w sent]. destruct e as [src n|k]; cbn [send_exec fst].
  - destruct (Network_Write _ _ _ w) as [[x w']|] eqn:E; [|done]. intros [= <-].
    split; [by eapply deaf_Write|by eapply quiet_Write].
  - repeat case_match; try done. destruct (DoSend p k w) as [[x w']|] eqn:E; [|done]. intros [= <-].
    split; [by eapply deaf_DoSend|by eapply quiet_DoSend].
Qed.

Lemma link_send s e said q budget :
  link_inv s said q budget → budget < 2 ^ 31 - 1 → event_ok e →
  ∃ s', link_step s (Sends e) = Ok s' ∧ link_inv s' (said ++ written [e]) q (budget + 1) ∧ arrived s'.1 = arrived s.1.
Proof.
  intros [Hs Ho Hp] Hb He. pose proof (send_exec_ok p Hsends s e said budget Hs Hb He) as Hx. cbn [link_step].
  destruct (send_exec p s e) as [r|] eqn:E.
  - destruct Hx as ([w' sent'] & -> & Hs'). destruct (send_exec_frame _ _ _ E) as [Hd Hq].
    destruct (open_kept p s.1 w' q Hd Hq) as (Ho' & Ha & Hp'); [|done|].
    { intros k Hk. by eapply send_inv_open. }
    exists (w', sent'). split_and!; try done. split; [done|done|by apply Hp'].
  - exists s. rewrite Hx, app_nil_r. split_and!; try done. split; [|done..]. eapply send_inv_more; [done|lia].
Qed.

Lemma link_receive w sent d said q budget f rest :
  link_inv (w, sent) said q budget → chunk_ok d → feed q d = Some (f, rest) →
  ∃ w', receive_chunk p d w = Ok (tt, w') ∧ link_inv (w', sent) said rest budget ∧
    arrived w' = arrived w ++ [Some (Some p, f)] ∧ links_kept w w'.
Proof.
  intros [Hs Ho Hp] Hd Hf. cbn [fst] in *.
  destruct (receive_chunk_ok p w q d Hrecvs Ho Hp Hd) as (w' & tr & E & _ & Hc). rewrite Hf in Hc.
  destruct Hc as (Ho' & Hp' & Ha & _). exists w'. split_and!; [done| |done|].
  - split; [|done..]. apply (sent_kept p w); [by eapply mute_receive_chunk|by eapply unsent_receive_chunk| |done].
    intros k. by apply (open_conn_socket p w' rest).
  - by eapply links_receive_chunk.
Qed.

Lemma link_run_ok es : ∀ s said q fs rest budget,
  link_inv s said q budget → Forall event_ok (sending es) → Forall chunk_ok (received es) →
  feed_all q (received es) = Some (fs, rest) → budget + zlen es < 2 ^ 31 →
  ∃ s', fold_outcome link_step s es = Ok s' ∧ link_inv s' (said ++ written (sending es)) rest (budget + zlen es) ∧
    arrived s'.1 = arrived s.1 ++ ((λ f, Some (Some p, f)) <$> fs).
Proof.
  induction es as [|e es IH]; intros s said q fs rest budget Hi He Hd Hf Hb.
  { injection Hf as <- <-. exists s. unfold written. cbn. by rewrite !app_nil_r, Z.add_0_r. }
  rewrite zlen_cons in Hb |- *. pose proof (zlen_nonneg es).
  replace (budget + (1 + zlen es)) with (budget + 1 + zlen es) by lia. destruct e as [e|d]; cbn [fold_outcome].
  - apply Forall_cons in He as [He1 He]. destruct (link_send s e said q budget Hi) as (s1 & -> & Hi1 & Ha1); [lia|done|].
    destruct (IH s1 _ q fs rest _ Hi1 He Hd Hf) as (s2 & E2 & Hi2 & Ha2); [lia|]. exists s2.
    rewrite <-app_assoc in Hi2. rewrite Ha2, Ha1. split_and!; [exact E2| |done].
    unfold written in *. change (sending (Sends e :: es)) with (e :: sending es). cbn [fmap list_fmap mjoin list_join] in *.
    by rewrite app_nil_r in Hi2.
  - apply Forall_cons in Hd as [Hd1 Hd]. change (received (Receives d :: es)) with (d :: received es) in Hf.
    cbn [feed_all] in Hf. destruct (feed q d) as [[f r]|] eqn:Ef; [|done]. cbn [mbind option_bind] in Hf.
    destruct (feed_all r _) as [[fs1 r1]|] eqn:E1; [|done]. injection Hf as <- <-.
    destruct s as [w sent]. destruct (link_receive w sent d said q budget f r Hi Hd1 Ef) as (w1 & E & [Hs1 Ho1 Hp1] & Ha1 & _).
    destruct (IH (w1, sent) said r fs1 r1 (budget + 1)) as (s2 & E2 & Hi2 & Ha2); [|done|done|done|lia|].
    { split; [|done..]. eapply send_inv_more; [done|lia]. }
    exists s2. cbn [link_step fst snd] in *. rewrite E. cbn [mbind outcome_bind]. split_and!; [exact E2|exact Hi2|].
    rewrite Ha2. cbn [fst]. by rewrite Ha1, <-app_assoc.
Qed.
End Link.

(** C5: a connection in both directions.  On an open connector with nothing
    outstanding, in any interleaving of writes, completions of sends of any
    sizes and chunks received, as long as every chunk completes a frame:
    nothing faults; the bytes the kernel has sent, those outstanding and those
    queued are the data written, in order; and one packet has been queued per
    chunk, holding the frames of the received stream in order.  Neither
    direction sees the other's completions. *)
Theorem connection_duplex `{OSLaws} p w k es fs rest :
  sends_accepted → recvs_accepted →
  nw_conns w !! p = Some k → send_state k None [] → recv_state k [] → _socket k ≠ INVALID_SOCKET →
  five_phases (nw_recvq w) → packets_old w →
  Forall event_ok (sending es) → Forall chunk_ok (received es) → feed_all [] (received es) = Some (fs, rest) →
  zlen es < 2 ^ 31 →
  ∃ w' sent, fold_outcome (link_step p) (w, []) es = Ok (w', sent) ∧
    send_inv p (w', sent) (written (sending es)) (zlen es) ∧
    open_conn p w' rest ∧ arrived w' = arrived w ++ ((λ f, Some (Some p, f)) <$> fs) ∧
    mjoin fs ++ rest = mjoin (received es).
Proof.
  intros Hs Hr Hk Hst Hre Hso Hq Hold He Hd Hf Hl.
  destruct (link_run_ok p Hs Hr es (w, []) [] [] fs rest 0) as ([w' sent] & E & [Hs' Ho' _] & Ha); [|done..|].
  { split; [|split; [by exists k|done]|done]. split. exists k, None, []. by split_and!. }
  exists w', sent. split_and!; try done. by destruct (feed_all_bytes _ _ _ _ (Forall_nil_2 _) Hd Hf).
Qed.
(** A write of three bytes, half of it sent, a frame received in between. *)
Definition demo_link : list link_event :=
  [Sends (Ev_Write [1; 2; 3] 3); Receives (demo_frame 7); Sends (Ev_Sent 2); Receives (demo_frame 8)].
Lemma connection_duplex_witness :
  ∃ w' sent, fold_outcome (link_step 1) (demo_world, []) demo_link = Ok (w', sent) ∧
    send_inv 1 (w', sent) (written (sending demo_link)) (zlen demo_link) ∧
    open_conn 1 w' [] ∧ arrived w' = arrived demo_world ++ ((λ f, Some (Some 1, f)) <$> [demo_frame 7; demo_frame 8]) ∧
    mjoin [demo_frame 7; demo_frame 8] ++ [] = mjoin (received demo_link).
Proof.
  apply (connection_duplex 1 demo_world (set_socket 50 (Connector_new 1)) demo_link).
  - intros tr s p d. left. discriminate.
  - exact demo_recvs.
  - reflexivity.
  - apply send_state_socket, send_state_new.
  - destruct (recv_state_new 1). by split.
  - discriminate.
  - split; reflexivity.
  - split; constructor.
  - repeat constructor; vm_compute; intuition discriminate.
  - repeat constructor; apply (bool_decide_unpack _); vm_compute; done.
  - vm_compute. reflexivity.
  - reflexivity.
Defined.

(** ** Everything written is sent *)

(** The bytes of the outstanding send. *)
Definition outstanding (p : Z) (w : NetWorld) : option (list Z) :=
  k ← nw_conns w !! p;
  nb ← so_pBuffer (_SendRequest k);
  match wsa_bytes nb with Ok bs => Some bs | Fault _ => None end.

Section Draining.
Context `{OSLaws} (p : Z) (amount : list Z → Z).

(** The kernel completes outstanding sends, of each at least one byte and at
    most all, [amount] says how many. *)
Definition completed (bs : list Z) : Z := Z.max 1 (Z.min (amount bs) (zlen bs)).
Fixpoint drain (fuel : nat) (s : NetWorld * list Z) : outcome (NetWorld * list Z) :=
  match fuel with
  | O => Ok s
  | S fuel' =>
      match outstanding p s.1 with
      | None => Ok s
      | Some bs => s' ← default (Ok s) (send_exec p s (Ev_Sent (completed bs))); drain fuel' s'
      end
  end.

Hypothesis Haccept : sends_accepted.

(** Either nothing is outstanding and everything has been sent, or a
    completion makes progress. *)
Lemma drain_step w sent said budget :
  send_inv p (w, sent) said budget →
  (outstanding p w = None ∧ sent = said) ∨
  ∃ bs n, outstanding p w = Some bs ∧ 0 < completed bs ≤ zlen bs ∧
    send_exec p (w, sent) (Ev_Sent (completed bs)) = Some (Ok (n, sent ++ sub bs 0 (completed bs))) ∧
    send_inv p (n, sent ++ sub bs 0 (completed bs)) said budget.
Proof.
  intros Hinv. pose proof Hinv as [(k & out & q & Hk & Hst & Hso & Hd & Hidle & _)]. cbn [fst snd] in *.
  unfold outstanding. cbn [send_exec]. rewrite Hk. cbn [mbind option_bind].
  destruct out as [b|]; destruct (ss_out _ _ _ Hst) as [Hr Ho].
  2:{ rewrite Hr. left. split; [done|]. rewrite Hidle in Hd by done. cbn in Hd. by rewrite app_nil_r in Hd. }
  destruct Ho as (nb & Hnb & [_ Hb _ Hw]). rewrite Hnb. cbn [mbind option_bind]. rewrite Hw.
  assert (0 < completed b ≤ zlen b) as Hc by (unfold completed; lia).
  destruct (DoSend_ok p Haccept w sent said budget (completed b) k nb b Hinv Hk Hnb Hw Hc) as (n & E & Hn).
  right. exists b, n. rewrite bool_decide_true by done. by rewrite E.
Qed.

Lemma drain_ok fuel : ∀ w sent said budget,
  send_inv p (w, sent) said budget → zlen said - zlen sent ≤ Z.of_nat fuel →
  ∃ n, drain fuel (w, sent) = Ok (n, said) ∧ outstanding p n = None ∧ send_inv p (n, said) said budget ∧
    same_elsewhere p w n.
Proof.
  induction fuel as [|fuel IH]; intros w sent said budget Hinv Hf;
    destruct (drain_step w sent said budget Hinv) as [[Ho ->]|(bs & n & Ho & Hc & E & Hn)]; cbn [drain fst].
  1,3: exists w; rewrite ?Ho; by split_and!.
  - exfalso. destruct Hn as [(k & out & q & _ & _ & _ & Hd & _)]. cbn [snd] in Hd. apply (f_equal zlen) in Hd.
    rewrite !zlen_app, zlen_sub in Hd by lia. pose proof (zlen_nonneg (default [] out)). pose proof (zlen_nonneg (mjoin q)). lia.
  - rewrite Ho, E. cbn [default mbind outcome_bind].
    destruct (IH n _ said budget Hn) as (n' & E' & Ho' & Hn' & Hel); [rewrite zlen_app, zlen_sub by lia; lia|].
    exists n'. split_and!; [exact E'|done|done|]. etrans; [|exact Hel].
    cbn [send_exec] in E. repeat case_match; try done.
    destruct (DoSend _ _ _) as [[x n1]|] eqn:E2; [|done]. injection E as -> _. by eapply only_DoSend.
Qed.
End Draining.

(** everything written is sent.  In every state a connection reaches,
    whatever amounts the kernel completes, of each outstanding send at least
    one byte: after at most as many completions as there are unsent bytes
    everything that was written has been sent, in order, nothing is
    outstanding, and no other connection was touched. *)
Theorem connection_drains `{OSLaws} p amount w k es :
  sends_accepted → nw_conns w !! p = Some k → send_state k None [] → _socket k ≠ INVALID_SOCKET →
  Forall event_ok es → zlen es < 2 ^ 31 →
  ∃ w1 sent, send_run p (w, []) es = Ok (w1, sent) ∧
    ∃ w2, drain p amount (Z.to_nat (zlen (written es) - zlen sent)) (w1, sent) = Ok (w2, written es) ∧
      outstanding p w2 = None ∧ same_elsewhere p w1 w2.
Proof.
  intros Ha Hk Hst Hso He Hl.
  destruct (send_run_ok p Ha es (w, []) [] 0) as ([w1 sent] & E & Hinv); [|lia|done|].
  { split. exists k, None, []. by split_and!. }
  exists w1, sent. split; [exact E|]. cbn [app] in Hinv.
  pose proof (send_inv_prefix p w1 sent _ _ Hinv) as [rest Hpre]. apply (f_equal zlen) in Hpre. rewrite zlen_app in Hpre.
  pose proof (zlen_nonneg rest).
  destruct (drain_ok p amount Ha (Z.to_nat (zlen (written es) - zlen sent)) w1 sent (written es) (0 + zlen es) Hinv)
    as (w2 & E2 & Ho & _ & Hel); [lia|].
  by exists w2.
Qed.
(** Two writes; the kernel takes at most two bytes at a time. *)
Definition demo_writes : list send_event := [Ev_Write [1; 2; 3] 3; Ev_Sent 1; Ev_Write [4; 5] 2].
Lemma connection_drains_witness :
  ∃ w1 sent, send_run 1 (demo_world, []) demo_writes = Ok (w1, sent) ∧
    ∃ w2, drain 1 (λ _, 2) (Z.to_nat (zlen (written demo_writes) - zlen sent)) (w1, sent) = Ok (w2, written demo_writes) ∧
      outstanding 1 w2 = None ∧ same_elsewhere 1 w1 w2.
Proof.
  apply (connection_drains 1 (λ _, 2) demo_world (set_socket 50 (Connector_new 1)) demo_writes).
  - intros tr s p d. left. discriminate.
  - reflexivity.
  - apply send_state_socket, send_state_new.
  - discriminate.
  - repeat constructor; vm_compute; intuition discriminate.
  - reflexivity.
Defined.

(** ** Streams of frames *)

(** The frame of a payload, at whatever time it was sent. *)
Definition framed (payload f : list Z) : Prop := ∃ now, f = frame payload 0 now.
Definition fits (payload : list Z) : Prop := zlen payload + 20 < 2 ^ 32.

(** A chunk that completes a frame completes the next one. *)
Lemma feed_framed ps fs q d more f rest :
  Forall fits ps → Forall2 framed ps fs → (q ++ d) ++ more = mjoin fs → feed q d = Some (f, rest) →
  ∃ fs', fs = f :: fs' ∧ rest ++ more = mjoin fs'.
Proof.
  intros Hp Hfs Hmore E. unfold feed in E. cbn zeta in E. destruct (_ <? _); [done|].
  destruct (Z.ltb_spec 0 (cut (q ++ d))) as [Hpos|]; [|done]. injection E as <- <-.
  destruct Hfs as [|p g ps fs [now ->] Hfs].
  { apply app_nil in Hmore as [Hmore _]. by rewrite Hmore in Hpos. }
  apply Forall_cons in Hp as [Hp Hps]. unfold fits in Hp. set (g := frame p 0 now) in *.
  change (mjoin (g :: fs)) with (g ++ mjoin fs) in Hmore. pose proof (zlen_nonneg (q ++ d)) as Hqd0.
  pose proof (f_equal zlen Hmore) as Hl. rewrite !zlen_app in Hl. pose proof (zlen_nonneg more).
  assert (q ++ d = sub (g ++ mjoin fs) 0 (zlen (q ++ d))) as Hqd by (by rewrite <-Hmore, sub_app_here).
  pose proof (cut_frame p 0 now (mjoin fs) (zlen (q ++ d)) Hp) as Hcut. fold g in Hcut. rewrite <-Hqd in Hcut.
  pose proof (zlen_frame p 0 now) as Hg. fold g in Hg. rewrite <-Hg in Hcut.
  rewrite Hcut in * by (rewrite !zlen_app in *; lia).
  destruct (Z.ltb_spec (zlen (q ++ d)) (zlen g)) as [|Hge]; [lia|].
  assert (sub (q ++ d) 0 (zlen g) = g) as Hpre by (rewrite Hqd, sub_sub by lia; by rewrite sub_app_here).
  exists fs. rewrite Hpre. split; [done|]. apply (app_inv_head g). rewrite <-Hmore, app_assoc. f_equal.
  rewrite <-Hpre at 1. by rewrite sub_split by lia.
Qed.

(** Delivered frame by frame, a stream of frames is cut into its frames. *)
Lemma feed_frames ps fs :
  Forall (λ p, zlen p + 20 ≤ MAX_PACKET_BUFFER_SIZE) ps → Forall2 framed ps fs → feed_all [] fs = Some (fs, []).
Proof.
  intros Hp. revert fs. induction Hp as [|p ps Hp Hps IH]; intros fs Hfs; inversion Hfs as [|? f ? fs' [now ->] Hfs']; subst; [done|].
  cbn [feed_all]. pose proof (zlen_frame p 0 now) as Hl. pose proof (zlen_nonneg p). unfold MAX_PACKET_BUFFER_SIZE in *.
  assert (feed [] (frame p 0 now) = Some (frame p 0 now, [])) as ->.
  { unfold feed. cbn [app]. pose proof (cut_frame p 0 now [] (zlen (frame p 0 now))) as Hc.
    rewrite app_nil_r, sub_all, Hl in Hc.
    unfold MAX_PACKET_BUFFER_SIZE. rewrite Hl in *. rewrite (proj2 (Z.ltb_ge _ _)) by lia.
    rewrite Hc by lia. rewrite (proj2 (Z.ltb_ge (zlen p + 20) (zlen p + 20))) by lia.
    rewrite (proj2 (Z.ltb_lt 0 (zlen p + 20))) by lia. by rewrite <-Hl, sub_all, Z.sub_diag, sub_nil. }
  cbn [mbind option_bind]. by rewrite IH.
Qed.
