(* ===== verification/SvrState.v ===== *)
(** * The state of the server: svr/user_session.h, user_session_mgr.h, zone.h,
    zone_mgr.h, command_unit_process.h
    Sessions and zones are objects of pools, behind their addresses; the
    [Character*] a zone keeps is the address of the session whose [_nub] it
    points to.  The command queue is the list it is proved to be in
    CommandQueue. *)
From S2P Require Import Prelude Buffer Wire Character Protocol Packet ObjectPool CommandQueue.
From S2P Require Import PacketQueue TimeSet Config System Connector Network.

Record UserSession := mkUserSession {
  us_dwUid : Z;
  us_pConnector : option Z;
  us_biHeartbeatTimer : Z;
  us_nHeartbeatCount : Z;
  us_biUpdateTime : Z;
  _nub : Character;
  _bAuthed : bool }.
Definition UserSession_new (uid : Z) : UserSession := mkUserSession uid None 0 0 0 Character_new false.

Definition set_us_pConnector v (s : UserSession) := mkUserSession (us_dwUid s) v (us_biHeartbeatTimer s) (us_nHeartbeatCount s) (us_biUpdateTime s) (_nub s) (_bAuthed s).
Definition set_us_heartbeat t n (s : UserSession) := mkUserSession (us_dwUid s) (us_pConnector s) t n (us_biUpdateTime s) (_nub s) (_bAuthed s).
Definition set_us_biUpdateTime v (s : UserSession) := mkUserSession (us_dwUid s) (us_pConnector s) (us_biHeartbeatTimer s) (us_nHeartbeatCount s) v (_nub s) (_bAuthed s).
Definition set_nub v (s : UserSession) := mkUserSession (us_dwUid s) (us_pConnector s) (us_biHeartbeatTimer s) (us_nHeartbeatCount s) (us_biUpdateTime s) v (_bAuthed s).

(** The accessors of the class. *)
Definition session_GetUID (s : UserSession) : Z := us_dwUid s.
Definition session_GetActive (s : UserSession) : bool := _bAuthed s.
Definition session_GetUsed (s : UserSession) : bool := bool_decide (is_Some (us_pConnector s)).
Definition SetConnector (p : option Z) (s : UserSession) : UserSession := set_us_pConnector p s.
Definition GetConnector (s : UserSession) : option Z := us_pConnector s.
Definition SetUpdateTime (t : Z) (s : UserSession) : UserSession := set_us_biUpdateTime t s.
Definition GetUpdateTime (s : UserSession) : Z := us_biUpdateTime s.
Definition CheckUpdateTime (t : Z) (s : UserSession) : bool := us_biUpdateTime s >? t.
Definition GetHeartbeatTimer (s : UserSession) : Z := us_biHeartbeatTimer s.
Definition SetHeartbeatTimer (t : Z) (s : UserSession) : UserSession := set_us_heartbeat t (us_nHeartbeatCount s) s.
Definition GetHeartbeat (s : UserSession) : Z := i32 (us_nHeartbeatCount s).
Definition IncHeartbeat (s : UserSession) : UserSession * Z :=
  let n := u32 (us_nHeartbeatCount s + 1) in (set_us_heartbeat (us_biHeartbeatTimer s) n s, i32 n).
Definition DecHeartbeat (s : UserSession) : UserSession * Z :=
  let n := u32 (us_nHeartbeatCount s - 1) in (set_us_heartbeat (us_biHeartbeatTimer s) n s, i32 n).
Definition session_GetToken (s : UserSession) : Z := GetToken (_nub s).

(** [Zone]: the characters by token. *)
Record Zone := mkZone { z_id : Z; _characterMap : gmap Z Z }.
Definition Zone_new : Zone := mkZone 0 ∅.
Definition Zone_SetId (id : Z) (z : Zone) : Zone := mkZone id (_characterMap z).
Definition Zone_GetId (z : Zone) : Z := z_id z.
Definition GetCharacterCount (z : Zone) : Z := Z.of_nat (size (_characterMap z)).

(** The commands; [buf] is [_sendBuffer] and [len] [_sendBufferSize]. *)
Inductive command :=
| SendBroadcastToAllUser (zone : Z) (buf : list Z) (len : Z)
| SendPacketToUser (token : Z) (buf : list Z) (len : Z)
| EnterCharacter (token zone x y : Z)
| LeaveCharacter (token zone : Z)
| SendCharacterList (token zone : Z).

Record SvrWorld := mkSvrWorld {
  sw_net : NetWorld;
  sw_sessions : gmap Z UserSession;
  sw_session_uid : Z;
  sw_smgr : ObjectMgrBase;          (** UserSessionMgr, as ObjectMgrBase<UserSession> *)
  _releaseList : list Z;
  _userMap : gmap Z Z;
  sw_mgr_biUpdateTime : Z;
  sw_zones : gmap Z Zone;
  sw_zmgr : ObjectMgrBase;          (** ZoneMgr, as ObjectMgrBase<Zone> *)
  _zoneMap : gmap Z Z;
  sw_cmds : list command;           (** App::_commandQueue *)
  sw_serial : Z }.                  (** unique_id_generator *)
Definition set_sw_net v w := mkSvrWorld v (sw_sessions w) (sw_session_uid w) (sw_smgr w) (_releaseList w) (_userMap w) (sw_mgr_biUpdateTime w) (sw_zones w) (sw_zmgr w) (_zoneMap w) (sw_cmds w) (sw_serial w).
Definition set_sw_sessions v w := mkSvrWorld (sw_net w) v (sw_session_uid w) (sw_smgr w) (_releaseList w) (_userMap w) (sw_mgr_biUpdateTime w) (sw_zones w) (sw_zmgr w) (_zoneMap w) (sw_cmds w) (sw_serial w).
Definition set_sw_session_uid v w := mkSvrWorld (sw_net w) (sw_sessions w) v (sw_smgr w) (_releaseList w) (_userMap w) (sw_mgr_biUpdateTime w) (sw_zones w) (sw_zmgr w) (_zoneMap w) (sw_cmds w) (sw_serial w).
Definition set_sw_smgr v w := mkSvrWorld (sw_net w) (sw_sessions w) (sw_session_uid w) v (_releaseList w) (_userMap w) (sw_mgr_biUpdateTime w) (sw_zones w) (sw_zmgr w) (_zoneMap w) (sw_cmds w) (sw_serial w).
Definition set_releaseList v w := mkSvrWorld (sw_net w) (sw_sessions w) (sw_session_uid w) (sw_smgr w) v (_userMap w) (sw_mgr_biUpdateTime w) (sw_zones w) (sw_zmgr w) (_zoneMap w) (sw_cmds w) (sw_serial w).
Definition set_userMap v w := mkSvrWorld (sw_net w) (sw_sessions w) (sw_session_uid w) (sw_smgr w) (_releaseList w) v (sw_mgr_biUpdateTime w) (sw_zones w) (sw_zmgr w) (_zoneMap w) (sw_cmds w) (sw_serial w).
Definition set_mgr_biUpdateTime v w := mkSvrWorld (sw_net w) (sw_sessions w) (sw_session_uid w) (sw_smgr w) (_releaseList w) (_userMap w) v (sw_zones w) (sw_zmgr w) (_zoneMap w) (sw_cmds w) (sw_serial w).
Definition set_sw_zones v w := mkSvrWorld (sw_net w) (sw_sessions w) (sw_session_uid w) (sw_smgr w) (_releaseList w) (_userMap w) (sw_mgr_biUpdateTime w) v (sw_zmgr w) (_zoneMap w) (sw_cmds w) (sw_serial w).
Definition set_sw_zmgr v w := mkSvrWorld (sw_net w) (sw_sessions w) (sw_session_uid w) (sw_smgr w) (_releaseList w) (_userMap w) (sw_mgr_biUpdateTime w) (sw_zones w) v (_zoneMap w) (sw_cmds w) (sw_serial w).
Definition set_zoneMap v w := mkSvrWorld (sw_net w) (sw_sessions w) (sw_session_uid w) (sw_smgr w) (_releaseList w) (_userMap w) (sw_mgr_biUpdateTime w) (sw_zones w) (sw_zmgr w) v (sw_cmds w) (sw_serial w).
Definition set_sw_cmds v w := mkSvrWorld (sw_net w) (sw_sessions w) (sw_session_uid w) (sw_smgr w) (_releaseList w) (_userMap w) (sw_mgr_biUpdateTime w) (sw_zones w) (sw_zmgr w) (_zoneMap w) v (sw_serial w).
Definition set_sw_serial v w := mkSvrWorld (sw_net w) (sw_sessions w) (sw_session_uid w) (sw_smgr w) (_releaseList w) (_userMap w) (sw_mgr_biUpdateTime w) (sw_zones w) (sw_zmgr w) (_zoneMap w) (sw_cmds w) v.

Abbreviation svr := (st SvrWorld).
(** Run the network layer. *)
Definition on_net {A} (m : net A) : svr A := st_zoom sw_net set_sw_net m.

(** Access through a [UserSession*], and through a [Character*]. *)
Definition us_get (p : Z) : svr UserSession := λ w,
  match sw_sessions w !! p with Some s => Ok (s, w) | None => Fault UseAfterFree end.
Definition us_set (p : Z) (s : UserSession) : svr unit := λ w,
  match sw_sessions w !! p with
  | Some _ => Ok (tt, set_sw_sessions (<[p := s]> (sw_sessions w)) w)
  | None => Fault UseAfterFree
  end.
Definition us_mod (p : Z) (f : UserSession → UserSession) : svr unit := s ← us_get p; us_set p (f s).
Definition us_run {A} (p : Z) (f : UserSession → UserSession * A) : svr A :=
  s ← us_get p; let '(s', a) := f s in _ ← us_set p s'; mret a.
Definition character_get (p : Z) : svr Character := s ← us_get p; mret (_nub s).
Definition zone_get (p : Z) : svr Zone := λ w,
  match sw_zones w !! p with Some z => Ok (z, w) | None => Fault UseAfterFree end.
Definition zone_set (p : Z) (z : Zone) : svr unit := λ w,
  match sw_zones w !! p with
  | Some _ => Ok (tt, set_sw_zones (<[p := z]> (sw_zones w)) w)
  | None => Fault UseAfterFree
  end.

(** [GetCmdQueue().Add(new ...)]. *)
Definition add_command (c : command) : svr unit :=
  st_modify (λ w, set_sw_cmds (sw_cmds w ++ [c]) w).
Definition GetUniqueSerialId : svr Z := λ w,
  let n := i64 (sw_serial w + 1) in Ok (n, set_sw_serial n w).

(** ** Zones: svr/zone.cpp *)
Definition OnRegistCharacter (zone character : Z) : svr unit :=
  z ← zone_get zone;
  c ← character_get character;
  zone_set zone (mkZone (z_id z) (std_insert (GetToken c) character (_characterMap z))).
Definition OnUnregistCharacter_token (zone token : Z) : svr unit :=
  z ← zone_get zone;
  zone_set zone (mkZone (z_id z) (delete token (_characterMap z))).
Definition OnUnregistCharacter (zone character : Z) : svr unit :=
  c ← character_get character;
  OnUnregistCharacter_token zone (GetToken c).

(** [memcpy_s] of the second constructor of [SendPacketToUser]. *)
Definition new_SendPacketToUser (token : Z) (sendBuffer : list Z) (sendBufferSize : Z) : outcome command :=
  buf ← memcpy_s (replicate (Z.to_nat MAX_PACKET_BUFFER_SIZE) 0) MAX_PACKET_BUFFER_SIZE
          sendBuffer sendBufferSize;
  Ok (SendPacketToUser token buf sendBufferSize).

Definition PacketBroadcast (zone : Z) (sendBuffer : list Z) (sendBufferSize : Z) : svr unit :=
  z ← zone_get zone;
  st_each (λ it,
    c ← character_get it.2;
    cmd ← st_lift (new_SendPacketToUser (GetToken c) sendBuffer sendBufferSize);
    add_command cmd) (std_items (_characterMap z)).

Fixpoint GetCharacterDbList_loop (items : list (Z * Z)) (exceptToken : Z) : svr (list CharacterDbData) :=
  match items with
  | [] => mret []
  | (token, character) :: items' =>
      if token =? exceptToken then GetCharacterDbList_loop items' exceptToken
      else
        c ← character_get character;
        l ← GetCharacterDbList_loop items' exceptToken;
        mret (GetDbData c :: l)
  end.
Definition GetCharacterDbList (zone exceptToken : Z) : svr (list CharacterDbData) :=
  z ← zone_get zone; GetCharacterDbList_loop (std_items (_characterMap z)) exceptToken.

(** ** ZoneMgr: svr/zone_mgr.h *)

(** [_objectPool.GetFreeObjectPtr()]: constructs the zone; the used list of the
    base class is not touched. *)
Definition zone_alloc : svr Z := λ w,
  match GetFreeObjectPtr (om_pool (sw_zmgr w)) with
  | Fault f => Fault f
  | Ok (p, pool) =>
      Ok (p, set_sw_zones (<[p := Zone_new]> (sw_zones w))
               (set_sw_zmgr (mkObjectMgrBase pool (om_usedList (sw_zmgr w))) w))
  end.
Definition ZoneMgr_EnterCharacter (zone character : Z) : svr unit :=
  m ← st_gets _zoneMap;
  match m !! zone with
  | Some obj => OnRegistCharacter obj character
  | None =>
      obj ← zone_alloc;
      z ← zone_get obj;
      _ ← zone_set obj (Zone_SetId zone z);
      _ ← st_modify (λ w, set_zoneMap (std_insert zone obj (_zoneMap w)) w);
      OnRegistCharacter obj character
  end.
Definition ZoneMgr_LeaveCharacter (zone token : Z) : svr unit :=
  m ← st_gets _zoneMap;
  match m !! zone with
  | Some obj => OnUnregistCharacter_token obj token
  | None => mret tt
  end.
Definition ZoneMgr_LeaveCharacter_ptr (zone character : Z) : svr unit :=
  m ← st_gets _zoneMap;
  match m !! zone with
  | Some obj => OnUnregistCharacter obj character
  | None => mret tt
  end.
Definition GetZone (zone : Z) : svr (option Z) := m ← st_gets _zoneMap; mret (m !! zone).

(** ** UserSessionMgr: svr/user_session_mgr.cpp *)
Definition session_GetFreeObject : svr Z := λ w,
  match ObjectMgrBase_GetFreeObject (sw_smgr w) with
  | Fault f => Fault f
  | Ok (p, m) =>
      let uid := u32 (sw_session_uid w + 1) in
      Ok (p, set_sw_sessions (<[p := UserSession_new uid]> (sw_sessions w))
               (set_sw_session_uid uid (set_sw_smgr m w)))
  end.
(** [destroy_at] of a session that is already gone is undefined. *)
Definition session_SetFreeObject (p : Z) : svr unit := λ w,
  match sw_sessions w !! p with
  | None => Fault UseAfterFree
  | Some _ => Ok (tt, set_sw_sessions (delete p (sw_sessions w))
                        (set_sw_smgr (ObjectMgrBase_SetFreeObject (sw_smgr w) p) w))
  end.
Definition SetReleaseObj (p : Z) : svr unit :=
  st_modify (λ w, set_releaseList (_releaseList w ++ [p]) w).
Definition SwapReleaseList (swapList : list Z) : svr (list Z) := λ w,
  Ok (_releaseList w, set_releaseList swapList w).
Definition AddUserSessionMap (p : Z) : svr unit :=
  s ← us_get p;
  st_modify (λ w, set_userMap (std_insert (session_GetToken s) p (_userMap w)) w).
Definition DelUserSessionMap_token (token : Z) : svr unit :=
  st_modify (λ w, set_userMap (delete token (_userMap w)) w).
Definition DelUserSessionMap (p : Z) : svr unit :=
  s ← us_get p; DelUserSessionMap_token (session_GetToken s).
Definition GetUserSession (token : Z) : svr (option Z) := m ← st_gets _userMap; mret (m !! token).
