(* ===== verification/Session.v ===== *)
(** * Sessions: svr/user_session.cpp, user_session_mgr.cpp
    One definition per member function and per packet handler.  A handler is
    a function of the session's address; its effects are on the server's
    state.  Locks are not part of the state (see Locks). *)
From S2P Require Import Prelude Buffer Wire Character Protocol Packet ObjectPool CommandQueue.
From S2P Require Import PacketQueue TimeSet Config System Connector Network SvrState.

(** ** Building a frame *)
Section Framing.
Context `{OS}.

(** [Serializer pack; SerializeHead; Serialize; MakeNetworkPacket(...)] into a
    zeroed buffer: the code of [SendPacket] in server and client and of the
    command constructors, for the packet's type and [Serialize].  The result
    is the buffer and its size variable. *)
Definition make_buffer_of {A} (type : Z) (ser : Serializer → outcome (Serializer * A)) (now : Z) :
    outcome (list Z * Z) :=
  '(s1, _) ← SerializeHead (Serializer_send os_fresh) type;
  '(s2, _) ← ser s1;
  '(_, sendBuffer, sendBufferSize) ←
    MakeNetworkPacket (_pBuffer (ser_base s2)) (GetDataSize (ser_base s2))
      (replicate (Z.to_nat MAX_PACKET_BUFFER_SIZE) 0) MAX_PACKET_BUFFER_SIZE 0 now;
  Ok (sendBuffer, sendBufferSize).
Definition make_send_buffer (packetData : s2c) (now : Z) : outcome (list Z * Z) :=
  make_buffer_of (s2c_type packetData) (λ s, s2c_Serialize s packetData) now.

Definition build_packet (packetData : s2c) : svr (list Z * Z) :=
  now ← on_net (sys sys_time32);
  st_lift (make_send_buffer packetData now).

Definition new_SendBroadcastToAllUser (zone : Z) (packetData : s2c) : svr command :=
  '(buf, len) ← build_packet packetData; mret (SendBroadcastToAllUser zone buf len).
Definition new_SendPacketToUser_packet (token : Z) (packetData : s2c) : svr command :=
  '(buf, len) ← build_packet packetData; mret (SendPacketToUser token buf len).

(** ** UserSession *)
Definition SendPacket_raw (self : Z) (packetBuffer : list Z) (packetSize : Z) : svr eResultCode :=
  s ← us_get self;
  match us_pConnector s with
  | None => λ _, Fault NullDeref
  | Some c => on_net (Connector_AddSendData c (Some packetBuffer) packetSize)
  end.
Definition SendPacket (self : Z) (packetData : s2c) : svr eResultCode :=
  '(sendBuffer, sendBufferSize) ← build_packet packetData;
  SendPacket_raw self sendBuffer sendBufferSize.

Definition UserSession_Release (self : Z) : svr unit :=
  s ← us_get self;
  _ ← (if negb (GetZoneId (_nub s) =? 0)
       then add_command (LeaveCharacter (GetToken (_nub s)) (GetZoneId (_nub s)))
       else mret tt);
  _ ← us_mod self (λ s, set_us_biUpdateTime 0 (set_us_heartbeat 0 0 s));
  s ← us_get self;
  match us_pConnector s with
  | None => mret tt
  | Some c => _ ← on_net (conn_mod c (SetParam None)); on_net (TryRelease c)
  end.

Definition INT64_MAX : Z := 2 ^ 63 - 1.

(** [_pConnector != nullptr && _pConnector->GetActive()]. *)
Definition connector_active (pConnector : option Z) : svr bool :=
  match pConnector with
  | None => mret false
  | Some c => k ← on_net (conn_get c); mret (GetActive k)
  end.

Definition UserSession_DoUpdate (self biCurrTime : Z) : svr unit :=
  s ← us_get self;
  if us_biUpdateTime s <? biCurrTime then
    _ ← us_mod self (set_us_biUpdateTime (i64 (biCurrTime + MILLISEC_A_SEC * 5)));
    active ← connector_active (us_pConnector s);
    if negb active then
      _ ← SetReleaseObj self;
      us_mod self (set_us_biUpdateTime INT64_MAX)
    else
      s ← us_get self;
      active ← connector_active (us_pConnector s);
      if (us_biHeartbeatTimer s <? biCurrTime) && active then
        _ ← us_mod self (SetHeartbeatTimer (i64 (biCurrTime + MILLISEC_A_SEC * 15)));
        n ← us_run self IncHeartbeat;
        if 4 <? n then
          _ ← us_mod self (SetHeartbeatTimer INT64_MAX);
          match us_pConnector s with
          | None => mret tt
          | Some c => on_net (TryRelease c)
          end
        else
          _ ← SendPacket self (S_HEARTBEAT mkSC_P_HEARTBEAT); mret tt
      else mret tt
  else mret tt.

(** ** The handlers *)
Definition C2S_Auth (self : Z) (packet : CS_P_AUTH) : svr bool :=
  now ← on_net (sys sys_localtime);
  let reqId := cs_auth_id packet in
  serial ← GetUniqueSerialId;
  let token := i64 (now * 10000 + serial) in
  _ ← us_mod self (λ s, set_nub (SetId (_nub s) reqId) s);
  _ ← us_mod self (λ s, set_nub (SetToken (_nub s) token) s);
  _ ← AddUserSessionMap self;
  _ ← SendPacket self (S_AUTH_RESULT (SC_P_AUTH_RESULT_SetToken (mkSC_P_AUTH_RESULT 0 0) reqId token));
  mret true.

Definition C2S_Enter (self : Z) (packet : CS_P_ENTER) : svr bool :=
  let zone := 1 in
  r1 ← on_net (sys sys_rand);
  r2 ← on_net (sys sys_rand);
  let x := Z.rem r1 1000 in
  let y := Z.rem r2 1000 in
  s ← us_get self;
  _ ← us_mod self (λ s, set_nub (SetPos3 (_nub s) zone x y) s);
  _ ← add_command (EnterCharacter (GetToken (_nub s)) zone x y);
  mret true.

Definition C2S_LEAVE (self : Z) (packet : CS_P_LEAVE) : svr bool :=
  s ← us_get self;
  _ ← add_command (LeaveCharacter (GetToken (_nub s)) (GetZoneId (_nub s)));
  mret true.

Definition C2S_Move (self : Z) (packet : CS_P_MOVE) : svr bool :=
  let x := cs_move_x packet in
  let y := cs_move_y packet in
  s ← us_get self;
  _ ← us_mod self (λ s, set_nub (SetPos2 (_nub s) x y) s);
  cmd ← new_SendBroadcastToAllUser (GetZoneId (_nub s))
          (S_MOVE (SC_P_MOVE_SetPos (mkSC_P_MOVE 0 0 0) (GetToken (_nub s)) x y));
  _ ← add_command cmd;
  mret true.

Definition C2S_Heartbeat (self : Z) (packet : CS_P_HEARTBEAT) : svr bool :=
  _ ← us_run self DecHeartbeat;
  mret true.

Definition C2S_Interaction (self : Z) (packet : CS_P_INTERACTION) : svr bool :=
  s ← us_get self;
  cmd ← new_SendBroadcastToAllUser (GetZoneId (_nub s))
          (S_INTERACTION (SC_P_INTERACTION_SetInteraction (mkSC_P_INTERACTION 0 0 0) (GetToken (_nub s))
             (cs_int_targetToken packet) (cs_int_type packet)));
  _ ← add_command cmd;
  mret true.

(** [cout << packet.echoData] prints up to the terminating zero; without one
    it reads on behind the array. *)
Definition print_c_string (data : list Z) : outcome unit :=
  if bool_decide (0 ∈ data) then Ok tt else Fault OutOfBounds.

Definition C2S_Echo (self : Z) (packet : CS_P_ECHO) : svr bool :=
  s ← us_get self;
  _ ← st_lift (print_c_string (cs_echo_data packet));
  p ← st_lift (SC_P_ECHO_SetData SC_P_ECHO_default (GetToken (_nub s))
                 (cs_echo_data packet) (cs_echo_size packet));
  cmd ← new_SendBroadcastToAllUser (GetZoneId (_nub s)) (S_ECHO p);
  _ ← add_command cmd;
  mret true.

(** *** Dispatch: [_impl] and [RegisterPacketHandlers] *)
Definition as_handler {W P} (f : Z → P → st W bool) (obj : Z * W) (p : P) : outcome (Z * W * bool) :=
  let '(self, w) := obj in
  '(b, w') ← f self p w; Ok ((self, w'), b).
(** The body of [MessageProcess] of server and client behind the length test. *)
Definition execute_message {W} (impl : outcome (PacketHandler (Z * W))) (self : Z) (pData : list Z) :
    st W bool := λ w,
  hd ← peek pData 0 sizeof_PacketHead;
  let dwPacketLength := u32 (ui32Length (read_PacketHead hd) - sizeof_PacketHead - sizeof_PacketTail) in
  h ← impl;
  '((_, w'), b) ← PacketHandler_Execute os_fresh h (self, w)
                    (drop (Z.to_nat sizeof_PacketHead) pData) dwPacketLength;
  Ok (b, w').
Definition receiver : Type := Z * SvrWorld.

Definition register_c2s {P} `{Wire P} (t : PacketTypeC2S) (fresh : P) (f : Z → P → svr bool)
    (h : PacketHandler receiver) : outcome (PacketHandler receiver) :=
  Register os_fresh (PacketTypeC2S_value t) fresh (as_handler f) h.
Definition RegisterPacketHandlers : outcome (PacketHandler receiver) :=
  h ← register_c2s C2S_auth (mkCS_P_AUTH 0) C2S_Auth
        (PacketHandler_init (PacketTypeC2S_value C2S_Max));
  h ← register_c2s C2S_enter (mkCS_P_ENTER 0) C2S_Enter h;
  h ← register_c2s C2S_leave (mkCS_P_LEAVE 0) C2S_LEAVE h;
  h ← register_c2s C2S_move (mkCS_P_MOVE 0 0) C2S_Move h;
  h ← register_c2s C2S_heartbeat mkCS_P_HEARTBEAT C2S_Heartbeat h;
  h ← register_c2s C2S_interaction (mkCS_P_INTERACTION 0 0) C2S_Interaction h;
  register_c2s C2S_echo CS_P_ECHO_default C2S_Echo h.

Definition MessageProcess (self : Z) (pData : list Z) (nLen : Z) : svr bool := λ w,
  if u64 nLen <? sizeof_PacketHead then Ok (false, w)
  else execute_message RegisterPacketHandlers self pData w.

(** ** UserSessionMgr *)
Definition UserSessionMgr_DoUpdate (currTime : Z) : svr unit :=
  t ← st_gets sw_mgr_biUpdateTime;
  if t <? currTime then
    used ← st_gets (λ w, om_usedList (sw_smgr w));
    _ ← st_each (λ it, UserSession_DoUpdate it currTime) used;
    releaseList ← SwapReleaseList [];
    _ ← st_each UserSession_Release releaseList;
    _ ← st_each (λ it, _ ← DelUserSessionMap it; session_SetFreeObject it) releaseList;
    now ← on_net (sys sys_GetTimeMilliSec);
    st_modify (set_mgr_biUpdateTime (i64 (now + MILLISEC_A_SEC * 5)))
  else mret tt.
End Framing.

(** ** Frames on the wire *)
Definition s2c_payload (m : s2c) : list Z := le_enc 4 (s2c_type m) ++ s2c_encode m.
Definition c2s_payload (m : c2s) : list Z := le_enc 4 (c2s_type m) ++ c2s_encode m.

Section FrameLaws.
Context `{OSLaws}.

Lemma zlen_c2s_payload m : zlen (c2s_payload m) = 4 + zlen (c2s_encode m).
Proof. unfold c2s_payload. by rewrite zlen_app, zlen_le_enc. Qed.
Lemma zlen_s2c_payload m : zlen (s2c_payload m) = 4 + zlen (s2c_encode m).
Proof. unfold s2c_payload. by rewrite zlen_app, zlen_le_enc. Qed.

(** The buffer handed to the connector holds exactly the frame. *)
Lemma make_buffer_of_ok {A} type (ser : Serializer → outcome (Serializer * A)) bytes now :
  in_u 32 type → zlen bytes ≤ 404 →
  (∀ s q, sending s q → zlen q + zlen bytes ≤ capacity s →
    ∃ s' a, ser s = Ok (s', a) ∧ sending s' (q ++ bytes) ∧ capacity s' = capacity s) →
  make_buffer_of type ser now =
    Ok (splice (replicate (Z.to_nat MAX_PACKET_BUFFER_SIZE) 0) 0 (frame (le_enc 4 type ++ bytes) 0 now),
        zlen bytes + 24).
Proof.
  intros Ht Hsz Hser. pose proof (zlen_nonneg bytes).
  destruct (Serializer_send_new os_fresh os_fresh_len) as [Hs0 Hc0].
  unfold make_buffer_of, SerializeHead. rewrite Value_UINT32_eq.
  destruct (Value_int_send 4 u32 _ _ type (u32_repr _ Ht) Hs0)
    as (s1 & -> & Hs1 & Hc1); [rewrite Hc0, zlen_nil; unfold MAX_PACKET_BUFFER_SIZE; lia|].
  cbn [mbind outcome_bind].
  destruct (Hser s1 _ Hs1) as (s2 & a & -> & Hs2 & Hc2).
  { rewrite Hc1, Hc0, !zlen_app, zlen_le_enc, zlen_nil. unfold MAX_PACKET_BUFFER_SIZE. lia. }
  cbn [mbind outcome_bind]. cbn [app] in Hs2. set (payload := le_enc 4 type ++ bytes) in *.
  assert (zlen payload = 4 + zlen bytes) as Hp by (unfold payload; by rewrite zlen_app, zlen_le_enc).
  pose proof (sending_size _ _ Hs2) as Hd. destruct Hs2 as [_ [] Hr Hpd].
  unfold GetDataSize. rewrite Hd.
  assert (sub (_pBuffer (ser_base s2)) 0 (zlen payload) = payload) as Hsub.
  { unfold pending in Hpd. by rewrite Hr, Hd in Hpd. }
  assert (zlen (replicate (Z.to_nat MAX_PACKET_BUFFER_SIZE) 0) = MAX_PACKET_BUFFER_SIZE) as Hz
    by (rewrite zlen_replicate; unfold MAX_PACKET_BUFFER_SIZE; lia).
  revert Hz. generalize (replicate (Z.to_nat MAX_PACKET_BUFFER_SIZE) 0). intros zs Hz.
  rewrite MakeNetworkPacket_ok; rewrite ?Hz; [|unfold capacity, MAX_PACKET_BUFFER_SIZE in *; lia..].
  rewrite (proj2 (Z.ltb_ge _ _)) by (unfold MAX_PACKET_BUFFER_SIZE; lia).
  cbn [mbind outcome_bind]. rewrite Hsub. do 2 f_equal. lia.
Qed.

Lemma make_send_buffer_ok m now :
  s2c_wf m →
  make_send_buffer m now =
    Ok (splice (replicate (Z.to_nat MAX_PACKET_BUFFER_SIZE) 0) 0 (frame (s2c_payload m) 0 now),
        zlen (s2c_payload m) + 20).
Proof.
  intros Hwf. unfold make_send_buffer. rewrite (make_buffer_of_ok _ _ (s2c_encode m)).
  - rewrite zlen_s2c_payload. do 2 f_equal. lia.
  - apply s2c_type_range.
  - by apply s2c_encode_size.
  - intros s q Hs Hq. destruct (s2c_send s q m Hwf Hs Hq) as (s' & E & ?). eauto.
Qed.

Lemma build_packet_ok m w :
  s2c_wf m →
  ∃ now w', build_packet m w =
    Ok ((splice (replicate (Z.to_nat MAX_PACKET_BUFFER_SIZE) 0) 0 (frame (s2c_payload m) 0 now),
         zlen (s2c_payload m) + 20), w') ∧
    w' = set_sw_net (set_nw_trace (nw_trace (sw_net w) ++ [sys_time32]) (sw_net w)) w.
Proof.
  intros Hwf. eexists _, _. unfold build_packet, on_net, st_zoom, mbind, st_bind, sys, st_lift.
  rewrite make_send_buffer_ok by done. done.
Qed.
End FrameLaws.

(** ** Dispatch *)
Definition c2s_handle `{OS} (self : Z) (m : c2s) : svr bool :=
  match m with
  | C_AUTH p => C2S_Auth self p
  | C_ENTER p => C2S_Enter self p
  | C_LEAVE p => C2S_LEAVE self p
  | C_MOVE p => C2S_Move self p
  | C_INTERACTION p => C2S_Interaction self p
  | C_HEARTBEAT p => C2S_Heartbeat self p
  | C_ECHO p => C2S_Echo self p
  end.

Section Dispatch.
Context `{OSLaws}.

Lemma functor_runs {W} {P} `{WireLaws P} (type : Z) (f : Z → P → st W bool) (p : P) self (w : W) data len :
  in_u 32 type → wire_wf p → 0 ≤ len ≤ zlen data → sub data 0 len = encode_packet (mkPacket type p) →
  len ≤ MAX_PACKET_BUFFER_SIZE →
  PacketFunctor_Execute os_fresh type default_obj (as_handler f) (self, w) data len = as_handler f (self, w) p.
Proof.
  intros Ht Hwf Hl Hd Hm. unfold PacketFunctor_Execute.
  rewrite (Serializer_recv_sub _ data len Hl), Hd.
  pose proof (PacketFunctor_Execute_encoded os_fresh os_fresh_len type (as_handler f)
    (mkPacket type p) (self, w) []) as E.
  assert (len = zlen (encode_packet (mkPacket type p) ++ [])) as Hlen.
  { rewrite app_nil_r, <-Hd, zlen_sub by lia. done. }
  rewrite <-(app_nil_r (encode_packet _)) at 1. rewrite Hlen. apply E; [done|done|].
  rewrite zlen_nil, <-Hd, zlen_sub by lia. lia.
Qed.

Definition slot {P} `{Wire P} (t : PacketTypeC2S) (fresh : P) (f : Z → P → svr bool) :
    option (PacketFunctorBase receiver) :=
  Some (PacketFunctor_Execute os_fresh (PacketTypeC2S_value t) fresh (as_handler f)).
(** The table after registration, slot by slot. *)
Definition c2s_table : PacketHandler receiver :=
  [None; slot C2S_auth (mkCS_P_AUTH 0) C2S_Auth; slot C2S_enter (mkCS_P_ENTER 0) C2S_Enter;
   slot C2S_leave (mkCS_P_LEAVE 0) C2S_LEAVE; slot C2S_move (mkCS_P_MOVE 0 0) C2S_Move;
   slot C2S_interaction (mkCS_P_INTERACTION 0 0) C2S_Interaction;
   slot C2S_heartbeat mkCS_P_HEARTBEAT C2S_Heartbeat; slot C2S_echo CS_P_ECHO_default C2S_Echo].
Lemma RegisterPacketHandlers_ok : RegisterPacketHandlers = Ok c2s_table.
Proof. reflexivity. Qed.

Lemma table_runs self w m data len :
  c2s_wf m → 0 ≤ len ≤ zlen data → sub data 0 len = c2s_payload m → len ≤ MAX_PACKET_BUFFER_SIZE →
  ∃ f, get c2s_table (c2s_type m) = Some (Some f) ∧
    f (self, w) data len = ('(b, w') ← c2s_handle self m w; Ok ((self, w'), b)).
Proof.
  intros Hwf Hl Hd Hm.
  pose proof (c2s_type_range m) as Ht. destruct m as [p|p|p|p|p|p|p]; (eexists; split; [reflexivity|]).
  - exact (functor_runs (PacketTypeC2S_value C2S_auth) C2S_Auth p self w data len Ht Hwf Hl Hd Hm).
  - exact (functor_runs (PacketTypeC2S_value C2S_enter) C2S_Enter p self w data len Ht Hwf Hl Hd Hm).
  - exact (functor_runs (PacketTypeC2S_value C2S_leave) C2S_LEAVE p self w data len Ht Hwf Hl Hd Hm).
  - exact (functor_runs (PacketTypeC2S_value C2S_move) C2S_Move p self w data len Ht Hwf Hl Hd Hm).
  - exact (functor_runs (PacketTypeC2S_value C2S_interaction) C2S_Interaction p self w data len Ht Hwf Hl Hd Hm).
  - exact (functor_runs (PacketTypeC2S_value C2S_heartbeat) C2S_Heartbeat p self w data len Ht Hwf Hl Hd Hm).
  - exact (functor_runs (PacketTypeC2S_value C2S_echo) C2S_Echo p self w data len Ht Hwf Hl Hd Hm).
Qed.

(** The bytes behind the head, as [MessageProcess] addresses them. *)
Lemma drop_head h l : drop (Z.to_nat 8) (repr_PacketHead h ++ l) = l.
Proof.
  pose proof (zlen_repr_PacketHead h). rewrite drop_app_ge by zn.
  by replace (Z.to_nat 8 - _)%nat with 0%nat by zn.
Qed.
Definition message_head (payload : list Z) : list Z :=
  repr_PacketHead (mkPacketHead PACKET_CHECK_HEAD_KEY (zlen payload + 20)).
Lemma message_head_read payload rest :
  zlen payload + 20 < 2 ^ 32 →
  read_PacketHead (sub (message_head payload ++ rest) 0 8) = mkPacketHead PACKET_CHECK_HEAD_KEY (zlen payload + 20).
Proof.
  intros. pose proof (zlen_nonneg payload). rewrite (sub_app_here _ (message_head payload)) by (unfold message_head; by rewrite zlen_repr_PacketHead).
  rewrite <-(app_nil_r (message_head payload)). apply read_repr_PacketHead; cbn [ui32CheckHead ui32Length]; [done|zrange].
Qed.

(** Only the head and the payload matter; [more] is what follows them. *)
Lemma execute_message_ok {W} (impl : outcome (PacketHandler (Z * W))) table self type bytes more
    (handle : st W bool) f w :
  impl = Ok table → in_u 32 type → type < zlen table → zlen bytes ≤ 404 →
  get table type = Some (Some f) →
  (∀ data len, 0 ≤ len ≤ zlen data → sub data 0 len = le_enc 4 type ++ bytes → len ≤ MAX_PACKET_BUFFER_SIZE →
    f (self, w) data len = ('(b, w') ← handle w; Ok ((self, w'), b))) →
  let payload := le_enc 4 type ++ bytes in
  execute_message impl self (message_head payload ++ payload ++ more) w = handle w.
Proof.
  intros -> Ht Htab Hsz Hf Hrun payload. pose proof (zlen_nonneg bytes). pose proof (zlen_nonneg more).
  assert (zlen payload = 4 + zlen bytes) as Hp by (unfold payload; by rewrite zlen_app, zlen_le_enc).
  unfold execute_message, sizeof_PacketHead.
  rewrite peek_ok by (unfold message_head; rewrite ?zlen_app, ?zlen_repr_PacketHead; lia).
  cbn [mbind outcome_bind]. rewrite message_head_read by lia. cbn [ui32Length]. unfold sizeof_PacketTail.
  replace (zlen payload + 20 - 8 - 12) with (zlen payload) by lia.
  rewrite u32_small by lia. cbn [mbind outcome_bind].
  unfold message_head. rewrite drop_head. set (data := payload ++ more).
  assert (0 ≤ zlen payload ≤ zlen data) as Hrange by (unfold data; rewrite zlen_app; lia).
  assert (sub data 0 (zlen payload) = payload) as Hsub by (by unfold data; rewrite sub_app_here).
  rewrite PacketHandler_Execute_ok; [|apply os_fresh_len|lia|by left; lia].
  assert (type_word data (zlen payload) = type) as ->.
  { unfold type_word. rewrite Hp. unfold MAX_PACKET_BUFFER_SIZE.
    destruct (Z.ltb_spec (4 + zlen bytes) 4); [lia|].
    destruct (Z.ltb_spec (1024 * 10) (4 + zlen bytes)); [lia|]. cbn [orb].
    unfold data, payload. rewrite <-app_assoc, (sub_app_here _ (le_enc 4 _)) by (by rewrite zlen_le_enc).
    rewrite le_dec_enc. by apply u32_repr. }
  rewrite Hf, (proj2 (Z.leb_gt _ _)) by done.
  rewrite (Hrun _ _ Hrange Hsub) by (unfold MAX_PACKET_BUFFER_SIZE; lia).
  by destruct (handle w) as [[]|].
Qed.

Lemma MessageProcess_ok self m more w :
  c2s_wf m →
  MessageProcess self (message_head (c2s_payload m) ++ c2s_payload m ++ more) (zlen (c2s_payload m) + 20) w =
    c2s_handle self m w.
Proof.
  intros Hwf. pose proof (c2s_encode_size m Hwf). pose proof (zlen_nonneg (c2s_encode m)).
  pose proof (zlen_c2s_payload m). unfold MessageProcess, sizeof_PacketHead.
  rewrite (wrapu_small 64) by (split; lia). destruct (Z.ltb_spec (zlen (c2s_payload m) + 20) 8); [lia|].
  destruct (get_is_Some c2s_table (c2s_type m)) as [slot Hslot]; [by destruct m|].
  destruct (table_runs self w m (c2s_payload m) (zlen (c2s_payload m)) Hwf) as (f & Hf & _);
    [lia|apply sub_all|unfold MAX_PACKET_BUFFER_SIZE; lia|].
  apply (execute_message_ok _ c2s_table _ (c2s_type m) (c2s_encode m) more _ f).
  - exact RegisterPacketHandlers_ok.
  - apply c2s_type_range.
  - by destruct m.
  - lia.
  - exact Hf.
  - intros data len Hl Hd Hm. destruct (table_runs self w m data len Hwf Hl Hd Hm) as (f' & Hf' & E).
    assert (f' = f) as -> by congruence. exact E.
Qed.

(** C10: from bytes to handler.  A packet queued for the session that holds the
    frame of a well-formed client message, whatever follows it in the buffer,
    runs exactly the handler of that message on exactly that message. *)
Theorem MessageProcess_dispatch self m seq now rest w :
  c2s_wf m →
  MessageProcess self (frame (c2s_payload m) seq now ++ rest) (zlen (c2s_payload m) + 20) w =
    c2s_handle self m w.
Proof. intros. unfold frame. rewrite <-!app_assoc. by apply MessageProcess_ok. Qed.
End Dispatch.

(** Two clients in zone 1: sessions 10 and 11 on connectors 1 and 2. *)
Definition demo_session (uid token c : Z) : UserSession :=
  mkUserSession uid (Some c) 0 0 0 (mkCharacter 7 token (mkPosition 1 5 6)) false.
Definition demo_net : NetWorld :=
  set_nw_conns {[ 1 := set_socket 50 (Connector_new 1); 2 := set_socket 51 (Connector_new 2) ]} demo_world.
Definition demo_svr : SvrWorld :=
  mkSvrWorld demo_net {[ 10 := demo_session 1 100 1; 11 := demo_session 2 101 2 ]} 2
    (mkObjectMgrBase (mkObjectPool [10] [12] 2 (mkStore 13 [(10, 3)])) [10; 11]) [] {[ 100 := 10; 101 := 11 ]} 0
    {[ 20 := mkZone 1 {[ 100 := 10; 101 := 11 ]} ]} (mkObjectMgrBase (mkObjectPool [20] [22; 21] 2 (mkStore 23 [(20, 3)])) [])
    {[ 1 := 20 ]} [] 2.
Lemma MessageProcess_dispatch_witness :
  MessageProcess 10 (frame (c2s_payload (C_MOVE (mkCS_P_MOVE 3 4))) 0 9 ++ [205; 205])
    (zlen (c2s_payload (C_MOVE (mkCS_P_MOVE 3 4))) + 20) demo_svr =
    c2s_handle 10 (C_MOVE (mkCS_P_MOVE 3 4)) demo_svr.
Proof.
  apply (MessageProcess_dispatch 10 (C_MOVE (mkCS_P_MOVE 3 4)) 0 9 [205; 205] demo_svr).
  vm_compute; intuition discriminate.
Defined.
