(* ===== verification/Server.v ===== *)
(** * The server: svr/command_unit_process.cpp, svr/process.cpp, svr/main.cpp
    The commands' [Operator]s, and the two threads of [App], each given by one
    iteration of its loop. *)
From S2P Require Import Prelude Buffer Wire Character Protocol Packet ObjectPool CommandQueue.
From S2P Require Import PacketQueue TimeSet Config System Connector Network SvrState Session.

Section Server.
Context `{OS}.

(** ** The commands *)
Definition SendBroadcastToAllUser_Operator (zone : Z) (buf : list Z) (len : Z) : svr unit :=
  z ← GetZone zone;
  match z with
  | Some obj => PacketBroadcast obj buf len
  | None => mret tt
  end.

Definition SendPacketToUser_Operator (token : Z) (buf : list Z) (len : Z) : svr unit :=
  user ← GetUserSession token;
  match user with
  | None => mret tt
  | Some p => _ ← SendPacket_raw p buf len; mret tt
  end.

Definition EnterCharacter_Operator (token zone x y : Z) : svr unit :=
  user ← GetUserSession token;
  match user with
  | None => mret tt
  | Some p =>
      _ ← ZoneMgr_EnterCharacter zone p;
      cmd ← new_SendBroadcastToAllUser zone (S_ENTER (SC_P_ENTER_SetPos (mkSC_P_ENTER 0 0 0) token x y));
      _ ← add_command cmd;
      add_command (SendCharacterList token zone)
  end.

Definition LeaveCharacter_Operator (token zone : Z) : svr unit :=
  user ← GetUserSession token;
  _ ← match user with
      | Some p => us_mod p (λ s, set_nub (ResetPos (_nub s)) s)
      | None => mret tt
      end;
  _ ← ZoneMgr_LeaveCharacter zone token;
  cmd ← new_SendBroadcastToAllUser zone (S_LEAVE (SC_P_LEAVE_SetToken (mkSC_P_LEAVE 0) token));
  add_command cmd.

(** The loop over the records: [SetData], and a packet whenever it is true. *)
Fixpoint send_records (token : Z) (records : list CharacterDbData) (sendPacket : SC_P_ENTER_CHARACTER_LIST) :
    svr SC_P_ENTER_CHARACTER_LIST :=
  match records with
  | [] => mret sendPacket
  | it :: records' =>
      '(p, full) ← st_lift (SC_P_ENTER_CHARACTER_LIST_SetData sendPacket it);
      if (full : bool) then
        cmd ← new_SendPacketToUser_packet token (S_ENTER_CHARACTER_LIST p);
        _ ← add_command cmd;
        send_records token records' (SC_P_ENTER_CHARACTER_LIST_Reset p)
      else send_records token records' p
  end.
Definition SendCharacterList_Operator (token zone : Z) : svr unit :=
  user ← GetUserSession token;
  match user with
  | None => mret tt
  | Some _ =>
      z ← GetZone zone;
      match z with
      | None => mret tt
      | Some obj =>
          records ← GetCharacterDbList obj token;
          p ← send_records token records SC_P_ENTER_CHARACTER_LIST_default;
          if 0 <? sc_list_count p then
            cmd ← new_SendPacketToUser_packet token (S_ENTER_CHARACTER_LIST p);
            add_command cmd
          else mret tt
      end
  end.

Definition Operator (c : command) : svr unit :=
  match c with
  | SendBroadcastToAllUser zone buf len => SendBroadcastToAllUser_Operator zone buf len
  | SendPacketToUser token buf len => SendPacketToUser_Operator token buf len
  | EnterCharacter token zone x y => EnterCharacter_Operator token zone x y
  | LeaveCharacter token zone => LeaveCharacter_Operator token zone
  | SendCharacterList token zone => SendCharacterList_Operator token zone
  end.

(** [Operator] with the commands it adds as a result, as CommandQueue has it. *)
Definition Operator_adds (c : command) (w : SvrWorld) : outcome (SvrWorld * list command) :=
  match Operator c (set_sw_cmds [] w) with
  | Ok (_, w') => Ok (set_sw_cmds (sw_cmds w) w', sw_cmds w')
  | Fault f => Fault f
  end.

(** [_commandQueue.Tick()]: what CommandQueue.Tick_refines shows it does. *)
Definition svr_Tick : svr unit := λ w,
  match fire_list Operator_adds (set_sw_cmds [] w) (sw_cmds w) with
  | Ok (w', new) => Ok (tt, set_sw_cmds new w')
  | Fault f => Fault f
  end.

(** ** The threads *)

(** [net.Disconnect], [RecvPacketQueue] operations. *)
Definition svr_Disconnect (c : option Z) : svr unit := _ ← on_net (Network_Disconnect c); mret tt.
Definition pop_packet : net (option (option Z)) := λ w,
  match RecvPacketQueue_Pop (nw_recvq w) 0 with
  | Fault f => Fault f
  | Ok None => Ok (None, w)
  | Ok (Some (q, p)) => Ok (Some p, set_nw_recvq q w)
  end.
Definition load_packet (p : Z) : net PacketStruct := λ w,
  match ph_cells (nw_packets w) !! p with Some k => Ok (k, w) | None => Fault UseAfterFree end.
Definition release_packet (p : Z) : net unit := λ w,
  match ReleasePacketStruct (nw_packets w) (Some p) with
  | Ok h => Ok (tt, set_nw_packets h w)
  | Fault f => Fault f
  end.

(** The first lines of the loop body: the check word of the tail. *)
Definition tail_valid (buffer : list Z) : outcome bool :=
  hd ← peek buffer 0 sizeof_PacketHead;
  t ← peek buffer (ui32Length (read_PacketHead hd) - sizeof_PacketTail) 4;
  Ok (PACKET_CHECK_TAIL_KEY =? le_dec t).

(** One iteration of [App::ProcessThread].  [pConnector] is the local variable
    the iteration starts with; the result is its new value, or [None] when
    [Pop] blocks. *)
Definition ProcessThread_step (pConnector : option Z) : svr (option (option Z)) :=
  r ← on_net pop_packet;
  match r with
  | None => mret None
  | Some None => mret (Some pConnector)
  | Some (Some pPacket) =>
      pk ← on_net (load_packet pPacket);
      let buffer := _pBuffer (ps_base pk) in
      ok ← st_lift (tail_valid buffer);
      _ ← (if negb ok then svr_Disconnect pConnector else mret tt);
      match _pConnector pk with
      | None => _ ← on_net (release_packet pPacket); mret (Some None)
      | Some c =>
          k ← on_net (conn_get c);
          _ ← match GetParam k with
              | Some pUserSession =>
                  _ ← MessageProcess pUserSession buffer (i32 (_nDataSize (ps_base pk))); mret tt
              | None =>
                  pUserSession ← session_GetFreeObject;
                  _ ← on_net (conn_mod c (SetParam (Some pUserSession)));
                  _ ← us_mod pUserSession (SetConnector (Some c));
                  _ ← MessageProcess pUserSession buffer (i32 (_nDataSize (ps_base pk))); mret tt
              end;
          _ ← on_net (release_packet pPacket);
          mret (Some (Some c))
      end
  end.

(** One iteration of [App::UpdateThread] on its two timers. *)
Definition UpdateThread_step (timers : Z * Z) : svr (Z * Z) :=
  let '(biUserSessionMgrUpdate, biMonitorReport) := timers in
  biCurrTime ← on_net (sys sys_GetTimeMilliSec);
  t1 ← (if biUserSessionMgrUpdate <? biCurrTime then
          _ ← UserSessionMgr_DoUpdate biCurrTime;
          mret (i64 (biCurrTime + MILLISEC_A_SEC))
        else mret biUserSessionMgrUpdate);
  let t2 := if biMonitorReport <? biCurrTime then i64 (biCurrTime + MILLISEC_A_SEC * 30)
            else biMonitorReport in
  _ ← svr_Tick;
  mret (t1, t2).

(** [App::Init] (the network part) and [App::Stop]. *)
Inductive app_thread : Set := Process_Thread | Update_App_Thread.
Definition App_Init (cfg : NetworkConfig) : svr (bool * list net_thread * list app_thread) :=
  '(ok, threads) ← on_net (Network_Initialize cfg);
  mret (if (ok : bool) then (true, threads, [Process_Thread; Update_App_Thread]) else (false, threads, [])).
Definition App_Stop (cfg : NetworkConfig) : svr bool :=
  _ ← on_net (Network_Stop cfg);
  _ ← on_net (st_modify (λ w, set_nw_recvq (ForceActivateQueueEvent (nw_recvq w)) w));
  mret true.
End Server.

(** [main]: the [-config] option, read from the arguments in order. *)
Fixpoint config_option (args : list (list Z)) (configPath : list Z) : list Z :=
  match args with
  | param :: ((value :: rest) as tl) =>
      if bool_decide (param = [45; 99; 111; 110; 102; 105; 103]) then config_option rest value
      else config_option tl configPath
  | _ => configPath
  end.
