(* ===== verification/SvrFrame.v ===== *)
(** * What the server's code leaves alone
    A handler, a command and the timers of a session change neither the queue
    of received packets nor, except when a session is released, the session a
    connector belongs to. *)
From S2P Require Import Prelude Buffer Wire Character Protocol Packet ObjectPool CommandQueue.
From S2P Require Import PacketQueue TimeSet Config System Connector Network NetFrame SvrState Session Server.

(** The network as the server's code leaves it. *)
Definition svr_quiet (w w' : SvrWorld) : Prop := quiet (sw_net w) (sw_net w').
#[export] Instance svr_quiet_pre : PreOrder svr_quiet.
Proof. split; [by intros w|]. intros w1 w2 w3 H1 H2. unfold svr_quiet in *. by etrans. Qed.

Lemma quiet_on_net {A} (m : net A) : respects quiet m → respects svr_quiet (on_net m).
Proof. intros Hm. by eapply respects_zoom. Qed.
#[export] Hint Extern 2 (respects svr_quiet (on_net _)) => apply quiet_on_net : respects.

(** Code that does not call the network at all. *)
Definition net_same (w w' : SvrWorld) : Prop := sw_net w' = sw_net w.
Lemma quiet_net_same {A} (m : svr A) : (∀ w a w', m w = Ok (a, w') → net_same w w') → respects svr_quiet m.
Proof. intros Hm w a w' E. unfold svr_quiet. by rewrite (Hm _ _ _ E). Qed.
Ltac net_same_tac := apply quiet_net_same; intros ? ? ? E; unfold net_same;
  repeat case_match; by simplify_eq/=.

Section SvrFrame.
Context `{OS}.
Lemma quiet_us_get p : respects svr_quiet (us_get p).
Proof. unfold us_get. net_same_tac. Qed.
Lemma quiet_us_set p s : respects svr_quiet (us_set p s).
Proof. unfold us_set. net_same_tac. Qed.
Hint Resolve quiet_us_get quiet_us_set : respects.
Lemma quiet_us_mod p f : respects svr_quiet (us_mod p f).
Proof. unfold us_mod. respects_tac. Qed.
Lemma quiet_us_run {A} p (f : UserSession → UserSession * A) : respects svr_quiet (us_run p f).
Proof. unfold us_run. respects_tac. Qed.
Lemma quiet_st_modify (f : SvrWorld → SvrWorld) : (∀ w, sw_net (f w) = sw_net w) → respects svr_quiet (st_modify f).
Proof. intros Hf. apply respects_modify. intros w. unfold svr_quiet. by rewrite Hf. Qed.
Lemma quiet_zone_get p : respects svr_quiet (zone_get p).
Proof. unfold zone_get. net_same_tac. Qed.
Lemma quiet_zone_set p z : respects svr_quiet (zone_set p z).
Proof. unfold zone_set. net_same_tac. Qed.
Lemma quiet_serial : respects svr_quiet GetUniqueSerialId.
Proof. unfold GetUniqueSerialId. net_same_tac. Qed.
Lemma quiet_zone_alloc : respects svr_quiet zone_alloc.
Proof. unfold zone_alloc. net_same_tac. Qed.
End SvrFrame.
#[export] Hint Resolve quiet_us_get quiet_us_set quiet_us_mod quiet_us_run quiet_zone_get quiet_zone_set : respects.
#[export] Hint Resolve quiet_serial quiet_zone_alloc : respects.
#[export] Hint Extern 2 (respects svr_quiet (st_modify _)) => apply quiet_st_modify; reflexivity : respects.

Section SvrFunctions.
Context `{OS}.
Lemma quiet_build m : respects svr_quiet (build_packet m).
Proof. unfold build_packet. respects_tac. Qed.
Hint Resolve quiet_build : respects.
Lemma quiet_new_broadcast z m : respects svr_quiet (new_SendBroadcastToAllUser z m).
Proof. unfold new_SendBroadcastToAllUser. respects_tac. Qed.
Lemma quiet_new_packet t m : respects svr_quiet (new_SendPacketToUser_packet t m).
Proof. unfold new_SendPacketToUser_packet. respects_tac. Qed.
Lemma quiet_SendPacket_raw p b n : respects svr_quiet (SendPacket_raw p b n).
Proof. unfold SendPacket_raw. respects_tac. Qed.
Lemma quiet_add_command c : respects svr_quiet (add_command c).
Proof. unfold add_command. respects_tac. Qed.
Hint Resolve quiet_new_broadcast quiet_new_packet quiet_SendPacket_raw quiet_add_command : respects.
Lemma quiet_SendPacket p m : respects svr_quiet (SendPacket p m).
Proof. unfold SendPacket. respects_tac. Qed.
Lemma quiet_AddUserSessionMap p : respects svr_quiet (AddUserSessionMap p).
Proof. unfold AddUserSessionMap. respects_tac. Qed.
Hint Resolve quiet_SendPacket quiet_AddUserSessionMap : respects.

Lemma quiet_handle p m : respects svr_quiet (c2s_handle p m).
Proof.
  destruct m; cbn [c2s_handle]; [unfold C2S_Auth|unfold C2S_Enter|unfold C2S_LEAVE|unfold C2S_Move
    |unfold C2S_Interaction|unfold C2S_Heartbeat|unfold C2S_Echo]; respects_tac.
Qed.
End SvrFunctions.
