(* ===== verification/Client.v ===== *)
(** * The client: cli/character.h, character.cpp, user_session.h,
    user_session.cpp, user_session_mgr.h, command_unit_process.h, process.cpp
    Characters and sessions are objects behind their addresses.  What is
    printed is left out; what printing reads is kept. *)
From Stdlib Require Import String.
From S2P Require Import Prelude Buffer Wire Character Protocol Packet ObjectPool CommandQueue.
From S2P Require Import PacketQueue TimeSet Config System Connector Network SvrState Session Server Text.

(** ** State *)
Record CliSession := mkCliSession { cs_dwIndex : Z; cs_pConnector : option Z; cs_token : Z }.
Definition CliSession_new (dwIndex : Z) : CliSession := mkCliSession dwIndex None 0.
Definition cli_GetIndex (s : CliSession) : Z := cs_dwIndex s.
Definition cli_SetConnector (p : option Z) (s : CliSession) := mkCliSession (cs_dwIndex s) p (cs_token s).
Definition cli_SetToken (t : Z) (s : CliSession) := mkCliSession (cs_dwIndex s) (cs_pConnector s) t.
Definition cli_GetToken (s : CliSession) : Z := cs_token s.

(** [TestCommandUnit] and [DynamicCommandUnit]; both only print. *)
Inductive cli_command : Set := TestCommand | DynamicCommand.

Record CliWorld := mkCliWorld {
  cw_net : NetWorld;
  cw_chars : gmap Z Character;
  cw_cmgr : ObjectMgrBase;             (** CharacterMgr, as ObjectMgrBase<Character> *)
  cm_characterMap : gmap Z Z;
  _playerCharacter : Z;
  cw_sessions : gmap Z CliSession;
  cw_smgr : ObjectPoolMgrBase;         (** UserSessionMgr, as ObjectPoolMgrBase<UserSession> *)
  cw_cmds : list cli_command }.        (** App::_commandQueue *)
Definition set_cw_net v w := mkCliWorld v (cw_chars w) (cw_cmgr w) (cm_characterMap w) (_playerCharacter w) (cw_sessions w) (cw_smgr w) (cw_cmds w).
Definition set_cw_chars v w := mkCliWorld (cw_net w) v (cw_cmgr w) (cm_characterMap w) (_playerCharacter w) (cw_sessions w) (cw_smgr w) (cw_cmds w).
Definition set_cw_cmgr v w := mkCliWorld (cw_net w) (cw_chars w) v (cm_characterMap w) (_playerCharacter w) (cw_sessions w) (cw_smgr w) (cw_cmds w).
Definition set_characterMap v w := mkCliWorld (cw_net w) (cw_chars w) (cw_cmgr w) v (_playerCharacter w) (cw_sessions w) (cw_smgr w) (cw_cmds w).
Definition set_playerCharacter v w := mkCliWorld (cw_net w) (cw_chars w) (cw_cmgr w) (cm_characterMap w) v (cw_sessions w) (cw_smgr w) (cw_cmds w).
Definition set_cw_sessions v w := mkCliWorld (cw_net w) (cw_chars w) (cw_cmgr w) (cm_characterMap w) (_playerCharacter w) v (cw_smgr w) (cw_cmds w).
Definition set_cw_smgr v w := mkCliWorld (cw_net w) (cw_chars w) (cw_cmgr w) (cm_characterMap w) (_playerCharacter w) (cw_sessions w) v (cw_cmds w).
Definition set_cw_cmds v w := mkCliWorld (cw_net w) (cw_chars w) (cw_cmgr w) (cm_characterMap w) (_playerCharacter w) (cw_sessions w) (cw_smgr w) v.

Abbreviation cli := (st CliWorld).
Definition cli_net {A} (m : net A) : cli A := st_zoom cw_net set_cw_net m.

Definition cs_get (p : Z) : cli CliSession := λ w,
  match cw_sessions w !! p with Some s => Ok (s, w) | None => Fault UseAfterFree end.
Definition cs_mod (p : Z) (f : CliSession → CliSession) : cli unit := λ w,
  match cw_sessions w !! p with
  | Some s => Ok (tt, set_cw_sessions (<[p := f s]> (cw_sessions w)) w)
  | None => Fault UseAfterFree
  end.
Definition ch_get (p : Z) : cli Character := λ w,
  match cw_chars w !! p with Some c => Ok (c, w) | None => Fault UseAfterFree end.
Definition ch_mod (p : Z) (f : Character → Character) : cli unit := λ w,
  match cw_chars w !! p with
  | Some c => Ok (tt, set_cw_chars (<[p := f c]> (cw_chars w)) w)
  | None => Fault UseAfterFree
  end.
(** A call through a pointer that may be null. *)
Definition deref {A} (p : option Z) (k : Z → cli A) : cli A :=
  match p with Some a => k a | None => λ _, Fault NullDeref end.

(** ** CharacterMgr *)
Definition character_GetFreeObject : cli Z := λ w,
  match ObjectMgrBase_GetFreeObject (cw_cmgr w) with
  | Fault f => Fault f
  | Ok (p, m) => Ok (p, set_cw_chars (<[p := Character_new]> (cw_chars w)) (set_cw_cmgr m w))
  end.
Definition CharacterMgr_init : cli unit :=
  p ← character_GetFreeObject; st_modify (set_playerCharacter p).
Definition GetPlayerCharacter : cli Z := st_gets _playerCharacter.
Definition IsPlayerCharacter_token (token : Z) : cli bool :=
  p ← GetPlayerCharacter; c ← ch_get p; mret (GetToken c =? token).
Definition IsPlayerCharacter (character : option Z) : cli bool :=
  p ← GetPlayerCharacter; mret (bool_decide (character = Some p)).
Definition GetCharacter (token : Z) : cli (option Z) :=
  p ← GetPlayerCharacter;
  c ← ch_get p;
  if GetToken c =? token then mret (Some p)
  else m ← st_gets cm_characterMap; mret (m !! token).
Definition cli_EnterCharacter (token : Z) : cli (option Z) :=
  r ← GetCharacter token;
  match r with
  | Some character => mret (Some character)
  | None =>
      character ← character_GetFreeObject;
      _ ← ch_mod character (λ c, SetToken c token);
      _ ← st_modify (λ w, set_characterMap (std_insert token character (cm_characterMap w)) w);
      mret (Some character)
  end.
Definition cli_LeaveCharacter (token : Z) : cli unit :=
  st_modify (λ w, set_characterMap (delete token (cm_characterMap w)) w).

(** ** UserSession *)
Section CliSession.
Context `{OS}.

Definition cli_clear (self : Z) : cli Z :=
  s ← cs_get self;
  _ ← deref (cs_pConnector s) (λ c, cli_net (conn_mod c (SetParam None)));
  mret 0.

Definition make_c2s_buffer (packetData : c2s) (now : Z) : outcome (list Z * Z) :=
  make_buffer_of (c2s_type packetData) (λ s, c2s_Serialize s packetData) now.
Definition cli_SendPacket (self : Z) (packetData : c2s) : cli eResultCode :=
  now ← cli_net (sys sys_time32);
  '(sendBuffer, sendBufferSize) ← st_lift (make_c2s_buffer packetData now);
  s ← cs_get self;
  deref (cs_pConnector s) (λ c, cli_net (Connector_AddSendData c (Some sendBuffer) sendBufferSize)).

Definition ReqAuth (self : Z) : cli eResultCode :=
  r ← cli_net (sys sys_rand);
  cli_SendPacket self (C_AUTH (CS_P_AUTH_SetId (mkCS_P_AUTH 0) (Z.rem r 10))).
Definition ReqEnter (self : Z) : cli eResultCode :=
  s ← cs_get self;
  cli_SendPacket self (C_ENTER (CS_P_ENTER_SetToken (mkCS_P_ENTER 0) (cli_GetToken s))).
Definition ReqMove (self posX posY : Z) : cli eResultCode :=
  cli_SendPacket self (C_MOVE (CS_P_MOVE_SetPos (mkCS_P_MOVE 0 0) posX posY)).
Definition ReqInteraction (self targetId type : Z) : cli eResultCode :=
  cli_SendPacket self (C_INTERACTION (CS_P_INTERACTION_SetInteraction (mkCS_P_INTERACTION 0 0) targetId type)).

(** Decimal digits, as [format] prints an INT64. *)
Fixpoint digits (fuel : nat) (n : Z) : list Z :=
  match fuel with
  | O => []
  | S fuel' => if n <? 10 then [48 + n] else digits fuel' (n / 10) ++ [48 + n mod 10]
  end.
Definition format_INT64 (n : Z) : list Z :=
  if n <? 0 then 45 :: digits 20 (- n) else digits 20 n.
(** hello. my id {}. *)
Definition echo_message (token : Z) : list Z :=
  [104; 101; 108; 108; 111; 46; 32; 109; 121; 32; 105; 100; 32] ++ format_INT64 token ++ [46].
(** [c_str()] ends in a zero. *)
Definition ReqEcho (self : Z) : cli eResultCode :=
  s ← cs_get self;
  let echoMsg := echo_message (cli_GetToken s) in
  p ← st_lift (CS_P_ECHO_SetData CS_P_ECHO_default (echoMsg ++ [0]) (zlen echoMsg));
  cli_SendPacket self (C_ECHO p).
Definition RepHeartBeat (self : Z) : cli eResultCode := cli_SendPacket self (C_HEARTBEAT mkCS_P_HEARTBEAT).
Definition cli_session_DoUpdate (self uiCurrTime : Z) : cli Z := mret 0.

(** ** The handlers *)
Definition S2C_AuthResult (self : Z) (packet : SC_P_AUTH_RESULT) : cli bool :=
  _ ← cs_mod self (cli_SetToken (sc_auth_token packet));
  character ← GetPlayerCharacter;
  _ ← ch_mod character (λ c, SetId c (sc_auth_id packet));
  _ ← ch_mod character (λ c, SetToken c (sc_auth_token packet));
  mret true.

Definition S2C_Enter (self : Z) (packet : SC_P_ENTER) : cli bool :=
  let token := sc_enter_token packet in
  player ← IsPlayerCharacter_token token;
  character ← (if (player : bool) then p ← GetPlayerCharacter; mret (Some p) else cli_EnterCharacter token);
  match character with
  | None => mret true
  | Some c =>
      _ ← ch_mod c (λ ch, SetPos2 ch (sc_enter_x packet) (sc_enter_y packet));
      _ ← ch_get c;
      mret true
  end.

Fixpoint EnterCharacter_loop (data : list CharacterDbData) (idx : Z) (k : nat) : cli unit :=
  match k with
  | O => mret tt
  | S k' =>
      info ← st_lift (aget data idx);
      r ← cli_EnterCharacter (db_token info);
      _ ← deref r (λ ch, ch_mod ch (λ c, SetPos1 c (db_pos info)));
      EnterCharacter_loop data (idx + 1) k'
  end.
Definition S2C_EnterCharacter (self : Z) (packet : SC_P_ENTER_CHARACTER_LIST) : cli bool :=
  _ ← EnterCharacter_loop (sc_list_data packet) 0 (Z.to_nat (sc_list_count packet));
  mret true.

Definition S2C_Leave (self : Z) (packet : SC_P_LEAVE) : cli bool :=
  let token := sc_leave_token packet in
  character ← GetCharacter token;
  match character with
  | None => mret true
  | Some c =>
      player ← IsPlayerCharacter (Some c);
      _ ← (if (player : bool) then mret tt else cli_LeaveCharacter token);
      mret true
  end.

Definition S2C_Move (self : Z) (packet : SC_P_MOVE) : cli bool :=
  character ← GetCharacter (sc_move_token packet);
  match character with
  | None => mret true
  | Some c =>
      _ ← ch_get c;
      _ ← ch_mod c (λ ch, SetPos2 ch (sc_move_x packet) (sc_move_y packet));
      mret true
  end.

Definition S2C_Interaction (self : Z) (packet : SC_P_INTERACTION) : cli bool :=
  ch ← GetCharacter (sc_int_token packet);
  match ch with
  | None => mret true
  | Some _ =>
      targetCh ← GetCharacter (sc_int_targetToken packet);
      if negb (sc_int_targetToken packet =? 0) && bool_decide (targetCh = None) then mret true
      else
        _ ← IsPlayerCharacter ch;
        _ ← IsPlayerCharacter targetCh;
        mret true
  end.

Definition S2C_Heartbeat (self : Z) (packet : SC_P_HEARTBEAT) : cli bool :=
  _ ← cli_SendPacket self (C_HEARTBEAT mkCS_P_HEARTBEAT);
  mret true.

Definition S2C_Echo (self : Z) (packet : SC_P_ECHO) : cli bool :=
  _ ← st_lift (print_c_string (sc_echo_data packet));
  mret true.
End CliSession.

(** ** Dispatch *)
Section CliDispatch.
Context `{OS}.

Definition register_s2c {P} `{Wire P} (t : PacketTypeS2C) (fresh : P) (f : Z → P → cli bool)
    (h : PacketHandler (Z * CliWorld)) : outcome (PacketHandler (Z * CliWorld)) :=
  Register os_fresh (PacketTypeS2C_value t) fresh (as_handler f) h.
Definition cli_RegisterPacketHandlers : outcome (PacketHandler (Z * CliWorld)) :=
  h ← register_s2c S2C_auth_result (mkSC_P_AUTH_RESULT 0 0) S2C_AuthResult
        (PacketHandler_init (PacketTypeS2C_value S2C_Max));
  h ← register_s2c S2C_enter (mkSC_P_ENTER 0 0 0) S2C_Enter h;
  h ← register_s2c S2C_enter_character SC_P_ENTER_CHARACTER_LIST_default S2C_EnterCharacter h;
  h ← register_s2c S2C_leave (mkSC_P_LEAVE 0) S2C_Leave h;
  h ← register_s2c S2C_move (mkSC_P_MOVE 0 0 0) S2C_Move h;
  h ← register_s2c S2C_interaction (mkSC_P_INTERACTION 0 0 0) S2C_Interaction h;
  h ← register_s2c S2C_heartbeat mkSC_P_HEARTBEAT S2C_Heartbeat h;
  register_s2c S2C_echo SC_P_ECHO_default S2C_Echo h.

Definition cli_MessageProcess (self : Z) (pData : list Z) (nLen : Z) : cli Z := λ w,
  if u64 nLen <? sizeof_PacketHead then Ok (-1, w)
  else
    '(b, w') ← execute_message cli_RegisterPacketHandlers self pData w;
    Ok (if (b : bool) then 1 else 0, w').

(** ** The threads *)
Definition cli_Disconnect (c : option Z) : cli unit := _ ← cli_net (Network_Disconnect c); mret tt.
(** [_commandQueue.Tick()]: the commands only print. *)
Definition cli_Tick : cli unit := st_modify (set_cw_cmds []).
Definition cli_add (c : cli_command) : cli unit := st_modify (λ w, set_cw_cmds (cw_cmds w ++ [c]) w).

(** One iteration of [App::ProcessThread]; as for the server. *)
Definition cli_ProcessThread_step (pConnector : option Z) : cli (option (option Z)) :=
  r ← cli_net pop_packet;
  match r with
  | None => mret None
  | Some None => mret (Some pConnector)
  | Some (Some pPacket) =>
      pk ← cli_net (load_packet pPacket);
      let buffer := _pBuffer (ps_base pk) in
      ok ← st_lift (tail_valid buffer);
      _ ← (if negb ok then cli_Disconnect pConnector else mret tt);
      match _pConnector pk with
      | None => _ ← cli_net (release_packet pPacket); mret (Some None)
      | Some c =>
          k ← cli_net (conn_get c);
          _ ← match GetParam k with
              | Some pUserSession =>
                  _ ← cli_MessageProcess pUserSession buffer (i32 (_nDataSize (ps_base pk))); mret tt
              | None => mret tt
              end;
          _ ← cli_net (release_packet pPacket);
          _ ← cli_Tick;
          mret (Some (Some c))
      end
  end.

(** [UserSessionMgr::GetFreeObject]: the pool constructs what it allocates. *)
Definition construct_sessions (objs : list Z) (w : CliWorld) : CliWorld :=
  foldl (λ w p, match cw_sessions w !! p with
    | Some _ => w
    | None => set_cw_sessions (<[p := CliSession_new 0]> (cw_sessions w)) w
    end) w objs.
Definition UserSessionMgr_maxCount : Z := 1.
Definition cli_session_GetFreeObject : cli (option Z) := λ w,
  let '(p, m) := ObjectPoolMgrBase_GetFreeObject (cw_smgr w) in
  Ok (p, construct_sessions (pm_poolList m) (set_cw_smgr m w)).

Context (clientConfig : ClientConfig).

(** The random step of /move: [(rand() % 10) * (rand() % 2 == 0 ? 1 : -1)]. *)
Definition random_step : cli Z :=
  a ← cli_net (sys sys_rand);
  b ← cli_net (sys sys_rand);
  mret (Z.rem a 10 * (if Z.rem b 2 =? 0 then 1 else -1)).
Fixpoint echo_loop (count : nat) (pSession : option Z) : cli unit :=
  match count with
  | O => mret tt
  | S count' =>
      _ ← match pSession with Some s => _ ← ReqEcho s; mret tt | None => mret tt end;
      echo_loop count' pSession
  end.
(** [gets_s(cmd, 1024)]: a longer line is an invalid parameter. *)
Definition gets_s (line : list Z) (size : Z) : outcome (list Z) :=
  if size <=? zlen line then Fault InvalidParameter else Ok (c_string line).

Record cmd_locals := mkCmdLocals { l_pConnector : option Z; l_pSession : option Z }.

Definition do_connect (l : cmd_locals) : cli cmd_locals :=
  match l_pConnector l with
  | Some _ => mret l
  | None =>
      r ← cli_net (Connect_s (si_ip (serverInfo clientConfig)) (si_port (serverInfo clientConfig)));
      match r with
      | None => mret (mkCmdLocals None (l_pSession l))
      | Some c =>
          p ← cli_session_GetFreeObject;
          match p with
          | Some s =>
              _ ← cli_net (conn_mod c (SetParam (Some s)));
              _ ← cs_mod s (cli_SetConnector (Some c));
              mret (mkCmdLocals (Some c) (Some s))
          | None =>
              _ ← cli_Disconnect (Some c);
              mret (mkCmdLocals (Some c) None)
          end
      end
  end.
Definition do_move (l : cmd_locals) : cli unit :=
  ch ← GetPlayerCharacter;
  c ← ch_get ch;
  let '(x, y) := GetPos c in
  dx ← random_step;
  dy ← random_step;
  deref (l_pSession l) (λ s, _ ← ReqMove s (i32 (x + dx)) (i32 (y + dy)); mret tt).

(** [App::Stop]. *)
Definition cli_App_Stop (cfg : NetworkConfig) : cli bool :=
  _ ← cli_net (Network_Stop cfg);
  _ ← cli_net (st_modify (λ w, set_nw_recvq (ForceActivateQueueEvent (nw_recvq w)) w));
  mret true.

(** One iteration of [App::CommandThread] on an input line; [None] leaves the
    loop. *)
Definition CommandThread_step (cfg : NetworkConfig) (line : list Z) (l : cmd_locals) : cli (option cmd_locals) :=
  cmdStr ← st_lift (gets_s line 1024);
  if zlen cmdStr <=? 0 then mret (Some l)
  else
    cmdTokens ← st_lift (TokenizeA (str " ") cmdStr []);
    t ← st_lift (aget cmdTokens 0);
    if matches t (str "/connect") then l' ← do_connect l; mret (Some l')
    else if matches t (str "/disconnect") then
      match l_pConnector l with
      | Some c => _ ← cli_Disconnect (Some c); mret (Some (mkCmdLocals None (l_pSession l)))
      | None => mret (Some l)
      end
    else if matches t (str "/auth") then
      match l_pSession l with Some s => _ ← ReqAuth s; mret (Some l) | None => mret (Some l) end
    else if matches t (str "/enter") then
      deref (l_pSession l) (λ s, _ ← ReqEnter s; mret (Some l))
    else if matches t (str "/leave") then mret (Some l)
    else if matches t (str "/move") then _ ← do_move l; mret (Some l)
    else if matches t (str "/send") then
      match l_pSession l with Some s => _ ← ReqEcho s; mret (Some l) | None => mret (Some l) end
    else if matches t (str "/sendLoop") then
      loopCount ← (if 2 <=? zlen cmdTokens then a ← st_lift (aget cmdTokens 1); mret (atoi a) else mret 5);
      _ ← echo_loop (Z.to_nat (if 1 >? loopCount then 1 else loopCount)) (l_pSession l);
      mret (Some l)
    else if matches t (str "/exit") then _ ← cli_App_Stop cfg; mret None
    else
      _ ← cli_add TestCommand;
      _ ← cli_add DynamicCommand;
      mret (Some l).

Inductive cli_thread : Set := Cli_Process_Thread | Cli_Command_Thread.
Definition cli_App_Init (cfg : NetworkConfig) : cli (bool * list net_thread * list cli_thread) :=
  '(ok, threads) ← cli_net (Network_Initialize cfg);
  mret (if (ok : bool) then (true, threads, [Cli_Process_Thread; Cli_Command_Thread]) else (false, threads, [])).
End CliDispatch.
