(* ===== verification/Main.v ===== *)
(** * Start of the programs: svr/main.cpp and cli/main.cpp
    Option, configuration file, network: what happens before the threads run.
    [open] gives the content of the files that can be opened. *)
From Stdlib Require Import String.
From S2P Require Import Prelude Buffer Wire Character Protocol Packet ObjectPool CommandQueue.
From S2P Require Import PacketQueue TimeSet Text Config System Connector Network SvrState Session Server Client.
#[local] Open Scope string_scope.
#[local] Open Scope list_scope.
#[local] Open Scope Z_scope.

Section Main.
Context `{OS} `{RapidJson}.
Context (open : list Z → option (list Z)).

(** [main] of the server up to [app.Start()]; [None] is the result 1. *)
Definition svr_main (args : list (list Z)) : svr (option (ServerConfig * list net_thread * list app_thread)) :=
  let configPath := config_option args (str "config_svr.json") in
  let '(doc, ok) := LoadConfig (open configPath) rj_null in
  if negb ok then mret None
  else
    '(sc, ok) ← st_lift (ServerConfig_SetConfig doc);
    if negb ok then mret None
    else
      cfg ← st_lift (NetworkConfig_SetConfig doc NetworkConfig_new);
      '(ok, net, app) ← App_Init cfg;
      mret (if (ok : bool) then Some (sc, net, app) else None).

(** [main] of the client up to [App::Start()]; when [Init] fails the program
    goes on to [Stop]. *)
Definition cli_main (args : list (list Z)) : cli (option (ClientConfig * bool * list net_thread * list cli_thread)) :=
  let configPath := config_option args (str "config_cli.json") in
  let '(doc, ok) := LoadConfig (open configPath) rj_null in
  if negb ok then mret None
  else
    '(cc, ok) ← st_lift (ClientConfig_SetConfig doc ClientConfig_new);
    if negb ok then mret None
    else
      cfg ← st_lift (NetworkConfig_SetConfig doc NetworkConfig_new);
      '(ok, net, app) ← cli_App_Init cfg;
      mret (Some (cc, ok, net, app)).

(** The document [main] reads, when it is one. *)
Definition document (path : list Z) : option Value :=
  json ← open path; let d := rj_parse (c_string json) in if IsObject d then Some d else None.
Lemma LoadConfig_document path :
  LoadConfig (open path) rj_null =
    match document path with
    | Some d => (d, true)
    | None => (match open path with Some json => rj_parse (c_string json) | None => rj_null end, false)
    end.
Proof. unfold LoadConfig, document. destruct (open path) as [json|]; [|done]. cbn. by destruct (IsObject _). Qed.

Lemma ServerConfig_SetConfig_ok d :
  IsObject d = true →
  ServerConfig_SetConfig d = Ok (mkServerConfig (find_int d (str "id") 0) (find_string d (str "name") []), true).
Proof. intros. unfold ServerConfig_SetConfig. by rewrite GetInt_ok, GetString_ok by done. Qed.
End Main.

(** Without a configuration file that holds an object the program ends before
    its first system call. *)
Lemma svr_main_no_config `{OS} `{RapidJson} open args w :
  document open (config_option args (str "config_svr.json")) = None → svr_main open args w = Ok (None, w).
Proof. intros E. unfold svr_main. by rewrite LoadConfig_document, E. Qed.

(** the server's start.  With a configuration file whose sections are in
    order, listening without AcceptEx, and when Winsock and the completion port
    are there, the program makes those two calls and starts the configured
    number of workers, the accept thread, the update thread and the two threads
    of the application. *)
Theorem svr_main_spec `{OS} `{RapidJson} open args w d :
  document open (config_option args (str "config_svr.json")) = Some d →
  forallb (section_ok d) sections = true → find_bool d (str "listener") false = true →
  find_bool d (str "listner_mode") true = true →
  os_call (nw_trace (sw_net w)) sys_WSAStartup = 0 →
  os_call (nw_trace (sw_net w) ++ [sys_WSAStartup]) (sys_CreateIoCompletionPort INVALID_SOCKET 0) ≠ 0 →
  ∃ n, svr_main open args w = Ok (Some (mkServerConfig (find_int d (str "id") 0) (find_string d (str "name") []),
         replicate (Z.to_nat (find_int d (str "network_thread") 2)) Worker_Thread ++ [Accept_Thread; Update_Thread],
         [Process_Thread; Update_App_Thread]), set_sw_net n w) ∧
    nw_trace n = nw_trace (sw_net w) ++ [sys_WSAStartup; sys_CreateIoCompletionPort INVALID_SOCKET 0].
Proof.
  intros Ed Hs Hl Hm Hw Hi. set (tr := nw_trace (sw_net w)) in *.
  unfold svr_main. rewrite LoadConfig_document, Ed. cbn [negb].
  assert (IsObject d = true) as Hd.
  { clear -Ed. unfold document in Ed. destruct (open _); [|done]. cbn in Ed. destruct (IsObject _) eqn:E; [|done]. congruence. }
  rewrite (st_bind_ok _ _ w (mkServerConfig (find_int d (str "id") 0) (find_string d (str "name") []), true) w)
    by (unfold st_lift; by rewrite ServerConfig_SetConfig_ok). cbv beta iota. cbn [negb].
  rewrite (st_bind_ok _ _ w (read_config d NetworkConfig_new) w)
    by (unfold st_lift; by rewrite NetworkConfig_SetConfig_eq, Hs). cbv beta.
  set (cfg := read_config d NetworkConfig_new).
  assert (doListen cfg = true ∧ useAcceptEx cfg = false ∧ workerThreadCount cfg = find_int d (str "network_thread") 2)
    as (E1 & E2 & E3) by (unfold cfg, read_config; cbn [doListen useAcceptEx workerThreadCount]; by rewrite Hl, Hm).
  assert (∃ n, Network_Initialize cfg (sw_net w) =
      Ok ((true, replicate (Z.to_nat (workerThreadCount cfg)) Worker_Thread ++ [Accept_Thread] ++ [Update_Thread]), n) ∧
    nw_trace n = tr ++ [sys_WSAStartup; sys_CreateIoCompletionPort INVALID_SOCKET 0]) as (n & E & Ht).
  { eexists. split.
    - unfold Network_Initialize. erewrite st_bind_ok by reflexivity. cbv beta. fold tr. rewrite Hw. change (negb (0 =? 0)) with false. cbv iota.
      erewrite st_bind_ok by reflexivity. cbv beta. erewrite st_bind_ok by reflexivity. cbv beta.
      cbn [nw_trace set_nw_trace]. fold tr. rewrite (proj2 (Z.eqb_neq 0 _)) by (intros E; by apply Hi). rewrite E1, E2.
      erewrite st_bind_ok by reflexivity. reflexivity.
    - cbn. by rewrite <-app_assoc. }
  exists n. split; [|done]. rewrite E3 in E.
  erewrite st_bind_ok.
  2:{ unfold App_Init. erewrite st_bind_ok by (unfold on_net, st_zoom; rewrite E; reflexivity). reflexivity. }
  reflexivity.
Qed.

(** ** Instances *)
#[local] Instance main_demo_json : RapidJson := {|
  Value := bool; rj_null := false; rj_parse := λ _, true; IsObject := λ v, v; IsInt := λ _, false; IsBool := λ v, negb v;
  IsString := λ _, false;
  rj_find := λ v key, if v then (if bool_decide (key = str "listener") then Some false else None) else None;
  GetInt_value := λ _, 0; GetBool_value := λ _, true; GetString_value := λ _, [] |}.
Lemma svr_main_spec_witness :
  ∃ n, svr_main (λ _, Some []) [] demo_svr = Ok (Some (mkServerConfig (find_int true (str "id") 0) (find_string true (str "name") []),
         replicate (Z.to_nat (find_int true (str "network_thread") 2)) Worker_Thread ++ [Accept_Thread; Update_Thread],
         [Process_Thread; Update_App_Thread]), set_sw_net n demo_svr) ∧
    nw_trace n = nw_trace (sw_net demo_svr) ++ [sys_WSAStartup; sys_CreateIoCompletionPort INVALID_SOCKET 0].
Proof.
  apply (svr_main_spec (λ _, Some []) [] demo_svr (true : @Value main_demo_json));
    first [reflexivity | discriminate].
Defined.
