(* ===== verification/Life.v ===== *)
(** * Start and stop of the programs' threads
    svr/process.cpp, cli/process.cpp (App::Init, Start, Stop and the loops of
    the threads), svr/main.cpp, cli/main.cpp, _framework/network.cpp
    (Network::Start, Stop and the loops of its threads).

    Each thread is the list of what it has still to do with what the threads
    share: the stop requests, the two [_threadSuspended], the listening socket,
    the event of the receive queue, and which threads have been joined.  What
    its loop does otherwise is the subject of other files. *)
From S2P Require Import Prelude.
From S2P Require Import Config.
From S2P Require Import System.
From S2P Require Import Network.

Inductive tid := Main | Process | Third | Net (i : nat).
#[export] Instance tid_eq_dec : EqDecision tid.
Proof. solve_decision. Defined.
(** The stop sources of [App] and of [Network]; their [_threadSuspended]. *)
Inductive part := OfApp | OfNetwork.
Inductive listen_socket := NotOpen | Open | Closed.

Record shared := mkShared {
  sh_stop : part → bool;           (** [_threadStop.request_stop()] was called *)
  sh_started : part → bool;        (** [_threadSuspended = 0] *)
  sh_listen : listen_socket;       (** [_ListenSock] *)
  sh_event : bool;                 (** [_hQueueEvent[0]] of the receive queue *)
  sh_packets : nat;                (** packets in that queue *)
  sh_joined : list tid;            (** threads that are not joinable any more *)
  sh_terminated : bool }.          (** [std::terminate] *)
Definition upd {A B} `{EqDecision A} (f : A → B) (a : A) (b : B) : A → B := λ x, if decide (x = a) then b else f x.
#[export] Instance part_eq_dec : EqDecision part.
Proof. solve_decision. Defined.

(** What a loop waits for in its body. *)
Inductive blocker :=
| Timer        (** a sleep, or GetQueuedCompletionStatus with its timeout *)
| Accepting    (** WSAAccept *)
| Popping      (** RecvPacketQueue::Pop, before its first look *)
| Waiting      (** ... and in WaitForSingleObject *)
| Console.     (** a line of input *)
Inductive instr :=
| Request_stop (x : part)
| Start (x : part)               (** [_threadSuspended = 0; notify_all()] *)
| Wait_start (x : part)          (** [_threadSuspended.wait(1)] *)
| Open_listen | Close_listen
| Activate_queue                 (** ForceActivateQueueEvent *)
| Join (t : tid)
| Loop (x : option part) (b : blocker)   (** [while (!token.stop_requested())], or [while (1)] *)
| Blocked (b : blocker).                 (** in the body of the loop that follows *)

Record life := mkLife { l_shared : shared; l_code : tid → list instr }.
Definition set_shared (f : shared → shared) (t : tid) (rest : list instr) (s : life) : life :=
  mkLife (f (l_shared s)) (upd (l_code s) t rest).
Definition sh_request (x : part) (h : shared) : shared :=
  mkShared (upd (sh_stop h) x true) (sh_started h) (sh_listen h) (sh_event h) (sh_packets h) (sh_joined h) (sh_terminated h).
Definition sh_start (x : part) (h : shared) : shared :=
  mkShared (sh_stop h) (upd (sh_started h) x true) (sh_listen h) (sh_event h) (sh_packets h) (sh_joined h) (sh_terminated h).
Definition sh_set_listen (l : listen_socket) (h : shared) : shared :=
  mkShared (sh_stop h) (sh_started h) l (sh_event h) (sh_packets h) (sh_joined h) (sh_terminated h).
Definition sh_close (h : shared) : shared := match sh_listen h with Open => sh_set_listen Closed h | _ => h end.
Definition sh_queue (event : bool) (packets : nat) (h : shared) : shared :=
  mkShared (sh_stop h) (sh_started h) (sh_listen h) event packets (sh_joined h) (sh_terminated h).
(** [t.join()] once the thread has ended: one that is not joinable any more
    throws, which nothing catches. *)
Definition sh_join (t : tid) (h : shared) : shared :=
  if bool_decide (t ∈ sh_joined h)
  then mkShared (sh_stop h) (sh_started h) (sh_listen h) (sh_event h) (sh_packets h) (sh_joined h) true
  else mkShared (sh_stop h) (sh_started h) (sh_listen h) (sh_event h) (sh_packets h) (t :: sh_joined h) (sh_terminated h).

(** ** One step of a thread; [None] while it is blocked, or when it has ended *)
Definition run_blocked (b : blocker) (t : tid) (rest : list instr) (s : life) : option life :=
  let h := l_shared s in
  match b with
  | Timer => Some (set_shared id t rest s)
  | Accepting => match sh_listen h with Closed => Some (set_shared id t rest s) | _ => None end
  | Popping =>
      match sh_packets h with
      | S n => Some (set_shared (sh_queue (sh_event h) n) t rest s)
      | O => Some (set_shared id t (Blocked Waiting :: rest) s)
      end
  | Waiting => if sh_event h then Some (set_shared (sh_queue false (pred (sh_packets h))) t rest s) else None
  | Console => None
  end.
Definition run_instr (i : instr) (t : tid) (rest : list instr) (s : life) : option life :=
  let h := l_shared s in
  match i with
  | Request_stop x => Some (set_shared (sh_request x) t rest s)
  | Start x => Some (set_shared (sh_start x) t rest s)
  | Wait_start x => if sh_started h x then Some (set_shared id t rest s) else None
  | Open_listen => Some (set_shared (sh_set_listen Open) t rest s)
  | Close_listen => Some (set_shared sh_close t rest s)
  | Activate_queue => Some (set_shared (sh_queue true (sh_packets h)) t rest s)
  | Join u => match l_code s u with [] => Some (set_shared (sh_join u) t rest s) | _ :: _ => None end
  | Loop x b =>
      if match x with Some x => sh_stop h x | None => false end
      then Some (set_shared id t rest s)
      else Some (set_shared id t (Blocked b :: Loop x b :: rest) s)
  | Blocked b => run_blocked b t rest s
  end.

(** What can happen: a thread runs; a worker pushes a packet; a connection is
    accepted; the accept thread cannot set its socket up; a line is typed, or
    the line [/exit]. *)
Inductive event := Run (t : tid) | Packet | Connection (i : nat) | Setup_fails (i : nat) | Line (t : tid) | Exit (t : tid).
Section Machine.
(** What [/exit] does before it leaves the loop. *)
Context (on_exit : list instr).
Definition exec_event (e : event) (s : life) : option life :=
  match e with
  | Run t => match l_code s t with [] => None | i :: rest => run_instr i t rest s end
  | Packet => Some (mkLife (sh_queue true (S (sh_packets (l_shared s))) (l_shared s)) (l_code s))
  | Connection i =>
      match l_code s (Net i), sh_listen (l_shared s) with
      | Blocked Accepting :: rest, Open => Some (set_shared id (Net i) rest s)
      | _, _ => None
      end
  | Setup_fails i =>
      match l_code s (Net i) with Open_listen :: _ => Some (set_shared id (Net i) [] s) | _ => None end
  | Line t =>
      match l_code s t with Blocked Console :: rest => Some (set_shared id t rest s) | _ => None end
  | Exit t =>
      match l_code s t with
      | Blocked Console :: Loop _ _ :: rest => Some (set_shared id t (on_exit ++ rest) s)
      | _ => None
      end
  end.
Definition exec (s : life) (e : event) : option life :=
  if sh_terminated (l_shared s) then None else exec_event e s.
(** A schedule; events that are not possible are skipped. *)
Fixpoint schedule (s : life) (es : list event) : life :=
  match es with [] => s | e :: es => schedule (default s (exec s e)) es end.
End Machine.

(** ** The programs *)
Definition net_code (k : net_thread) : list instr :=
  match k with
  | Worker_Thread => [Wait_start OfNetwork; Loop (Some OfNetwork) Timer]
  | Accept_Thread => [Wait_start OfNetwork; Open_listen; Loop (Some OfNetwork) Accepting]
  | Update_Thread => [Wait_start OfNetwork; Loop (Some OfNetwork) Timer]
  end.
(** [Network::Stop] with [n] threads. *)
Definition joins (n : nat) : list instr := (λ i, Join (Net i)) <$> seq 0 n.
Definition stop_code (n : nat) : list instr := Request_stop OfNetwork :: Close_listen :: joins n.
Definition start_life (main process third : list instr) (threads : list net_thread) : life :=
  mkLife (mkShared (λ _, false) (λ _, false) NotOpen false 0 [] false) (λ t,
    match t with
    | Main => main
    | Process => process
    | Third => third
    | Net i => match threads !! i with Some k => net_code k | None => [] end
    end).
Section Programs.
Context (threads : list net_thread).
Notation n := (length threads).
(** The server's [App::ProcessThread], [App::UpdateThread] and [App::Stop], and
    its [main] behind [App::Init]. *)
Definition svr_process_thread : list instr := [Wait_start OfApp; Start OfNetwork; Loop (Some OfApp) Popping] ++ stop_code n.
Definition svr_update_thread : list instr := [Wait_start OfApp; Loop (Some OfApp) Timer].
Definition svr_stop : list instr := Request_stop OfApp :: stop_code n ++ [Activate_queue; Join Process; Join Third].
Definition svr_main_thread : list instr := Start OfApp :: Loop None Console :: svr_stop.
Definition svr_life : life := start_life svr_main_thread svr_process_thread svr_update_thread threads.
(** The client's threads; its [App::Start] joins them. *)
Definition cli_process_thread : list instr := [Wait_start OfApp; Start OfNetwork; Loop (Some OfApp) Popping].
Definition cli_command_thread : list instr := [Wait_start OfApp; Loop (Some OfApp) Console].
Definition cli_start : list instr := [Start OfApp; Join Process; Join Third].
Definition cli_stop : list instr := Request_stop OfApp :: stop_code n ++ [Activate_queue].
Definition cli_life : life := start_life (cli_start ++ cli_stop) cli_process_thread cli_command_thread threads.
End Programs.

(** ** Network::Stop and the threads of the network
    How far a thread is with its [Network::Stop]: not there yet, in it, or
    behind it. *)
Inductive stop_phase := Requesting | Closing | Joining (j : nat).
Inductive stop_status := NotYet | Stopping (p : stop_phase) | Behind.
Definition stop_at (n : nat) (p : stop_phase) : list instr :=
  match p with
  | Requesting => stop_code n
  | Closing => Close_listen :: joins n
  | Joining j => drop j (joins n)
  end.
Definition requested (a : stop_status) : bool := match a with NotYet | Stopping Requesting => false | _ => true end.
Definition at_close (a : stop_status) : bool := match a with Stopping Closing => true | _ => false end.
(** It has joined the first thread of the network. *)
Definition joined_first (a : stop_status) : bool :=
  match a with Stopping (Joining (S _)) | Behind => true | _ => false end.
Definition next_phase (p : stop_phase) : stop_phase :=
  match p with Requesting => Closing | Closing => Joining 0 | Joining j => Joining (S j) end.

Definition net_codes (k : net_thread) : list (list instr) :=
  match k with
  | Worker_Thread | Update_Thread =>
      [net_code k; [Loop (Some OfNetwork) Timer]; [Blocked Timer; Loop (Some OfNetwork) Timer]; []]
  | Accept_Thread =>
      [net_code k; [Open_listen; Loop (Some OfNetwork) Accepting]; [Loop (Some OfNetwork) Accepting];
       [Blocked Accepting; Loop (Some OfNetwork) Accepting]; []]
  end.

Lemma upd_eq {A B} `{EqDecision A} (f : A → B) a b : upd f a b a = b.
Proof. unfold upd. by rewrite decide_True. Qed.
Lemma upd_ne {A B} `{EqDecision A} (f : A → B) a b x : x ≠ a → upd f a b x = f x.
Proof. intros. unfold upd. by rewrite decide_False. Qed.

Lemma sh_join_stop t h : sh_stop (sh_join t h) = sh_stop h.
Proof. unfold sh_join. by case_bool_decide. Qed.

Section Network.
Context (threads : list net_thread).
Notation n := (length threads).
Definition one_accept : Prop := ∀ i j, threads !! i = Some Accept_Thread → threads !! j = Some Accept_Thread → i = j.

(** What holds of the network's threads while two threads, [a] and [b], may
    stop the network. *)
Record net_inv (h : shared) (c : tid → list instr) (a b : stop_status) : Prop := mkNetInv {
  ni_stop : sh_stop h OfNetwork = requested a || requested b;
  ni_open : ∀ i, c (Net i) ∈ [[Loop (Some OfNetwork) Accepting]; [Blocked Accepting; Loop (Some OfNetwork) Accepting]] →
    sh_listen h ≠ NotOpen;
  ni_accept : ∀ i, c (Net i) = [Blocked Accepting; Loop (Some OfNetwork) Accepting] →
    sh_stop h OfNetwork = true → sh_listen h = Closed ∨ at_close a || at_close b = true;
  ni_joined : Net 0 ∈ sh_joined h ↔ joined_first a || joined_first b = true;
  ni_once : joined_first a && joined_first b = false;
  ni_codes : ∀ i, c (Net i) ∈ match threads !! i with Some k => net_codes k | None => [[]] end }.

Lemma net_inv_swap h c a b : net_inv h c a b → net_inv h c b a.
Proof.
  intros [H1 H2 H2' H3 H4 H5]. split; [by rewrite orb_comm|done|intros i E; rewrite orb_comm; by eapply H2'|by rewrite orb_comm|
    by rewrite andb_comm|done].
Qed.
(** A step that is none of the network's business. *)
Lemma net_inv_other h c h' c' a b :
  net_inv h c a b → (∀ i, c' (Net i) = c (Net i)) → sh_stop h' OfNetwork = sh_stop h OfNetwork →
  sh_listen h' = sh_listen h → (Net 0 ∈ sh_joined h' ↔ Net 0 ∈ sh_joined h) → net_inv h' c' a b.
Proof.
  intros [H1 H2 H2' H3 H4 H5] Hc Hs Hl Hj. split; rewrite ?Hs, ?Hl, ?Hj; try done.
  - intros i. rewrite Hc. apply H2.
  - intros i. rewrite Hc. apply H2'.
  - intros i. rewrite Hc. apply H5.
Qed.
Lemma net_inv_enter h c b : net_inv h c NotYet b → net_inv h c (Stopping Requesting) b.
Proof. intros [H1 H2 H2' H3 H4 H5]. by split. Qed.
Lemma net_inv_behind h c j b : net_inv h c (Stopping (Joining (S j))) b → net_inv h c Behind b.
Proof. intros [H1 H2 H2' H3 H4 H5]. by split. Qed.

(** [a] goes on in its Network::Stop. *)
Lemma net_inv_request h c b c' : net_inv h c (Stopping Requesting) b → (∀ i, c' (Net i) = c (Net i)) →
  net_inv (sh_request OfNetwork h) c' (Stopping Closing) b.
Proof.
  intros [H1 H2 H2' H3 H4 H5] Hc. split; cbn; try done.
  - intros i. rewrite Hc. apply H2.
  - intros i. by right.
  - intros i. rewrite Hc. apply H5.
Qed.
Lemma net_inv_close h c b c' : net_inv h c (Stopping Closing) b → (∀ i, c' (Net i) = c (Net i)) →
  net_inv (sh_close h) c' (Stopping (Joining 0)) b.
Proof.
  intros [H1 H2 H2' H3 H4 H5] Hc.
  assert (sh_stop (sh_close h) = sh_stop h ∧ sh_joined (sh_close h) = sh_joined h ∧
    (sh_listen h ≠ NotOpen → sh_listen (sh_close h) = Closed)) as (Es & Ej & El).
  { unfold sh_close. by destruct (sh_listen h) eqn:E; rewrite ?E. }
  split; rewrite ?Es, ?Ej; try done.
  - intros i. rewrite Hc. intros Hi%H2. by rewrite El.
  - intros i. rewrite Hc. intros Hi _. left. apply El, (H2 i). rewrite Hi. set_solver.
  - intros i. rewrite Hc. apply H5.
Qed.
Lemma net_inv_join h c j b c' : net_inv h c (Stopping (Joining j)) b → (∀ i, c' (Net i) = c (Net i)) →
  sh_terminated (sh_join (Net j) h) = false → net_inv (sh_join (Net j) h) c' (Stopping (Joining (S j))) b.
Proof.
  intros [H1 H2 H2' H3 H4 H5] Hc. unfold sh_join. case_bool_decide as Hin; [done|]. intros _. split; cbn; try done.
  - intros i. rewrite Hc. apply H2.
  - intros i. rewrite Hc. apply H2'.
  - rewrite elem_of_cons, H3. destruct j as [|j]; cbn; naive_solver.
  - destruct j as [|j]; [|done]. rewrite H3 in Hin. cbn in Hin. by destruct (joined_first b).
  - intros i. rewrite Hc. apply H5.
Qed.
Lemma stop_at_join j : (j < n)%nat → stop_at n (Joining j) = Join (Net j) :: stop_at n (Joining (S j)).
Proof. intros Hj. cbn. apply drop_S. unfold joins. by rewrite list_lookup_fmap, lookup_seq_lt. Qed.
Lemma stop_at_done j : (n ≤ j)%nat → stop_at n (Joining j) = [].
Proof. intros Hj. cbn. apply drop_ge. unfold joins. rewrite length_fmap, length_seq. lia. Qed.
Lemma stop_at_nil p : stop_at n p = [] → ∃ j, p = Joining j ∧ (n ≤ j)%nat.
Proof.
  destruct p as [| |j]; [done..|]. intros E. exists j. split; [done|]. destruct (decide (j < n)%nat) as [Hj|]; [|lia].
  by rewrite stop_at_join in E.
Qed.

Lemma stop_at_head p b rest : stop_at n p ≠ Blocked b :: rest.
Proof.
  destruct p as [| |j]; [done..|]. destruct (decide (j < n)%nat) as [Hj|]; [by rewrite stop_at_join|by rewrite stop_at_done by lia].
Qed.
Lemma stop_at_no_loop p x b rest : stop_at n p ≠ Loop x b :: rest.
Proof.
  destruct p as [| |j]; [done..|]. destruct (decide (j < n)%nat) as [Hj|]; [by rewrite stop_at_join|by rewrite stop_at_done by lia].
Qed.
(** A thread of the network goes on. *)
Lemma net_inv_code h c a b i rest l : one_accept → net_inv h c a b →
  rest ∈ match threads !! i with Some k => net_codes k | None => [[]] end →
  (l = sh_listen h ∨ l = Open ∧ threads !! i = Some Accept_Thread) →
  (rest ∈ [[Loop (Some OfNetwork) Accepting]; [Blocked Accepting; Loop (Some OfNetwork) Accepting]] → l ≠ NotOpen) →
  (rest = [Blocked Accepting; Loop (Some OfNetwork) Accepting] → sh_stop h OfNetwork = false) →
  net_inv (sh_set_listen l h) (upd c (Net i) rest) a b.
Proof.
  intros Hone [H1 H2 H2' H3 H4 H5] Hr Hl Ho Hb. split; cbn; try done.
  - intros i'. destruct (decide (i' = i)) as [->|Hne]; [rewrite upd_eq; apply Ho|rewrite upd_ne by congruence].
    destruct Hl as [-> |[-> _]]; [apply H2|done].
  - intros i'. destruct (decide (i' = i)) as [->|Hne].
    + rewrite upd_eq. intros Hr'%Hb. congruence.
    + rewrite upd_ne by congruence. intros Hi. destruct Hl as [-> |[-> Ha]]; [by apply (H2' i')|]. exfalso. apply Hne, Hone; [|done].
      specialize (H5 i'). rewrite Hi in H5. destruct (threads !! i') as [[]|]; cbn in H5; set_solver.
  - intros i'. destruct (decide (i' = i)) as [->|Hne]; [by rewrite upd_eq|by rewrite upd_ne by congruence].
Qed.
Lemma sh_set_listen_same h : sh_set_listen (sh_listen h) h = h.
Proof. by destruct h. Qed.
Definition net_event (e : event) (i : nat) : Prop := e ∈ [Run (Net i); Connection i; Setup_fails i].
Lemma net_step on_exit s i a b e s' : one_accept → net_event e i →
  net_inv (l_shared s) (l_code s) a b → exec_event on_exit e s = Some s' →
  ∃ l rest, s' = mkLife (sh_set_listen l (l_shared s)) (upd (l_code s) (Net i) rest) ∧ net_inv (l_shared s') (l_code s') a b.
Proof.
  intros Hone He Hinv E.
  assert (∃ l rest, s' = mkLife (sh_set_listen l (l_shared s)) (upd (l_code s) (Net i) rest) ∧
    rest ∈ match threads !! i with Some k => net_codes k | None => [[]] end ∧
    (l = sh_listen (l_shared s) ∨ l = Open ∧ threads !! i = Some Accept_Thread) ∧
    (rest ∈ [[Loop (Some OfNetwork) Accepting]; [Blocked Accepting; Loop (Some OfNetwork) Accepting]] → l ≠ NotOpen) ∧
    (rest = [Blocked Accepting; Loop (Some OfNetwork) Accepting] → sh_stop (l_shared s) OfNetwork = false))
    as (l & rest & -> & Hr & Hl & Ho & Hb).
  { pose proof (ni_codes _ _ _ _ Hinv i) as Hi. pose proof (ni_open _ _ _ _ Hinv i) as Hop.
    destruct (threads !! i) as [k|] eqn:Ek.
    2:{ apply list_elem_of_singleton in Hi. unfold net_event in He. rewrite ?elem_of_cons, elem_of_nil in He.
        destruct He as [-> |[-> |[-> |[]]]]; unfold exec_event in E; by rewrite Hi in E. }
    assert (∀ rest l, s' = mkLife (sh_set_listen l (l_shared s)) (upd (l_code s) (Net i) rest) →
      l = sh_listen (l_shared s) ∨ l = Open ∧ k = Accept_Thread → rest ∈ net_codes k →
      (rest ∈ [[Loop (Some OfNetwork) Accepting]; [Blocked Accepting; Loop (Some OfNetwork) Accepting]] → l ≠ NotOpen) →
      (rest = [Blocked Accepting; Loop (Some OfNetwork) Accepting] → sh_stop (l_shared s) OfNetwork = false) →
      ∃ l rest, s' = mkLife (sh_set_listen l (l_shared s)) (upd (l_code s) (Net i) rest) ∧ rest ∈ net_codes k ∧
      (l = sh_listen (l_shared s) ∨ l = Open ∧ Some k = Some Accept_Thread) ∧
      (rest ∈ [[Loop (Some OfNetwork) Accepting]; [Blocked Accepting; Loop (Some OfNetwork) Accepting]] → l ≠ NotOpen) ∧
      (rest = [Blocked Accepting; Loop (Some OfNetwork) Accepting] → sh_stop (l_shared s) OfNetwork = false)) as Hgo.
    { intros rest l H1 H2 H3 H4 H5. exists l, rest. split_and!; try done. destruct H2 as [|[? ->]]; auto. }
    unfold net_event in He. rewrite ?elem_of_cons, elem_of_nil in He.
    destruct k; cbn [net_codes net_code] in Hi; rewrite ?elem_of_cons, elem_of_nil in Hi.
    all: destruct He as [-> |[-> |[-> |[]]]]; unfold exec_event in E; destruct_or? Hi; try done; rewrite Hi in E; cbn in E; try done.
    all: try (destruct (sh_listen (l_shared s)) eqn:El; try done).
    all: try (destruct (sh_stop (l_shared s) OfNetwork) eqn:Es; try done).
    all: try (destruct (sh_started (l_shared s) OfNetwork) eqn:Et; try done).
    all: injection E as <-; unfold set_shared; cbn [id].
    all: first [eapply (Hgo _ (sh_listen (l_shared s))); [rewrite sh_set_listen_same; reflexivity|by left|..]
               |eapply (Hgo _ Open); [reflexivity|by right|..]].
    all: rewrite ?El; try done; try (intros; set_solver).
    all: rewrite ?elem_of_cons; naive_solver. }
  exists l, rest. split; [done|]. by apply net_inv_code.
Qed.
Lemma net_progress on_exit s i a b : net_inv (l_shared s) (l_code s) a b → sh_started (l_shared s) OfNetwork = true →
  sh_stop (l_shared s) OfNetwork = true → at_close a || at_close b = false → l_code s (Net i) ≠ [] →
  is_Some (exec_event on_exit (Run (Net i)) s).
Proof.
  intros Hinv Hst Hs Hcl Hne. pose proof (ni_codes _ _ _ _ Hinv i) as Hi. pose proof (ni_accept _ _ _ _ Hinv i) as Ha.
  destruct (threads !! i) as [k|]; [|by apply list_elem_of_singleton in Hi].
  unfold exec_event. destruct k; cbn [net_codes net_code] in Hi; rewrite ?elem_of_cons, elem_of_nil in Hi.
  all: destruct_or? Hi; try done; rewrite Hi; cbn; rewrite ?Hst, ?Hs; try by eexists.
  destruct (Ha Hi Hs) as [-> |?]; [by eexists|congruence].
Qed.
End Network.

(** ** How long threads go on once they are to stop *)
Definition instr_weight (i : instr) : nat := match i with Blocked Popping => 2 | _ => 1 end.
Definition weight (c : list instr) : nat := sum_list (instr_weight <$> c).
Definition stopping (s : life) : Prop := sh_stop (l_shared s) OfApp = true ∧ sh_stop (l_shared s) OfNetwork = true.
(** No thread is at a loop that nothing ends, nor at the console. *)
Definition ending (c : list instr) : bool :=
  match c with Loop None _ :: _ | Blocked Console :: _ => false | _ => true end.
Definition runs (t : tid) (e : event) : nat := match e with Run u => if decide (t = u) then 1 else 0 | _ => 0 end.
(** The steps thread [t] takes in a schedule. *)
Fixpoint steps_of (on_exit : list instr) (t : tid) (s : life) (es : list event) : nat :=
  match es with
  | [] => 0
  | e :: es =>
      match exec on_exit s e with
      | Some s' => runs t e + steps_of on_exit t s' es
      | None => steps_of on_exit t s es
      end
  end.
Lemma weight_cons i c : weight (i :: c) = (instr_weight i + weight c)%nat.
Proof. done. Qed.
Lemma instr_weight_pos i : (0 < instr_weight i)%nat.
Proof. destruct i as [| | | | | | | |[]]; cbn; lia. Qed.
Lemma run_lighter on_exit s t s' : stopping s → ending (l_code s t) = true → exec_event on_exit (Run t) s = Some s' →
  (weight (l_code s' t) < weight (l_code s t))%nat ∧ ∀ u, u ≠ t → l_code s' u = l_code s u.
Proof.
  intros [Ha Hn] He E. cbn in E. destruct (l_code s t) as [|i c]; [done|]. rewrite weight_cons.
  pose proof (instr_weight_pos i) as Hi.
  assert (∀ f rest, s' = set_shared f t rest s → (weight rest < instr_weight i + weight c)%nat →
    (weight (l_code s' t) < instr_weight i + weight c)%nat ∧ ∀ u, u ≠ t → l_code s' u = l_code s u) as Hgo.
  { intros f rest -> Hw. cbn. rewrite upd_eq. split; [done|]. intros u Hu. by rewrite upd_ne. }
  destruct i as [x|x|x| | | |v|x b|b]; cbn [run_instr] in E.
  - injection E as <-. eapply Hgo; [reflexivity|lia].
  - injection E as <-. eapply Hgo; [reflexivity|lia].
  - destruct (sh_started _ _); [|done]. injection E as <-. eapply Hgo; [reflexivity|lia].
  - injection E as <-. eapply Hgo; [reflexivity|lia].
  - injection E as <-. eapply Hgo; [reflexivity|lia].
  - injection E as <-. eapply Hgo; [reflexivity|lia].
  - destruct (l_code s v); [|done]. injection E as <-. eapply Hgo; [reflexivity|lia].
  - destruct x as [[]|]; [| |done]; rewrite ?Ha, ?Hn in E; injection E as <-; (eapply Hgo; [reflexivity|lia]).
  - destruct b; cbn in E; try case_match; simplify_eq; (eapply Hgo; [reflexivity|]); rewrite ?weight_cons; cbn [instr_weight]; lia.
Qed.
(** What else happens makes no thread's code longer. *)
Lemma event_lighter on_exit s e t s' : (∀ u, ending (l_code s u) = true) → stopping s → exec_event on_exit e s = Some s' →
  (weight (l_code s' t) + runs t e ≤ weight (l_code s t))%nat.
Proof.
  intros He Hs E. destruct e as [u| |i|i|u|u].
  - destruct (run_lighter on_exit s u s' Hs (He u) E) as [Hl Ho]. cbn [runs].
    destruct (decide (t = u)) as [->|Hne]; [lia|]. rewrite Ho by done. lia.
  - injection E as <-. cbn [l_code runs]. lia.
  - cbn in E. destruct (l_code s (Net i)) as [|[| | | | | | | |[]] c] eqn:Ec; try done. destruct (sh_listen _); try done. injection E as <-.
    cbn [set_shared l_code runs]. unfold upd. case_decide; [subst; rewrite Ec, weight_cons; change (weight []) with 0%nat; lia|lia].
  - cbn in E. destruct (l_code s (Net i)) as [|[] c] eqn:Ec; try done. injection E as <-.
    cbn [set_shared l_code runs]. unfold upd. case_decide; [subst; rewrite Ec, weight_cons; change (weight []) with 0%nat; lia|lia].
  - cbn in E. specialize (He u). destruct (l_code s u) as [|[| | | | | | | |[]] c] eqn:Ec; done.
  - cbn in E. specialize (He u). destruct (l_code s u) as [|[| | | | | | | |[]] c] eqn:Ec; done.
Qed.
Lemma exec_stop on_exit s e s' x : exec on_exit s e = Some s' → sh_stop (l_shared s) x = true → sh_stop (l_shared s') x = true.
Proof.
  intros E Hx. unfold exec in E. destruct (sh_terminated _); [done|].
  assert (∀ f t rest, (∀ h, sh_stop h x = true → sh_stop (f h) x = true) → set_shared f t rest s = s' → sh_stop (l_shared s') x = true) as Hgo.
  { intros f t rest Hf <-. cbn. by apply Hf. }
  destruct e as [t| |i|i|t|t]; cbn in E; repeat (case_match; try done); simplify_eq/=; try done.
  destruct i as [y|y|y| | | |v|y b|b]; cbn in E; repeat (case_match; try done); simplify_eq/=; try done.
  - unfold upd. by case_decide.
  - unfold sh_close. by case_match.
  - unfold sh_join. by case_bool_decide.
  - destruct b; cbn in E; repeat (case_match; try done); by simplify_eq/=.
Qed.
Lemma steps_bounded on_exit (I : life → Prop) :
  (∀ s e s', I s → exec on_exit s e = Some s' → I s') →
  (∀ s, I s → stopping s ∧ ∀ t, sh_terminated (l_shared s) = true ∨ ending (l_code s t) = true) →
  ∀ es s t, I s → (steps_of on_exit t s es ≤ weight (l_code s t))%nat.
Proof.
  intros Hstep Hend. induction es as [|e es IH]; intros s t Hs; cbn [steps_of]; [lia|].
  destruct (exec on_exit s e) as [s'|] eqn:E; [|by apply IH]. pose proof (IH s' t (Hstep _ _ _ Hs E)) as Hr.
  unfold exec in E. destruct (sh_terminated (l_shared s)) eqn:Et; [done|]. destruct (Hend s Hs) as [Hst He].
  assert (∀ u, ending (l_code s u) = true) as He' by (intros u; destruct (He u); [congruence|done]).
  pose proof (event_lighter on_exit s e t s' He' Hst E). lia.
Qed.

(** ** The server *)
Section Server.
Context (threads : list net_thread).
Notation n := (length threads).
Inductive main_phase := MGo | MLoop | MConsole | MAppStop | MNet (p : stop_phase) | MJoinP.
Inductive process_phase := PWait | PGo | PLoop | PPop | PWaiting | PNet (p : stop_phase).
Definition main_code (m : main_phase) : list instr :=
  match m with
  | MGo => Start OfApp :: Loop None Console :: svr_stop threads
  | MLoop => Loop None Console :: svr_stop threads
  | MConsole => Blocked Console :: Loop None Console :: svr_stop threads
  | MAppStop => svr_stop threads
  | MNet p => stop_at n p ++ [Activate_queue; Join Process; Join Third]
  | MJoinP => [Join Process; Join Third]
  end.
Definition process_code (p : process_phase) : list instr :=
  match p with
  | PWait => Wait_start OfApp :: Start OfNetwork :: Loop (Some OfApp) Popping :: stop_code n
  | PGo => Start OfNetwork :: Loop (Some OfApp) Popping :: stop_code n
  | PLoop => Loop (Some OfApp) Popping :: stop_code n
  | PPop => Blocked Popping :: Loop (Some OfApp) Popping :: stop_code n
  | PWaiting => Blocked Waiting :: Loop (Some OfApp) Popping :: stop_code n
  | PNet p => stop_at n p
  end.
Definition main_status (m : main_phase) : stop_status :=
  match m with MNet p => Stopping p | MJoinP => Behind | _ => NotYet end.
Definition process_status (p : process_phase) : stop_status := match p with PNet p => Stopping p | _ => NotYet end.
Definition third_codes : list (list instr) :=
  [[Wait_start OfApp; Loop (Some OfApp) Timer]; [Loop (Some OfApp) Timer]; [Blocked Timer; Loop (Some OfApp) Timer]; []].

Record svr_life_inv (s : life) (m : main_phase) (p : process_phase) : Prop := mkSvrInv {
  v_main : l_code s Main = main_code m;
  v_process : l_code s Process = process_code p;
  v_third : l_code s Third ∈ third_codes;
  v_net : net_inv threads (l_shared s) (l_code s) (main_status m) (process_status p);
  v_go : match m with MGo => True | _ => sh_started (l_shared s) OfApp = true end;
  v_netgo : match p with PWait | PGo => True | _ => sh_started (l_shared s) OfNetwork = true end;
  v_stop : sh_stop (l_shared s) OfApp = match m with MNet _ | MJoinP => true | _ => false end;
  v_pnet : match p with PNet _ => sh_stop (l_shared s) OfApp = true | _ => True end;
  v_event : match m, p with MJoinP, (PPop | PWaiting) => sh_event (l_shared s) = true | _, _ => True end;
  v_alive : sh_terminated (l_shared s) = false }.
(** [std::terminate], but not before the program was told to stop. *)
Definition ended (s : life) : Prop := sh_terminated (l_shared s) = true ∧ sh_stop (l_shared s) OfApp = true.
Definition svr_ok (s : life) : Prop := ended s ∨ ∃ m p, svr_life_inv s m p.

Lemma svr_life_ok : svr_life_inv (svr_life threads) MGo PWait.
Proof.
  split; try done; [set_solver|]. split; try done.
  - intros i Hi. cbn in Hi. destruct (threads !! i) as [[]|]; cbn in Hi; set_solver.
  - cbn. split; [by intros ?%elem_of_nil|done].
  - intros i. cbn. destruct (threads !! i) as [[]|]; cbn; set_solver.
Qed.
Ltac other_tac H := eapply (net_inv_other _ _ _ _ _ _ _ H); [by intros|done|done|done].
Lemma svr_main_step s m p s' : (0 < n)%nat → svr_life_inv s m p → exec_event [] (Run Main) s = Some s' → svr_ok s'.
Proof.
  intros Hn [Hm Hp Ht Hnet Hgo Hng Hst Hpn Hev Hal] E. unfold exec_event in E. rewrite Hm in E.
  destruct m as [| | | |q|]; cbn [main_code svr_stop] in E.
  - injection E as <-. right. exists MLoop, p. split; cbn; try done. other_tac Hnet.
  - injection E as <-. right. exists MConsole, p. split; cbn; try done. other_tac Hnet.
  - done.
  - injection E as <-. right. exists (MNet Requesting), p. split; cbn; try done; [|by destruct p].
    apply net_inv_enter. other_tac Hnet.
  - destruct q as [| |j].
    + injection E as <-. right. exists (MNet Closing), p. split; cbn; try done. by apply (net_inv_request _ _ (l_code s)).
    + injection E as <-. right. exists (MNet (Joining 0)), p. split; cbn; try done.
      all: try (unfold sh_close; by destruct (sh_listen _)).
      by apply (net_inv_close _ _ (l_code s)).
    + destruct (decide (j < n)%nat) as [Hj|Hj].
      * rewrite stop_at_join in E by done. cbn [app run_instr] in E. destruct (l_code s (Net j)); [|done]. injection E as <-.
        destruct (sh_terminated (sh_join (Net j) (l_shared s))) eqn:Eterm; [by left; split; cbn; rewrite ?sh_join_stop|]. right. exists (MNet (Joining (S j))), p.
        unfold set_shared in *. split; cbn; try done.
        all: try (unfold sh_join; by case_bool_decide).
        by apply (net_inv_join _ _ (l_code s)).
      * rewrite (stop_at_done threads j) in E by lia. cbn [app run_instr] in E. injection E as <-. right. exists MJoinP, p.
        split; cbn; try done; [|by destruct p]. destruct j as [|j]; [lia|]. eapply net_inv_behind. other_tac Hnet.
  - cbn [run_instr] in E. rewrite Hp in E. destruct (process_code p) eqn:Ep; [|done].
    destruct p as [| | | | |q]; try done. apply stop_at_nil in Ep as (j & -> & Hj). destruct j as [|j]; [lia|].
    exfalso. by pose proof (ni_once _ _ _ _ _ Hnet).
Qed.
Lemma svr_process_step s m p s' : (0 < n)%nat → svr_life_inv s m p → exec_event [] (Run Process) s = Some s' → svr_ok s'.
Proof.
  intros Hn [Hm Hp Ht Hnet Hgo Hng Hst Hpn Hev Hal] E. unfold exec_event in E. rewrite Hp in E.
  destruct p as [| | | | |q]; cbn [process_code] in E.
  - cbn in E. destruct (sh_started _ _) eqn:Et; [|done]. injection E as <-. right. exists m, PGo. split; cbn; try done; first [other_tac Hnet|by destruct m|by destruct m, p].
  - injection E as <-. right. exists m, PLoop. split; cbn; try done; first [other_tac Hnet|by destruct m|by destruct m, p].
  - cbn in E. destruct (sh_stop (l_shared s) OfApp) eqn:Es; injection E as <-; right.
    + exists m, (PNet Requesting). split; cbn; try done; first [apply net_inv_swap, net_inv_enter, net_inv_swap; other_tac Hnet|by destruct m].
    + exists m, PPop. split; cbn; try done; first [other_tac Hnet|by destruct m|by destruct m, p].
  - cbn in E. destruct (sh_packets (l_shared s)) eqn:Epk; injection E as <-; right.
    + exists m, PWaiting. split; cbn; try done. other_tac Hnet.
    + exists m, PLoop. split; cbn; try done; first [other_tac Hnet|by destruct m|by destruct m, p].
  - cbn in E. destruct (sh_event (l_shared s)) eqn:Eev; [|done]. injection E as <-. right. exists m, PLoop. split; cbn; try done; first [other_tac Hnet|by destruct m|by destruct m, p].
  - apply net_inv_swap in Hnet. destruct q as [| |j].
    + injection E as <-. right. exists m, (PNet Closing). split; cbn; try done; first [by apply net_inv_swap, (net_inv_request _ _ (l_code s))|by destruct m].
    + injection E as <-. right. exists m, (PNet (Joining 0)). split; cbn; try done.
      all: try (unfold sh_close; by destruct (sh_listen _), m).
      by apply net_inv_swap, (net_inv_close _ _ (l_code s)).
    + destruct (decide (j < n)%nat) as [Hj|Hj]; [|by rewrite (stop_at_done threads j) in E by lia].
      rewrite stop_at_join in E by done. cbn [app run_instr] in E. destruct (l_code s (Net j)); [|done]. injection E as <-.
      destruct (sh_terminated (sh_join (Net j) (l_shared s))) eqn:Eterm; [by left; split; cbn; rewrite ?sh_join_stop|]. right. exists m, (PNet (Joining (S j))).
      unfold set_shared in *. split; cbn; try done.
      all: try (unfold sh_join; by case_bool_decide; destruct m).
      by apply net_inv_swap, (net_inv_join _ _ (l_code s)).
Qed.
Lemma svr_third_step s m p s' : svr_life_inv s m p → exec_event [] (Run Third) s = Some s' → svr_ok s'.
Proof.
  intros [Hm Hp Ht Hnet Hgo Hng Hst Hpn Hev Hal] E. right. exists m, p.
  assert (∃ rest, s' = set_shared id Third rest s ∧ rest ∈ third_codes) as (rest & -> & Hr).
  { unfold exec_event in E. unfold third_codes in Ht. rewrite !elem_of_cons, elem_of_nil in Ht.
    destruct_or? Ht; try done; rewrite Ht in E; cbn in E; try case_match; simplify_eq; eexists; (split; [done|]); set_solver. }
  split; cbn; try done. other_tac Hnet.
Qed.
Lemma svr_net_step s m p i e s' : one_accept threads → net_event e i → svr_life_inv s m p → exec_event [] e s = Some s' → svr_ok s'.
Proof.
  intros Hone He [Hm Hp Ht Hnet Hgo Hng Hst Hpn Hev Hal] E. right. exists m, p.
  destruct (net_step threads [] s i _ _ e s' Hone He Hnet E) as (l & rest & -> & Hnet'). by split.
Qed.
(** The console is read by [main] only. *)
Lemma svr_console s m p t rest : svr_life_inv s m p → l_code s t = Blocked Console :: rest → t = Main ∧ m = MConsole.
Proof.
  intros [Hm Hp Ht Hnet _ _ _ _ _ _] E. destruct t as [| | |i].
  - rewrite Hm in E. destruct m as [| | | |q|]; try done. exfalso. cbn [main_code] in E.
    destruct (stop_at n q) as [|x l] eqn:Eq; [done|]. injection E as -> _. by apply (stop_at_head threads q Console l).
  - rewrite Hp in E. destruct p as [| | | | |q]; try done. by destruct (stop_at_head threads q Console rest).
  - rewrite E in Ht. unfold third_codes in Ht. set_solver.
  - pose proof (ni_codes _ _ _ _ _ Hnet i) as Hi. rewrite E in Hi. destruct (threads !! i) as [[]|]; cbn in Hi; set_solver.
Qed.
Lemma svr_life_step s m p e s' : (0 < n)%nat → one_accept threads → svr_life_inv s m p → exec_event [] e s = Some s' → svr_ok s'.
Proof.
  intros Hn Hone Hinv E. destruct e as [t| |i|i|t|t].
  - destruct t; [by eapply svr_main_step|by eapply svr_process_step|by eapply svr_third_step|].
    eapply svr_net_step; [done| |done|done]. by left.
  - destruct Hinv as [Hm Hp Ht Hnet Hgo Hng Hst Hpn Hev Hal]. injection E as <-. right. exists m, p.
    split; cbn; try done; first [other_tac Hnet|by destruct m|by destruct m, p].
  - eapply (svr_net_step _ _ _ i); [done| |done|done]. by right; left.
  - eapply (svr_net_step _ _ _ i); [done| |done|done]. by right; right; left.
  - cbn in E. destruct (l_code s t) as [|[| | | | | | | |[]] rest] eqn:Ec; try done. injection E as <-.
    destruct (svr_console _ _ _ _ _ Hinv Ec) as [-> ->]. destruct Hinv as [Hm Hp Ht Hnet Hgo Hng Hst Hpn Hev Hal].
    rewrite Hm in Ec. injection Ec as <-. right. exists MLoop, p. split; cbn; try done. other_tac Hnet.
  - cbn in E. destruct (l_code s t) as [|[| | | | | | | |[]] rest] eqn:Ec; try done.
    destruct (svr_console _ _ _ _ _ Hinv Ec) as [-> ->]. destruct Hinv as [Hm Hp Ht Hnet Hgo Hng Hst Hpn Hev Hal].
    rewrite Hm in Ec. injection Ec as <-. injection E as <-. right. exists MAppStop, p. split; cbn; try done. other_tac Hnet.
Qed.
Lemma svr_schedule_ok es : (0 < n)%nat → one_accept threads → ∀ s, svr_ok s → svr_ok (schedule [] s es).
Proof.
  intros Hn Hone. induction es as [|e es IH]; intros s Hs; [done|]. cbn [schedule]. apply IH.
  unfold exec. destruct (sh_terminated (l_shared s)) eqn:Et; [done|]. destruct (exec_event [] e s) as [s'|] eqn:E; [|done].
  destruct Hs as [[Hs _]|(m & p & Hs)]; [congruence|]. by eapply svr_life_step.
Qed.

(** *** Behind [/exit] some thread can always go on *)
Lemma svr_net_progress s m p j : svr_life_inv s m p → sh_stop (l_shared s) OfNetwork = true →
  at_close (main_status m) || at_close (process_status p) = false → sh_stop (l_shared s) OfApp = true →
  l_code s (Net j) ≠ [] → ∃ t, is_Some (exec_event [] (Run t) s).
Proof.
  intros Hinv Hs Hcl Hsa Hj. destruct Hinv as [Hm Hp Ht Hnet Hgo Hng Hst Hpn Hev Hal].
  assert (sh_started (l_shared s) OfApp = true) as Hga by (destruct m; congruence).
  destruct p as [| | | | |q].
  1: { exists Process. unfold exec_event. rewrite Hp. cbn. rewrite Hga. by eexists. }
  1: { exists Process. unfold exec_event. rewrite Hp. by eexists. }
  all: exists (Net j); eapply net_progress; done.
Qed.
Lemma svr_progress s m p : (0 < n)%nat → svr_life_inv s m p → sh_stop (l_shared s) OfApp = true →
  ∃ t, is_Some (exec_event [] (Run t) s).
Proof.
  intros Hn Hinv Hsa. pose proof Hinv as [Hm Hp Ht Hnet Hgo Hng Hst Hpn Hev Hal].
  (* a thread behind its Close_listen, at a join of a thread of the network *)
  assert (∀ t j rest, l_code s t = Join (Net j) :: rest → sh_stop (l_shared s) OfNetwork = true →
    at_close (main_status m) || at_close (process_status p) = false → ∃ t, is_Some (exec_event [] (Run t) s)) as Hjoin.
  { intros t j rest Hc Hs Hcl. destruct (l_code s (Net j)) as [|i l] eqn:Ej; [|eapply svr_net_progress; [done..|]; by rewrite Ej].
    exists t. unfold exec_event. rewrite Hc. cbn. rewrite Ej. by eexists. }
  assert (sh_started (l_shared s) OfApp = true) as Hga by (destruct m; congruence).
  destruct m as [| | | |q|]; try congruence.
  - destruct q as [| |j]; [exists Main; unfold exec_event; rewrite Hm; by eexists..|].
    destruct (decide (j < n)%nat) as [Hj|Hj].
    2:{ exists Main. unfold exec_event. rewrite Hm. cbn [main_code]. rewrite stop_at_done by lia. by eexists. }
    destruct (at_close (process_status p)) eqn:Ecl.
    { exists Process. unfold exec_event. rewrite Hp. by destruct p as [| | | | |[]]. }
    apply (Hjoin Main j (stop_at n (Joining (S j)) ++ [Activate_queue; Join Process; Join Third])); [|by rewrite (ni_stop _ _ _ _ _ Hnet)|done].
    rewrite Hm. cbn [main_code]. by rewrite stop_at_join.
  - destruct p as [| | | | |q].
    1-4: exists Process; unfold exec_event; rewrite Hp; cbn; rewrite ?Hga, ?Hsa; try by eexists.
    + destruct (sh_packets _); by eexists.
    + exists Process. unfold exec_event. rewrite Hp. cbn. rewrite Hev. by eexists.
    + destruct q as [| |j]; [exists Process; unfold exec_event; rewrite Hp; by eexists..|].
      destruct (decide (j < n)%nat) as [Hj|Hj].
      * apply (Hjoin Process j (stop_at n (Joining (S j)))); [|by rewrite (ni_stop _ _ _ _ _ Hnet)|done].
        rewrite Hp. cbn [process_code]. by rewrite stop_at_join.
      * exists Main. unfold exec_event. rewrite Hm. cbn. rewrite Hp. cbn [process_code]. rewrite stop_at_done by lia. by eexists.
Qed.
Lemma svr_ending s m p t : svr_life_inv s m p → sh_stop (l_shared s) OfApp = true → ending (l_code s t) = true.
Proof.
  intros Hinv Hs. destruct (l_code s t) as [|[| | | | | | |[x|] b|[]] c] eqn:Ec; try done.
  - exfalso. destruct Hinv as [Hm Hp Ht Hnet _ _ Hst _ _ _]. destruct t as [| | |i].
    + rewrite Hm in Ec. destruct m as [| | | |q|]; try congruence; [|done]. cbn [main_code] in Ec.
      destruct (stop_at n q) as [|y l] eqn:Eq; [done|]. injection Ec as -> _. by apply (stop_at_no_loop threads q None b l).
    + rewrite Hp in Ec. destruct p as [| | | | |q]; try done. by apply (stop_at_no_loop threads q None b c).
    + rewrite Ec in Ht. unfold third_codes in Ht. set_solver.
    + pose proof (ni_codes _ _ _ _ _ Hnet i) as Hi. rewrite Ec in Hi. destruct (threads !! i) as [[]|]; cbn in Hi; set_solver.
  - destruct (svr_console _ _ _ _ _ Hinv Ec) as [-> ->]. destruct Hinv. congruence.
Qed.
Lemma main_code_ne m : main_code m ≠ [].
Proof. destruct m as [| | | |q|]; try done. cbn [main_code]. by destruct (stop_at n q). Qed.
Lemma svr_steps_bounded es s m p t : (0 < n)%nat → one_accept threads → svr_life_inv s m p → stopping s →
  (steps_of [] t s es ≤ weight (l_code s t))%nat.
Proof.
  intros Hn Hone Hinv Hst. apply (steps_bounded [] (λ s, svr_ok s ∧ stopping s)).
  - intros s1 e s2 [H1 [Ha Hb]] E. split; [|by split; eapply exec_stop].
    pose proof (svr_schedule_ok [e] Hn Hone s1 H1) as H2. cbn in H2. by rewrite E in H2.
  - intros s1 [[[H1 _]|(m1 & p1 & H1)] H2]; (split; [done|]); intros u; [by left|right]. eapply svr_ending; [done|apply H2].
  - split; [right; eauto|done].
Qed.
End Server.

(** C21: the end of the server.  Whatever the threads of its network and however
    everything interleaves: [main] never returns - the only end there is is
    [std::terminate], by the thread that joins a thread of the network that
    another has joined; after [/exit] some thread can always go on until then,
    and once both parts are told to stop every thread takes a bounded number of
    steps, so that this end is always reached. *)
Theorem server_shutdown threads es : threads ≠ [] → one_accept threads →
  let s := schedule [] (svr_life threads) es in
  ended s ∨
  sh_terminated (l_shared s) = false ∧ l_code s Main ≠ [] ∧
  (sh_stop (l_shared s) OfApp = true → ∃ t s', exec [] s (Run t) = Some s') ∧
  (stopping s → ∀ t es', (steps_of [] t s es' ≤ weight (l_code s t))%nat).
Proof.
  intros Hne Hone s. assert (0 < length threads)%nat as Hn by (destruct threads; cbn; [done|lia]).
  destruct (svr_schedule_ok threads es Hn Hone (svr_life threads)) as [Ht|(m & p & Hinv)]; [right; do 2 eexists; apply svr_life_ok|by left|].
  assert (sh_terminated (l_shared s) = false) as Et by exact (v_alive _ _ _ _ Hinv). right. split_and!; [done|..].
  - unfold s. rewrite (v_main _ _ _ _ Hinv). apply main_code_ne.
  - intros Hs. destruct (svr_progress threads s m p Hn Hinv Hs) as (t & s' & E). exists t, s'. unfold exec. by rewrite Et.
  - intros Hst t es'. by eapply svr_steps_bounded.
Qed.


(** ** The client *)
Section Client.
Context (threads : list net_thread).
Notation n := (length threads).
Inductive cli_main_phase := CGo | CJoinProcess | CJoinCommand | CAppStop | CNet (p : stop_phase).
Inductive cli_process_phase := QWait | QGo | QLoop | QPop | QWaiting | QDone.
Inductive command_phase := TWait | TLoop | TConsole | TAppStop | TNet (p : stop_phase) | TDone.
Definition cli_main_code (m : cli_main_phase) : list instr :=
  match m with
  | CGo => [Start OfApp; Join Process; Join Third] ++ cli_stop threads
  | CJoinProcess => [Join Process; Join Third] ++ cli_stop threads
  | CJoinCommand => Join Third :: cli_stop threads
  | CAppStop => cli_stop threads
  | CNet p => stop_at n p ++ [Activate_queue]
  end.
Definition cli_process_code (p : cli_process_phase) : list instr :=
  match p with
  | QWait => [Wait_start OfApp; Start OfNetwork; Loop (Some OfApp) Popping]
  | QGo => [Start OfNetwork; Loop (Some OfApp) Popping]
  | QLoop => [Loop (Some OfApp) Popping]
  | QPop => [Blocked Popping; Loop (Some OfApp) Popping]
  | QWaiting => [Blocked Waiting; Loop (Some OfApp) Popping]
  | QDone => []
  end.
Definition command_code (c : command_phase) : list instr :=
  match c with
  | TWait => [Wait_start OfApp; Loop (Some OfApp) Console]
  | TLoop => [Loop (Some OfApp) Console]
  | TConsole => [Blocked Console; Loop (Some OfApp) Console]
  | TAppStop => cli_stop threads
  | TNet p => stop_at n p ++ [Activate_queue]
  | TDone => []
  end.
Definition cli_main_status (m : cli_main_phase) : stop_status := match m with CNet p => Stopping p | _ => NotYet end.
Definition command_status (c : command_phase) : stop_status :=
  match c with TNet p => Stopping p | TDone => Behind | _ => NotYet end.

Record cli_inv (s : life) (m : cli_main_phase) (p : cli_process_phase) (c : command_phase) : Prop := mkCliInv {
  w_main : l_code s Main = cli_main_code m;
  w_process : l_code s Process = cli_process_code p;
  w_command : l_code s Third = command_code c;
  w_net : net_inv threads (l_shared s) (l_code s) (command_status c) (cli_main_status m);
  w_go : sh_started (l_shared s) OfApp = match m with CGo => false | _ => true end;
  w_cgo : match c with TWait => True | _ => sh_started (l_shared s) OfApp = true end;
  w_netgo : match p with QWait | QGo => True | _ => sh_started (l_shared s) OfNetwork = true end;
  w_stop : sh_stop (l_shared s) OfApp = match c with TNet _ | TDone => true | _ => false end;
  w_behind : match m with CAppStop | CNet _ => c = TDone ∧ p = QDone | CJoinCommand => p = QDone | _ => True end;
  w_event : match c, p with TDone, (QPop | QWaiting) => sh_event (l_shared s) = true | _, _ => True end;
  w_jp : match m with CGo | CJoinProcess => Process ∉ sh_joined (l_shared s) | _ => True end;
  w_jt : match m with CGo | CJoinProcess | CJoinCommand => Third ∉ sh_joined (l_shared s) | _ => True end;
  w_alive : sh_terminated (l_shared s) = false }.
Definition cli_ok (s : life) : Prop := ended s ∨ ∃ m p c, cli_inv s m p c.
Notation on_exit := (cli_stop threads).

Lemma cli_life_ok : cli_inv (cli_life threads) CGo QWait TWait.
Proof.
  split; try done; try (by intros ?%elem_of_nil). split; try done.
  - intros i Hi. cbn in Hi. destruct (threads !! i) as [[]|]; cbn in Hi; set_solver.
  - cbn. split; [by intros ?%elem_of_nil|done].
  - intros i. cbn. destruct (threads !! i) as [[]|]; cbn; set_solver.
Qed.
Ltac other_tac H := eapply (net_inv_other _ _ _ _ _ _ _ H); [by intros|done|done|done].
(** Joining a thread of the program for the first time. *)
Lemma sh_join_fresh t h : t ∉ sh_joined h → sh_join t h =
  mkShared (sh_stop h) (sh_started h) (sh_listen h) (sh_event h) (sh_packets h) (t :: sh_joined h) (sh_terminated h).
Proof. intros Ht. unfold sh_join. by rewrite bool_decide_false. Qed.
Lemma net_inv_app_join h c a b t c' : net_inv threads h c a b → t = Process ∨ t = Third → t ∉ sh_joined h →
  (∀ i, c' (Net i) = c (Net i)) → net_inv threads (sh_join t h) c' a b.
Proof.
  intros Hnet Ht Hf Hc. rewrite sh_join_fresh by done. eapply (net_inv_other _ _ _ _ _ _ _ Hnet); [done..|]. cbn.
  rewrite elem_of_cons. destruct Ht as [-> | ->]; naive_solver.
Qed.
Lemma sh_join_alive t h : sh_terminated (sh_join t h) = false → t ∉ sh_joined h.
Proof. unfold sh_join. by case_bool_decide. Qed.
Lemma cli_main_step s m p c s' : (0 < n)%nat → cli_inv s m p c → exec_event on_exit (Run Main) s = Some s' → cli_ok s'.
Proof.
  intros Hn [Hm Hp Hc Hnet Hgo Hcg Hng Hst Hbe Hev Hjp Hjt Hal] E. unfold exec_event in E. rewrite Hm in E.
  destruct m as [| | | |q]; cbn [cli_main_code app] in E.
  - injection E as <-. right. exists CJoinProcess, p, c. split; cbn; try done; [other_tac Hnet|by destruct c].
  - cbn [run_instr] in E. rewrite Hp in E. destruct p; try done. injection E as <-. right. exists CJoinCommand, QDone, c.
    split; cbn; rewrite ?sh_join_fresh by done; cbn; try done; [|by rewrite elem_of_cons; naive_solver].
    rewrite <-sh_join_fresh by done. apply (net_inv_app_join _ (l_code s)); auto.
  - cbn [run_instr] in E. rewrite Hc in E. destruct c as [| | | |q|]; try done.
    { exfalso. cbn [command_code] in E. by destruct (stop_at n q). }
    injection E as <-. right. exists CAppStop, p, TDone.
    split; cbn; rewrite ?sh_join_fresh by done; cbn; try done.
    rewrite <-sh_join_fresh by done. apply (net_inv_app_join _ (l_code s)); auto.
  - injection E as <-. destruct Hbe as [-> ->]. right. exists (CNet Requesting), QDone, TDone. split; cbn; try done.
    apply net_inv_swap, net_inv_enter, net_inv_swap. other_tac Hnet.
  - destruct Hbe as [-> ->]. apply net_inv_swap in Hnet. destruct q as [| |j].
    + injection E as <-. right. exists (CNet Closing), QDone, TDone. split; cbn; try done.
      by apply net_inv_swap, (net_inv_request _ _ (l_code s)).
    + injection E as <-. right. exists (CNet (Joining 0)), QDone, TDone. split; cbn; try done.
      all: try (unfold sh_close; by destruct (sh_listen _)).
      by apply net_inv_swap, (net_inv_close _ _ (l_code s)).
    + assert (j = 0)%nat as -> by (destruct j; [done|]; by pose proof (ni_once _ _ _ _ _ Hnet)).
      rewrite stop_at_join in E by done. cbn [app run_instr] in E. destruct (l_code s (Net 0)); [|done]. injection E as <-. left.
      assert (Net 0 ∈ sh_joined (l_shared s)) as Hin by (by apply (ni_joined _ _ _ _ _ Hnet)).
      split; cbn; [|by rewrite sh_join_stop]. unfold sh_join. by rewrite bool_decide_true.
Qed.
Lemma cli_process_step s m p c s' : cli_inv s m p c → exec_event on_exit (Run Process) s = Some s' → cli_ok s'.
Proof.
  intros [Hm Hp Hc Hnet Hgo Hcg Hng Hst Hbe Hev Hjp Hjt Hal] E. unfold exec_event in E. rewrite Hp in E.
  assert (p ≠ QDone → m = CGo ∨ m = CJoinProcess) as Hbe' by (intros ?; destruct m; [by left|by right|done|by destruct Hbe..]).
  destruct p; cbn [cli_process_code] in E; cbn in E.
  - destruct (sh_started _ _) eqn:Et; [|done]. injection E as <-. right. exists m, QGo, c.
    split; cbn; try done; first [other_tac Hnet|by destruct (Hbe' ltac:(done)) as [-> | ->]|by destruct c].
  - injection E as <-. right. exists m, QLoop, c.
    split; cbn; try done; first [other_tac Hnet|by destruct (Hbe' ltac:(done)) as [-> | ->]|by destruct c].
  - destruct (sh_stop (l_shared s) OfApp) eqn:Es; injection E as <-; right.
    + exists m, QDone, c.
      split; cbn; try done; first [other_tac Hnet|by destruct (Hbe' ltac:(done)) as [-> | ->]|by destruct c].
    + exists m, QPop, c.
      split; cbn; try done; first [other_tac Hnet|by destruct (Hbe' ltac:(done)) as [-> | ->]|by destruct c].
  - destruct (sh_packets (l_shared s)) eqn:Epk; injection E as <-; right; [exists m, QWaiting, c|exists m, QLoop, c].
    all: split; cbn; try done; first [other_tac Hnet|by destruct (Hbe' ltac:(done)) as [-> | ->]|by destruct c].
  - destruct (sh_event (l_shared s)) eqn:Eev; [|done]. injection E as <-. right. exists m, QLoop, c.
    split; cbn; try done; first [other_tac Hnet|by destruct (Hbe' ltac:(done)) as [-> | ->]|by destruct c].
  - done.
Qed.
Lemma cli_command_step s m p c s' : (0 < n)%nat → cli_inv s m p c → exec_event on_exit (Run Third) s = Some s' → cli_ok s'.
Proof.
  intros Hn [Hm Hp Hc Hnet Hgo Hcg Hng Hst Hbe Hev Hjp Hjt Hal] E. unfold exec_event in E. rewrite Hc in E.
  assert (c ≠ TDone → match m with CAppStop | CNet _ => False | _ => True end) as Hm' by (intros ?; destruct m; try done; by destruct Hbe).
  assert (∀ f c', s' = set_shared f Third (command_code c') s → c ≠ TDone →
    net_inv threads (f (l_shared s)) (upd (l_code s) Third (command_code c')) (command_status c') (cli_main_status m) →
    sh_started (f (l_shared s)) = sh_started (l_shared s) → sh_started (l_shared s) OfApp = true ∨ c' = TWait →
    sh_stop (f (l_shared s)) OfApp = match c' with TNet _ | TDone => true | _ => false end →
    (c' = TDone → sh_event (f (l_shared s)) = true) →
    (∀ t, (∀ i, t ≠ Net i) → t ∈ sh_joined (f (l_shared s)) → t ∈ sh_joined (l_shared s)) →
    sh_terminated (f (l_shared s)) = false → cli_ok s') as Hgo'.
  { intros f c' -> Hne Hnet' Hf Hs' Hst' Hev' Hj' Hal'. right. exists m, p, c'. specialize (Hm' Hne).
    split; cbn; rewrite ?Hf; try done.
    - destruct Hs' as [?|Hw]; [by destruct c'|by rewrite Hw].
    - by destruct m.
    - destruct c', p; try done; auto.
    - destruct m; try done; intros ?%Hj'; done.
    - destruct m; try done; intros ?%Hj'; done. }
  assert (c ≠ TWait → sh_started (l_shared s) OfApp = true) as Hs0 by (by destruct c).
  destruct c as [| | | |q|]; cbn [command_code] in E.
  - cbn in E. destruct (sh_started _ _) eqn:Et; [|done]. injection E as <-. eapply (Hgo' id TLoop); try done; try (by left). other_tac Hnet.
  - cbn in E. rewrite Hst in E. injection E as <-. eapply (Hgo' id TConsole); try done; try (left; by auto). other_tac Hnet.
  - done.
  - injection E as <-. eapply (Hgo' (sh_request OfApp) (TNet Requesting)); try done; try (left; by auto). apply net_inv_enter. other_tac Hnet.
  - destruct q as [| |j].
    + injection E as <-. eapply (Hgo' (sh_request OfNetwork) (TNet Closing)); try done; try (left; by auto).
      by apply (net_inv_request _ _ (l_code s)).
    + injection E as <-. eapply (Hgo' sh_close (TNet (Joining 0))); try done; try (left; by auto).
      all: try (unfold sh_close; by destruct (sh_listen _)).
      by apply (net_inv_close _ _ (l_code s)).
    + destruct (decide (j < n)%nat) as [Hj|Hj].
      * rewrite stop_at_join in E by done. cbn [app run_instr] in E. destruct (l_code s (Net j)); [|done]. injection E as <-.
        destruct (sh_terminated (sh_join (Net j) (l_shared s))) eqn:Eterm; [left; split; cbn; by rewrite ?sh_join_stop|].
        pose proof (sh_join_alive _ _ Eterm) as Hfr.
        eapply (Hgo' (sh_join (Net j)) (TNet (Joining (S j)))); try done.
        -- by apply (net_inv_join _ _ (l_code s)).
        -- by rewrite sh_join_fresh.
        -- left. by auto.
        -- by rewrite sh_join_stop.
        -- intros t Ht. rewrite sh_join_fresh by done. cbn. rewrite elem_of_cons. intros [->|?]; [by destruct (Ht j)|done].
      * rewrite (stop_at_done threads j) in E by lia. cbn [app run_instr] in E. injection E as <-.
        eapply (Hgo' _ TDone); [reflexivity|done| |try done..]; [|left; by auto].
        destruct j as [|j]; [lia|]. eapply net_inv_behind. other_tac Hnet.
  - done.
Qed.
Lemma cli_net_step s m p c i e s' : one_accept threads → net_event e i → cli_inv s m p c → exec_event on_exit e s = Some s' → cli_ok s'.
Proof.
  intros Hone He [Hm Hp Hc Hnet Hgo Hcg Hng Hst Hbe Hev Hjp Hjt Hal] E. right. exists m, p, c.
  destruct (net_step threads on_exit s i _ _ e s' Hone He Hnet E) as (l & rest & -> & Hnet'). by split.
Qed.
(** The console is read by the command thread only. *)
Lemma cli_console s m p c t rest : cli_inv s m p c → l_code s t = Blocked Console :: rest → t = Third ∧ c = TConsole.
Proof.
  intros [Hm Hp Hc Hnet _ _ _ _ _ _ _ _ _] E. destruct t as [| | |i].
  - rewrite Hm in E. destruct m as [| | | |q]; try done. exfalso. cbn [cli_main_code] in E.
    destruct (stop_at n q) as [|x l] eqn:Eq; [done|]. injection E as -> _. by apply (stop_at_head threads q Console l).
  - rewrite Hp in E. by destruct p.
  - rewrite Hc in E. destruct c as [| | | |q|]; try done. exfalso. cbn [command_code] in E.
    destruct (stop_at n q) as [|x l] eqn:Eq; [done|]. injection E as -> _. by apply (stop_at_head threads q Console l).
  - pose proof (ni_codes _ _ _ _ _ Hnet i) as Hi. rewrite E in Hi. destruct (threads !! i) as [[]|]; cbn in Hi; set_solver.
Qed.
Lemma cli_step_ok s m p c e s' : (0 < n)%nat → one_accept threads → cli_inv s m p c → exec_event on_exit e s = Some s' → cli_ok s'.
Proof.
  intros Hn Hone Hinv E. destruct e as [t| |i|i|t|t].
  - destruct t; [by eapply cli_main_step|by eapply cli_process_step|by eapply cli_command_step|].
    eapply cli_net_step; [done| |done|done]. by left.
  - destruct Hinv as [Hm Hp Hc Hnet Hgo Hcg Hng Hst Hbe Hev Hjp Hjt Hal]. injection E as <-. right. exists m, p, c.
    split; cbn; try done; [other_tac Hnet|by destruct c, p].
  - eapply (cli_net_step _ _ _ _ i); [done| |done|done]. by right; left.
  - eapply (cli_net_step _ _ _ _ i); [done| |done|done]. by right; right; left.
  - cbn in E. destruct (l_code s t) as [|[| | | | | | | |[]] rest] eqn:Ec; try done. injection E as <-.
    destruct (cli_console _ _ _ _ _ _ Hinv Ec) as [-> ->]. destruct Hinv as [Hm Hp Hc Hnet Hgo Hcg Hng Hst Hbe Hev Hjp Hjt Hal].
    rewrite Hc in Ec. injection Ec as <-. right. exists m, p, TLoop. split; cbn; try done; [other_tac Hnet|]. destruct m; naive_solver.
  - cbn in E. destruct (l_code s t) as [|[| | | | | | | |[]] rest] eqn:Ec; try done.
    destruct (cli_console _ _ _ _ _ _ Hinv Ec) as [-> ->]. destruct Hinv as [Hm Hp Hc Hnet Hgo Hcg Hng Hst Hbe Hev Hjp Hjt Hal].
    rewrite Hc in Ec. injection Ec as <-. injection E as <-. right. exists m, p, TAppStop.
    rewrite app_nil_r. split; cbn; try done; [other_tac Hnet|]. destruct m; naive_solver.
Qed.
Lemma cli_schedule_ok es : (0 < n)%nat → one_accept threads → ∀ s, cli_ok s → cli_ok (schedule on_exit s es).
Proof.
  intros Hn Hone. induction es as [|e es IH]; intros s Hs; [done|]. cbn [schedule]. apply IH.
  unfold exec. destruct (sh_terminated (l_shared s)) eqn:Et; [done|]. destruct (exec_event on_exit e s) as [s'|] eqn:E; [|done].
  destruct Hs as [[Hs _]|(m & p & c & Hs)]; [congruence|]. by eapply cli_step_ok.
Qed.

Lemma cli_progress s m p c : (0 < n)%nat → cli_inv s m p c → sh_stop (l_shared s) OfApp = true →
  ∃ t, is_Some (exec_event on_exit (Run t) s).
Proof.
  intros Hn Hinv Hsa. pose proof Hinv as [Hm Hp Hc Hnet Hgo Hcg Hng Hst Hbe Hev Hjp Hjt Hal].
  assert (sh_started (l_shared s) OfApp = true) as Hga by (destruct c; congruence).
  assert (p = QDone ∨ p ≠ QDone ∧ (c = TDone → is_Some (exec_event on_exit (Run Process) s)) ∧
    (sh_started (l_shared s) OfNetwork = true ∨ is_Some (exec_event on_exit (Run Process) s))) as Hproc.
  { unfold exec_event. rewrite Hp. destruct p; [right; (split; [done|])..|by left]; cbn; rewrite ?Hga, ?Hsa.
    - split; [intros _|right]; by eexists.
    - split; [intros _|right]; by eexists.
    - split; [intros _; by eexists|by left].
    - split; [intros _; destruct (sh_packets _); by eexists|by left].
    - split; [|by left]. intros ->. rewrite Hev. by eexists. }
  assert (∀ t j rest, l_code s t = Join (Net j) :: rest → sh_stop (l_shared s) OfNetwork = true →
    at_close (command_status c) || at_close (cli_main_status m) = false → ∃ t, is_Some (exec_event on_exit (Run t) s)) as Hjoin.
  { intros t j rest Ht Hs Hcl. destruct (l_code s (Net j)) as [|i l] eqn:Ej.
    { exists t. unfold exec_event. rewrite Ht. cbn. rewrite Ej. by eexists. }
    assert (sh_started (l_shared s) OfNetwork = true ∨ is_Some (exec_event on_exit (Run Process) s)) as [Hsn|Hr]; [| |by exists Process].
    { destruct Hproc as [->|(_ & _ & ?)]; [by left|done]. }
    exists (Net j). eapply net_progress; try done. by rewrite Ej. }
  destruct c as [| | | |q|]; try congruence.
  - assert (at_close (cli_main_status m) = false) as Hcm by (destruct m as [| | | |[]]; try done; by destruct Hbe).
    destruct q as [| |j]; [exists Third; unfold exec_event; rewrite Hc; by eexists..|].
    destruct (decide (j < n)%nat) as [Hj|Hj].
    + apply (Hjoin Third j (stop_at n (Joining (S j)) ++ [Activate_queue])); [|by rewrite (ni_stop _ _ _ _ _ Hnet)|done].
      rewrite Hc. cbn [command_code]. by rewrite stop_at_join.
    + exists Third. unfold exec_event. rewrite Hc. cbn [command_code]. rewrite stop_at_done by lia. by eexists.
  - destruct m as [| | | |q].
    + exists Main. unfold exec_event. rewrite Hm. by eexists.
    + destruct Hproc as [->|(_ & Hr & _)]; [|exists Process; by apply Hr].
      exists Main. unfold exec_event. rewrite Hm. cbn. rewrite Hp. by eexists.
    + exists Main. unfold exec_event. rewrite Hm. cbn. rewrite Hc. by eexists.
    + exists Main. unfold exec_event. rewrite Hm. by eexists.
    + destruct q as [| |j]; [exists Main; unfold exec_event; rewrite Hm; by eexists..|].
      assert (j = 0)%nat as -> by (destruct j; [done|]; by pose proof (ni_once _ _ _ _ _ Hnet)).
      apply (Hjoin Main 0%nat (stop_at n (Joining 1) ++ [Activate_queue])); [|by rewrite (ni_stop _ _ _ _ _ Hnet)|done].
      rewrite Hm. cbn [cli_main_code]. by rewrite stop_at_join.
Qed.
Lemma cli_main_ne s m p c : (0 < n)%nat → cli_inv s m p c → l_code s Main ≠ [].
Proof.
  intros Hn Hinv. rewrite (w_main _ _ _ _ Hinv). destruct m as [| | | |q]; try done. cbn [cli_main_code]. by destruct (stop_at n q).
Qed.
Lemma cli_ending s m p c t : cli_inv s m p c → sh_stop (l_shared s) OfApp = true → ending (l_code s t) = true.
Proof.
  intros Hinv Hs. destruct (l_code s t) as [|[| | | | | | |[x|] b|[]] l] eqn:Ec; try done.
  - exfalso. destruct Hinv as [Hm Hp Hc Hnet _ _ _ Hst _ _ _ _ _]. destruct t as [| | |i].
    + rewrite Hm in Ec. destruct m as [| | | |q]; try done. cbn [cli_main_code] in Ec.
      destruct (stop_at n q) as [|y l'] eqn:Eq; [done|]. injection Ec as -> _. by apply (stop_at_no_loop threads q None b l').
    + rewrite Hp in Ec. by destruct p.
    + rewrite Hc in Ec. destruct c as [| | | |q|]; try done. cbn [command_code] in Ec.
      destruct (stop_at n q) as [|y l'] eqn:Eq; [done|]. injection Ec as -> _. by apply (stop_at_no_loop threads q None b l').
    + pose proof (ni_codes _ _ _ _ _ Hnet i) as Hi. rewrite Ec in Hi. destruct (threads !! i) as [[]|]; cbn in Hi; set_solver.
  - destruct (cli_console _ _ _ _ _ _ Hinv Ec) as [-> ->]. destruct Hinv. congruence.
Qed.
Lemma cli_steps_bounded es s m p c t : (0 < n)%nat → one_accept threads → cli_inv s m p c → stopping s →
  (steps_of on_exit t s es ≤ weight (l_code s t))%nat.
Proof.
  intros Hn Hone Hinv Hst. apply (steps_bounded on_exit (λ s, cli_ok s ∧ stopping s)).
  - intros s1 e s2 [H1 [Ha Hb]] E. split; [|by split; eapply exec_stop].
    pose proof (cli_schedule_ok [e] Hn Hone s1 H1) as H2. cbn in H2. by rewrite E in H2.
  - intros s1 [[[H1 _]|(m1 & p1 & c1 & H1)] H2]; (split; [done|]); intros u; [by left|right]. eapply cli_ending; [done|apply H2].
  - split; [right; eauto|done].
Qed.
End Client.

(** C22: the end of the client, in the same words: once its command thread has
    stopped the network, the second Network::Stop of [main] joins threads that
    have been joined, and the program never ends but in [std::terminate]. *)
Theorem client_shutdown threads es : threads ≠ [] → one_accept threads →
  let s := schedule (cli_stop threads) (cli_life threads) es in
  ended s ∨
  sh_terminated (l_shared s) = false ∧ l_code s Main ≠ [] ∧
  (sh_stop (l_shared s) OfApp = true → ∃ t s', exec (cli_stop threads) s (Run t) = Some s') ∧
  (stopping s → ∀ t es', (steps_of (cli_stop threads) t s es' ≤ weight (l_code s t))%nat).
Proof.
  intros Hne Hone s. assert (0 < length threads)%nat as Hn by (destruct threads; cbn; [done|lia]).
  destruct (cli_schedule_ok threads es Hn Hone (cli_life threads)) as [Ht|(m & p & c & Hinv)];
    [right; do 3 eexists; apply cli_life_ok|by left|].
  assert (sh_terminated (l_shared s) = false) as Et by exact (w_alive _ _ _ _ _ Hinv). right. split_and!; [done|..].
  - by eapply cli_main_ne.
  - intros Hs. destruct (cli_progress threads s m p c Hn Hinv Hs) as (t & s' & E). exists t, s'. unfold exec. by rewrite Et.
  - intros Hst t es'. by eapply cli_steps_bounded.
Qed.

(** ** The threads of Network::Initialize, and instances *)
Lemma lookup_accept k (l : list net_thread) i : (replicate k Worker_Thread ++ l) !! i = Some Accept_Thread →
  (k ≤ i)%nat ∧ l !! (i - k)%nat = Some Accept_Thread.
Proof.
  intros E. destruct (decide (i < k)%nat) as [Hi|Hi].
  - rewrite lookup_app_l in E by (by rewrite length_replicate). apply lookup_replicate in E as [? _]. done.
  - rewrite lookup_app_r in E by (rewrite length_replicate; lia). rewrite length_replicate in E. split; [lia|done].
Qed.
Lemma Network_Initialize_threads `{OS} cfg w threads w' : Network_Initialize cfg w = Ok ((true, threads), w') →
  threads ≠ [] ∧ one_accept threads.
Proof.
  unfold Network_Initialize. intros E. apply st_bind_inv in E as (r & w1 & _ & E). destruct (negb _); [done|].
  apply st_bind_inv in E as (iocp & w2 & _ & E). apply st_bind_inv in E as ([] & w3 & _ & E). destruct (0 =? iocp); [done|].
  apply st_bind_inv in E as (accept & w4 & Ea & E). injection E as <- _.
  assert (accept = [] ∨ accept = [Accept_Thread]) as Hacc.
  { destruct (doListen cfg); [|injection Ea as <- _; by left]. destruct (useAcceptEx cfg); [|injection Ea as <- _; by right].
    apply st_bind_inv in Ea as (? & ? & _ & Ea). apply st_bind_inv in Ea as (? & ? & _ & Ea). injection Ea as <- _. by left. }
  split; [by destruct (replicate _ _), accept|]. intros i j Hi Hj. apply lookup_accept in Hi as [Hki Hi], Hj as [Hkj Hj].
  set (k := Z.to_nat (workerThreadCount cfg)) in *.
  assert (∀ x, (accept ++ [Update_Thread]) !! x = Some Accept_Thread → x = 0%nat) as H0.
  { intros [|[|[|x]]]; destruct Hacc as [-> | ->]; cbn; naive_solver. }
  apply H0 in Hi, Hj. lia.
Qed.
(** When the client's [Init] fails there is nothing to join, and it returns. *)
Lemma cli_without_network :
  let s := schedule [] (start_life (cli_stop []) [] [] []) (replicate 4 (Run Main)) in
  l_code s Main = [] ∧ sh_terminated (l_shared s) = false.
Proof. split; reflexivity. Qed.

Definition demo_threads : list net_thread := [Worker_Thread; Accept_Thread; Update_Thread].
Definition demo_round : list event := Run <$> [Main; Process; Third; Net 0; Net 1; Net 2].
(** A run in which everything starts, a connection and a packet come, and
    [/exit] is typed. *)
Definition demo_run (console : tid) : list event :=
  mjoin (replicate 4 demo_round) ++ [Connection 1; Packet; Exit console] ++ mjoin (replicate 18 demo_round).
Lemma demo_one_accept : one_accept demo_threads.
Proof. intros [|[|[|i]]] [|[|[|j]]]; cbn; naive_solver. Qed.
Lemma server_shutdown_witness : ended (schedule [] (svr_life demo_threads) (demo_run Main)).
Proof.
  destruct (server_shutdown demo_threads (demo_run Main) ltac:(discriminate) demo_one_accept) as [H|(H & _)]; [exact H|].
  exfalso. vm_compute in H. discriminate H.
Defined.
Lemma client_shutdown_witness : ended (schedule (cli_stop demo_threads) (cli_life demo_threads) (demo_run Third)).
Proof.
  destruct (client_shutdown demo_threads (demo_run Third) ltac:(discriminate) demo_one_accept) as [H|(H & _)]; [exact H|].
  exfalso. vm_compute in H. discriminate H.
Defined.
