(* ===== verification/Reports.v ===== *)
(** * The reports
    GetReport of _lib/object_pool_mgr.h and _framework/connector_impl.cpp, the
    update of a connector that logs it (svr/connector_impl.cpp), the monitor
    report of the server's App::UpdateThread (svr/process.cpp) and
    Network::DoUpdate of the framework library (_framework/network_impl.cpp;
    both programs link their own, which does nothing). *)
From Stdlib Require Import String.
From S2P Require Import Prelude Text TimeSet Log Buffer Packet ObjectPool System Connector Client.

(** ** Numbers *)

(** [{}] of a size_t, and [%d], which takes the low 32 bits of what it is given. *)
Definition format_size (n : Z) : list Z := digits 20 (u64 n).
Definition format_d (n : Z) : list Z := format_INT64 (i32 n).

(** The number some digits spell. *)
Definition spelled (s : list Z) : Z := foldl (λ n c, 10 * n + (c - 48)) 0 s.
Lemma digits_spell k : ∀ n, 0 ≤ n < 10 ^ Z.of_nat k → spelled (digits k n) = n.
Proof.
  induction k as [|k IH]; intros n Hn; [change (10 ^ Z.of_nat 0) with 1 in Hn; cbn; lia|]. cbn [digits].
  destruct (Z.ltb_spec n 10); [unfold spelled; cbn; lia|].
  unfold spelled in *. rewrite foldl_app, IH.
  - cbn. pose proof (Z.div_mod n 10 ltac:(lia)). lia.
  - rewrite Nat2Z.inj_succ, Z.pow_succ_r in Hn by lia. split; [apply Z.div_pos; lia|apply Z.div_lt_upper_bound; lia].
Qed.
Lemma digits_length k n : zlen (digits k n) ≤ Z.of_nat k.
Proof.
  revert n. induction k as [|k IH]; intros n; [done|]. cbn [digits]. destruct (n <? 10); [unfold zlen; cbn; lia|].
  rewrite zlen_app. specialize (IH (n / 10)). change (zlen [_]) with 1. lia.
Qed.
Lemma digits_no_nul k n : 0 ≤ n → no_nul (digits k n).
Proof.
  revert n. induction k as [|k IH]; intros n Hn; [constructor|]. cbn [digits].
  destruct (n <? 10); [repeat constructor; lia|]. pose proof (Z.mod_pos_bound n 10 ltac:(lia)).
  apply no_nul_app; [apply IH, Z.div_pos; lia|repeat constructor; lia].
Qed.
Lemma format_size_spells n : 0 ≤ n < 2 ^ 64 → spelled (format_size n) = n.
Proof. intros Hn. unfold format_size. rewrite wrapu_small by (split; lia). apply digits_spell. change (10 ^ Z.of_nat 20) with 100000000000000000000. lia. Qed.
Lemma format_d_text n : zlen (format_d n) ≤ 21 ∧ no_nul (format_d n).
Proof.
  unfold format_d, format_INT64. destruct (Z.ltb_spec (i32 n) 0).
  - rewrite zlen_cons. pose proof (digits_length 20 (- i32 n)). split; [lia|]. constructor; [done|]. apply digits_no_nul. lia.
  - pose proof (digits_length 20 (i32 n)). split; [lia|]. apply digits_no_nul. lia.
Qed.
Lemma format_size_text n : zlen (format_size n) ≤ 20 ∧ no_nul (format_size n).
Proof. split; [apply (digits_length 20)|]. apply digits_no_nul, wrapu_range. lia. Qed.

(** ** The pools *)
Definition ObjectPool_GetReportA (p : ObjectPool) : list Z :=
  str "pool:" ++ format_size (zlen (op_poolList p)) ++ str ", free:" ++ format_size (zlen (op_freeList p)).
Definition ObjectPool_GetReport (p : ObjectPool) : list Z :=
  str "pool:" ++ format_size (zlen (op_poolList p)) ++ str ", free:" ++ format_size (zlen (op_freeList p)).
Definition ObjectMgrBase_GetReportA (m : ObjectMgrBase) : list Z :=
  ObjectPool_GetReportA (om_pool m) ++ str ", used:" ++ format_size (zlen (om_usedList m)).
Definition ObjectMgrBase_GetReport (m : ObjectMgrBase) : list Z :=
  ObjectPool_GetReport (om_pool m) ++ str ", used:" ++ format_size (zlen (om_usedList m)).
Definition ObjectPoolMgrBase_GetReportA (m : ObjectPoolMgrBase) : list Z :=
  str "pool:" ++ format_size (zlen (pm_poolList m)) ++ str ", used:" ++ format_size (zlen (pm_usedList m)) ++
  str ", free:" ++ format_size (zlen (pm_freeList m)).
Definition ObjectPoolMgrBase_GetReport (m : ObjectPoolMgrBase) : list Z :=
  str "pool:" ++ format_size (zlen (pm_poolList m)) ++ str ", used:" ++ format_size (zlen (pm_usedList m)) ++
  str ", free:" ++ format_size (zlen (pm_freeList m)).

(** ** A connector *)
Definition Connector_GetReportA (c : Connector) : outcome (list Z) :=
  s1 ← (if GetActive c
        then FormatA (str "[" ++ format_d (_dwUid c) ++ str "] connected: " ++ format_d (_socket c) ++ str ",")
        else FormatA (str "[" ++ format_d (_dwUid c) ++ str "] disconnected: "));
  s2 ← FormatA (str "sq:" ++ format_d (zlen (_SendQueue c)) ++ str ",");
  s3 ← FormatA (str "rb:(" ++ format_d (GetDataSize (_RecvDataBuffer c)) ++ str "/" ++
                format_d (GetBufferSize (_RecvDataBuffer c)) ++ str "),");
  Ok (s1 ++ s2 ++ s3).
Definition Connector_GetReport (c : Connector) : outcome (list Z) :=
  s1 ← (if GetActive c
        then FormatW (str "[" ++ format_d (_dwUid c) ++ str "] connected: " ++ format_d (_socket c) ++ str ",")
        else FormatW (str "[" ++ format_d (_dwUid c) ++ str "] disconnected: "));
  s2 ← FormatW (str "sq:" ++ format_d (zlen (_SendQueue c)) ++ str ",");
  s3 ← FormatW (str "rb:(" ++ format_d (GetDataSize (_RecvDataBuffer c)) ++ str "/" ++
                format_d (GetBufferSize (_RecvDataBuffer c)) ++ str "),");
  Ok (s1 ++ s2 ++ s3).

(** ** Who writes them *)
Section Writers.
Context `{TimeZone}.
Context (log_access : log_file → bool) (log_open : log_file → bool → bool).
Implicit Types (now : Z) (w : LogWorld).

(** What [App::UpdateThread] does when the time of its monitor report has come;
    the timers are [UpdateThread_step]'s. *)
Definition monitor_report now (connectors : ObjectPoolMgrBase) (sessions : ObjectMgrBase) w : outcome LogWorld :=
  w1 ← PerformanceLog_w log_access log_open now (str "ConnectorState: " ++ ObjectPoolMgrBase_GetReport connectors) w;
  PerformanceLog_w log_access log_open now (str "UserSessionState: " ++ ObjectMgrBase_GetReport sessions) w1.

(** The whole of [Connector::DoUpdate] of the server, with its report. *)
Definition svr_DoUpdate_report now (biCurrTime : Z) (c : Connector) w : outcome (Connector * bool * LogWorld) :=
  let c := if 0 =? _biUpdateTimer c
           then set_timers (i64 (biCurrTime + MILLISEC_A_MIN)) (_biHeartbeatTimer c) c else c in
  if _biUpdateTimer c <? biCurrTime then
    let c := set_timers (i64 (biCurrTime + MILLISEC_A_MIN)) (_biHeartbeatTimer c) c in
    text ← Connector_GetReport c;
    w1 ← PerformanceLog_w log_access log_open now text w;
    Ok (c, true, w1)
  else Ok (c, false, w).

(** [Network::DoUpdate] of the library; [time] is what [GetTimeMilliSec] gives. *)
Definition framework_Network_DoUpdate now (time biUpdateTime biCurrTime : Z) (connectors : ObjectPoolMgrBase) w : outcome (Z * LogWorld) :=
  if biUpdateTime <? biCurrTime then
    w1 ← PerformanceLog_w log_access log_open now (str "ConnectorState: " ++ ObjectPoolMgrBase_GetReport connectors) w;
    Ok (i64 (time + MILLISEC_A_MIN), w1)
  else Ok (biUpdateTime, w).

(** *** They always can *)
Definition short (k : Z) (s : list Z) : Prop := zlen s ≤ k ∧ no_nul s.
Lemma short_app j k s t : short j s → short k t → short (j + k) (s ++ t).
Proof. intros [? ?] [? ?]. split; [rewrite zlen_app; lia|by apply no_nul_app]. Qed.
Lemma short_str k s : bool_decide (zlen s ≤ k ∧ Forall (λ c, c ≠ 0) s) = true → short k s.
Proof. by intros Hs%bool_decide_eq_true. Qed.
Lemma short_size n : short 20 (format_size n).
Proof. apply format_size_text. Qed.
Lemma short_d n : short 21 (format_d n).
Proof. apply format_d_text. Qed.

Lemma short_weaken j k s : short j s → j ≤ k → short k s.
Proof. intros [? ?] ?. split; [lia|done]. Qed.
Lemma short_FormatA k s : short k s → k < BUFFER_MAX → FormatA s = Ok s.
Proof.
  intros [Hl Hn] Hk. unfold FormatA. rewrite (proj2 (Z.leb_gt BUFFER_MAX _)) by lia. by rewrite c_string_id.
Qed.
Lemma short_FormatW k s : short k s → k < BUFFER_MAX → FormatW s = Ok s.
Proof.
  intros [Hl Hn] Hk. unfold FormatW. rewrite (proj2 (Z.leb_gt BUFFER_MAX _)) by lia. by rewrite c_string_id.
Qed.

Lemma PerformanceLog_w_short now text w : clock_ok now → short 4096 text →
  PerformanceLog_w log_access log_open now text w =
    let m := time_prefix now ++ str "[performance] " ++ text in
    Ok (ConsoleWrite Info_level m (AddMessage log_access log_open now m w)).
Proof.
  intros (Hh & Hm & Hs) Ht. unfold PerformanceLog_w. rewrite (c_string_id text) by apply Ht.
  assert (short (14 + 4096) (str "[performance] " ++ text)) as Hp by (apply short_app; [by apply short_str|done]).
  rewrite (short_FormatW _ _ Hp) by (unfold BUFFER_MAX; lia). cbn [mbind outcome_bind]. unfold Write_w.
  rewrite c_string_id by apply Hp. rewrite (short_FormatW (9 + (14 + 4096))); [done| |unfold BUFFER_MAX; lia].
  apply short_app; [|done]. split; [by rewrite zlen_time_prefix|]. unfold time_prefix.
  repeat apply no_nul_app. all: first [by apply two_digits_no_nul|repeat constructor; done].
Qed.

Lemma report_short m : short 79 (ObjectPoolMgrBase_GetReport m).
Proof.
  unfold ObjectPoolMgrBase_GetReport. apply (short_app 5 74); [by apply short_str|]. apply (short_app 20 54); [apply short_size|].
  apply (short_app 7 47); [by apply short_str|]. apply (short_app 20 27); [apply short_size|].
  apply (short_app 7 20); [by apply short_str|apply short_size].
Qed.
Lemma manager_report_short m : short 79 (ObjectMgrBase_GetReport m).
Proof.
  unfold ObjectMgrBase_GetReport, ObjectPool_GetReport. apply (short_app 52 27); [|apply (short_app 7 20); [by apply short_str|apply short_size]].
  apply (short_app 5 47); [by apply short_str|]. apply (short_app 20 27); [apply short_size|].
  apply (short_app 7 20); [by apply short_str|apply short_size].
Qed.

(** A connector's report is never too long, and both versions say the same. *)
Lemma connector_line1 c : short 64 (if GetActive c
  then str "[" ++ format_d (_dwUid c) ++ str "] connected: " ++ format_d (_socket c) ++ str ","
  else str "[" ++ format_d (_dwUid c) ++ str "] disconnected: ").
Proof.
  destruct (GetActive c).
  - apply (short_app 1 63); [by apply short_str|]. apply (short_app 21 42); [apply short_d|].
    apply (short_app 13 29); [by apply short_str|]. apply (short_app 21 8); [apply short_d|by apply short_str].
  - apply (short_app 1 63); [by apply short_str|]. apply (short_app 21 42); [apply short_d|by apply short_str].
Qed.
Theorem Connector_GetReport_spec c : ∃ text,
  Connector_GetReport c = Ok text ∧ Connector_GetReportA c = Ok text ∧ short 155 text.
Proof.
  pose proof (connector_line1 c) as H1.
  assert (short 27 (str "sq:" ++ format_d (zlen (_SendQueue c)) ++ str ",")) as H2.
  { apply (short_app 3 24); [by apply short_str|]. apply (short_app 21 3); [apply short_d|by apply short_str]. }
  assert (short 64 (str "rb:(" ++ format_d (GetDataSize (_RecvDataBuffer c)) ++ str "/" ++
                    format_d (GetBufferSize (_RecvDataBuffer c)) ++ str "),")) as H3.
  { apply (short_app 4 60); [by apply short_str|]. apply (short_app 21 39); [apply short_d|].
    apply (short_app 1 38); [by apply short_str|]. apply (short_app 21 17); [apply short_d|by apply short_str]. }
  unfold Connector_GetReport, Connector_GetReportA. destruct (GetActive c); eexists.
  all: rewrite !(short_FormatA _ _ H1), !(short_FormatA _ _ H2), !(short_FormatA _ _ H3),
         !(short_FormatW _ _ H1), !(short_FormatW _ _ H2), !(short_FormatW _ _ H3) by (unfold BUFFER_MAX; lia).
  all: split_and!; [done..|]; apply (short_app 64 91); [done|by apply (short_app 27 64)].
Qed.
(** The report of a connector never stops its update: with the log
    [Connector::DoUpdate] does what it does without. *)
Theorem svr_DoUpdate_report_spec now biCurrTime c w : clock_ok now →
  ∃ w', svr_DoUpdate_report now biCurrTime c w = Ok (svr_DoUpdate biCurrTime c, w') ∧
    ((svr_DoUpdate biCurrTime c).2 = false → w' = w).
Proof.
  intros Hc. unfold svr_DoUpdate_report, svr_DoUpdate. destruct (_ <? _); [|by eexists].
  set (c' := set_timers _ _ _). destruct (Connector_GetReport_spec c') as (text & -> & _ & Ht).
  cbn [mbind outcome_bind]. rewrite PerformanceLog_w_short; [|done|by eapply short_weaken].
  cbn [mbind outcome_bind]. by eexists.
Qed.

(** The monitor report is two messages of the performance log, whatever the
    managers hold: no report is too long for the buffer of the log. *)
Theorem monitor_report_spec now connectors sessions w : clock_ok now →
  monitor_report now connectors sessions w =
    let say text w := ConsoleWrite Info_level (time_prefix now ++ str "[performance] " ++ text)
                        (AddMessage log_access log_open now (time_prefix now ++ str "[performance] " ++ text) w) in
    Ok (say (str "UserSessionState: " ++ ObjectMgrBase_GetReport sessions)
         (say (str "ConnectorState: " ++ ObjectPoolMgrBase_GetReport connectors) w)).
Proof.
  intros Hc. unfold monitor_report.
  rewrite PerformanceLog_w_short; [|done|eapply short_weaken; [apply short_app; [apply (short_str 16); done|apply report_short]|lia]].
  cbn [mbind outcome_bind].
  rewrite PerformanceLog_w_short; [done..|eapply short_weaken; [apply short_app; [apply (short_str 18); done|apply manager_report_short]|lia]].
Qed.
(** The library's DoUpdate reports once a minute: when it has, it does nothing
    until its time has come again. *)
Theorem framework_DoUpdate_once now time next curr later connectors w next' w' :
  clock_ok now → 0 ≤ time → time + MILLISEC_A_MIN < 2 ^ 63 → later ≤ time + MILLISEC_A_MIN →
  framework_Network_DoUpdate now time next curr connectors w = Ok (next', w') → next < curr →
  framework_Network_DoUpdate now time next' later connectors w' = Ok (next', w').
Proof.
  intros Hc Ht Hm Hl E Hn. unfold framework_Network_DoUpdate in E. rewrite (proj2 (Z.ltb_lt _ _)) in E by done.
  rewrite PerformanceLog_w_short in E; [|done|eapply short_weaken; [apply short_app; [apply (short_str 16); done|apply report_short]|lia]].
  cbn [mbind outcome_bind] in E. injection E as <- _. unfold framework_Network_DoUpdate.
  rewrite wraps_small by (unfold MILLISEC_A_MIN, MILLISEC_A_SEC in *; split; lia). by rewrite (proj2 (Z.ltb_ge _ _)) by done.
Qed.
End Writers.

(** What the manager's report says adds up: every object of the pool is free or
    in use. *)
Theorem report_adds_up m : pm_inv m → zlen (pm_poolList m) < 2 ^ 64 →
  ∃ p u f, ObjectPoolMgrBase_GetReport m = str "pool:" ++ p ++ str ", used:" ++ u ++ str ", free:" ++ f ∧
    spelled p = spelled u + spelled f.
Proof.
  intros Hi Hs. exists (format_size (zlen (pm_poolList m))), (format_size (zlen (pm_usedList m))), (format_size (zlen (pm_freeList m))).
  split; [done|]. pose proof (Permutation_length (pm_partition _ Hi)) as Hp. rewrite length_app in Hp.
  pose proof (zlen_nonneg (pm_usedList m)). pose proof (zlen_nonneg (pm_freeList m)).
  unfold zlen in *. rewrite !format_size_spells; lia.
Qed.
