(* ===== verification/ServerLaws.v ===== *)
(** * Correctness of the server
    What a client's message does to the streams of the other clients, what
    happens to sessions over their life, and where pointers outlive their
    objects. *)
From S2P Require Import Prelude Buffer Wire Character Protocol Packet ObjectPool CommandQueue.
From S2P Require Import PacketQueue TimeSet Config System Connector Network NetFrame SvrState Session Server.

(** ** Running code on the server's state *)
Section SvrLaws.
Context `{OS}.
Implicit Types (w : SvrWorld).

Lemma on_net_ok {A} (m : net A) w a n :
  m (sw_net w) = Ok (a, n) → on_net m w = Ok (a, set_sw_net n w).
Proof. unfold on_net, st_zoom. by intros ->. Qed.
Lemma us_get_ok p s w : sw_sessions w !! p = Some s → us_get p w = Ok (s, w).
Proof. unfold us_get. by intros ->. Qed.
Lemma us_set_ok p s s' w :
  sw_sessions w !! p = Some s → us_set p s' w = Ok (tt, set_sw_sessions (<[p := s']> (sw_sessions w)) w).
Proof. unfold us_set. by intros ->. Qed.
Lemma us_mod_ok p f s w :
  sw_sessions w !! p = Some s → us_mod p f w = Ok (tt, set_sw_sessions (<[p := f s]> (sw_sessions w)) w).
Proof. intros Hs. unfold us_mod, mbind, st_bind. by rewrite (us_get_ok _ _ _ Hs), (us_set_ok _ _ _ _ Hs). Qed.
Lemma character_get_ok p s w : sw_sessions w !! p = Some s → character_get p w = Ok (_nub s, w).
Proof. intros Hs. unfold character_get, mbind, st_bind. by rewrite (us_get_ok _ _ _ Hs). Qed.
Lemma character_get_dead p w : sw_sessions w !! p = None → character_get p w = Fault UseAfterFree.
Proof. intros Hs. unfold character_get, mbind, st_bind, us_get. by rewrite Hs. Qed.
Lemma zone_get_ok p z w : sw_zones w !! p = Some z → zone_get p w = Ok (z, w).
Proof. unfold zone_get. by intros ->. Qed.
Lemma zone_set_ok p z z' w :
  sw_zones w !! p = Some z → zone_set p z' w = Ok (tt, set_sw_zones (<[p := z']> (sw_zones w)) w).
Proof. unfold zone_set. by intros ->. Qed.
Lemma add_command_ok c w : add_command c w = Ok (tt, set_sw_cmds (sw_cmds w ++ [c]) w).
Proof. done. Qed.
End SvrLaws.

(** A loop whose body never changes anything but the queue. *)
Lemma st_each_queue {A} (f : A → svr unit) (g : A → command) l w :
  (∀ x w', x ∈ l → sw_sessions w' = sw_sessions w → f x w' = Ok (tt, set_sw_cmds (sw_cmds w' ++ [g x]) w')) →
  st_each f l w = Ok (tt, set_sw_cmds (sw_cmds w ++ (g <$> l)) w).
Proof.
  revert w; induction l as [|x l IH]; intros w Hf; cbn [st_each].
  { rewrite app_nil_r. by destruct w. }
  rewrite (Hf x w) by (set_solver || done). rewrite IH.
  - cbn. by rewrite <-app_assoc.
  - intros y w' Hy Hw'. apply Hf; [set_solver|done].
Qed.

(** ** Members of a zone *)

(** The buffer of a command and the bytes it sends. *)
Definition buffer_ok (buf : list Z) (len : Z) : Prop :=
  zlen buf = MAX_PACKET_BUFFER_SIZE ∧ 0 < len ≤ MAX_PACKET_BUFFER_SIZE.

(** The client behind a token: its live session, and the connector the
    session writes to. *)
Record member (w : SvrWorld) (token p c : Z) : Prop := {
  mb_session : ∃ s, sw_sessions w !! p = Some s ∧ session_GetToken s = token ∧ us_pConnector s = Some c;
  mb_user : _userMap w !! token = Some p }.

(** The members of a zone as its map lists them: token and session.  [conn]
    names the connector of a session; [sent c] are the bytes the kernel has
    taken for connector [c] and [said c] everything written to it. *)
Record zone_served `{OS} (w : SvrWorld) (items : list (Z * Z)) (conn : Z → Z) (sent said : Z → list Z)
    (budget : Z) : Prop := {
  zs_member : Forall (λ it, member w it.1 it.2 (conn it.2)) items;
  zs_stream : Forall (λ it, send_inv (conn it.2) (sw_net w, sent (conn it.2)) (said (conn it.2)) budget) items;
  zs_distinct : NoDup ((λ it, conn it.2) <$> items) }.

Section Broadcast.
Context `{OSLaws}.
Implicit Types (w : SvrWorld) (buf : list Z) (len : Z).

Lemma new_SendPacketToUser_ok token buf len :
  buffer_ok buf len →
  ∃ buf', new_SendPacketToUser token buf len = Ok (SendPacketToUser token buf' len) ∧
          buffer_ok buf' len ∧ sub buf' 0 len = sub buf 0 len.
Proof.
  intros [Hb Hl]. unfold new_SendPacketToUser, memcpy_s.
  assert (zlen (replicate (Z.to_nat MAX_PACKET_BUFFER_SIZE) 0) = MAX_PACKET_BUFFER_SIZE) as Hz
    by (rewrite zlen_replicate; unfold MAX_PACKET_BUFFER_SIZE; lia).
  revert Hz. generalize (replicate (Z.to_nat MAX_PACKET_BUFFER_SIZE) 0). intros zs Hz.
  rewrite (wrapu_small 64) by (split; unfold MAX_PACKET_BUFFER_SIZE in *; lia).
  destruct (Z.eqb_spec len 0); [lia|]. destruct (Z.ltb_spec MAX_PACKET_BUFFER_SIZE len); [lia|].
  rewrite peek_ok by lia. cbn [mbind outcome_bind].
  assert (zlen (sub buf 0 len) = len) as Hs by (rewrite zlen_sub; lia).
  rewrite poke_ok by lia. cbn [mbind outcome_bind]. eexists; split; [done|]. split; [split|].
  - rewrite zlen_splice; lia.
  - done.
  - apply sub_splice_prefix; lia.
Qed.

(** The copies a broadcast makes, one per member. *)
Definition user_copy token buf len : command :=
  match new_SendPacketToUser token buf len with Ok c => c | Fault _ => SendPacketToUser token buf len end.
Lemma user_copy_eq token buf len :
  buffer_ok buf len → ∃ buf', new_SendPacketToUser token buf len = Ok (user_copy token buf len) ∧
    user_copy token buf len = SendPacketToUser token buf' len ∧
    buffer_ok buf' len ∧ sub buf' 0 len = sub buf 0 len.
Proof.
  intros Hb. destruct (new_SendPacketToUser_ok token buf len Hb) as (buf' & E & ?).
  exists buf'. unfold user_copy. by rewrite E.
Qed.

Lemma PacketBroadcast_ok w zp z buf len :
  sw_zones w !! zp = Some z → buffer_ok buf len →
  Forall (λ it, ∃ s, sw_sessions w !! it.2 = Some s ∧ session_GetToken s = it.1) (std_items (_characterMap z)) →
  PacketBroadcast zp buf len w = Ok (tt, set_sw_cmds
    (sw_cmds w ++ ((λ it, user_copy it.1 buf len) <$> std_items (_characterMap z))) w).
Proof.
  intros Hz Hb Hall. unfold PacketBroadcast. erewrite st_bind_ok by (by apply zone_get_ok); cbv beta iota.
  apply st_each_queue. intros [token p] w' Hin Hw'.
  rewrite Forall_forall in Hall. destruct (Hall _ Hin) as (s & Hs & Ht). cbn [fst snd] in *.
  erewrite st_bind_ok by (by apply character_get_ok; rewrite Hw'); cbv beta iota.
  change (GetToken (_nub s)) with (session_GetToken s). rewrite Ht.
  destruct (user_copy_eq token buf len Hb) as (buf' & E & _). rewrite E. step_ret. done.
Qed.

(** A member whose session has been destroyed. *)
Lemma PacketBroadcast_dead w zp z it buf len :
  sw_zones w !! zp = Some z → buffer_ok buf len →
  it ∈ std_items (_characterMap z) → sw_sessions w !! it.2 = None →
  PacketBroadcast zp buf len w = Fault UseAfterFree.
Proof.
  intros Hz Hb Hit Hp. unfold PacketBroadcast. erewrite st_bind_ok by (by apply zone_get_ok). cbv beta iota.
  clear Hz. revert w Hp. induction Hit as [it l|it x l Hit IH]; intros w Hp; cbn [st_each].
  { unfold mbind, st_bind. by rewrite character_get_dead. }
  destruct (sw_sessions w !! x.2) as [s|] eqn:Hs.
  2:{ unfold mbind, st_bind. by rewrite character_get_dead. }
  erewrite st_bind_ok by (by apply character_get_ok). cbv beta.
  destruct (user_copy_eq (GetToken (_nub s)) buf len Hb) as (buf' & -> & _).
  step_ret. cbn [add_command st_modify]. by apply IH.
Qed.

(** A stream is a matter of its own connector. *)
Lemma send_inv_frame c n n' sent said budget :
  nw_conns n' !! c = nw_conns n !! c → sends c (nw_trace n') = sends c (nw_trace n) →
  send_inv c (n, sent) said budget → send_inv c (n', sent) said budget.
Proof.
  intros Hc Ht [(k & out & q & H1 & ?)]. split. exists k, out, q. cbn [fst snd] in *. by rewrite Hc, Ht.
Qed.

Hypothesis Haccept : sends_accepted.

Lemma SendPacket_raw_delivers w p s c sent said budget buf len :
  sw_sessions w !! p = Some s → us_pConnector s = Some c →
  send_inv c (sw_net w, sent) said budget → budget < 2 ^ 31 - 1 → buffer_ok buf len →
  ∃ n, SendPacket_raw p buf len w = Ok (RC_succ, set_sw_net n w) ∧
    send_inv c (n, sent) (said ++ sub buf 0 len) (budget + 1) ∧
    ∀ c', c' ≠ c → nw_conns n !! c' = nw_conns (sw_net w) !! c' ∧
                   sends c' (nw_trace n) = sends c' (nw_trace (sw_net w)).
Proof.
  intros Hs Hc Hinv Hbud [Hb Hl]. unfold SendPacket_raw. erewrite st_bind_ok by (by apply us_get_ok); cbv beta iota. rewrite Hc.
  unfold Connector_AddSendData. rewrite (wraps_small 32) by (try split; unfold MAX_PACKET_BUFFER_SIZE in *; lia).
  destruct (Write_ok c Haccept (sw_net w) sent said budget buf len Hinv Hbud) as (n & E & Hn);
    [split; lia|].
  exists n. split; [by apply on_net_ok|]. split; [done|]. exact (only_Write c _ _ _ _ _ E).
Qed.

Lemma user_copy_delivers w token p c sent said budget buf len :
  member w token p c → send_inv c (sw_net w, sent) said budget → budget < 2 ^ 31 - 1 → buffer_ok buf len →
  ∃ n, Operator_adds (user_copy token buf len) w = Ok (set_sw_net n w, []) ∧
    send_inv c (n, sent) (said ++ sub buf 0 len) (budget + 1) ∧
    ∀ c', c' ≠ c → nw_conns n !! c' = nw_conns (sw_net w) !! c' ∧
                   sends c' (nw_trace n) = sends c' (nw_trace (sw_net w)).
Proof.
  intros [(s & Hs & Ht & Hc) Hu] Hinv Hbud Hb.
  destruct (user_copy_eq token buf len Hb) as (buf' & _ & -> & Hb' & Hsub).
  destruct (SendPacket_raw_delivers (set_sw_cmds [] w) p s c sent said budget buf' len Hs Hc Hinv Hbud Hb')
    as (n & E & Hn & Hoth).
  exists n. rewrite Hsub in Hn. split; [|done].
  unfold Operator_adds. cbn [Operator]. unfold SendPacketToUser_Operator, GetUserSession.
  erewrite st_bind_ok by (by erewrite st_bind_ok by reflexivity). cbn [_userMap set_sw_cmds]. rewrite Hu.
  by erewrite st_bind_ok by exact E.
Qed.

Lemma deliver_all items w conn sent said budget buf len :
  zone_served w items conn sent said budget → budget < 2 ^ 31 - 1 → buffer_ok buf len →
  ∃ n, fire_list Operator_adds w ((λ it, user_copy it.1 buf len) <$> items) = Ok (set_sw_net n w, []) ∧
    Forall (λ it, send_inv (conn it.2) (n, sent (conn it.2)) (said (conn it.2) ++ sub buf 0 len) (budget + 1)) items ∧
    ∀ c', c' ∉ ((λ it, conn it.2) <$> items) →
      nw_conns n !! c' = nw_conns (sw_net w) !! c' ∧ sends c' (nw_trace n) = sends c' (nw_trace (sw_net w)).
Proof.
  intros Hz Hbud Hb. revert w Hz. induction items as [|[token p] items IH]; intros w [Hm Hst Hnd].
  { exists (sw_net w). by destruct w. }
  rewrite Forall_cons in Hm, Hst. destruct Hm as [Hm1 Hm], Hst as [Hst1 Hst].
  cbn [fmap list_fmap fst snd] in *. apply NoDup_cons in Hnd as [Hni Hnd].
  destruct (user_copy_delivers w token p _ _ _ _ buf len Hm1 Hst1 Hbud Hb) as (n1 & E1 & Hn1 & Ho1).
  destruct (IH (set_sw_net n1 w)) as (n2 & E2 & Hn2 & Ho2).
  { split; [|clear IH|done].
    - eapply Forall_impl; [exact Hm|]. intros it [? ?]. by split.
    - rewrite Forall_forall in *. intros it Hit.
      destruct (Ho1 (conn it.2)) as [? ?].
      { intros E. apply Hni. rewrite <-E. apply list_elem_of_fmap. by exists it. }
      eapply send_inv_frame; [done|done|]. by apply Hst. }
  exists n2. cbn [fire_list]. rewrite E1. cbn [mbind outcome_bind]. rewrite E2. cbn [mbind outcome_bind].
  split; [done|]. split.
  - apply Forall_cons. split; [|done]. cbn [snd]. destruct (Ho2 _ Hni). by eapply send_inv_frame.
  - intros c' Hc'. apply not_elem_of_cons in Hc' as [??]. destruct (Ho2 c'), (Ho1 c'); try done.
    cbn [sw_net set_sw_net] in *. split; congruence.
Qed.

(** The two ticks a broadcast takes. *)
Lemma broadcast_ok w zone zp z conn sent said budget buf len :
  sw_cmds w = [SendBroadcastToAllUser zone buf len] → buffer_ok buf len →
  _zoneMap w !! zone = Some zp → sw_zones w !! zp = Some z →
  zone_served w (std_items (_characterMap z)) conn sent said budget → budget < 2 ^ 31 - 1 →
  ∃ n, (_ ← svr_Tick; svr_Tick) w = Ok (tt, set_sw_net n (set_sw_cmds [] w)) ∧
    Forall (λ it, send_inv (conn it.2) (n, sent (conn it.2)) (said (conn it.2) ++ sub buf 0 len) (budget + 1))
      (std_items (_characterMap z)) ∧
    ∀ c', c' ∉ ((λ it, conn it.2) <$> std_items (_characterMap z)) →
      nw_conns n !! c' = nw_conns (sw_net w) !! c' ∧ sends c' (nw_trace n) = sends c' (nw_trace (sw_net w)).
Proof.
  intros Hcmds Hb Hzp Hz Hserved Hbud.
  assert (svr_Tick w = Ok (tt, set_sw_cmds ((λ it, user_copy it.1 buf len) <$> std_items (_characterMap z)) w)) as E1.
  { unfold svr_Tick. rewrite Hcmds. cbn [fire_list]. unfold Operator_adds. cbn [Operator].
    unfold SendBroadcastToAllUser_Operator, GetZone.
    erewrite st_bind_ok by (by erewrite st_bind_ok by reflexivity). cbn [_zoneMap set_sw_cmds]. rewrite Hzp.
    rewrite (PacketBroadcast_ok _ _ z) by first [done | destruct Hserved as [Hm _ _];
      eapply Forall_impl; [exact Hm|]; intros it [(s & ? & ? & _) _]; eauto].
    cbn. by rewrite app_nil_r. }
  rewrite (st_bind_ok _ _ _ _ _ E1). set (w1 := set_sw_cmds _ w).
  destruct (deliver_all (std_items (_characterMap z)) (set_sw_cmds [] w1) conn sent said budget buf len)
    as (n & E2 & Hn & Ho); [|done|done|].
  { destruct Hserved as [Hm Hst Hnd]. split; [|done|done].
    eapply Forall_impl; [exact Hm|]. intros it [? ?]. by split. }
  exists n. split; [|done]. unfold svr_Tick. change (sw_cmds w1) with ((λ it, user_copy it.1 buf len) <$> std_items (_characterMap z)).
  by rewrite E2.
Qed.

(** The buffer of a serialized packet. *)
Definition frame_buffer (m : s2c) (now : Z) : list Z :=
  splice (replicate (Z.to_nat MAX_PACKET_BUFFER_SIZE) 0) 0 (frame (s2c_payload m) 0 now).

(** What follows the handlers that broadcast. *)
Definition broadcasting (zone : Z) (m : s2c) (now : Z) w : SvrWorld :=
  set_sw_cmds (sw_cmds w ++ [SendBroadcastToAllUser zone (frame_buffer m now) (zlen (s2c_payload m) + 20)])
    (set_sw_net (set_nw_trace (nw_trace (sw_net w) ++ [sys_time32]) (sw_net w)) w).

Lemma add_broadcast_ok zone m w :
  s2c_wf m → ∃ now, (cmd ← new_SendBroadcastToAllUser zone m; _ ← add_command cmd; mret true) w =
    Ok (true, broadcasting zone m now w).
Proof.
  intros Hm. destruct (build_packet_ok m w Hm) as (now & w' & E & ->).
  exists now. unfold new_SendBroadcastToAllUser.
  erewrite st_bind_ok by (by erewrite st_bind_ok by exact E). done.
Qed.

Lemma frame_buffer_ok m now :
  s2c_wf m →
  buffer_ok (frame_buffer m now) (zlen (s2c_payload m) + 20) ∧
  sub (frame_buffer m now) 0 (zlen (s2c_payload m) + 20) = frame (s2c_payload m) 0 now.
Proof.
  intros Hm. unfold frame_buffer. pose proof (s2c_encode_size m Hm). pose proof (zlen_nonneg (s2c_encode m)).
  pose proof (zlen_s2c_payload m) as Hp.
  assert (zlen (replicate (Z.to_nat MAX_PACKET_BUFFER_SIZE) 0) = MAX_PACKET_BUFFER_SIZE) as Hz
    by (rewrite zlen_replicate; unfold MAX_PACKET_BUFFER_SIZE; lia).
  revert Hz. generalize (replicate (Z.to_nat MAX_PACKET_BUFFER_SIZE) 0). intros zs Hz.
  split; [split|].
  - rewrite zlen_splice; [done|lia|]. rewrite zlen_frame. unfold MAX_PACKET_BUFFER_SIZE in *. lia.
  - unfold MAX_PACKET_BUFFER_SIZE. lia.
  - apply sub_splice_prefix; [by rewrite zlen_frame|]. unfold MAX_PACKET_BUFFER_SIZE in *. lia.
Qed.

Lemma broadcasting_served zone m now w items conn sent said budget :
  zone_served w items conn sent said budget →
  zone_served (broadcasting zone m now w) items conn sent said budget.
Proof.
  intros [Hm Hst Hnd]. split; [| |done].
  - eapply Forall_impl; [exact Hm|]. intros it [? ?]. by split.
  - eapply Forall_impl; [exact Hst|]. intros it. apply send_inv_frame; [done|].
    unfold broadcasting. cbn [sw_net set_sw_cmds set_sw_net nw_trace set_nw_trace].
    rewrite sends_app. apply app_nil_r.
Qed.

(** A session keeps its token and its connector. *)
Lemma resession_served w self s s' items conn sent said budget :
  sw_sessions w !! self = Some s → session_GetToken s' = session_GetToken s → us_pConnector s' = us_pConnector s →
  zone_served w items conn sent said budget →
  zone_served (set_sw_sessions (<[self := s']> (sw_sessions w)) w) items conn sent said budget.
Proof.
  intros Hs Ht' Hc' [Hm Hst Hnd]. split; [|done|done].
  eapply Forall_impl; [exact Hm|]. intros [t p] [(s0 & Hs0 & Ht & Hc) Hu]. split; [|done].
  cbn [fst snd sw_sessions set_sw_sessions] in *. destruct (decide (p = self)) as [->|Hne].
  - rewrite Hs in Hs0. injection Hs0 as <-. eexists. rewrite lookup_insert_eq. split; [done|]. by rewrite Ht', Hc'.
  - eexists. by rewrite lookup_insert_ne.
Qed.
(** Moving a character changes neither its token nor its connector. *)
Lemma move_served w self s x y items conn sent said budget :
  sw_sessions w !! self = Some s →
  zone_served w items conn sent said budget →
  zone_served (set_sw_sessions (<[self := set_nub (SetPos2 (_nub s) x y) s]> (sw_sessions w)) w)
    items conn sent said budget.
Proof. intros Hs. by apply (resession_served _ _ s). Qed.

Lemma C2S_Move_ok self p s w :
  sw_sessions w !! self = Some s → wire_wf p → in_s 64 (session_GetToken s) →
  ∃ now, C2S_Move self p w = Ok (true, broadcasting (GetZoneId (_nub s))
      (S_MOVE (mkSC_P_MOVE (session_GetToken s) (cs_move_x p) (cs_move_y p))) now
      (set_sw_sessions (<[self := set_nub (SetPos2 (_nub s) (cs_move_x p) (cs_move_y p)) s]> (sw_sessions w)) w)).
Proof.
  intros Hs Hp Ht. unfold C2S_Move.
  erewrite st_bind_ok by (by apply us_get_ok). cbv beta.
  erewrite st_bind_ok by (by apply us_mod_ok). cbv beta.
  apply (add_broadcast_ok _ (S_MOVE (mkSC_P_MOVE (session_GetToken s) (cs_move_x p) (cs_move_y p)))).
  destruct Hp. by split_and!.
Qed.
End Broadcast.

(** a move, from the packet to the sockets.  A [CS_P_MOVE] frame is queued
    for the session [self] of an authenticated character, and no command is
    waiting.  Processing the packet and two passes of the command queue do not
    fault, store the new position, and append to the stream of every member of
    the character's zone exactly the frame of [SC_P_MOVE] with the character's
    token and that position, once; every other connector is left alone. *)
Theorem move_reaches_zone `{OSLaws} w self s p seq rest t zp z conn sent said budget :
  sends_accepted → wire_wf p →
  sw_cmds w = [] → sw_sessions w !! self = Some s → in_s 64 (session_GetToken s) →
  _zoneMap w !! GetZoneId (_nub s) = Some zp → sw_zones w !! zp = Some z →
  zone_served w (std_items (_characterMap z)) conn sent said budget → budget < 2 ^ 31 - 1 →
  ∃ now n, let reply := frame (s2c_payload (S_MOVE (mkSC_P_MOVE (session_GetToken s) (cs_move_x p) (cs_move_y p)))) 0 now in
    (_ ← MessageProcess self (frame (c2s_payload (C_MOVE p)) seq t ++ rest) 32; _ ← svr_Tick; svr_Tick) w =
      Ok (tt, set_sw_net n (set_sw_sessions
        (<[self := set_nub (SetPos2 (_nub s) (cs_move_x p) (cs_move_y p)) s]> (sw_sessions w)) w)) ∧
    Forall (λ it, send_inv (conn it.2) (n, sent (conn it.2)) (said (conn it.2) ++ reply) (budget + 1))
      (std_items (_characterMap z)) ∧
    ∀ c', c' ∉ ((λ it, conn it.2) <$> std_items (_characterMap z)) →
      nw_conns n !! c' = nw_conns (sw_net w) !! c' ∧ sends c' (nw_trace n) = sends c' (nw_trace (sw_net w)).
Proof.
  intros Ha Hp Hcmds Hs Ht Hzp Hz Hserved Hbud.
  destruct (C2S_Move_ok self p s w Hs Hp Ht) as (now & E1). exists now.
  set (m := S_MOVE (mkSC_P_MOVE (session_GetToken s) (cs_move_x p) (cs_move_y p))) in *.
  set (w1 := set_sw_sessions _ w) in *.
  assert (s2c_wf m) as Hm by (destruct Hp; by split_and!).
  destruct (frame_buffer_ok m now Hm) as [Hb Hsub].
  destruct (broadcast_ok Ha (broadcasting (GetZoneId (_nub s)) m now w1) (GetZoneId (_nub s)) zp z conn sent said budget
    (frame_buffer m now) (zlen (s2c_payload m) + 20)) as (n & E2 & Hn & Ho); [|exact Hb|done|done| |done|].
  { unfold broadcasting. cbn [sw_cmds set_sw_cmds set_sw_net w1 set_sw_sessions]. by rewrite Hcmds. }
  { by apply broadcasting_served, move_served. }
  exists n. cbn zeta. split; [|split].
  - pose proof (MessageProcess_ok self (C_MOVE p) (repr_PacketTail (mkPacketTail PACKET_CHECK_TAIL_KEY seq (u32 t)) ++ rest) w Hp) as E0.
    assert (zlen (c2s_payload (C_MOVE p)) + 20 = 32) as Hl by (rewrite zlen_c2s_payload; destruct p; done).
    rewrite Hl in E0. cbn [c2s_handle] in E0. rewrite E1 in E0. unfold frame at 1. rewrite <-!app_assoc.
    rewrite (st_bind_ok _ _ _ _ _ E0). rewrite E2. destruct w. cbn in Hcmds. by subst.
  - rewrite Hsub in Hn. exact Hn.
  - intros c' Hc'. destruct (Ho c' Hc') as [Hc1 Ht1]. split; [exact Hc1|]. rewrite Ht1.
    unfold broadcasting. cbn [sw_net set_sw_cmds set_sw_net nw_trace set_nw_trace].
    rewrite sends_app. apply app_nil_r.
Qed.

Lemma demo_accepts : sends_accepted.
Proof. intros tr s p d. left. discriminate. Qed.
Lemma demo_items : std_items (_characterMap (mkZone 1 {[ 100 := 10; 101 := 11 ]})) = [(100, 10); (101, 11)].
Proof. vm_compute. reflexivity. Qed.
Lemma demo_served : zone_served demo_svr [(100, 10); (101, 11)] (λ p, p - 9) (λ _, []) (λ _, []) 0.
Proof.
  split.
  - repeat constructor; try reflexivity; eexists; split_and!; reflexivity.
  - repeat constructor; eexists _, None, []; (split_and!; [reflexivity|apply send_state_socket, send_state_new|..]);
      try done; vm_compute; discriminate.
  - repeat constructor; vm_compute; set_solver.
Qed.
Definition demo_reply (now : Z) : list Z := frame (s2c_payload (S_MOVE (mkSC_P_MOVE 100 3 4))) 0 now.
Lemma move_reaches_zone_witness :
  ∃ now n, let reply := demo_reply now in
    (_ ← MessageProcess 10 (frame (c2s_payload (C_MOVE (mkCS_P_MOVE 3 4))) 0 9 ++ [205]) 32; _ ← svr_Tick; svr_Tick)
      demo_svr = Ok (tt, set_sw_net n (set_sw_sessions
        (<[10 := set_nub (SetPos2 (_nub (demo_session 1 100 1)) 3 4) (demo_session 1 100 1)]> (sw_sessions demo_svr)) demo_svr)) ∧
    Forall (λ it, send_inv (it.2 - 9) (n, []) ([] ++ reply) (0 + 1)) [(100, 10); (101, 11)] ∧
    ∀ c', c' ∉ ((λ it, it.2 - 9) <$> [(100, 10); (101, 11)]) →
      nw_conns n !! c' = nw_conns (sw_net demo_svr) !! c' ∧ sends c' (nw_trace n) = sends c' (nw_trace (sw_net demo_svr)).
Proof.
  pose proof demo_items as Hi. rewrite <-Hi.
  apply (move_reaches_zone demo_svr 10 (demo_session 1 100 1) (mkCS_P_MOVE 3 4) 0 [205] 9 20
    (mkZone 1 {[ 100 := 10; 101 := 11 ]}) (λ p, p - 9) (λ _, []) (λ _, []) 0 demo_accepts);
    try reflexivity; try (vm_compute; intuition discriminate).
  rewrite Hi. exact demo_served.
Defined.
