(* ===== verification/ThreadLaws.v ===== *)
(** * One iteration of the process thread
    What [App::ProcessThread] of svr/process.cpp does with a queued packet:
    a good frame, a frame with a bad tail, a frame too short for its tail. *)
From S2P Require Import Prelude Buffer Wire Character Protocol Packet ObjectPool CommandQueue.
From S2P Require Import PacketQueue TimeSet Config System Connector Network NetFrame SvrState Session Server ServerLaws.

Section ThreadLaws.
Context `{OSLaws}.
Implicit Types (w : SvrWorld).

(** The packet at the head of the queue: its address, the connector it came
    from, its bytes. *)
Record front w (x c : Z) (bytes : list Z) (l : list Z) : Prop := {
  fr_phases : five_phases (nw_recvq (sw_net w));
  fr_items : items (nw_recvq (sw_net w)) 0 = x :: l;
  fr_packet : packet_of (nw_packets (sw_net w)) x = Some (Some c, bytes) }.

(** The state with that packet taken off the queue. *)
Definition popped (l : list Z) w : SvrWorld :=
  set_sw_net (set_nw_recvq (with_items (nw_recvq (sw_net w)) 0 l) (sw_net w)) w.

Lemma pop_packet_front (n : NetWorld) x l :
  five_phases (nw_recvq n) → items (nw_recvq n) 0 = x :: l →
  pop_packet n = Ok (Some (Some x), set_nw_recvq (with_items (nw_recvq n) 0 l) n).
Proof.
  intros Hq Hi. unfold pop_packet, RecvPacketQueue_Pop. cbn [Z.gtb Z.compare orb].
  change (MAX_PACKET_QUEUE_PHASE <=? 0) with false. cbv iota. unfold Pop_or_wait.
  rewrite Pop_eq by (done || lia). rewrite Hi. reflexivity.
Qed.
(** An empty queue: the thread blocks, or is woken by a stale event. *)
Lemma pop_packet_empty (n : NetWorld) :
  five_phases (nw_recvq n) → items (nw_recvq n) 0 = [] →
  ∃ r q, pop_packet n = Ok (r, set_nw_recvq q n) ∧ (r = None ∨ r = Some None) ∧ five_phases q ∧ items q 0 = [].
Proof.
  intros Hq Hi. destruct (RecvPacketQueue_Pop_spec (nw_recvq n) 0 Hq) as [E _]. cbn [Z.ltb Z.leb Z.compare orb] in E.
  unfold pop_packet. rewrite E, Hi. destruct (signalled (nw_recvq n) 0).
  - destruct (with_event_spec (nw_recvq n) 0 false Hq) as (H5 & _ & Hit); [lia|].
    eexists (Some None), _. split_and!; [done|by right|done|by rewrite Hit].
  - exists None, (nw_recvq n). split_and!; [by destruct n|by left|done|done].
Qed.
Lemma pop_front w x c bytes l :
  front w x c bytes l → on_net pop_packet w = Ok (Some (Some x), popped l w).
Proof. intros [Hq Hi _]. apply on_net_ok. by apply pop_packet_front. Qed.

(** The step up to the message, for a session that is known. *)
Lemma ProcessThread_front prev w x c bytes l ok :
  front w x c bytes l → (∀ more, tail_valid (bytes ++ more) = Ok ok) →
  ∃ more, ProcessThread_step prev w =
    (_ ← (if negb ok then svr_Disconnect prev else mret tt);
     k ← on_net (conn_get c);
     _ ← match GetParam k with
         | Some pUserSession => _ ← MessageProcess pUserSession (bytes ++ more) (i32 (zlen bytes)); mret tt
         | None =>
             pUserSession ← session_GetFreeObject;
             _ ← on_net (conn_mod c (SetParam (Some pUserSession)));
             _ ← us_mod pUserSession (SetConnector (Some c));
             _ ← MessageProcess pUserSession (bytes ++ more) (i32 (zlen bytes)); mret tt
         end;
     _ ← on_net (release_packet x);
     mret (Some (Some c))) (popped l w).
Proof.
  intros Hf Hok. destruct (packet_of_cell _ _ _ _ (fr_packet _ _ _ _ _ Hf)) as (pk & more & Hpk & Hc & Hn & Hb).
  exists more. unfold ProcessThread_step. rewrite (st_bind_ok _ _ _ _ _ (pop_front _ _ _ _ _ Hf)). cbv iota.
  erewrite st_bind_ok.
  2:{ apply on_net_ok. unfold load_packet. cbn [sw_net popped set_sw_net nw_packets set_nw_recvq]. by rewrite Hpk. }
  cbv beta. rewrite Hb, Hc, Hn. rewrite Hok. step_ret. reflexivity.
Qed.

(** The tail of a message, whatever its check word is. *)
Lemma tail_valid_message payload tail more :
  zlen payload + 20 < 2 ^ 32 → zlen tail = 12 →
  tail_valid ((message_head payload ++ payload ++ tail) ++ more) =
    Ok (PACKET_CHECK_TAIL_KEY =? le_dec (sub tail 0 4)).
Proof.
  intros Hp Ht. pose proof (zlen_nonneg payload). pose proof (zlen_nonneg more).
  assert (zlen (message_head payload) = 8) as Hh by (unfold message_head; by rewrite zlen_repr_PacketHead).
  unfold tail_valid, sizeof_PacketHead, sizeof_PacketTail.
  rewrite peek_ok by (rewrite ?zlen_app; lia). cbn [mbind outcome_bind].
  rewrite <-!app_assoc, message_head_read by lia. cbn [ui32Length].
  rewrite peek_ok by (rewrite ?zlen_app; lia). cbn [mbind outcome_bind].
  rewrite sub_app_skip by lia. rewrite sub_app_skip by lia. rewrite sub_app_prefix by lia.
  by replace (zlen payload + 20 - 12 - zlen (message_head payload) - zlen payload) with 0 by lia.
Qed.
Lemma ProcessThread_frame_ok prev w x c l k p m seq t :
  c2s_wf m → front w x c (frame (c2s_payload m) seq t) l →
  nw_conns (sw_net w) !! c = Some k → _param k = Some p →
  ProcessThread_step prev w =
    (_ ← c2s_handle p m; _ ← on_net (release_packet x); mret (Some (Some c))) (popped l w).
Proof.
  intros Hm Hf Hk Hp. pose proof (c2s_encode_size m Hm). pose proof (zlen_nonneg (c2s_encode m)).
  pose proof (zlen_c2s_payload m) as Hl.
  destruct (ProcessThread_front prev w x c (frame (c2s_payload m) seq t) l true Hf) as (more & ->).
  { intros more. unfold frame. fold (message_head (c2s_payload m)).
    rewrite tail_valid_message by (rewrite ?zlen_repr_PacketTail; lia).
    unfold repr_PacketTail. rewrite sub_app_here by (by rewrite zlen_le_enc). by rewrite le_dec_enc. }
  cbn [negb]. erewrite st_bind_ok by reflexivity. cbv beta.
  erewrite st_bind_ok by (apply on_net_ok, conn_get_ok; exact Hk). cbv beta. unfold GetParam. rewrite Hp.
  change (set_sw_net (sw_net (popped l w)) (popped l w)) with (popped l w).
  rewrite zlen_frame, (wraps_small 32) by (try split; lia).
  unfold frame. fold (message_head (c2s_payload m)). rewrite <-!app_assoc.
  unfold mbind, st_bind. rewrite MessageProcess_ok by done.
  by destruct (c2s_handle p m _) as [[]|].
Qed.
End ThreadLaws.

(** C9: a frame, from the queue to its handler.  When the packet at the head
    of the receive queue holds the frame of a well-formed client message [m]
    and came from a connector that belongs to the session [p], an iteration of
    the process thread runs the handler of [m] for [p], and then frees the
    packet; no connector is disconnected, whatever the previous one was. *)
Theorem ProcessThread_frame `{OSLaws} prev w x c l k p m seq t :
  c2s_wf m → front w x c (frame (c2s_payload m) seq t) l →
  nw_conns (sw_net w) !! c = Some k → _param k = Some p →
  ProcessThread_step prev w =
    (_ ← c2s_handle p m; _ ← on_net (release_packet x); mret (Some (Some c))) (popped l w).
Proof. apply ProcessThread_frame_ok. Qed.

(** C30: a bad tail hurts the wrong client.  When the check word of the tail is
    not the key, the thread closes the connection the *previous* packet came
    from, if it is open, and then processes the packet as if it were good. *)
Theorem ProcessThread_bad_tail `{OSLaws} c0 k0 w x c l k p m tail :
  c2s_wf m → zlen tail = 12 → le_dec (sub tail 0 4) ≠ PACKET_CHECK_TAIL_KEY →
  front w x c (message_head (c2s_payload m) ++ c2s_payload m ++ tail) l →
  nw_conns (sw_net w) !! c = Some k → _param k = Some p → c0 ≠ c →
  nw_conns (sw_net w) !! c0 = Some k0 → _socket k0 ≠ INVALID_SOCKET →
  ∃ n, ProcessThread_step (Some c0) w =
      (_ ← c2s_handle p m; _ ← on_net (release_packet x); mret (Some (Some c))) (set_sw_net n (popped l w)) ∧
    nw_conns n = <[c0 := set_socket INVALID_SOCKET k0]> (nw_conns (sw_net w)) ∧
    sys_closesocket (_socket k0) ∈ nw_trace n.
Proof.
  intros Hm Ht Hbad Hf Hk Hp Hne Hk0 Hs0. pose proof (c2s_encode_size m Hm). pose proof (zlen_nonneg (c2s_encode m)).
  pose proof (zlen_c2s_payload m) as Hl.
  destruct (ProcessThread_front (Some c0) w x c (message_head (c2s_payload m) ++ c2s_payload m ++ tail) l false Hf)
    as (more & ->).
  { intros more. rewrite tail_valid_message by lia. by rewrite (proj2 (Z.eqb_neq _ _)). }
  cbn [negb]. set (w1 := popped l w).
  destruct (Disconnect_open c0 (sw_net w1) k0) as (n & tr & E & Hn & _ & _ & Htr & Hin & _); [exact Hk0|done|].
  exists n. split; [|split; [exact Hn|rewrite Htr; apply elem_of_app; by right]].
  erewrite st_bind_ok by (unfold svr_Disconnect; by erewrite st_bind_ok by (apply on_net_ok; exact E)). cbv beta.
  erewrite st_bind_ok by (apply on_net_ok, conn_get_ok; cbn [sw_net set_sw_net]; rewrite Hn, lookup_insert_ne by done; exact Hk).
  cbv beta. unfold GetParam. rewrite Hp.
  change (set_sw_net (sw_net (set_sw_net n w1)) (set_sw_net n w1)) with (set_sw_net n w1).
  assert (zlen (message_head (c2s_payload m) ++ c2s_payload m ++ tail) = zlen (c2s_payload m) + 20) as ->.
  { unfold message_head. rewrite !zlen_app, zlen_repr_PacketHead. lia. }
  rewrite (wraps_small 32) by (try split; lia). rewrite <-!app_assoc.
  unfold mbind, st_bind. rewrite MessageProcess_ok by done.
  by destruct (c2s_handle p m _) as [[]|].
Qed.

(** a frame shorter than its tail.  The receive side cuts and queues any
    frame whose head announces at least one byte; one of 8 to 11 bytes makes
    the process thread look for the tail in front of the packet's buffer. *)
Theorem ProcessThread_short_frame `{OSLaws} prev w x c l bytes :
  front w x c bytes l → 8 ≤ zlen bytes < 12 → cut bytes = zlen bytes →
  feed [] bytes = Some (bytes, []) ∧ ProcessThread_step prev w = Fault OutOfBounds.
Proof.
  intros Hf Hl Hcut. split.
  { unfold feed. cbn [app]. rewrite Hcut, sub_all, Z.sub_diag, sub_nil. unfold MAX_PACKET_BUFFER_SIZE.
    destruct (Z.ltb_spec (1024 * 10) (zlen bytes)); [lia|]. by rewrite (proj2 (Z.ltb_lt _ _)) by lia. }
  assert (ui32Length (read_PacketHead bytes) < 12) as Hs.
  { unfold cut in Hcut. change (read_PacketHead bytes) with (queue_head bytes).
    destruct (zlen bytes <? 8); [lia|]. destruct (negb _); [lia|]. destruct (zlen bytes <? _) in Hcut; lia. }
  destruct (packet_of_cell _ _ _ _ (fr_packet _ _ _ _ _ Hf)) as (pk & more & Hpk & Hc & Hn & Hb).
  unfold ProcessThread_step. rewrite (st_bind_ok _ _ _ _ _ (pop_front _ _ _ _ _ Hf)). cbv iota.
  erewrite st_bind_ok.
  2:{ apply on_net_ok. unfold load_packet. cbn [sw_net popped set_sw_net nw_packets set_nw_recvq]. by rewrite Hpk. }
  cbv beta. rewrite Hb. apply st_bind_fault. unfold st_lift, tail_valid, sizeof_PacketHead, sizeof_PacketTail.
  pose proof (zlen_nonneg more). rewrite peek_ok by (rewrite ?zlen_app; lia). cbn [mbind outcome_bind].
  change (read_PacketHead (sub (bytes ++ more) 0 8)) with (queue_head (sub (bytes ++ more) 0 8)).
  rewrite queue_head_sub by (rewrite zlen_app; lia). rewrite queue_head_app by lia.
  rewrite peek_fault; [done|]. unfold queue_head. lia.
Qed.

(** ** Instances *)

(** One packet from connector 1, which session 10 owns, waits in the queue of
    [demo_svr]; connector 2 is open. *)
Definition demo_packet (bytes : list Z) : PacketStruct :=
  mkPacketStruct (mkBufferBase (bytes ++ [205]) (zlen bytes) MAX_PACKET_BUFFER_SIZE 0 0 0) (Some 1).
Definition demo_owned : Connector := set_param (Some 10) (set_socket 50 (Connector_new 1)).
Definition demo_other : Connector := set_socket 51 (Connector_new 2).
Definition demo_front (bytes : list Z) : SvrWorld :=
  set_sw_net (set_nw_packets (mkPacketHeap {[ 5 := demo_packet bytes ]} 6)
    (set_nw_recvq (with_items PacketDataQueue_init 0 [5])
      (set_nw_conns {[ 1 := demo_owned; 2 := demo_other ]} demo_net))) demo_svr.
Lemma demo_front_ok bytes : front (demo_front bytes) 5 1 bytes [].
Proof.
  pose proof (zlen_nonneg bytes).
  split; [split; reflexivity|reflexivity|]. unfold packet_of, demo_front.
  cbn [sw_net set_sw_net nw_packets set_nw_packets ph_cells]. rewrite lookup_singleton_eq. cbn [mbind option_bind].
  unfold demo_packet. cbn [ps_base _nDataSize _pBuffer _pConnector].
  rewrite sub_app_here by done. rewrite zlen_app. change (zlen [205]) with 1. by rewrite bool_decide_true by lia.
Qed.
Definition demo_move : c2s := C_MOVE (mkCS_P_MOVE 3 4).
Lemma demo_move_wf : c2s_wf demo_move.
Proof. vm_compute. intuition discriminate. Qed.

Lemma ProcessThread_frame_witness :
  ProcessThread_step None (demo_front (frame (c2s_payload demo_move) 0 9)) =
    (_ ← c2s_handle 10 demo_move; _ ← on_net (release_packet 5); mret (Some (Some 1)))
      (popped [] (demo_front (frame (c2s_payload demo_move) 0 9))).
Proof.
  apply (ProcessThread_frame None (demo_front (frame (c2s_payload demo_move) 0 9)) 5 1 [] demo_owned 10 demo_move 0 9).
  - exact demo_move_wf.
  - apply demo_front_ok.
  - reflexivity.
  - reflexivity.
Defined.

Definition demo_bad : list Z := message_head (c2s_payload demo_move) ++ c2s_payload demo_move ++ replicate 12 7.
Lemma ProcessThread_bad_tail_witness :
  ∃ n, ProcessThread_step (Some 2) (demo_front demo_bad) =
      (_ ← c2s_handle 10 demo_move; _ ← on_net (release_packet 5); mret (Some (Some 1)))
        (set_sw_net n (popped [] (demo_front demo_bad))) ∧
    nw_conns n = <[2 := set_socket INVALID_SOCKET demo_other]> (nw_conns (sw_net (demo_front demo_bad))) ∧
    sys_closesocket (_socket demo_other) ∈ nw_trace n.
Proof.
  apply (ProcessThread_bad_tail 2 demo_other (demo_front demo_bad) 5 1 [] demo_owned 10 demo_move (replicate 12 7)).
  - exact demo_move_wf.
  - reflexivity.
  - vm_compute. discriminate.
  - apply demo_front_ok.
  - reflexivity.
  - reflexivity.
  - discriminate.
  - reflexivity.
  - discriminate.
Defined.

Lemma ProcessThread_short_frame_witness :
  feed [] [0; 0; 0; 0; 8; 0; 0; 0] = Some ([0; 0; 0; 0; 8; 0; 0; 0], []) ∧
  ProcessThread_step None (demo_front [0; 0; 0; 0; 8; 0; 0; 0]) = Fault OutOfBounds.
Proof.
  apply (ProcessThread_short_frame None (demo_front [0; 0; 0; 0; 8; 0; 0; 0]) 5 1 []).
  - apply demo_front_ok.
  - split; [discriminate|reflexivity].
  - vm_compute. reflexivity.
Defined.
