(* ===== verification/SessionLaws.v ===== *)
(** * The life of a session
    Heartbeats, disconnection, and the pointers that survive a session:
    svr/user_session.cpp, svr/user_session_mgr.cpp and their use by
    svr/command_unit_process.cpp. *)
From S2P Require Import Prelude Buffer Wire Character Protocol Packet ObjectPool CommandQueue.
From S2P Require Import PacketQueue TimeSet Config System Connector Network NetFrame SvrState Session Server ServerLaws.

Section SessionLaws.
Context `{OSLaws}.
Implicit Types (w : SvrWorld) (s : UserSession).

(** ** DoUpdate *)
Definition put_session (p : Z) (s : UserSession) w : SvrWorld :=
  set_sw_sessions (<[p := s]> (sw_sessions w)) w.
Lemma put_lookup p s w : sw_sessions (put_session p s w) !! p = Some s.
Proof. apply lookup_insert_eq. Qed.
Lemma put_put p s1 s2 w : put_session p s1 (put_session p s2 w) = put_session p s1 w.
Proof. unfold put_session. cbn. by rewrite insert_insert_eq. Qed.

(** The connector of a session has an open socket. *)
Definition connected w s : bool :=
  match us_pConnector s with
  | Some c => match nw_conns (sw_net w) !! c with Some k => GetActive k | None => false end
  | None => false
  end.
Definition connector_live w s : Prop :=
  ∀ c, us_pConnector s = Some c → is_Some (nw_conns (sw_net w) !! c).

Lemma connector_active_ok w s :
  connector_live w s → connector_active (us_pConnector s) w = Ok (connected w s, w).
Proof.
  intros Hl. unfold connector_active, connected. destruct (us_pConnector s) as [c|] eqn:Hc; [|done].
  destruct (Hl c Hc) as [k Hk]. rewrite Hk.
  erewrite st_bind_ok by (apply on_net_ok, conn_get_ok; exact Hk). by destruct w.
Qed.

Lemma DoUpdate_not_due p s now w :
  sw_sessions w !! p = Some s → now ≤ us_biUpdateTime s → UserSession_DoUpdate p now w = Ok (tt, w).
Proof.
  intros Hs Hd. unfold UserSession_DoUpdate. erewrite st_bind_ok by (by apply us_get_ok). cbv beta.
  by rewrite (proj2 (Z.ltb_ge _ _)).
Qed.

Lemma DoUpdate_gone p s now w :
  sw_sessions w !! p = Some s → us_biUpdateTime s < now → connector_live w s → connected w s = false →
  UserSession_DoUpdate p now w = Ok (tt, put_session p (set_us_biUpdateTime INT64_MAX s)
    (set_releaseList (_releaseList w ++ [p]) w)).
Proof.
  intros Hs Hd Hl Hc. unfold UserSession_DoUpdate. erewrite st_bind_ok by (by apply us_get_ok). cbv beta.
  rewrite (proj2 (Z.ltb_lt _ _)) by done.
  erewrite st_bind_ok by (by apply us_mod_ok). cbv beta.
  fold (put_session p (set_us_biUpdateTime (i64 (now + MILLISEC_A_SEC * 5)) s) w). set (w1 := put_session _ _ w).
  erewrite st_bind_ok by (apply (connector_active_ok w1 s); exact Hl). cbv beta.
  replace (connected w1 s) with false by (symmetry; exact Hc). cbn [negb].
  erewrite st_bind_ok by reflexivity. cbv beta.
  erewrite us_mod_ok by apply lookup_insert_eq. unfold put_session. cbn. by rewrite insert_insert_eq.
Qed.

Definition beat (now : Z) s : UserSession :=
  set_us_heartbeat (i64 (now + MILLISEC_A_SEC * 15)) (u32 (us_nHeartbeatCount s + 1))
    (set_us_biUpdateTime (i64 (now + MILLISEC_A_SEC * 5)) s).

Lemma DoUpdate_quiet p s now w :
  sw_sessions w !! p = Some s → us_biUpdateTime s < now → connector_live w s → connected w s = true →
  now ≤ us_biHeartbeatTimer s →
  UserSession_DoUpdate p now w = Ok (tt, put_session p (set_us_biUpdateTime (i64 (now + MILLISEC_A_SEC * 5)) s) w).
Proof.
  intros Hs Hd Hl Hc Hh. unfold UserSession_DoUpdate. erewrite st_bind_ok by (by apply us_get_ok). cbv beta.
  rewrite (proj2 (Z.ltb_lt _ _)) by done.
  erewrite st_bind_ok by (by apply us_mod_ok). cbv beta.
  fold (put_session p (set_us_biUpdateTime (i64 (now + MILLISEC_A_SEC * 5)) s) w). set (w1 := put_session _ _ w).
  erewrite st_bind_ok by (apply (connector_active_ok w1 s); exact Hl). cbv beta.
  replace (connected w1 s) with true by (symmetry; exact Hc). cbn [negb].
  erewrite st_bind_ok by (apply us_get_ok, put_lookup). cbv beta.
  change (us_pConnector (set_us_biUpdateTime (i64 (now + MILLISEC_A_SEC * 5)) s)) with (us_pConnector s).
  erewrite st_bind_ok by (apply (connector_active_ok w1 s); exact Hl). cbv beta.
  change (us_biHeartbeatTimer (set_us_biUpdateTime (i64 (now + MILLISEC_A_SEC * 5)) s)) with (us_biHeartbeatTimer s).
  by rewrite (proj2 (Z.ltb_ge _ _)).
Qed.

(** Every serialized packet sent to a session reaches its stream whole. *)
Lemma SendPacket_delivers m w p s c sent said budget k :
  sends_accepted → s2c_wf m → sw_sessions w !! p = Some s → us_pConnector s = Some c →
  send_inv c (sw_net w, sent) said budget → budget < 2 ^ 31 - 1 → nw_conns (sw_net w) !! c = Some k →
  ∃ now n k', SendPacket p m w = Ok (RC_succ, set_sw_net n w) ∧
    send_inv c (n, sent) (said ++ frame (s2c_payload m) 0 now) (budget + 1) ∧
    nw_conns n !! c = Some k' ∧ _param k' = _param k.
Proof.
  intros Ha Hm Hs Hc Hinv Hbud Hk. destruct (build_packet_ok m w Hm) as (now & w' & E & ->).
  fold (frame_buffer m now) in E. destruct (frame_buffer_ok m now Hm) as [Hb Hsub].
  set (w1 := set_sw_net _ w) in *.
  assert (send_inv c (sw_net w1, sent) said budget) as Hinv1.
  { apply (send_inv_frame c (sw_net w)); [done| |exact Hinv]. cbn [w1 sw_net set_sw_net nw_trace set_nw_trace].
    rewrite sends_app. apply app_nil_r. }
  destruct (SendPacket_raw_delivers Ha w1 p s c sent said budget _ _ Hs Hc Hinv1 Hbud Hb) as (n & E1 & Hn & _).
  assert (∃ k', nw_conns n !! c = Some k' ∧ _param k' = _param k) as (k' & Hk' & Hp').
  { unfold SendPacket_raw in E1. rewrite (st_bind_ok _ _ _ _ _ (us_get_ok p s w1 Hs)), Hc in E1.
    unfold on_net, st_zoom, Connector_AddSendData in E1.
    destruct (Network_Write _ _ _ _) as [[r n']|] eqn:EW; [|done].
    assert (n' = n) as -> by (by injection E1).
    exact (links_kept_conn _ _ c k (links_Write _ _ _ _ _ _ EW) Hk). }
  exists now, n, k'. rewrite Hsub in Hn. split; [|done].
  unfold SendPacket. rewrite (st_bind_ok _ _ _ _ _ E). exact E1.
Qed.

(** A session whose stream is in order is connected. *)
Lemma stream_connected w s c sent said budget :
  us_pConnector s = Some c → send_inv c (sw_net w, sent) said budget →
  connected w s = true ∧ connector_live w s.
Proof.
  intros Hc [(k & out & q & Hk & _ & Hne & _)]. cbn [fst] in Hk. unfold connected, connector_live. rewrite Hc, Hk.
  split; [|intros c' [= <-]; eauto]. unfold GetActive. by rewrite (proj2 (Z.eqb_neq _ _)).
Qed.

(** The common part of the two outcomes of a heartbeat that is due. *)
Lemma DoUpdate_beat p s c now w :
  sw_sessions w !! p = Some s → us_biUpdateTime s < now → us_pConnector s = Some c →
  connector_live w s → connected w s = true → us_biHeartbeatTimer s < now →
  UserSession_DoUpdate p now w =
    (if 4 <? i32 (u32 (us_nHeartbeatCount s + 1)) then
       _ ← us_mod p (SetHeartbeatTimer INT64_MAX); on_net (TryRelease c)
     else _ ← SendPacket p (S_HEARTBEAT mkSC_P_HEARTBEAT); mret tt) (put_session p (beat now s) w).
Proof.
  intros Hs Hd Hpc Hl Hc Hh. unfold UserSession_DoUpdate. erewrite st_bind_ok by (by apply us_get_ok). cbv beta.
  rewrite (proj2 (Z.ltb_lt _ _)) by done.
  erewrite st_bind_ok by (by apply us_mod_ok). cbv beta.
  set (s1 := set_us_biUpdateTime (i64 (now + MILLISEC_A_SEC * 5)) s).
  fold (put_session p s1 w). set (w1 := put_session _ _ w).
  erewrite st_bind_ok by (apply (connector_active_ok w1 s); exact Hl). cbv beta.
  replace (connected w1 s) with true by (symmetry; exact Hc). cbn [negb].
  erewrite st_bind_ok by (apply us_get_ok, put_lookup). cbv beta.
  change (us_pConnector s1) with (us_pConnector s).
  erewrite st_bind_ok by (apply (connector_active_ok w1 s); exact Hl). cbv beta.
  change (us_biHeartbeatTimer s1) with (us_biHeartbeatTimer s).
  replace (connected w1 s) with true by (symmetry; exact Hc).
  rewrite (proj2 (Z.ltb_lt _ _)) by done. cbn [andb].
  erewrite st_bind_ok by (apply us_mod_ok, put_lookup). cbv beta.
  set (s2 := SetHeartbeatTimer _ s1). fold (put_session p s2 w1).
  erewrite st_bind_ok by (unfold us_run; erewrite st_bind_ok by (apply us_get_ok, put_lookup); cbv beta;
    cbn [IncHeartbeat]; erewrite st_bind_ok by (eapply us_set_ok, put_lookup); reflexivity). cbv beta.
  fold (put_session p (set_us_heartbeat (us_biHeartbeatTimer s2) (u32 (us_nHeartbeatCount s2 + 1)) s2) (put_session p s2 w1)).
  unfold w1. rewrite !put_put. rewrite Hpc. reflexivity.
Qed.

Definition heartbeat_frame (t : Z) : list Z := frame (s2c_payload (S_HEARTBEAT mkSC_P_HEARTBEAT)) 0 t.

Lemma heartbeat_ok p s c now w sent said budget k :
  sends_accepted → sw_sessions w !! p = Some s → us_biUpdateTime s < now → us_pConnector s = Some c →
  send_inv c (sw_net w, sent) said budget → budget < 2 ^ 31 - 1 →
  us_biHeartbeatTimer s < now → 0 ≤ us_nHeartbeatCount s < 4 → nw_conns (sw_net w) !! c = Some k →
  ∃ t n k', UserSession_DoUpdate p now w = Ok (tt, set_sw_net n (put_session p (beat now s) w)) ∧
    send_inv c (n, sent) (said ++ heartbeat_frame t) (budget + 1) ∧
    nw_conns n !! c = Some k' ∧ _param k' = _param k.
Proof.
  intros Ha Hs Hd Hc Hinv Hbud Hh Hn Hk. destruct (stream_connected w s c sent said budget Hc Hinv) as [Hcon Hl].
  rewrite (DoUpdate_beat p s c now w) by done.
  rewrite (u32_small (us_nHeartbeatCount s + 1)), (wraps_small 32) by (try split; lia).
  destruct (Z.ltb_spec 4 (us_nHeartbeatCount s + 1)); [lia|].
  destruct (SendPacket_delivers (S_HEARTBEAT mkSC_P_HEARTBEAT) (put_session p (beat now s) w) p (beat now s) c sent said budget k)
    as (t & n & k' & E & Hn'); try done; [apply put_lookup|].
  exists t, n, k'. split; [|done]. by erewrite st_bind_ok by exact E.
Qed.

Lemma timeout_ok p s c k now w :
  sw_sessions w !! p = Some s → us_biUpdateTime s < now → us_pConnector s = Some c →
  nw_conns (sw_net w) !! c = Some k → _socket k ≠ INVALID_SOCKET → _param k = Some p →
  us_biHeartbeatTimer s < now → 4 ≤ us_nHeartbeatCount s < 2 ^ 31 - 1 →
  ∃ n, UserSession_DoUpdate p now w =
      Ok (tt, set_sw_net n (put_session p (SetHeartbeatTimer INT64_MAX (beat now s)) w)) ∧
    nw_conns n !! c = Some (set_socket INVALID_SOCKET k) ∧
    nw_trace n = nw_trace (sw_net w) ++ closing (_socket k).
Proof.
  intros Hs Hd Hc Hk Hne Hpar Hh Hn.
  assert (connected w s = true ∧ connector_live w s) as [Hcon Hl].
  { unfold connected, connector_live, GetActive. rewrite Hc, Hk, (proj2 (Z.eqb_neq _ _)) by done.
    split; [done|]. intros c' [= <-]. eauto. }
  rewrite (DoUpdate_beat p s c now w) by done.
  rewrite (u32_small (us_nHeartbeatCount s + 1)), (wraps_small 32) by (try split; lia).
  destruct (Z.ltb_spec 4 (us_nHeartbeatCount s + 1)); [|lia].
  erewrite st_bind_ok by (apply us_mod_ok, put_lookup). cbv beta.
  set (w1 := set_sw_sessions _ _).
  assert (TryRelease c (sw_net w) = Ok (tt, set_nw_conns (<[c := set_socket INVALID_SOCKET k]> (nw_conns (sw_net w)))
    (set_nw_trace (nw_trace (sw_net w) ++ closing (_socket k)) (sw_net w)))) as E.
  { unfold TryRelease. erewrite st_bind_ok by (by apply close_own_socket_ok). cbv beta.
    rewrite (proj2 (Z.eqb_neq _ _)) by done.
    erewrite st_bind_ok by (apply conn_get_ok, lookup_insert_eq). cbv beta.
    cbn [_param set_socket]. rewrite Hpar. by rewrite bool_decide_false. }
  eexists. split; [|split].
  - change (sw_net w) with (sw_net w1) in E. rewrite (on_net_ok _ _ _ _ E). unfold w1.
    fold (put_session p (SetHeartbeatTimer INT64_MAX (beat now s)) (put_session p (beat now s) w)).
    by rewrite put_put.
  - apply lookup_insert_eq.
  - done.
Qed.

(** A client that has not answered its last [i] heartbeats, the latest of
    which was sent at [last]. *)
Record silent w (p c i last : Z) (sent said : list Z) (budget : Z) : Prop := {
  si_session : ∃ s, sw_sessions w !! p = Some s ∧ us_pConnector s = Some c ∧ us_nHeartbeatCount s = i ∧
    us_biUpdateTime s ≤ last + MILLISEC_A_SEC * 5 ∧ us_biHeartbeatTimer s ≤ last + MILLISEC_A_SEC * 15;
  si_stream : send_inv c (sw_net w, sent) said budget;
  si_owner : ∃ k, nw_conns (sw_net w) !! c = Some k ∧ _param k = Some p }.

(** Updates more than fifteen seconds apart, within the clock's range. *)
Fixpoint apart (last : Z) (ts : list Z) : Prop :=
  match ts with
  | [] => True
  | t :: ts => last + MILLISEC_A_SEC * 15 < t < 2 ^ 62 ∧ apart t ts
  end.

Lemma i64_small t : 0 ≤ t < 2 ^ 62 + 2 ^ 61 → i64 t = t.
Proof. intros. apply wraps_small; [lia|]. split; lia. Qed.

Lemma last_cons_default {A} (l : list A) x d : List.last (x :: l) d = List.last l x.
Proof.
  revert x d. induction l as [|y l IH]; intros x d; [done|].
  transitivity (List.last (y :: l) d); [done|]. by rewrite (IH y d), (IH y x).
Qed.

Lemma silent_beats p c sent ts : ∀ w i last said budget,
  sends_accepted → silent w p c i last sent said budget → 0 ≤ last → apart last ts →
  0 ≤ i → i + zlen ts ≤ 4 → budget + zlen ts < 2 ^ 31 - 1 →
  ∃ w' answers last', st_each (λ t, UserSession_DoUpdate p t) ts w = Ok (tt, w') ∧
    silent w' p c (i + zlen ts) last' sent (said ++ mjoin (heartbeat_frame <$> answers)) (budget + zlen ts) ∧
    zlen answers = zlen ts ∧ last' = List.last ts last ∧ _releaseList w' = _releaseList w.
Proof.
  induction ts as [|t ts IH]; intros w i last said budget Ha Hsil Hlast Hap Hi Hi4 Hbud.
  { exists w, [], last. rewrite zlen_nil, !Z.add_0_r. cbn. by rewrite app_nil_r. }
  rewrite zlen_cons in *. pose proof (zlen_nonneg ts). destruct Hap as [Ht Hap].
  destruct Hsil as [(s & Hs & Hc & Hn & Hu & Hb) Hst (k & Hk & Hpar)].
  unfold MILLISEC_A_SEC in *.
  destruct (heartbeat_ok p s c t w sent said budget k) as (tm & n & k' & E & Hn' & Hk' & Hpar'); try done; try lia.
  destruct (IH (set_sw_net n (put_session p (beat t s) w)) (i + 1) t (said ++ heartbeat_frame tm) (budget + 1))
    as (w' & answers & last' & E' & Hsil' & Hl & Hlast' & Hrel); try done; try lia.
  { split; [|done|exists k'; split; [done|congruence]].
    exists (beat t s). split; [apply put_lookup|].
    unfold beat, MILLISEC_A_SEC. cbn [us_pConnector us_nHeartbeatCount us_biUpdateTime us_biHeartbeatTimer set_us_heartbeat set_us_biUpdateTime].
    rewrite !i64_small, u32_small by lia. split_and!; try done; lia. }
  exists w', (tm :: answers), last'. cbn [st_each]. rewrite E.
  replace (i + (1 + zlen ts)) with (i + 1 + zlen ts) by lia.
  replace (budget + (1 + zlen ts)) with (budget + 1 + zlen ts) by lia.
  rewrite zlen_cons, Hl. split; [done|]. split; [|split; [done|split; [by rewrite Hlast', last_cons_default|done]]].
  cbn [fmap list_fmap mjoin list_join]. by rewrite app_assoc.
Qed.
End SessionLaws.

(** C24: a client that stops answering is disconnected.  Five updates of its
    session more than fifteen seconds apart, with no packet from the client in
    between, send it exactly four heartbeats and then close its socket, once;
    the next update puts the session, and only it, on the release list. *)
Theorem silent_client_disconnected `{OSLaws} w p c last sent said budget t1 t2 t3 t4 t5 t6 :
  sends_accepted → silent w p c 0 last sent said budget → 0 ≤ last →
  apart last [t1; t2; t3; t4; t5] → t5 + MILLISEC_A_SEC * 5 < t6 → 0 ≤ budget < 2 ^ 30 →
  ∃ w4 w5 w6 answers k,
    st_each (λ t, UserSession_DoUpdate p t) [t1; t2; t3; t4] w = Ok (tt, w4) ∧
    send_inv c (sw_net w4, sent) (said ++ mjoin (heartbeat_frame <$> answers)) (budget + 4) ∧ zlen answers = 4 ∧
    nw_conns (sw_net w4) !! c = Some k ∧
    UserSession_DoUpdate p t5 w4 = Ok (tt, w5) ∧
    nw_trace (sw_net w5) = nw_trace (sw_net w4) ++ closing (_socket k) ∧
    _releaseList w5 = _releaseList w ∧
    UserSession_DoUpdate p t6 w5 = Ok (tt, w6) ∧
    _releaseList w6 = _releaseList w ++ [p] ∧ nw_trace (sw_net w6) = nw_trace (sw_net w5).
Proof.
  intros Ha Hsil Hlast Hap Ht6 Hbud.
  destruct Hap as (H1 & H2 & H3 & H4 & H5 & _).
  destruct (silent_beats p c sent [t1; t2; t3; t4] w 0 last said budget Ha Hsil Hlast)
    as (w4 & answers & last' & E4 & [(s & Hs & Hc & Hn & Hu & Hb) Hst (k & Hk & Hpar)] & Hl & -> & Hrel);
    try done; try (unfold zlen; cbn [length]; lia).
  cbn [List.last] in Hu, Hb. change (zlen [t1; t2; t3; t4]) with 4 in *. unfold MILLISEC_A_SEC in *.
  assert (_socket k ≠ INVALID_SOCKET) as Hk0.
  { destruct Hst as [(k0 & out & q & Hk' & _ & Hne & _)]. cbn [fst] in Hk'. congruence. }
  destruct (timeout_ok p s c k t5 w4) as (n & E5 & Hk5 & Ht5); try done; try lia.
  set (w5 := set_sw_net n _) in *.
  pose proof (DoUpdate_gone p (SetHeartbeatTimer INT64_MAX (beat t5 s)) t6 w5) as E6.
  exists w4, w5, (put_session p (set_us_biUpdateTime INT64_MAX (SetHeartbeatTimer INT64_MAX (beat t5 s)))
    (set_releaseList (_releaseList w5 ++ [p]) w5)), answers, k.
  split_and!; try done.
  - apply E6.
    + apply put_lookup.
    + cbn. unfold MILLISEC_A_SEC. rewrite i64_small by lia. lia.
    + intros c' Hc'. cbn in Hc'. assert (c' = c) as -> by congruence. exists (set_socket INVALID_SOCKET k). exact Hk5.
    + unfold connected. cbn [us_pConnector SetHeartbeatTimer beat set_us_heartbeat set_us_biUpdateTime].
      rewrite Hc. cbn [sw_net w5 set_sw_net]. by rewrite Hk5.
  - cbn. by rewrite Hrel.
Qed.

(** ** Leaving *)
Section Departure.
Context `{OSLaws}.
Implicit Types (w : SvrWorld) (s : UserSession).

(** The session [p] is in use, due, and its connection is closed; no other
    session in use is due. *)
Record departing w (p now : Z) s : Prop := {
  dp_session : sw_sessions w !! p = Some s;
  dp_used : ∃ pre post, om_usedList (sw_smgr w) = pre ++ p :: post ∧
    Forall (λ q, q ≠ p ∧ ∃ s', sw_sessions w !! q = Some s' ∧ now ≤ us_biUpdateTime s') (pre ++ post);
  dp_due : us_biUpdateTime s < now;
  dp_live : connector_live w s;
  dp_closed : connected w s = false;
  dp_zone : GetZoneId (_nub s) ≠ 0;
  dp_release : _releaseList w = [];
  dp_mgr : sw_mgr_biUpdateTime w < now }.

Lemma others_not_due p now l w :
  Forall (λ q, q ≠ p ∧ ∃ s', sw_sessions w !! q = Some s' ∧ now ≤ us_biUpdateTime s') l →
  st_each (λ it, UserSession_DoUpdate it now) l w = Ok (tt, w).
Proof.
  induction l as [|q l IH]; intros Hl; [done|]. apply Forall_cons in Hl as [[_ (s' & Hs' & Hd)] Hl].
  cbn [st_each]. rewrite (DoUpdate_not_due q s' now w Hs' Hd). by apply IH.
Qed.

Lemma st_each_app {S A} (f : A → st S unit) l1 l2 x :
  st_each f (l1 ++ l2) x = match st_each f l1 x with Ok (_, x') => st_each f l2 x' | Fault e => Fault e end.
Proof.
  revert x. induction l1 as [|a l1 IH]; intros x; cbn [app st_each]; [done|].
  destruct (f a x) as [[u x']|e]; [apply IH|done].
Qed.

Lemma updates_ok w p now s :
  departing w p now s →
  st_each (λ it, UserSession_DoUpdate it now) (om_usedList (sw_smgr w)) w =
    Ok (tt, put_session p (set_us_biUpdateTime INT64_MAX s) (set_releaseList [p] w)).
Proof.
  intros [Hs (pre & post & -> & Hoth) Hd Hl Hc _ Hrel _].
  apply Forall_app in Hoth as [Hpre Hpost].
  rewrite st_each_app, (others_not_due p) by done. cbn [st_each].
  rewrite (DoUpdate_gone p s now w) by done. rewrite Hrel. cbn [app].
  apply (others_not_due p). eapply Forall_impl; [exact Hpost|]. intros q [Hq (s' & Hs' & Hd')].
  split; [done|]. exists s'. split; [|done]. cbn. by rewrite lookup_insert_ne.
Qed.

(** What a server step leaves alone but for one session and the network. *)
Record aside (p : Z) w w' : Prop := {
  as_sessions : ∀ q, q ≠ p → sw_sessions w' !! q = sw_sessions w !! q;
  as_zones : sw_zones w' = sw_zones w;
  as_zoneMap : _zoneMap w' = _zoneMap w;
  as_release : _releaseList w' = _releaseList w;
  as_mgr : sw_smgr w' = sw_smgr w }.

Lemma Release_ok w p s :
  sw_sessions w !! p = Some s → connector_live w s → GetZoneId (_nub s) ≠ 0 →
  ∃ w' s', UserSession_Release p w = Ok (tt, w') ∧ aside p w w' ∧
    sw_sessions w' !! p = Some s' ∧ _nub s' = _nub s ∧ _userMap w' = _userMap w ∧
    sw_cmds w' = sw_cmds w ++ [LeaveCharacter (session_GetToken s) (GetZoneId (_nub s))].
Proof.
  intros Hs Hl Hz. unfold UserSession_Release. erewrite st_bind_ok by (by apply us_get_ok). cbv beta.
  rewrite (proj2 (Z.eqb_neq _ _)) by done. cbn [negb].
  erewrite st_bind_ok by reflexivity. cbv beta.
  erewrite st_bind_ok by (by apply us_mod_ok). cbv beta.
  set (s1 := set_us_biUpdateTime 0 _). set (w1 := set_sw_sessions _ _).
  assert (sw_sessions w1 !! p = Some s1) as Hs1 by apply lookup_insert_eq.
  assert (aside p w w1) as Ha by (split; try done; intros q Hq; cbn; by rewrite lookup_insert_ne).
  erewrite st_bind_ok by (by apply us_get_ok). cbv beta.
  change (us_pConnector s1) with (us_pConnector s).
  destruct (us_pConnector s) as [c|] eqn:Hc.
  2:{ exists w1, s1. done. }
  destruct (Hl c Hc) as [k Hk].
  erewrite st_bind_ok by (apply on_net_ok, conn_mod_ok; exact Hk). cbv beta.
  set (n1 := set_nw_conns _ _).
  destruct (TryRelease_ok c n1 (SetParam None k)) as (n2 & k' & E & _); [apply lookup_insert_eq|].
  exists (set_sw_net n2 (set_sw_net n1 w1)), s1. split; [by apply on_net_ok|].
  split; [|done]. destruct Ha. by split.
Qed.

Lemma DoUpdate_departs w p now s :
  departing w p now s →
  ∃ w', UserSessionMgr_DoUpdate now w = Ok (tt, w') ∧
    sw_sessions w' !! p = None ∧ (∀ q, q ≠ p → sw_sessions w' !! q = sw_sessions w !! q) ∧
    sw_zones w' = sw_zones w ∧ _zoneMap w' = _zoneMap w ∧ _releaseList w' = [] ∧
    _userMap w' = delete (session_GetToken s) (_userMap w) ∧
    sw_smgr w' = ObjectMgrBase_SetFreeObject (sw_smgr w) p ∧
    sw_cmds w' = sw_cmds w ++ [LeaveCharacter (session_GetToken s) (GetZoneId (_nub s))].
Proof.
  intros Hdep. pose proof (updates_ok w p now s Hdep) as E1. destruct Hdep as [Hs _ _ Hl _ Hz _ Ht].
  unfold UserSessionMgr_DoUpdate. erewrite st_bind_ok by reflexivity. cbv beta.
  rewrite (proj2 (Z.ltb_lt _ _)) by done. erewrite st_bind_ok by reflexivity. cbv beta.
  rewrite (st_bind_ok _ _ _ _ _ E1). set (s1 := set_us_biUpdateTime INT64_MAX s). set (w1 := put_session _ _ _).
  erewrite st_bind_ok by reflexivity. cbv beta. set (w2 := set_releaseList [] w1).
  change (_releaseList w1) with [p]. cbn [st_each].
  destruct (Release_ok w2 p s1) as (w3 & s3 & E3 & Ha & Hs3 & Hnub & Hum & Hcmds); [apply put_lookup|done|done|].
  erewrite st_bind_ok by (by rewrite E3). cbv beta.
  erewrite st_bind_ok.
  2:{ cbv beta. unfold DelUserSessionMap.
      erewrite st_bind_ok by (erewrite st_bind_ok by (by apply us_get_ok); reflexivity). cbv beta.
      unfold session_SetFreeObject. cbn [sw_sessions set_userMap]. rewrite Hs3. reflexivity. }
  cbv beta. erewrite st_bind_ok by reflexivity. cbv beta.
  eexists; split; [reflexivity|]. destruct Ha as [Ho Hzs Hzm Hr Hm].
  cbn [sw_sessions sw_zones _zoneMap _releaseList _userMap sw_smgr sw_cmds set_mgr_biUpdateTime set_sw_net set_sw_sessions
    set_sw_smgr set_userMap]. rewrite Hzs, Hzm, Hr, Hum, Hm, Hcmds.
  unfold session_GetToken. rewrite Hnub. split; [apply lookup_delete_eq|]. split; [|done].
  intros q Hq. rewrite lookup_delete_ne by done. rewrite Ho by done.
  cbn. by rewrite lookup_insert_ne.
Qed.
End Departure.

(** the order of two queued commands decides whether a departure is safe.
    When a broadcast to a zone is already waiting as the sessions are updated,
    a session of the zone whose connection is closed is destroyed, its pointer
    stays in the zone until the [LeaveCharacter] behind the broadcast, and the
    next pass of the command queue reads the destroyed session. *)
Theorem departure_behind_broadcast `{OSLaws} w p now s zone zp z token buf len cs :
  departing w p now s →
  sw_cmds w = SendBroadcastToAllUser zone buf len :: cs → buffer_ok buf len →
  _zoneMap w !! zone = Some zp → sw_zones w !! zp = Some z → _characterMap z !! token = Some p →
  ∃ w', UserSessionMgr_DoUpdate now w = Ok (tt, w') ∧ svr_Tick w' = Fault UseAfterFree.
Proof.
  intros Hdep Hcmds Hb Hzp Hz Hp.
  destruct (DoUpdate_departs w p now s Hdep) as (w' & E & Hdead & _ & Hzs & Hzm & _ & _ & _ & Hc).
  exists w'. split; [done|]. unfold svr_Tick. rewrite Hc, Hcmds. cbn [app fire_list].
  unfold Operator_adds. cbn [Operator]. unfold SendBroadcastToAllUser_Operator, GetZone.
  erewrite st_bind_ok by (by erewrite st_bind_ok by reflexivity). cbn [_zoneMap set_sw_cmds]. rewrite Hzm, Hzp.
  by rewrite (PacketBroadcast_dead _ zp z (token, p)) by
    first [done | by rewrite ?elem_of_std_items | cbn [sw_zones set_sw_cmds]; congruence].
Qed.

(** C25: a departure with nothing queued is clean.  One session of a zone is
    due and its connection is closed, no other session is due, and none is
    waiting to be released.  The update and one pass of the command queue
    destroy it, take its current token out of the user map and out of the zone
    it is in, leave every other session and every other entry of that zone
    alone, and queue exactly the [SC_P_LEAVE] of its token for the members that
    remain.  (An entry of the user map under an earlier token of the session is
    not touched.) *)
Theorem departure_clean `{OSLaws} w p now s zp z :
  departing w p now s → sw_cmds w = [] → in_s 64 (session_GetToken s) →
  _zoneMap w !! GetZoneId (_nub s) = Some zp → sw_zones w !! zp = Some z →
  (∀ t q, _characterMap z !! t = Some q → t ≠ session_GetToken s → q ≠ p ∧ is_Some (sw_sessions w !! q)) →
  ∃ w' t, (_ ← UserSessionMgr_DoUpdate now; svr_Tick) w = Ok (tt, w') ∧
    sw_sessions w' !! p = None ∧ (∀ q, q ≠ p → sw_sessions w' !! q = sw_sessions w !! q) ∧
    _userMap w' = delete (session_GetToken s) (_userMap w) ∧
    sw_zones w' = <[zp := mkZone (z_id z) (delete (session_GetToken s) (_characterMap z))]> (sw_zones w) ∧
    (∀ k q, delete (session_GetToken s) (_characterMap z) !! k = Some q → is_Some (sw_sessions w' !! q)) ∧
    let leave := S_LEAVE (mkSC_P_LEAVE (session_GetToken s)) in
    sw_cmds w' = [SendBroadcastToAllUser (GetZoneId (_nub s)) (frame_buffer leave t) (zlen (s2c_payload leave) + 20)].
Proof.
  intros Hdep Hcmds Htok Hzp Hz Hmem.
  destruct (DoUpdate_departs w p now s Hdep) as (w1 & E & Hdead & Hoth & Hzs & Hzm & _ & Hum & _ & Hc).
  rewrite Hcmds in Hc. cbn [app] in Hc. set (leave := S_LEAVE (mkSC_P_LEAVE (session_GetToken s))).
  set (w2 := set_sw_zones (<[zp := mkZone (z_id z) (delete (session_GetToken s) (_characterMap z))]> (sw_zones w1))
    (set_sw_cmds [] w1)).
  destruct (build_packet_ok leave w2) as (t & w3 & E3 & Hw3); [exact Htok|].
  fold (frame_buffer leave t) in E3.
  exists (set_sw_cmds [SendBroadcastToAllUser (GetZoneId (_nub s)) (frame_buffer leave t) (zlen (s2c_payload leave) + 20)] w3), t.
  split; [|rewrite Hw3; cbn [sw_sessions sw_zones _userMap sw_cmds set_sw_net set_sw_cmds w2 set_sw_zones];
    rewrite Hzs; split_and!; try done].
  - rewrite (st_bind_ok _ _ _ _ _ E). unfold svr_Tick. rewrite Hc. cbn [fire_list].
    unfold Operator_adds. cbn [Operator]. unfold LeaveCharacter_Operator, GetUserSession.
    erewrite st_bind_ok by (by erewrite st_bind_ok by reflexivity). cbn [_userMap set_sw_cmds].
    rewrite Hum, lookup_delete_eq. erewrite st_bind_ok by reflexivity. cbv beta.
    erewrite st_bind_ok.
    2:{ unfold ZoneMgr_LeaveCharacter. erewrite st_bind_ok by reflexivity. cbn [_zoneMap set_sw_cmds].
        rewrite Hzm, Hzp. unfold OnUnregistCharacter_token.
        erewrite st_bind_ok by (apply zone_get_ok; cbn [sw_zones set_sw_cmds]; rewrite Hzs; exact Hz). cbv beta.
        apply zone_set_ok with z. cbn [sw_zones set_sw_cmds]. by rewrite Hzs. }
    cbv beta. unfold new_SendBroadcastToAllUser. change (SC_P_LEAVE_SetToken _ _) with (mkSC_P_LEAVE (session_GetToken s)).
    change (sw_zones (set_sw_cmds [] w1)) with (sw_zones w1). fold w2. fold leave.
    erewrite st_bind_ok by (erewrite st_bind_ok by exact E3; reflexivity). cbv beta. by rewrite Hw3.
  - intros k q Hk. apply lookup_delete_Some in Hk as [Hne Hk].
    destruct (Hmem k q Hk) as [Hq Hlive]; [done|]. by rewrite Hoth.
Qed.

(** ** Instances *)

(** Client 2 of [demo_svr] has lost its connection. *)
Definition demo_departing (cmds : list command) : SvrWorld :=
  set_sw_cmds cmds (set_sw_sessions
    {[ 10 := set_us_biUpdateTime 100 (demo_session 1 100 1); 11 := demo_session 2 101 2 ]}
    (set_sw_net (set_nw_conns {[ 1 := set_socket 50 (Connector_new 1); 2 := Connector_new 2 ]} demo_net) demo_svr)).
Lemma demo_departing_ok cmds : departing (demo_departing cmds) 11 1 (demo_session 2 101 2).
Proof.
  split; try reflexivity; try discriminate.
  - exists [10], []. split; [reflexivity|]. repeat constructor; [discriminate|].
    exists (set_us_biUpdateTime 100 (demo_session 1 100 1)). split; [reflexivity|vm_compute; discriminate].
  - intros c [= <-]. by exists (Connector_new 2).
Qed.
Definition demo_broadcast : command :=
  SendBroadcastToAllUser 1 (replicate (Z.to_nat MAX_PACKET_BUFFER_SIZE) 0) 4.
Lemma departure_behind_broadcast_witness :
  ∃ w', UserSessionMgr_DoUpdate 1 (demo_departing [demo_broadcast]) = Ok (tt, w') ∧ svr_Tick w' = Fault UseAfterFree.
Proof.
  apply (departure_behind_broadcast (demo_departing [demo_broadcast]) 11 1 (demo_session 2 101 2) 1 20
    (mkZone 1 {[ 100 := 10; 101 := 11 ]}) 101 (replicate (Z.to_nat MAX_PACKET_BUFFER_SIZE) 0) 4 []).
  - apply demo_departing_ok.
  - reflexivity.
  - split; [vm_compute; reflexivity|split; vm_compute; [reflexivity|discriminate]].
  - reflexivity.
  - reflexivity.
  - reflexivity.
Defined.

Definition demo_zone : Zone := mkZone 1 {[ 100 := 10; 101 := 11 ]}.
Lemma departure_clean_witness :
  ∃ w' t, (_ ← UserSessionMgr_DoUpdate 1; svr_Tick) (demo_departing []) = Ok (tt, w') ∧
    sw_sessions w' !! 11 = None ∧ (∀ q, q ≠ 11 → sw_sessions w' !! q = sw_sessions (demo_departing []) !! q) ∧
    _userMap w' = delete (session_GetToken (demo_session 2 101 2)) (_userMap (demo_departing [])) ∧
    sw_zones w' = <[20 := mkZone (z_id demo_zone) (delete (session_GetToken (demo_session 2 101 2)) (_characterMap demo_zone))]>
      (sw_zones (demo_departing [])) ∧
    (∀ k q, delete (session_GetToken (demo_session 2 101 2)) (_characterMap demo_zone) !! k = Some q →
      is_Some (sw_sessions w' !! q)) ∧
    let leave := S_LEAVE (mkSC_P_LEAVE (session_GetToken (demo_session 2 101 2))) in
    sw_cmds w' = [SendBroadcastToAllUser (GetZoneId (_nub (demo_session 2 101 2))) (frame_buffer leave t)
      (zlen (s2c_payload leave) + 20)].
Proof.
  apply (departure_clean (demo_departing []) 11 1 (demo_session 2 101 2) 20 demo_zone).
  - apply demo_departing_ok.
  - reflexivity.
  - split; vm_compute; [discriminate|reflexivity].
  - reflexivity.
  - reflexivity.
  - intros t q Hq Hne. cbn [_characterMap demo_zone] in Hq.
    apply lookup_insert_Some in Hq as [[<- <-]|[_ Hq]].
    + split; [discriminate|]. eexists; reflexivity.
    + apply lookup_singleton_Some in Hq as [<- <-]. by destruct Hne.
Defined.

(** Client 1 of [demo_svr], with a connector that knows its session. *)
Definition demo_listening : SvrWorld :=
  set_sw_net (set_nw_conns {[ 1 := set_param (Some 10) (set_socket 50 (Connector_new 1)) ]} demo_net) demo_svr.
Lemma silent_client_disconnected_witness :
  ∃ w4 w5 w6 answers k,
    st_each (λ t, UserSession_DoUpdate 10 t) [20000; 40000; 60000; 80000] demo_listening = Ok (tt, w4) ∧
    send_inv 1 (sw_net w4, []) ([] ++ mjoin (heartbeat_frame <$> answers)) (0 + 4) ∧ zlen answers = 4 ∧
    nw_conns (sw_net w4) !! 1 = Some k ∧
    UserSession_DoUpdate 10 100000 w4 = Ok (tt, w5) ∧
    nw_trace (sw_net w5) = nw_trace (sw_net w4) ++ closing (_socket k) ∧
    _releaseList w5 = _releaseList demo_listening ∧
    UserSession_DoUpdate 10 105001 w5 = Ok (tt, w6) ∧
    _releaseList w6 = _releaseList demo_listening ++ [10] ∧ nw_trace (sw_net w6) = nw_trace (sw_net w5).
Proof.
  apply (silent_client_disconnected demo_listening 10 1 0 [] [] 0 20000 40000 60000 80000 100000 105001 demo_accepts).
  - split.
    + exists (demo_session 1 100 1). split_and!; try reflexivity; vm_compute; discriminate.
    + split. exists (set_param (Some 10) (set_socket 50 (Connector_new 1))), None, [].
      split_and!; [reflexivity|split; simpl; [done|constructor]|..]; try done; vm_compute; discriminate.
    + eexists. split; reflexivity.
  - done.
  - unfold MILLISEC_A_SEC. cbn [apart]. repeat split; vm_compute; reflexivity.
  - unfold MILLISEC_A_SEC. lia.
  - lia.
Defined.
