(* ===== verification/SvrInv.v ===== *)
(** * The invariant of the server
    What every thread of the server may rely on, whatever the clients send:
    the pools of sessions and zones and the maps of live objects agree, the
    zone map leads to live zones, every queued command has a buffer it may
    send, a connector's session is alive and writes to that connector, and
    every session has a live connector.  (svr/user_session_mgr.h, zone_mgr.h,
    user_session.cpp, command_unit_process.cpp, process.cpp.)  Nothing is said
    of the sessions the zones and the user map point to: the code lets those
    dangle (see SessionLaws and CommandLaws). *)
From S2P Require Import Prelude Buffer Wire Character Protocol Packet ObjectPool CommandQueue.
From S2P Require Import PacketQueue TimeSet Config System Connector Network NetFrame SvrState Session Server.
From S2P Require Import SvrFrame ServerLaws SessionLaws.

Definition cmd_ok (c : command) : Prop :=
  match c with
  | SendBroadcastToAllUser _ buf len | SendPacketToUser _ buf len => buffer_ok buf len
  | EnterCharacter _ _ _ _ | LeaveCharacter _ _ | SendCharacterList _ _ => True
  end.

(** [rl] is the release list, empty between two updates; [us], when given,
    the list of the sessions in use. *)
Record inv_at (rl : list Z) (us : option (list Z)) (w : SvrWorld) : Prop := {
  iv_release : _releaseList w = rl;
  iv_used l : us = Some l → om_usedList (sw_smgr w) = l;
  iv_sessions : om_inv (sw_smgr w);
  iv_live p : is_Some (sw_sessions w !! p) ↔ p ∈ om_usedList (sw_smgr w);
  iv_zones : ∃ zs, om_inv (mkObjectMgrBase (om_pool (sw_zmgr w)) zs) ∧ ∀ p, is_Some (sw_zones w !! p) ↔ p ∈ zs;
  iv_zoneMap id p : _zoneMap w !! id = Some p → ∃ z, sw_zones w !! p = Some z ∧ z_id z = id;
  iv_cmds : Forall cmd_ok (sw_cmds w);
  iv_links c p : links (sw_net w) !! c = Some p → ∃ s, sw_sessions w !! p = Some s ∧ us_pConnector s = Some c;
  iv_conns p s : sw_sessions w !! p = Some s → ∃ c, us_pConnector s = Some c ∧ live c (sw_net w) }.

(** The invariant, and a session that is alive, if one is named. *)
Definition sess_at (rl : list Z) (us : option (list Z)) (o : option Z) (w : SvrWorld) : Prop :=
  inv_at rl us w ∧ ∀ p, o = Some p → is_Some (sw_sessions w !! p).
Lemma sess_none rl us w : inv_at rl us w → sess_at rl us None w.
Proof. by split. Qed.

Section Primitives.
Context `{OS}.
Context {rl : list Z} {us : option (list Z)}.
Local Notation inv := (inv_at rl us).
Local Notation sess := (sess_at rl us).
Implicit Types (w : SvrWorld).

(** A change of the network that keeps the links. *)
Lemma inv_net w n : inv w → links_kept (sw_net w) n → inv (set_sw_net n w).
Proof.
  intros [] [Hl Hd]. split; cbn; try done.
  - intros c p. rewrite Hl. auto.
  - intros p s Hs. destruct (iv_conns0 p s Hs) as (c & Hc & Hlive). exists c. split; [done|]. by apply Hd.
Qed.
(** A change of a session that keeps its connector. *)
Lemma inv_session w p s s' :
  inv w → sw_sessions w !! p = Some s → us_pConnector s' = us_pConnector s →
  inv (set_sw_sessions (<[p := s']> (sw_sessions w)) w).
Proof.
  intros [] Hs Hc. split; cbn; try done.
  - intros q. rewrite <-iv_live0. destruct (decide (q = p)) as [->|Hne].
    + rewrite lookup_insert_eq, Hs. split; eauto.
    + by rewrite lookup_insert_ne.
  - intros c q Hq. destruct (iv_links0 c q Hq) as (s0 & Hs0 & Hc0). destruct (decide (q = p)) as [->|Hne].
    + exists s'. rewrite lookup_insert_eq. split; [done|]. congruence.
    + exists s0. by rewrite lookup_insert_ne.
  - intros q s0. destruct (decide (q = p)) as [->|Hne].
    + rewrite lookup_insert_eq. intros [= <-]. destruct (iv_conns0 p s Hs) as (c & ? & ?). exists c. by rewrite Hc.
    + rewrite lookup_insert_ne by done. apply iv_conns0.
Qed.
(** A change of a zone that keeps its id. *)
Lemma inv_zone w p z z' :
  inv w → sw_zones w !! p = Some z → z_id z' = z_id z → inv (set_sw_zones (<[p := z']> (sw_zones w)) w).
Proof.
  intros [] Hz Hid. split; cbn; try done.
  - destruct iv_zones0 as (zs & Hinv & Hzs). exists zs. split; [done|]. intros q. rewrite <-Hzs.
    destruct (decide (q = p)) as [->|Hne]; [|by rewrite lookup_insert_ne]. rewrite lookup_insert_eq, Hz. split; eauto.
  - intros id q Hq. destruct (iv_zoneMap0 id q Hq) as (z0 & Hz0 & Hid0). destruct (decide (q = p)) as [->|Hne].
    + exists z'. rewrite lookup_insert_eq. split; [done|]. congruence.
    + exists z0. by rewrite lookup_insert_ne.
Qed.
Lemma inv_cmds w l : inv w → Forall cmd_ok l → inv (set_sw_cmds l w).
Proof. by intros [] Hl; split. Qed.

(** ** The triples of the primitives *)
Lemma sess_session F o p f w :
  (∀ s, us_pConnector (f s) = us_pConnector s) → sess o w → F UseAfterFree ∨ o = Some p →
  match us_mod p f w with Ok (_, w') => sess o w' | Fault f => F f end.
Proof.
  intros Hf [Hi Ho] HF. destruct (sw_sessions w !! p) as [s|] eqn:Hs.
  - rewrite (us_mod_ok p f s w Hs). split; [by eapply inv_session|]. intros q Hq. cbn.
    apply lookup_insert_is_Some'. right. by apply Ho.
  - unfold us_mod, mbind, st_bind, us_get. rewrite Hs. destruct HF as [?|E]; [done|].
    destruct (Ho p E) as [s Hs']. congruence.
Qed.
Lemma sess_us_get F p : keeps F (sess (Some p)) (us_get p).
Proof. intros w [Hi Ho]. destruct (Ho p eq_refl) as [s Hs]. unfold us_get. rewrite Hs. by split. Qed.
Lemma any_us_get o p : keeps any_fault (sess o) (us_get p).
Proof. intros w Hw. unfold us_get. by destruct (_ !! _). Qed.
Lemma sess_us_mod F p f : (∀ s, us_pConnector (f s) = us_pConnector s) → keeps F (sess (Some p)) (us_mod p f).
Proof. intros Hf w Hw. apply sess_session; [done|done|by right]. Qed.
Lemma any_us_mod o p f : (∀ s, us_pConnector (f s) = us_pConnector s) → keeps any_fault (sess o) (us_mod p f).
Proof. intros Hf w Hw. apply sess_session; [done|done|by left]. Qed.
Lemma us_run_mod {A} p (f : UserSession → UserSession * A) w :
  us_run p f w = match us_mod p (fst ∘ f) w, us_get p w with
                 | Ok (_, w'), Ok (s, _) => Ok ((f s).2, w') | Fault e, _ | _, Fault e => Fault e end.
Proof.
  unfold us_run, us_mod, mbind, st_bind, us_get, us_set. destruct (sw_sessions w !! p) as [s|] eqn:Hs; [|done].
  cbn. destruct (f s) as [s' a]. by rewrite Hs.
Qed.
Lemma sess_us_run {A} F p (f : UserSession → UserSession * A) :
  (∀ s, us_pConnector (f s).1 = us_pConnector s) → keeps F (sess (Some p)) (us_run p f).
Proof.
  intros Hf w Hw. rewrite us_run_mod. pose proof (sess_us_mod F p (fst ∘ f) Hf w Hw) as H1.
  pose proof (sess_us_get F p w Hw) as H2. destruct (us_mod p _ w) as [[? ?]|]; [|done]. by destruct (us_get p w) as [[]|].
Qed.
Lemma sess_modify F o (f : SvrWorld → SvrWorld) :
  (∀ w, inv w → inv (f w)) → (∀ w, sw_sessions (f w) = sw_sessions w) → keeps F (sess o) (st_modify f).
Proof. intros Hi Hs. apply keeps_modify. intros w [Hw Hp]. split; [auto|by rewrite Hs]. Qed.
Lemma inv_userMap w m : inv w → inv (set_userMap m w).
Proof. by intros []; split. Qed.
Lemma inv_releaseList w l : inv w → inv_at l us (set_releaseList l w).
Proof. by intros []; split. Qed.
Lemma inv_serial w n : inv w → inv (set_sw_serial n w).
Proof. by intros []; split. Qed.
Lemma inv_mgr_update w n : inv w → inv (set_mgr_biUpdateTime n w).
Proof. by intros []; split. Qed.
Lemma sess_serial F o : keeps F (sess o) GetUniqueSerialId.
Proof. intros w [Hi Hp]. split; [by apply inv_serial|done]. Qed.
Lemma sess_sys F o x : keeps F (sess o) (on_net (sys x)).
Proof. intros w [Hi Hp]. split; [|done]. apply inv_net; [done|]. by split. Qed.
Lemma sess_add_command F o c : cmd_ok c → keeps F (sess o) (add_command c).
Proof.
  intros Hc w [Hi Hp]. split; [|done]. apply inv_cmds; [done|]. apply Forall_app. split; [apply Hi|by constructor].
Qed.

(** The network, called on the connector of the session. *)
Lemma sess_on_net {A} F o c (m : net A) :
  keeps F (live c) m → respects links_kept m →
  keeps F (λ w, sess o w ∧ live c (sw_net w)) (on_net m).
Proof.
  intros Hm Hr w [[Hi Hp] Hc]. unfold on_net, st_zoom. specialize (Hm _ Hc).
  destruct (m (sw_net w)) as [[a n]|f] eqn:E; [|done]. split; [|done]. split; [|done].
  apply inv_net; [done|]. by eapply Hr.
Qed.
End Primitives.

(** ** Any message whatever

    A message need not be well-formed: [Serialize] may run out of its buffer,
    but the frame built in the end is always one a command may carry. *)
Section AnyMessage.
Context `{OS}.
Context {rl : list Z} {us : option (list Z)}.
Local Notation inv := (inv_at rl us).
Local Notation sess := (sess_at rl us).

Lemma faults_BufferBase_Write b d n : faults no_dangling (BufferBase_Write b d n).
Proof. unfold BufferBase_Write. keeps_tac. Qed.
Lemma faults_BufferBase_Read b d n : faults no_dangling (BufferBase_Read b d n).
Proof. unfold BufferBase_Read. keeps_tac. Qed.
Hint Resolve faults_BufferBase_Write faults_BufferBase_Read : keeps.
Lemma faults_Value_repr n s d : faults no_dangling (Value_repr n s d).
Proof. unfold Value_repr. keeps_tac. Qed.
Lemma faults_Value_chars s d n : faults no_dangling (Value_chars s d n).
Proof. unfold Value_chars. keeps_tac. Qed.
Hint Resolve faults_Value_repr faults_Value_chars : keeps.
Lemma faults_Value_INT32 s v : faults no_dangling (Value_INT32 s v).
Proof. unfold Value_INT32. keeps_tac. Qed.
Lemma faults_Value_UINT32 s v : faults no_dangling (Value_UINT32 s v).
Proof. unfold Value_UINT32. keeps_tac. Qed.
Lemma faults_Value_INT64 s v : faults no_dangling (Value_INT64 s v).
Proof. unfold Value_INT64. keeps_tac. Qed.
Hint Resolve faults_Value_INT32 faults_Value_UINT32 faults_Value_INT64 : keeps.
Lemma faults_Serialize_data k : ∀ s data idx, faults no_dangling (Serialize_data s data idx k).
Proof.
  induction k as [|k IH]; intros s data idx; cbn [Serialize_data]; [done|].
  unfold CharacterDbData_Serialize, Position_Serialize, aset. keeps_tac.
Qed.
Hint Resolve faults_Serialize_data : keeps.
Lemma faults_s2c_Serialize s m : faults no_dangling (s2c_Serialize s m).
Proof.
  destruct m as [p|p|p|p|p|p|p|p]; cbn [s2c_Serialize]; unfold lift_wire, Serialize;
    [unfold SC_P_AUTH_RESULT_wire, SC_P_AUTH_RESULT_Serialize|unfold SC_P_ENTER_wire, SC_P_ENTER_Serialize
    |unfold SC_P_ENTER_CHARACTER_LIST_wire, SC_P_ENTER_CHARACTER_LIST_Serialize
    |unfold SC_P_LEAVE_wire, SC_P_LEAVE_Serialize|unfold SC_P_MOVE_wire, SC_P_MOVE_Serialize
    |unfold SC_P_INTERACTION_wire, SC_P_INTERACTION_Serialize|unfold SC_P_HEARTBEAT_wire, SC_P_HEARTBEAT_Serialize
    |unfold SC_P_ECHO_wire, SC_P_ECHO_Serialize]; keeps_tac.
Qed.
Lemma faults_MakeNetworkPacket d n b m seq now : faults no_dangling (MakeNetworkPacket d n b m seq now).
Proof. unfold MakeNetworkPacket. keeps_tac. Qed.
Hint Resolve faults_s2c_Serialize faults_MakeNetworkPacket : keeps.
Lemma faults_make_send_buffer m now : faults no_dangling (make_send_buffer m now).
Proof. unfold make_send_buffer, make_buffer_of, SerializeHead. keeps_tac. Qed.

(** Failing or not, the result is a buffer of the full size and a length in it. *)
Lemma MakeNetworkPacket_sendable d n b seq now r b' len :
  zlen b = MAX_PACKET_BUFFER_SIZE → MakeNetworkPacket d n b MAX_PACKET_BUFFER_SIZE seq now = Ok (r, b', len) →
  buffer_ok b' len.
Proof.
  intros Hb. unfold MakeNetworkPacket, sizeof_PacketHead, sizeof_PacketTail. cbn [ui32Length]. cbv zeta.
  destruct (Z.ltb_spec MAX_PACKET_BUFFER_SIZE (u32 (8 + n + 12))) as [|Hfit].
  { intros [= <- <- <-]. split; [done|]. unfold MAX_PACKET_BUFFER_SIZE. lia. }
  intros E. apply bind_ok_inv in E as (b1 & E1 & E). apply bind_ok_inv in E as (d1 & E2 & E).
  apply bind_ok_inv in E as (b2 & E3 & E). apply bind_ok_inv in E as (b3 & E4 & [= <- <- <-]).
  apply poke_length in E1, E4. pose proof (poke_length _ _ _ _ E3) as E3'.
  unfold peek in E2. case_bool_decide as Hn; [|done]. injection E2 as <-.
  unfold poke in E3. case_bool_decide as Hp; [|done]. rewrite zlen_sub in Hp by lia.
  change (i32 (0 + 8)) with 8 in Hp. unfold buffer_ok, MAX_PACKET_BUFFER_SIZE in *.
  split; [lia|]. rewrite (wrapu_small 32) in * by (split; lia). lia.
Qed.
Lemma make_send_buffer_sendable m now b len : make_send_buffer m now = Ok (b, len) → buffer_ok b len.
Proof.
  unfold make_send_buffer, make_buffer_of. intros E.
  apply bind_ok_inv in E as ([s1 t] & _ & E). apply bind_ok_inv in E as ([s2 a] & _ & E).
  apply bind_ok_inv in E as ([[r b'] len'] & E1 & [= <- <-]).
  eapply MakeNetworkPacket_sendable; [|exact E1]. rewrite zlen_replicate. unfold MAX_PACKET_BUFFER_SIZE. lia.
Qed.

Lemma hoare_build F o m :
  (∀ now, faults F (make_send_buffer m now)) →
  hoare F (sess o) (build_packet m) (λ r w, sess o w ∧ buffer_ok r.1 r.2).
Proof.
  intros HF. unfold build_packet. eapply hoare_bind; [apply (sess_sys F o)|]. intros now w Hw.
  unfold st_lift. specialize (HF now). destruct (make_send_buffer m now) as [[b len]|f] eqn:E; [|done].
  split; [done|]. by eapply make_send_buffer_sendable.
Qed.
(** A command that carries a message, and what follows it. *)
Lemma keeps_broadcast {A} F o zone m (k : svr A) :
  (∀ now, faults F (make_send_buffer m now)) → keeps F (sess o) k →
  keeps F (sess o) (cmd ← new_SendBroadcastToAllUser zone m; _ ← add_command cmd; k).
Proof.
  intros HF Hk. unfold new_SendBroadcastToAllUser.
  apply (hoare_bind _ _ _ (λ cmd w, sess o w ∧ cmd_ok cmd)).
  - eapply hoare_bind; [by apply hoare_build|]. intros [b len] w Hw. exact Hw.
  - intros cmd. apply (hoare_bind _ _ _ (λ _, sess o)); [|intros _; exact Hk].
    intros w Hw. exact (sess_add_command F o cmd (proj2 Hw) w (proj1 Hw)).
Qed.
Lemma keeps_broadcast_last F o zone m :
  (∀ now, faults F (make_send_buffer m now)) →
  keeps F (sess o) (cmd ← new_SendBroadcastToAllUser zone m; add_command cmd).
Proof.
  intros HF w Hw. pose proof (keeps_broadcast F o zone m (mret tt) HF (keeps_ret F _ tt) w Hw) as Hb.
  unfold mbind, st_bind in *. destruct (new_SendBroadcastToAllUser zone m w) as [[cmd w1]|]; [|done].
  by destruct (add_command cmd w1) as [[[]]|].
Qed.
Lemma keeps_to_user {A} F o token m (k : svr A) :
  (∀ now, faults F (make_send_buffer m now)) → keeps F (sess o) k →
  keeps F (sess o) (cmd ← new_SendPacketToUser_packet token m; _ ← add_command cmd; k).
Proof.
  intros HF Hk. unfold new_SendPacketToUser_packet.
  apply (hoare_bind _ _ _ (λ cmd w, sess o w ∧ cmd_ok cmd)).
  - eapply hoare_bind; [by apply hoare_build|]. intros [b len] w Hw. exact Hw.
  - intros cmd. apply (hoare_bind _ _ _ (λ _, sess o)); [|intros _; exact Hk].
    intros w Hw. exact (sess_add_command F o cmd (proj2 Hw) w (proj1 Hw)).
Qed.
End AnyMessage.

#[export] Hint Resolve sess_us_get any_us_get sess_serial sess_sys faults_make_send_buffer : keeps.
#[export] Hint Resolve inv_userMap inv_mgr_update : keeps.
#[export] Hint Extern 2 (keeps _ (sess_at _ _ _) (us_mod _ _)) => apply sess_us_mod; reflexivity : keeps.
#[export] Hint Extern 3 (keeps _ (sess_at _ _ _) (us_mod _ _)) => apply any_us_mod; reflexivity : keeps.
#[export] Hint Extern 2 (keeps _ (sess_at _ _ _) (us_run _ _)) => apply sess_us_run; reflexivity : keeps.
#[export] Hint Extern 2 (keeps _ (sess_at _ _ _) (add_command _)) => apply sess_add_command; exact I : keeps.
#[export] Hint Extern 2 (keeps _ (sess_at _ _ _) (st_modify _)) =>
  apply sess_modify; [intros; eauto with keeps|reflexivity] : keeps.
#[export] Hint Extern 1 (keeps _ (sess_at _ _ _) (mbind _ (new_SendBroadcastToAllUser _ _))) =>
  first [apply keeps_broadcast | apply keeps_broadcast_last] : keeps.
#[export] Hint Extern 1 (keeps _ (sess_at _ _ _) (mbind _ (new_SendPacketToUser_packet _ _))) =>
  apply keeps_to_user : keeps.

(** ** Handlers: the invariant, and no access to a destroyed object *)
Section Handlers.
Context `{OS}.
Context {rl : list Z} {us : option (list Z)}.
Local Notation inv := (inv_at rl us).
Local Notation sess := (sess_at rl us).

Lemma sess_SendPacket_raw p b n : keeps no_dangling (sess (Some p)) (SendPacket_raw p b n).
Proof.
  intros w [Hi Ho]. destruct (Ho p eq_refl) as [s Hs]. destruct (iv_conns _ _ _ Hi p s Hs) as (c & Hc & Hlive).
  unfold SendPacket_raw. rewrite (st_bind_ok _ _ _ _ _ (us_get_ok p s w Hs)), Hc.
  pose proof (sess_on_net (rl := rl) (us := us) no_dangling (Some p) c (Connector_AddSendData c (Some b) n)
    (live_AddSendData c (Some b) n) (links_of_quiet _ (quiet_AddSendData c (Some b) n)) w) as E.
  destruct (on_net _ w) as [[a w']|f]; by apply E.
Qed.
Hint Resolve sess_SendPacket_raw : keeps.
Lemma sess_SendPacket p m : keeps no_dangling (sess (Some p)) (SendPacket p m).
Proof.
  unfold SendPacket. eapply hoare_bind; [apply hoare_build; intros; apply faults_make_send_buffer|].
  intros [b n]. apply (hoare_conseq _ _ (sess (Some p)) _ _ (λ _, sess (Some p))); [by intros w []|done|].
  apply sess_SendPacket_raw.
Qed.
Lemma sess_AddUserSessionMap F p : keeps F (sess (Some p)) (AddUserSessionMap p).
Proof. unfold AddUserSessionMap. keeps_tac. Qed.
Hint Resolve sess_SendPacket sess_AddUserSessionMap : keeps.
Lemma faults_print d : faults no_dangling (print_c_string d).
Proof. unfold print_c_string. keeps_tac. Qed.
Lemma faults_echo e t d n : faults no_dangling (SC_P_ECHO_SetData e t d n).
Proof. unfold SC_P_ECHO_SetData, memcpy_s. keeps_tac. Qed.
Hint Resolve faults_print faults_echo : keeps.
Lemma sess_handle p m : keeps no_dangling (sess (Some p)) (c2s_handle p m).
Proof.
  destruct m; cbn [c2s_handle]; [unfold C2S_Auth|unfold C2S_Enter|unfold C2S_LEAVE|unfold C2S_Move
    |unfold C2S_Interaction|unfold C2S_Heartbeat|unfold C2S_Echo]; keeps_tac.
Qed.
End Handlers.

(** ** Any bytes whatever

    Bytes that are not a frame of the protocol still do nothing, fault while
    they are decoded, or run one of the handlers on some message. *)
Section AnyBytes.
Context `{OS} (self : Z).

Definition decoded (w : SvrWorld) (r : outcome (bool * SvrWorld)) : Prop :=
  r = Ok (false, w) ∨ (∃ f, r = Fault f ∧ no_dangling f) ∨ (∃ m, r = c2s_handle self m w).
Definition slot_ok (f : PacketFunctorBase receiver) : Prop := ∀ data len w,
  decoded w (match f (self, w) data len with Ok ((_, w'), b) => Ok (b, w') | Fault e => Fault e end).

Lemma decoded_fault w f : no_dangling f → decoded w (Fault f).
Proof. right. left. eauto. Qed.
Lemma faults_Serializer_recv mem d n : faults no_dangling (Serializer_recv mem d n).
Proof. pose proof faults_BufferBase_Write. unfold Serializer_recv. keeps_tac. Qed.
Lemma slot_of_handler {P} `{Wire P} t fresh (f : Z → P → svr bool) (con : P → c2s) :
  (∀ s, faults no_dangling (Serialize_packet s (mkPacket (PacketTypeC2S_value t) fresh))) →
  (∀ q, f self q = c2s_handle self (con q)) →
  ∀ g, slot t fresh f = Some g → slot_ok g.
Proof.
  intros Hs Hf g [= <-] data len w. unfold PacketFunctor_Execute.
  pose proof (faults_Serializer_recv os_fresh data len) as Hr.
  destruct (Serializer_recv os_fresh data len) as [unpack|e]; [|by apply decoded_fault]. cbn [mbind outcome_bind].
  specialize (Hs unpack). destruct (Serialize_packet unpack _) as [[s' q]|e]; [|by apply decoded_fault].
  cbn [mbind outcome_bind]. unfold as_handler. right. right. exists (con (body q)). rewrite <-Hf.
  by destruct (f self (body q) w) as [[b w']|e].
Qed.
Lemma faults_c2s {P} `{Wire P} (p : P) type :
  (∀ s, faults no_dangling (Serialize s p)) → ∀ s, faults no_dangling (Serialize_packet s (mkPacket type p)).
Proof. pose proof faults_Value_UINT32. intros Hp s. unfold Serialize_packet, SerializeHead. keeps_tac. Qed.

Ltac slot_tac E con wire ser :=
  match type of E with @slot _ ?P ?W ?t ?fresh ?h = _ =>
    apply (@slot_of_handler P W t fresh h con); [|done|exact E];
    apply (@faults_c2s P W); intros ?; unfold Serialize, wire, ser; keeps_tac end.
Lemma c2s_slots i f : get c2s_table i = Some (Some f) → slot_ok f.
Proof.
  pose proof faults_Value_INT32. pose proof faults_Value_INT64. pose proof faults_Value_chars.
  intros Hi. assert (Some f ∈ c2s_table) as Hin by (unfold get in Hi; by eapply list_elem_of_lookup_2).
  unfold c2s_table in Hin. set_unfold in Hin.
  destruct Hin as [E|[E|[E|[E|[E|[E|[E|[E|[]]]]]]]]]; [done|..]; symmetry in E.
  - slot_tac E C_AUTH CS_P_AUTH_wire CS_P_AUTH_Serialize.
  - slot_tac E C_ENTER CS_P_ENTER_wire CS_P_ENTER_Serialize.
  - slot_tac E C_LEAVE CS_P_LEAVE_wire CS_P_LEAVE_Serialize.
  - slot_tac E C_MOVE CS_P_MOVE_wire CS_P_MOVE_Serialize.
  - slot_tac E C_INTERACTION CS_P_INTERACTION_wire CS_P_INTERACTION_Serialize.
  - slot_tac E C_HEARTBEAT CS_P_HEARTBEAT_wire CS_P_HEARTBEAT_Serialize.
  - slot_tac E C_ECHO CS_P_ECHO_wire CS_P_ECHO_Serialize.
Qed.

Lemma MessageProcess_any data n w : decoded w (MessageProcess self data n w).
Proof.
  unfold MessageProcess. destruct (u64 n <? sizeof_PacketHead); [by left|].
  unfold execute_message, peek. case_bool_decide; [|by apply decoded_fault]. cbn [mbind outcome_bind].
  rewrite RegisterPacketHandlers_ok. cbn [mbind outcome_bind]. unfold PacketHandler_Execute.
  set (d := drop _ data). set (len := u32 _).
  pose proof (faults_Serializer_recv os_fresh d len) as Hr.
  destruct (Serializer_recv os_fresh d len) as [unpack|e]; [|by apply decoded_fault]. cbn [mbind outcome_bind].
  unfold SerializeHead. pose proof (faults_Value_UINT32 unpack 0) as Ht.
  destruct (Value_UINT32 unpack 0) as [[s' type]|e]; [|by apply decoded_fault]. cbn [mbind outcome_bind].
  unfold aget. case_bool_decide; [|by apply decoded_fault].
  match goal with |- context [@get ?A c2s_table type] =>
    destruct (@get A c2s_table type) as [[f|]|] eqn:E end; cbn [mbind outcome_bind];
    [|by left|by apply decoded_fault].
  pose proof (c2s_slots _ _ E d len w) as Hf. unfold receiver in *.
  destruct (f (self, w) d len) as [[[self' w'] b]|e]; exact Hf.
Qed.
Lemma sess_MessageProcess rl us data n :
  keeps no_dangling (sess_at rl us (Some self)) (MessageProcess self data n).
Proof.
  intros w Hw. destruct (MessageProcess_any data n w) as [-> |[(f & -> & Hf)|[m ->]]]; [done..|].
  exact (sess_handle self m w Hw).
Qed.
Lemma quiet_MessageProcess data n : respects svr_quiet (MessageProcess self data n).
Proof.
  intros w b w' E. destruct (MessageProcess_any data n w) as [E' |[(f & E' & Hf)|[m E']]].
  - rewrite E' in E. by injection E as _ <-.
  - congruence.
  - rewrite E' in E. by eapply quiet_handle.
Qed.
End AnyBytes.

(** ** Commands: the invariant *)
Section Commands.
Context `{OS} (o : option Z).
Context {rl : list Z} {us : option (list Z)}.
Local Notation inv := (inv_at rl us).
Local Notation sess := (sess_at rl us).

Lemma any_character_get p : keeps any_fault (sess o) (character_get p).
Proof. unfold character_get. keeps_tac. Qed.
Lemma any_zone_get p : keeps any_fault (sess o) (zone_get p).
Proof. intros w Hw. unfold zone_get. by destruct (_ !! _). Qed.
Hint Resolve any_character_get any_zone_get : keeps.

Lemma new_SendPacketToUser_cmd token buf len cmd :
  buffer_ok buf len → new_SendPacketToUser token buf len = Ok cmd → cmd_ok cmd.
Proof.
  intros Hb. destruct (new_SendPacketToUser_ok token buf len Hb) as (buf' & -> & ? & _). by intros [= <-].
Qed.
Lemma any_PacketBroadcast zone buf len :
  buffer_ok buf len → keeps any_fault (sess o) (PacketBroadcast zone buf len).
Proof.
  intros Hb. unfold PacketBroadcast. apply keeps_bind; [eauto with keeps|]. intros z.
  apply keeps_each. intros it _. apply keeps_bind; [eauto with keeps|]. intros c w Hw.
  unfold mbind, st_bind, st_lift.
  destruct (new_SendPacketToUser (GetToken c) buf len) as [cmd|] eqn:E; [|done].
  by apply (sess_add_command any_fault o cmd (new_SendPacketToUser_cmd _ _ _ _ Hb E) w).
Qed.
Lemma any_GetCharacterDbList_loop items t : keeps any_fault (sess o) (GetCharacterDbList_loop items t).
Proof. induction items as [|[token c] items IH]; cbn [GetCharacterDbList_loop]; keeps_tac. Qed.
Hint Resolve any_GetCharacterDbList_loop : keeps.
Lemma any_GetCharacterDbList zone t : keeps any_fault (sess o) (GetCharacterDbList zone t).
Proof. unfold GetCharacterDbList. keeps_tac. Qed.

(** The character map of a zone may change, its id may not. *)
Lemma any_zone_update {A} zone (m : Zone → svr A) (f : Zone → A → Zone) :
  (∀ z, keeps any_fault (sess o) (m z)) → (∀ z a, z_id (f z a) = z_id z) →
  (∀ z w a w', m z w = Ok (a, w') → sw_zones w' = sw_zones w) →
  keeps any_fault (sess o) (z ← zone_get zone; a ← m z; zone_set zone (f z a)).
Proof.
  intros Hm Hf Hz w Hw. unfold mbind, st_bind, zone_get.
  destruct (sw_zones w !! zone) as [z|] eqn:E; [|done]. specialize (Hm z w Hw).
  destruct (m z w) as [[a w']|] eqn:Em; [|done]. apply Hz in Em. destruct Hm as [Hi Ho].
  rewrite <-Em in E. rewrite (zone_set_ok _ _ _ _ E). split; [by eapply inv_zone|done].
Qed.
Lemma any_OnRegistCharacter zone p : keeps any_fault (sess o) (OnRegistCharacter zone p).
Proof.
  apply (any_zone_update zone (λ _, character_get p) (λ z c, mkZone (z_id z) (std_insert (GetToken c) p (_characterMap z))));
    [eauto with keeps|done|].
  intros _ w c w'. unfold character_get, us_get, mbind, st_bind. destruct (_ !! _); [|done]. by intros [= <- <-].
Qed.
Lemma any_OnUnregist zone t : keeps any_fault (sess o) (OnUnregistCharacter_token zone t).
Proof.
  intros w Hw. refine (any_zone_update zone (λ _, mret tt) (λ z _, mkZone (z_id z) (delete t (_characterMap z))) _ _ _ w Hw);
    [eauto with keeps|done|]. by intros _ w1 c w' [= <- <-].
Qed.
Hint Resolve any_OnRegistCharacter any_OnUnregist any_GetCharacterDbList : keeps.

(** A new zone: fresh, so in no map until it has its id. *)
Lemma zone_alloc_inv w p w' :
  inv w → zone_alloc w = Ok (p, w') →
  inv w' ∧ sw_zones w' !! p = Some Zone_new ∧ (∀ id, _zoneMap w' !! id ≠ Some p) ∧ sw_sessions w' = sw_sessions w.
Proof.
  intros [] E. unfold zone_alloc in E. destruct (GetFreeObjectPtr (om_pool (sw_zmgr w))) as [[q pool]|] eqn:Ep; [|done].
  injection E as <- <-. destruct iv_zones0 as (zs & Hinv & Hzs).
  destruct (om_acquire (mkObjectMgrBase (om_pool (sw_zmgr w)) zs) q (mkObjectMgrBase pool (zs ++ [q])) Hinv) as (Hfresh & _ & Hinv').
  { unfold ObjectMgrBase_GetFreeObject. cbn [om_pool]. by rewrite Ep. }
  cbn [om_usedList] in Hfresh.
  assert (∀ id, _zoneMap w !! id ≠ Some q) as Hno.
  { intros id Hq. destruct (iv_zoneMap0 id q Hq) as (z & Hz & _). apply Hfresh, Hzs. by eexists. }
  split; [|split_and!; [apply lookup_insert_eq|exact Hno|done]]. split; cbn; try done.
  - exists (zs ++ [q]). split; [done|]. intros x. rewrite elem_of_app, list_elem_of_singleton, <-Hzs.
    rewrite lookup_insert_is_Some'. split; intros [?|?]; auto.
  - intros id x Hx. destruct (iv_zoneMap0 id x Hx) as (z & Hz & Hid). exists z.
    rewrite lookup_insert_ne; [done|]. intros ->. by eapply Hno.
Qed.
Lemma any_new_zone zone p :
  keeps any_fault (sess o)
    (obj ← zone_alloc; z ← zone_get obj; _ ← zone_set obj (Zone_SetId zone z);
     _ ← st_modify (λ w, set_zoneMap (std_insert zone obj (_zoneMap w)) w); OnRegistCharacter obj p).
Proof.
  intros w [Hi Ho]. unfold mbind at 1, st_bind at 1. destruct (zone_alloc w) as [[obj w1]|] eqn:E; [|done].
  destruct (zone_alloc_inv w obj w1 Hi E) as (Hi1 & Hz & Hno & Hs).
  rewrite (st_bind_ok _ _ _ _ _ (zone_get_ok _ _ _ Hz)), (st_bind_ok _ _ _ _ _ (zone_set_ok _ _ _ _ Hz)).
  rewrite (st_bind_ok _ _ _ tt _ eq_refl). apply any_OnRegistCharacter.
  split; [|intros q Hq; cbn; rewrite Hs; by apply Ho]. clear -Hi1 Hz Hno. destruct Hi1. split; cbn; try done.
  - destruct iv_zones0 as (zs & Hinv & Hzs). exists zs. split; [done|]. intros q. rewrite <-Hzs, lookup_insert_is_Some'.
    split; [intros [<-|?]; [by eexists|done]|by right].
  - intros id q. unfold std_insert. destruct (_zoneMap w1 !! zone) eqn:Ez.
    + intros Hq. destruct (iv_zoneMap0 id q Hq) as (z' & Hz' & Hid). exists z'. rewrite lookup_insert_ne; [done|].
      intros ->. by eapply Hno.
    + destruct (decide (id = zone)) as [->|Hne].
      * rewrite lookup_insert_eq. intros [= <-]. eexists. by rewrite lookup_insert_eq.
      * rewrite lookup_insert_ne by done. intros Hq. destruct (iv_zoneMap0 id q Hq) as (z' & Hz' & Hid). exists z'.
        rewrite lookup_insert_ne; [done|]. intros ->. by eapply Hno.
Qed.
Lemma any_ZoneEnter zone p : keeps any_fault (sess o) (ZoneMgr_EnterCharacter zone p).
Proof.
  unfold ZoneMgr_EnterCharacter. apply keeps_bind; [eauto with keeps|]. intros m.
  destruct (m !! zone); [eauto with keeps|apply any_new_zone].
Qed.
End Commands.

#[export] Hint Resolve any_character_get any_zone_get any_OnRegistCharacter any_OnUnregist any_GetCharacterDbList any_ZoneEnter : keeps.

Section Ticks.
Context `{OS}.
Context {rl : list Z} {us : option (list Z)}.
Local Notation inv := (inv_at rl us).
Local Notation sess := (sess_at rl us).
Implicit Types (o : option Z).

Lemma any_on_net {A} o (m : net A) : respects links_kept m → keeps any_fault (sess o) (on_net m).
Proof.
  intros Hm w [Hi Ho]. unfold on_net, st_zoom. destruct (m (sw_net w)) as [[a n]|] eqn:E; [|done].
  split; [|done]. apply inv_net; [done|]. by eapply Hm.
Qed.
Lemma any_SendPacket_raw o p b n : keeps any_fault (sess o) (SendPacket_raw p b n).
Proof.
  unfold SendPacket_raw. apply keeps_bind; [eauto with keeps|]. intros s. destruct (us_pConnector s); [|done].
  apply any_on_net, links_of_quiet, quiet_AddSendData.
Qed.
Hint Resolve any_SendPacket_raw any_PacketBroadcast : keeps.
Lemma any_send_records o token records : ∀ p, keeps any_fault (sess o) (send_records token records p).
Proof.
  induction records as [|it records IH]; intros p; cbn [send_records]; [eauto with keeps|].
  apply keeps_bind; [apply keeps_lift, faults_any|]. intros [q full]. destruct full; [|apply IH].
  apply keeps_to_user; [intros; apply faults_any|apply IH].
Qed.
Lemma any_to_user_last o token m :
  keeps any_fault (sess o) (cmd ← new_SendPacketToUser_packet token m; add_command cmd).
Proof.
  intros w Hw. pose proof (keeps_to_user any_fault o token m (mret tt) ltac:(intros; apply faults_any)
    (keeps_ret _ _ tt) w Hw) as Hb.
  unfold mbind, st_bind in *. destruct (new_SendPacketToUser_packet token m w) as [[cmd w1]|]; [|done].
  by destruct (add_command cmd w1) as [[[]]|].
Qed.
Hint Resolve any_send_records any_to_user_last : keeps.

Lemma Operator_keeps o c : cmd_ok c → keeps any_fault (sess o) (Operator c).
Proof.
  destruct c as [z b n|t b n|t z x y|t z|t z]; cbn [cmd_ok Operator]; intros Hc.
  - unfold SendBroadcastToAllUser_Operator, GetZone. keeps_tac.
  - unfold SendPacketToUser_Operator, GetUserSession. keeps_tac.
  - unfold EnterCharacter_Operator, GetUserSession. keeps_tac.
  - unfold LeaveCharacter_Operator, GetUserSession, ZoneMgr_LeaveCharacter. keeps_tac.
  - unfold SendCharacterList_Operator, GetUserSession, GetZone. keeps_tac.
Qed.

Lemma fire_inv l : ∀ w, inv w → Forall cmd_ok l →
  ∀ w' new, fire_list Operator_adds w l = Ok (w', new) → inv w' ∧ Forall cmd_ok new.
Proof.
  induction l as [|c l IH]; intros w Hi Hl w' new E; cbn [fire_list] in E.
  { injection E as <- <-. by split. }
  apply Forall_cons in Hl as [Hc Hl]. apply bind_ok_inv in E as ([w1 new1] & E1 & E).
  apply bind_ok_inv in E as ([w2 new2] & E2 & [= <- <-]). unfold Operator_adds in E1.
  pose proof (Operator_keeps None c Hc (set_sw_cmds [] w)) as Hop.
  destruct (Operator c (set_sw_cmds [] w)) as [[u wc]|]; [|done]. injection E1 as <- <-.
  destruct Hop as [Hic _]; [split; [by apply inv_cmds|done]|].
  destruct (IH _ (inv_cmds _ (sw_cmds w) Hic (iv_cmds _ _ _ Hi)) Hl _ _ E2) as [Hi2 Hn2].
  split; [done|]. apply Forall_app. split; [apply Hic|done].
Qed.
Lemma Tick_keeps : keeps any_fault inv svr_Tick.
Proof.
  intros w Hi. unfold svr_Tick. destruct (fire_list _ _ _) as [[w' new]|] eqn:E; [|done].
  destruct (fire_inv _ _ (inv_cmds w [] Hi ltac:(done)) (iv_cmds _ _ _ Hi) _ _ E). by apply inv_cmds.
Qed.
End Ticks.

(** ** The process thread *)
Section Process.
Context `{OS}.
Context {rl : list Z}.
Local Notation inv := (inv_at rl None).
Local Notation sess := (sess_at rl None).

Lemma links_pop : respects links_kept pop_packet.
Proof.
  intros n a n' E. unfold pop_packet in E. repeat case_match; simplify_eq/=; by split.
Qed.
Lemma links_load x : respects links_kept (load_packet x).
Proof. intros n a n' E. unfold load_packet in E. case_match; by simplify_eq. Qed.
Lemma links_release x : respects links_kept (release_packet x).
Proof. intros n a n' E. unfold release_packet in E. repeat case_match; simplify_eq/=; by split. Qed.
Hint Resolve any_on_net links_pop links_load links_release : keeps.
Lemma any_Disconnect o c : keeps any_fault (sess o) (svr_Disconnect c).
Proof.
  unfold svr_Disconnect. apply keeps_bind; [|eauto with keeps].
  apply any_on_net, links_of_quiet, quiet_Disconnect.
Qed.
Hint Resolve any_Disconnect : keeps.

(** A session for a connector that has none: the two point to each other. *)
Lemma new_session_ok w c k p w1 :
  inv w → nw_conns (sw_net w) !! c = Some k → session_GetFreeObject w = Ok (p, w1) →
  ∃ w2, (_ ← on_net (conn_mod c (SetParam (Some p))); us_mod p (SetConnector (Some c))) w1 = Ok (tt, w2) ∧
        sess (Some p) w2.
Proof.
  intros [] Hk E. unfold session_GetFreeObject in E.
  destruct (ObjectMgrBase_GetFreeObject (sw_smgr w)) as [[q m]|] eqn:Em; [|done]. injection E as <- <-.
  destruct (om_acquire _ _ _ iv_sessions0 Em) as (Hfresh & Hused & Hm).
  assert (sw_sessions w !! q = None) as Hnew by (apply eq_None_not_Some; rewrite iv_live0; exact Hfresh).
  set (u := u32 (sw_session_uid w + 1)).
  erewrite st_bind_ok by (apply on_net_ok, conn_mod_ok; exact Hk).
  rewrite (us_mod_ok q _ (UserSession_new u)) by apply lookup_insert_eq. eexists; split; [done|].
  cbn [sw_sessions set_sw_sessions set_sw_net set_sw_session_uid set_sw_smgr]. rewrite insert_insert_eq.
  split; [|intros x [= <-]; eexists; apply lookup_insert_eq]. split; cbn; try done.
  - intros x. rewrite Hused, elem_of_app, list_elem_of_singleton, <-iv_live0, lookup_insert_is_Some'.
    split; intros [?|?]; auto.
  - intros c' x. unfold links. rewrite lookup_omap. cbn. destruct (decide (c' = c)) as [->|Hc].
    + rewrite lookup_insert_eq. cbn. intros [= <-]. eexists. by rewrite lookup_insert_eq.
    + rewrite lookup_insert_ne by done. intros Hx. destruct (iv_links0 c' x) as (s & Hs & Hcs); [unfold links; by rewrite lookup_omap|].
      exists s. rewrite lookup_insert_ne; [done|]. congruence.
  - intros x s. destruct (decide (x = q)) as [->|Hx].
    + rewrite lookup_insert_eq. intros [= <-]. exists c. split; [done|]. apply lookup_insert_is_Some'. by left.
    + rewrite lookup_insert_ne by done. intros Hs. destruct (iv_conns0 x s Hs) as (c' & ? & ?). exists c'.
      split; [done|]. apply lookup_insert_is_Some'. by right.
Qed.

(** What is done with a packet of connector [c], whatever its bytes. *)
Definition for_connector (c : Z) (buffer : list Z) (n : Z) : svr unit :=
  k ← on_net (conn_get c);
  match GetParam k with
  | Some pUserSession => _ ← MessageProcess pUserSession buffer n; mret tt
  | None =>
      pUserSession ← session_GetFreeObject;
      _ ← on_net (conn_mod c (SetParam (Some pUserSession)));
      _ ← us_mod pUserSession (SetConnector (Some c));
      _ ← MessageProcess pUserSession buffer n; mret tt
  end.
Lemma for_connector_ok c buffer n :
  hoare no_dangling (λ w, inv w ∧ live c (sw_net w)) (for_connector c buffer n) (λ _, inv).
Proof.
  intros w [Hi [k Hk]]. unfold for_connector.
  rewrite (st_bind_ok _ _ w k w) by (rewrite (on_net_ok _ _ _ _ (conn_get_ok _ _ _ Hk)); by destruct w).
  assert (∀ p w', sess (Some p) w' →
    match (_ ← MessageProcess p buffer n; mret tt) w' with Ok (_, w'') => inv w'' | Fault f => no_dangling f end) as Hm.
  { intros p w' Hs. pose proof (sess_MessageProcess p _ _ buffer n w' Hs) as Hmp. unfold mbind, st_bind.
    destruct (MessageProcess p buffer n w') as [[b w'']|]; [by destruct Hmp|done]. }
  unfold GetParam. destruct (_param k) as [p|] eqn:Hp.
  - apply Hm. split; [done|]. intros q [= <-].
    destruct (iv_links _ _ _ Hi c p) as (s & Hs & _); [by rewrite (links_lookup _ _ _ Hk)|by eexists].
  - unfold mbind at 1, st_bind at 1. destruct (session_GetFreeObject w) as [[p w1]|f] eqn:E.
    + destruct (new_session_ok w c k p w1 Hi Hk E) as (w2 & E2 & Hs2).
      apply st_bind_inv in E2 as ([] & w3 & E3 & E4).
      rewrite (st_bind_ok _ _ _ _ _ E3), (st_bind_ok _ _ _ _ _ E4). by apply Hm.
    + unfold session_GetFreeObject in E. revert E. unfold ObjectMgrBase_GetFreeObject, GetFreeObjectPtr.
      repeat case_match; intros; simplify_eq/=; done.
Qed.

Lemma keeps_inv {A} F (m : svr A) : keeps F (sess None) m ↔ keeps F inv m.
Proof.
  split; intros Hm w; [intros Hi|intros [Hi _]]; pose proof (Hm w) as Hw.
  - destruct (m w) as [[a w']|]; [by apply Hw|apply Hw]; by split.
  - destruct (m w) as [[a w']|]; [split; [by apply Hw|done]|by apply Hw].
Qed.
Lemma ProcessThread_step_keeps prev : keeps any_fault inv (ProcessThread_step prev).
Proof.
  apply keeps_inv. unfold ProcessThread_step. apply keeps_bind; [eauto with keeps|].
  intros [[x|]|]; [|eauto with keeps..]. apply keeps_bind; [eauto with keeps|]. intros pk.
  apply keeps_bind; [eauto with keeps|]. intros ok. apply keeps_bind; [destruct ok; cbn; eauto with keeps|]. intros _.
  destruct (_pConnector pk) as [c|]; [|keeps_tac].
  apply (hoare_bind _ _ _ (λ k w, sess None w ∧ nw_conns (sw_net w) !! c = Some k)).
  { intros w Hw. unfold on_net, st_zoom, conn_get. destruct (nw_conns (sw_net w) !! c) as [k|] eqn:E; [|done].
    by destruct w. }
  intros k. apply (hoare_bind _ _ _ (λ _, sess None)); [|intros _; keeps_tac].
  intros w [[Hi _] Hk].
  pose proof (for_connector_ok c (_pBuffer (ps_base pk)) (i32 (_nDataSize (ps_base pk))) w (conj Hi (ex_intro _ k Hk))) as Hm.
  unfold for_connector in Hm.
  rewrite (st_bind_ok _ _ w k w) in Hm by (rewrite (on_net_ok _ _ _ _ (conn_get_ok _ _ _ Hk)); by destruct w).
  match goal with |- match ?m w with _ => _ end => change (m w) with (m w); destruct (m w) as [[u w']|] end; [|done].
  by split.
Qed.
End Process.

(** ** The update of the sessions: no access to a destroyed object *)
Section Update.
Context `{OS}.
Implicit Types (w : SvrWorld).

Lemma inv_connector_live rl us w p s : inv_at rl us w → sw_sessions w !! p = Some s → connector_live w s.
Proof.
  intros Hi Hs c Hc. destruct (iv_conns _ _ _ Hi p s Hs) as (c' & Hc' & Hl). rewrite Hc in Hc'. by injection Hc' as <-.
Qed.

Lemma DoUpdate_ok rl us p now :
  hoare no_dangling (sess_at rl us (Some p)) (UserSession_DoUpdate p now)
    (λ _ w, inv_at rl us w ∨ inv_at (rl ++ [p]) us w).
Proof.
  intros w [Hi Ho]. destruct (Ho p eq_refl) as [s Hs]. pose proof (inv_connector_live _ _ _ _ _ Hi Hs) as Hl.
  destruct (Z.ltb_spec (us_biUpdateTime s) now) as [Hd|Hd].
  2:{ rewrite (DoUpdate_not_due p s now w Hs Hd). by left. }
  destruct (connected w s) eqn:Hc.
  2:{ rewrite (DoUpdate_gone p s now w Hs Hd Hl Hc). right. unfold put_session. eapply inv_session; [|exact Hs|done].
      rewrite (iv_release _ _ _ Hi). by eapply inv_releaseList. }
  destruct (Z.ltb_spec (us_biHeartbeatTimer s) now) as [Hh|Hh].
  2:{ rewrite (DoUpdate_quiet p s now w Hs Hd Hl Hc Hh). left. by eapply inv_session. }
  destruct (iv_conns _ _ _ Hi p s Hs) as (c & Hpc & Hlive).
  rewrite (DoUpdate_beat p s c now w Hs Hd Hpc Hl Hc Hh). set (w1 := put_session p (beat now s) w).
  assert (sess_at rl us (Some p) w1) as Hw1.
  { split; [by eapply inv_session|]. intros q [= <-]. eexists. apply put_lookup. }
  destruct (4 <? _).
  - rewrite (st_bind_ok _ _ _ _ _ (us_mod_ok p _ _ _ (put_lookup p (beat now s) w))).
    pose proof (sess_us_mod no_dangling (rl := rl) (us := us) p (SetHeartbeatTimer INT64_MAX) ltac:(done) w1 Hw1) as Hw2.
    rewrite (us_mod_ok p _ _ _ (put_lookup p (beat now s) w)) in Hw2.
    pose proof (sess_on_net no_dangling (Some p) c (TryRelease c) (live_TryRelease c no_dangling)
      (links_of_quiet _ (quiet_TryRelease c)) _ (conj Hw2 Hlive)) as E.
    destruct (on_net (TryRelease c) _) as [[u w3]|]; [|exact E]. left. apply E.
  - pose proof (sess_SendPacket p (S_HEARTBEAT mkSC_P_HEARTBEAT) w1 Hw1) as E. unfold mbind, st_bind.
    destruct (SendPacket p _ w1) as [[r w3]|]; [|exact E]. left. apply E.
Qed.

(** A connector loses its session. *)
Lemma inv_unlink rl us w n :
  inv_at rl us w → links n ⊆ links (sw_net w) → (∀ c, live c (sw_net w) → live c n) → inv_at rl us (set_sw_net n w).
Proof.
  intros [] Hl Hd. split; cbn; try done.
  - intros c p Hp. apply iv_links0. by eapply lookup_weaken.
  - intros p s Hs. destruct (iv_conns0 p s Hs) as (c & Hc & Hlive). exists c. split; [done|auto].
Qed.
Lemma links_delete n c k :
  nw_conns n !! c = Some k → links (set_nw_conns (<[c := SetParam None k]> (nw_conns n)) n) = delete c (links n).
Proof.
  intros Hk. apply map_eq. intros c'. unfold links. rewrite lookup_omap. cbn [nw_conns set_nw_conns].
  destruct (decide (c' = c)) as [->|Hne].
  - by rewrite lookup_insert_eq, lookup_delete_eq.
  - by rewrite lookup_insert_ne, lookup_delete_ne, lookup_omap.
Qed.

Definition unlinked (D : list Z) w : Prop := ∀ p c, p ∈ D → links (sw_net w) !! c ≠ Some p.

Lemma Release_unlinks us D p :
  hoare no_dangling (λ w, sess_at [] us (Some p) w ∧ unlinked D w) (UserSession_Release p)
    (λ _ w, inv_at [] us w ∧ unlinked (D ++ [p]) w).
Proof.
  intros w [Hs HD]. unfold UserSession_Release. destruct Hs as [Hi Ho]. destruct (Ho p eq_refl) as [s Hs].
  rewrite (st_bind_ok _ _ _ _ _ (us_get_ok p s w Hs)).
  set (b := negb _). set (lv := LeaveCharacter _ _).
  set (w1 := if b then set_sw_cmds (sw_cmds w ++ [lv]) w else w).
  rewrite (st_bind_ok _ _ _ tt w1) by (by unfold w1; destruct b).
  assert (inv_at [] us w1) as Hi1.
  { unfold w1. destruct b; [|done]. apply inv_cmds; [done|]. apply Forall_app. split; [apply Hi|by repeat constructor]. }
  assert (sw_sessions w1 !! p = Some s ∧ sw_net w1 = sw_net w) as [Hs1 Hn1] by (unfold w1; by destruct b).
  rewrite (st_bind_ok _ _ _ _ _ (us_mod_ok p _ s w1 Hs1)). set (s2 := set_us_biUpdateTime _ _).
  set (w2 := set_sw_sessions (<[p := s2]> (sw_sessions w1)) w1).
  assert (sw_sessions w2 !! p = Some s2) as Hs2 by apply lookup_insert_eq.
  assert (inv_at [] us w2) as Hi2 by (by eapply inv_session).
  rewrite (st_bind_ok _ _ _ _ _ (us_get_ok p s2 w2 Hs2)).
  destruct (iv_conns _ _ _ Hi2 p s2 Hs2) as (c & Hc & [k Hk]). rewrite Hc.
  set (n3 := set_nw_conns (<[c := SetParam None k]> (nw_conns (sw_net w2))) (sw_net w2)).
  rewrite (st_bind_ok _ _ _ tt (set_sw_net n3 w2)) by (apply on_net_ok, (conn_mod_ok c _ k), Hk).
  assert (inv_at [] us (set_sw_net n3 w2)) as Hi3.
  { apply inv_unlink; [done| |].
    - unfold n3. rewrite links_delete by done. apply delete_subseteq.
    - intros c' Hc'. apply lookup_insert_is_Some'. by right. }
  assert (unlinked (D ++ [p]) (set_sw_net n3 w2)) as HD3.
  { intros q c' Hq. cbn [sw_net set_sw_net]. unfold n3. rewrite links_delete by done.
    destruct (decide (c' = c)) as [->|Hne]; [by rewrite lookup_delete_eq|]. rewrite lookup_delete_ne by done.
    intros E. apply elem_of_app in Hq as [Hq| ->%list_elem_of_singleton].
    - apply (HD q c' Hq). cbn in E. by rewrite Hn1 in E.
    - destruct (iv_links _ _ _ Hi2 c' p E) as (s' & Hs' & Hc'). rewrite Hs2 in Hs'. congruence. }
  assert (live c (sw_net (set_sw_net n3 w2))) as Hl3 by (apply lookup_insert_is_Some'; by left).
  pose proof (sess_on_net no_dangling None c (TryRelease c) (live_TryRelease c no_dangling)
    (links_of_quiet _ (quiet_TryRelease c)) _ (conj (sess_none _ _ _ Hi3) Hl3)) as E.
  destruct (on_net (TryRelease c) (set_sw_net n3 w2)) as [[u w4]|] eqn:E4; [|exact E].
  split; [apply E|]. unfold on_net, st_zoom in E4. destruct (TryRelease c _) as [[u' n4]|] eqn:E5; [|done].
  injection E4 as _ <-. intros q c' Hq. apply quiet_TryRelease in E5 as [[Hl _] _ _].
  cbn [sw_net set_sw_net]. rewrite Hl. exact (HD3 q c' Hq).
Qed.

(** Destroying a session that no connector belongs to. *)
Lemma SetFree_ok us p w :
  inv_at [] us w → is_Some (sw_sessions w !! p) → (∀ c, links (sw_net w) !! c ≠ Some p) →
  ∃ w', session_SetFreeObject p w = Ok (tt, w') ∧ inv_at [] None w' ∧ sw_net w' = sw_net w ∧
    ∀ q, q ≠ p → sw_sessions w' !! q = sw_sessions w !! q.
Proof.
  intros [] [s Hs] Hu. unfold session_SetFreeObject. rewrite Hs. eexists; split; [done|].
  assert (p ∈ om_usedList (sw_smgr w)) as Hp by (apply iv_live0; by eexists).
  destruct (om_release _ p iv_sessions0 Hp) as [Hused Hm].
  split; [|split; [done|intros q Hq; cbn; by rewrite lookup_delete_ne]].
  split; cbn [_releaseList sw_smgr sw_sessions sw_zones sw_zmgr _zoneMap sw_cmds sw_net set_sw_sessions set_sw_smgr]; try done.
  - intros q. rewrite Hused, elem_of_remove_all, <-iv_live0, lookup_delete_is_Some. split; intros [? ?]; split; auto.
  - intros c q Hq. destruct (iv_links0 c q Hq) as (s0 & Hs0 & Hc0). exists s0. rewrite lookup_delete_ne; [done|].
    intros ->. by eapply Hu.
  - intros q s0 Hs0. apply lookup_delete_Some in Hs0 as [_ Hs0]. by eapply iv_conns0.
Qed.

(** The three loops. *)
Lemma update_all_ok U now :
  NoDup U →
  hoare no_dangling (inv_at [] (Some U)) (st_each (λ it, UserSession_DoUpdate it now) U)
    (λ _ w, ∃ rl, NoDup rl ∧ rl ⊆ U ∧ inv_at rl (Some U) w).
Proof.
  intros HU. apply (hoare_conseq _ _ (λ w, ∃ rl, NoDup rl ∧ rl ⊆ [] ∧ inv_at rl (Some U) w) _ _
    (λ _ w, ∃ rl, NoDup rl ∧ rl ⊆ U ∧ inv_at rl (Some U) w)); [|done|].
  { intros w Hi. exists []. by split_and!; [constructor|..]. }
  apply (hoare_each no_dangling (λ D w, ∃ rl, NoDup rl ∧ rl ⊆ D ∧ inv_at rl (Some U) w)).
  intros D p rest HUl w (rl & Hnd & Hsub & Hi). rewrite HUl in HU. apply NoDup_app in HU as (_ & HD & _).
  assert (p ∉ rl) as Hp by (intros Hp; apply Hsub in Hp; apply (HD p Hp); by left).
  pose proof (DoUpdate_ok rl (Some U) p now w) as E.
  destruct (UserSession_DoUpdate p now w) as [[u w']|]; [|apply E].
  - destruct E as [Hi'|Hi'].
    + split; [done|]. intros q [= <-]. apply (iv_live _ _ _ Hi). rewrite (iv_used _ _ _ Hi U eq_refl), HUl. set_solver.
    + exists rl. split_and!; [done|set_solver|done].
    + exists (rl ++ [p]). split_and!; [|set_solver|done].
      apply NoDup_app. split_and!; [done| |apply NoDup_singleton]. intros q Hq ->%list_elem_of_singleton. done.
  - split; [done|]. intros q [= <-]. apply (iv_live _ _ _ Hi). rewrite (iv_used _ _ _ Hi U eq_refl), HUl. set_solver.
Qed.
Lemma release_all_ok U R :
  R ⊆ U →
  hoare no_dangling (inv_at [] (Some U)) (st_each UserSession_Release R)
    (λ _ w, inv_at [] (Some U) w ∧ unlinked R w).
Proof.
  intros HR. apply (hoare_conseq _ _ (λ w, inv_at [] (Some U) w ∧ unlinked [] w) _ _
    (λ _ w, inv_at [] (Some U) w ∧ unlinked R w)); [|done|].
  { intros w Hi. split; [done|]. intros p c Hp. by apply not_elem_of_nil in Hp. }
  apply (hoare_each no_dangling (λ D w, inv_at [] (Some U) w ∧ unlinked D w)).
  intros D p rest HRl w [Hi HD]. apply (Release_unlinks (Some U) D p). split; [|done]. split; [done|].
  intros q [= <-]. apply (iv_live _ _ _ Hi). rewrite (iv_used _ _ _ Hi U eq_refl). apply HR. rewrite HRl. set_solver.
Qed.
Lemma destroy_all_ok U R :
  NoDup R → R ⊆ U →
  hoare no_dangling (λ w, inv_at [] (Some U) w ∧ unlinked R w)
    (st_each (λ it, _ ← DelUserSessionMap it; session_SetFreeObject it) R) (λ _, inv_at [] None).
Proof.
  intros HR HRU.
  apply (hoare_conseq _ _ (λ w, inv_at [] None w ∧ unlinked R w ∧ ∀ p, p ∈ R → p ∉ [] → is_Some (sw_sessions w !! p)) _ _
    (λ _ w, inv_at [] None w ∧ unlinked R w ∧ ∀ p, p ∈ R → p ∉ R → is_Some (sw_sessions w !! p))); [| |].
  { intros w [Hi Hu]. split_and!; [by destruct Hi; split|done|]. intros p Hp _. apply (iv_live _ _ _ Hi).
    rewrite (iv_used _ _ _ Hi U eq_refl). by apply HRU. }
  { by intros _ w [? _]. }
  apply (hoare_each no_dangling (λ D w, inv_at [] None w ∧ unlinked R w ∧ ∀ p, p ∈ R → p ∉ D → is_Some (sw_sessions w !! p))).
  intros D p rest HRl w (Hi & Hu & Hl).
  assert (p ∉ D) as HpD by (rewrite HRl in HR; apply NoDup_app in HR as (_ & HD & _); intros Hp; apply (HD p Hp); by left).
  assert (p ∈ R) as HpR by (rewrite HRl; set_solver).
  destruct (Hl p HpR HpD) as [s Hs].
  set (w1 := set_userMap (delete (session_GetToken s) (_userMap w)) w).
  assert (DelUserSessionMap p w = Ok (tt, w1)) as E1 by (unfold DelUserSessionMap; by rewrite (st_bind_ok _ _ _ _ _ (us_get_ok p s w Hs))).
  rewrite (st_bind_ok _ _ _ _ _ E1).
  destruct (SetFree_ok None p w1) as (w2 & -> & Hi2 & Hn2 & Hs2); [by apply inv_userMap|by eexists|intros c; by apply Hu|].
  split_and!; [done|unfold unlinked; by rewrite Hn2|].
  intros q Hq HqD. rewrite Hs2 by set_solver. apply Hl; [done|set_solver].
Qed.

Lemma UserSessionMgr_DoUpdate_ok now : hoare no_dangling (inv_at [] None) (UserSessionMgr_DoUpdate now) (λ _, inv_at [] None).
Proof.
  unfold UserSessionMgr_DoUpdate. apply keeps_bind; [apply keeps_gets|]. intros t. destruct (t <? now); [|apply keeps_ret].
  intros w Hi. unfold mbind at 1, st_bind at 1, st_gets at 1. cbv beta.
  set (U := om_usedList (sw_smgr w)).
  assert (NoDup U) as HU by (destruct (iv_sessions _ _ _ Hi) as [Hnd _ _]; by apply NoDup_app in Hnd as (_ & _ & ?)).
  assert (inv_at [] (Some U) w) as HiU by (destruct Hi; split; try done; by intros l [= <-]).
  clearbody U. clear Hi. revert w HiU.
  apply (hoare_bind _ _ _ (λ _ w, ∃ rl, NoDup rl ∧ rl ⊆ U ∧ inv_at rl (Some U) w)); [by apply update_all_ok|]. intros _.
  apply (hoare_bind _ _ _ (λ rl w, NoDup rl ∧ rl ⊆ U ∧ inv_at [] (Some U) w)).
  { intros w (rl & Hnd & Hsub & Hi). unfold SwapReleaseList. rewrite (iv_release _ _ _ Hi).
    split_and!; [done|done|by eapply inv_releaseList]. }
  intros R w (HR & HRU & Hi). revert w Hi.
  apply (hoare_bind _ _ _ (λ _ w, inv_at [] (Some U) w ∧ unlinked R w)); [by apply release_all_ok|]. intros _.
  apply (hoare_bind _ _ _ (λ _, inv_at [] None)); [by eapply destroy_all_ok|]. intros _.
  apply (hoare_conseq _ _ (sess_at [] None None) _ _ (λ _, sess_at [] None None)); [by apply sess_none|by intros ? ? []|].
  keeps_tac.
Qed.
End Update.
