(* ===== verification/CommandLaws.v ===== *)
(** * Authentication and the list of characters
    [C2S_Auth] of svr/user_session.cpp, [SendCharacterList] of
    svr/command_unit_process.cpp, and the user map that ties tokens to
    sessions. *)
From S2P Require Import Prelude Buffer Wire Character Protocol Packet ObjectPool CommandQueue.
From S2P Require Import PacketQueue TimeSet Config System Connector Network SvrState Session Server ServerLaws.
From S2P Require Import SessionLaws.

(** ** Authentication *)
Section Auth.
Context `{OSLaws}.
Implicit Types (w : SvrWorld) (s : UserSession).

Definition auth_token w : Z :=
  i64 (os_call (nw_trace (sw_net w)) sys_localtime * 10000 + i64 (sw_serial w + 1)).
Definition authed (id token : Z) s : UserSession := set_nub (SetToken (SetId (_nub s) id) token) s.

Lemma C2S_Auth_ok w p s c pkt sent said budget k :
  sends_accepted → wire_wf pkt → sw_sessions w !! p = Some s → us_pConnector s = Some c →
  send_inv c (sw_net w, sent) said budget → budget < 2 ^ 31 - 1 → nw_conns (sw_net w) !! c = Some k →
  let token := auth_token w in
  ∃ n t, C2S_Auth p pkt w = Ok (true, set_sw_net n (set_userMap (std_insert token p (_userMap w))
      (put_session p (authed (cs_auth_id pkt) token s) (set_sw_serial (i64 (sw_serial w + 1)) w)))) ∧
    send_inv c (n, sent) (said ++ frame (s2c_payload (S_AUTH_RESULT (mkSC_P_AUTH_RESULT (cs_auth_id pkt) token))) 0 t)
      (budget + 1).
Proof.
  intros Ha Hp Hs Hc Hinv Hbud Hk token. unfold C2S_Auth.
  erewrite st_bind_ok by (apply on_net_ok, sys_ok). cbv beta.
  erewrite st_bind_ok by reflexivity. cbv beta.
  set (n0 := set_nw_trace _ _). cbn [sw_serial set_sw_net]. fold token.
  set (w1 := set_sw_serial _ _). change (i64 (os_call _ _ * 10000 + _)) with token.
  erewrite st_bind_ok by (apply us_mod_ok; exact Hs). cbv beta.
  erewrite st_bind_ok by (apply us_mod_ok, lookup_insert_eq). cbv beta.
  set (s2 := set_nub (SetToken _ _) _). set (w2 := set_sw_sessions _ _).
  assert (sw_sessions w2 !! p = Some s2) as Hs2 by apply lookup_insert_eq.
  erewrite st_bind_ok by (unfold AddUserSessionMap; erewrite st_bind_ok by (by apply us_get_ok); reflexivity).
  cbv beta. set (w3 := set_userMap _ _).
  destruct (SendPacket_delivers (S_AUTH_RESULT (mkSC_P_AUTH_RESULT (cs_auth_id pkt) token)) w3 p s2 c sent said budget k)
    as (t & n & k' & E & Hn & _); try done.
  { split; [exact Hp|]. apply wraps_range. lia. }
  { apply (send_inv_frame c (sw_net w)); [done| |exact Hinv].
    cbn [sw_net w3 w2 w1 n0 set_userMap set_sw_sessions set_sw_serial set_sw_net nw_trace set_nw_trace].
    rewrite sends_app. apply app_nil_r. }
  exists n, t. split; [|exact Hn].
  unfold SC_P_AUTH_RESULT_SetToken. erewrite st_bind_ok by exact E. cbv beta.
  unfold w3, w2, w1, n0, put_session. cbn [sw_sessions set_sw_sessions]. by rewrite insert_insert_eq.
Qed.
End Auth.

(** C26: authentication.  [C2S_Auth] gives the session the client's id and a
    fresh token made of the clock and the serial number, enters the token into
    the user map unless it is there already, and answers with exactly one
    [SC_P_AUTH_RESULT] frame carrying both. *)
Theorem C2S_Auth_spec `{OSLaws} w p s c k pkt sent said budget :
  sends_accepted → wire_wf pkt → sw_sessions w !! p = Some s → us_pConnector s = Some c →
  nw_conns (sw_net w) !! c = Some k → send_inv c (sw_net w, sent) said budget → budget < 2 ^ 31 - 1 →
  let token := auth_token w in
  ∃ w' s' t, C2S_Auth p pkt w = Ok (true, w') ∧
    sw_sessions w' !! p = Some s' ∧ session_GetToken s' = token ∧ GetId (_nub s') = cs_auth_id pkt ∧
    ch_pos (_nub s') = ch_pos (_nub s) ∧ (∀ q, q ≠ p → sw_sessions w' !! q = sw_sessions w !! q) ∧
    (∀ tk, _userMap w' !! tk = if decide (tk = token) then Some (default p (_userMap w !! token)) else _userMap w !! tk) ∧
    send_inv c (sw_net w', sent)
      (said ++ frame (s2c_payload (S_AUTH_RESULT (mkSC_P_AUTH_RESULT (cs_auth_id pkt) token))) 0 t) (budget + 1).
Proof.
  intros Ha Hp Hs Hc Hk Hinv Hbud token.
  destruct (C2S_Auth_ok w p s c pkt sent said budget k Ha Hp Hs Hc Hinv Hbud Hk) as (n & t & E & Hn).
  eexists _, (authed (cs_auth_id pkt) token s), t. split; [exact E|].
  split; [apply put_lookup|]. split_and!; try done.
  - intros q Hq. cbn. by rewrite lookup_insert_ne.
  - intros tk. apply std_insert_lookup.
Qed.

(** a client that authenticates twice leaves its first token behind.  The
    session only knows its latest token, so when it is destroyed the entry of
    the first one stays in the user map and points to the destroyed session:
    the next packet to that token reads it. *)
Theorem second_auth_dangles `{OSLaws} w p s c k pkt sent said budget :
  sends_accepted → wire_wf pkt → sw_sessions w !! p = Some s → us_pConnector s = Some c →
  nw_conns (sw_net w) !! c = Some k → send_inv c (sw_net w, sent) said budget → budget < 2 ^ 31 - 1 →
  _userMap w !! session_GetToken s = Some p → auth_token w ≠ session_GetToken s →
  ∃ w1 w2, C2S_Auth p pkt w = Ok (true, w1) ∧
    (_ ← DelUserSessionMap p; session_SetFreeObject p) w1 = Ok (tt, w2) ∧
    sw_sessions w2 !! p = None ∧ _userMap w2 !! session_GetToken s = Some p ∧
    ∀ buf len, SendPacketToUser_Operator (session_GetToken s) buf len w2 = Fault UseAfterFree.
Proof.
  intros Ha Hp Hs Hc Hk Hinv Hbud Hu Hne.
  destruct (C2S_Auth_ok w p s c pkt sent said budget k Ha Hp Hs Hc Hinv Hbud Hk) as (n & t & E & _).
  set (w1 := set_sw_net n _) in E. set (s1 := authed (cs_auth_id pkt) (auth_token w) s) in *.
  assert (sw_sessions w1 !! p = Some s1) as Hs1 by apply put_lookup.
  set (w1' := set_userMap (delete (auth_token w) (_userMap w1)) w1).
  assert (sw_sessions w1' !! p = Some s1) as Hs1' by exact Hs1.
  set (w2 := set_sw_sessions (delete p (sw_sessions w1')) (set_sw_smgr (ObjectMgrBase_SetFreeObject (sw_smgr w1') p) w1')).
  assert (_userMap w2 !! session_GetToken s = Some p) as Hu2.
  { cbn [w2 w1' w1 _userMap set_sw_sessions set_sw_smgr set_userMap set_sw_net].
    rewrite lookup_delete_ne by done. rewrite std_insert_lookup. by rewrite decide_False by congruence. }
  assert (sw_sessions w2 !! p = None) as Hd by apply lookup_delete_eq.
  exists w1, w2. split_and!; try done.
  - unfold DelUserSessionMap. erewrite st_bind_ok by (erewrite st_bind_ok by (by apply us_get_ok); reflexivity).
    cbv beta. change (session_GetToken s1) with (auth_token w). fold w1'.
    unfold session_SetFreeObject. by rewrite Hs1'.
  - intros buf len. unfold SendPacketToUser_Operator, GetUserSession.
    erewrite st_bind_ok by (by erewrite st_bind_ok by reflexivity). rewrite Hu2.
    apply st_bind_fault. unfold SendPacket_raw. apply st_bind_fault. unfold us_get. by rewrite Hd.
Qed.

(** ** The list of characters *)
Section CharacterList.
Context `{OSLaws}.
Implicit Types (w : SvrWorld).

(** The packet that carries one record. *)
Definition one_record (d : CharacterDbData) : s2c :=
  S_ENTER_CHARACTER_LIST (mkSC_P_ENTER_CHARACTER_LIST 1 (splice list_zeros 0 [d])).
Definition record_command (token : Z) (d : CharacterDbData) (t : Z) : command :=
  SendPacketToUser token (frame_buffer (one_record d) t) (zlen (s2c_payload (one_record d)) + 20).

Lemma SetData_first d :
  SC_P_ENTER_CHARACTER_LIST_SetData SC_P_ENTER_CHARACTER_LIST_default d =
    Ok (mkSC_P_ENTER_CHARACTER_LIST 1 (splice list_zeros 0 [d]), true).
Proof. reflexivity. Qed.

Lemma one_record_wf d : wire_wf d → s2c_wf (one_record d).
Proof.
  intros Hd. split; [vm_compute; intuition discriminate|]. split; [reflexivity|].
  split; [by apply Forall_cons|reflexivity].
Qed.

Definition ticked (k : nat) w : SvrWorld :=
  set_sw_net (set_nw_trace (nw_trace (sw_net w) ++ replicate k sys_time32) (sw_net w)) w.

Lemma send_records_ok token recs : ∀ w, Forall wire_wf recs →
  ∃ times, length times = length recs ∧
    send_records token recs SC_P_ENTER_CHARACTER_LIST_default w =
      Ok (SC_P_ENTER_CHARACTER_LIST_default,
          set_sw_cmds (sw_cmds w ++ zip_with (record_command token) recs times) (ticked (length recs) w)).
Proof.
  induction recs as [|d recs IH]; intros w Hr.
  { exists []. split; [done|]. unfold ticked. cbn. rewrite !app_nil_r. by destruct w as [[]]. }
  apply Forall_cons in Hr as [Hd Hr]. cbn [send_records].
  destruct (build_packet_ok (one_record d) w (one_record_wf d Hd)) as (t & w1 & E1 & ->).
  fold (frame_buffer (one_record d) t) in E1.
  erewrite st_bind_ok by (unfold st_lift; rewrite SetData_first; reflexivity). cbv beta iota.
  erewrite st_bind_ok by (unfold new_SendPacketToUser_packet; erewrite st_bind_ok by exact E1; reflexivity). cbv beta.
  fold (record_command token d t). erewrite st_bind_ok by reflexivity. cbv beta.
  change (SC_P_ENTER_CHARACTER_LIST_Reset _) with SC_P_ENTER_CHARACTER_LIST_default.
  set (w2 := set_sw_cmds _ _). destruct (IH w2 Hr) as (times & Hl & E2).
  exists (t :: times). split; [cbn [length]; lia|]. rewrite E2. do 2 f_equal.
  unfold w2, ticked. cbn [zip_with length replicate sw_cmds set_sw_cmds set_sw_net sw_net nw_trace set_nw_trace].
  by rewrite <-!app_assoc.
Qed.

Lemma DbList_loop_ok token w items :
  Forall (λ it, is_Some (sw_sessions w !! it.2)) items →
  GetCharacterDbList_loop items token w =
    Ok (omap (λ it, if it.1 =? token then None else s ← sw_sessions w !! it.2; Some (GetDbData (_nub s))) items, w).
Proof.
  induction items as [|[t p] items IH]; intros Hall; [done|].
  apply Forall_cons in Hall as [[s Hs] Hall]. cbn [GetCharacterDbList_loop fst snd] in *.
  specialize (IH Hall). cbn [omap list_omap fst snd].
  destruct (t =? token); [exact IH|].
  erewrite st_bind_ok by (by apply character_get_ok). cbv beta.
  rewrite (st_bind_ok _ _ _ _ _ IH). cbv beta. by rewrite Hs.
Qed.
End CharacterList.

(** the list a newcomer is sent.  [SendCharacterList] queues one packet for
    every other character of the zone, in the order of their tokens, each
    holding that character's record and nothing else.  (The packet has room for
    twenty records, but [SetData] answers "send now" after every one.) *)
Theorem SendCharacterList_one_each `{OSLaws} w token zone p zp z :
  _userMap w !! token = Some p → _zoneMap w !! zone = Some zp → sw_zones w !! zp = Some z →
  (∀ t q, _characterMap z !! t = Some q → ∃ s, sw_sessions w !! q = Some s ∧ wire_wf (GetDbData (_nub s))) →
  let records := omap (λ it, if it.1 =? token then None else s ← sw_sessions w !! it.2; Some (GetDbData (_nub s)))
                   (std_items (_characterMap z)) in
  ∃ times, length times = length records ∧
    SendCharacterList_Operator token zone w =
      Ok (tt, set_sw_cmds (sw_cmds w ++ zip_with (record_command token) records times) (ticked (length records) w)).
Proof.
  intros Hu Hzp Hz Hall records.
  assert (Forall (λ it, ∃ s, sw_sessions w !! it.2 = Some s ∧ wire_wf (GetDbData (_nub s))) (std_items (_characterMap z))) as Hit.
  { apply Forall_forall. intros [t q] Hin%elem_of_std_items. by apply (Hall t q). }
  assert (Forall wire_wf records) as Hwf.
  { apply Forall_forall. intros d Hin. apply list_elem_of_omap in Hin as ([t q] & Hin & Hd).
    rewrite Forall_forall in Hit. destruct (Hit _ Hin) as (s & Hs & Hw). cbn [fst snd] in *. rewrite Hs in Hd.
    destruct (t =? token); [done|]. by injection Hd as <-. }
  destruct (send_records_ok token records w Hwf) as (times & Hl & E).
  exists times. split; [done|]. unfold SendCharacterList_Operator, GetUserSession, GetZone.
  erewrite st_bind_ok by (by erewrite st_bind_ok by reflexivity). rewrite Hu.
  erewrite st_bind_ok by (by erewrite st_bind_ok by reflexivity). rewrite Hzp.
  erewrite st_bind_ok by (unfold GetCharacterDbList; erewrite st_bind_ok by (by apply zone_get_ok);
    apply DbList_loop_ok; eapply Forall_impl; [exact Hit|]; intros it (s & -> & _); eauto).
  cbv beta. fold records. rewrite (st_bind_ok _ _ _ _ _ E). reflexivity.
Qed.

(** ** Instances *)
Definition demo_conn : Connector := set_socket 50 (Connector_new 1).
Lemma demo_stream : send_inv 1 (sw_net demo_svr, []) [] 0.
Proof.
  destruct demo_served as [_ Hst _]. apply Forall_cons in Hst as [Hst _]. exact Hst.
Qed.
Lemma demo_auth_wf : wire_wf (mkCS_P_AUTH 9).
Proof. vm_compute. intuition discriminate. Qed.

Lemma C2S_Auth_spec_witness :
  let token := auth_token demo_svr in
  ∃ w' s' t, C2S_Auth 10 (mkCS_P_AUTH 9) demo_svr = Ok (true, w') ∧
    sw_sessions w' !! 10 = Some s' ∧ session_GetToken s' = token ∧ GetId (_nub s') = cs_auth_id (mkCS_P_AUTH 9) ∧
    ch_pos (_nub s') = ch_pos (_nub (demo_session 1 100 1)) ∧
    (∀ q, q ≠ 10 → sw_sessions w' !! q = sw_sessions demo_svr !! q) ∧
    (∀ tk, _userMap w' !! tk = if decide (tk = token) then Some (default 10 (_userMap demo_svr !! token)) else _userMap demo_svr !! tk) ∧
    send_inv 1 (sw_net w', [])
      ([] ++ frame (s2c_payload (S_AUTH_RESULT (mkSC_P_AUTH_RESULT (cs_auth_id (mkCS_P_AUTH 9)) token))) 0 t) (0 + 1).
Proof.
  apply (C2S_Auth_spec demo_svr 10 (demo_session 1 100 1) 1 demo_conn (mkCS_P_AUTH 9) [] [] 0 demo_accepts).
  - exact demo_auth_wf.
  - reflexivity.
  - reflexivity.
  - reflexivity.
  - exact demo_stream.
  - reflexivity.
Defined.

Lemma second_auth_dangles_witness :
  ∃ w1 w2, C2S_Auth 10 (mkCS_P_AUTH 9) demo_svr = Ok (true, w1) ∧
    (_ ← DelUserSessionMap 10; session_SetFreeObject 10) w1 = Ok (tt, w2) ∧
    sw_sessions w2 !! 10 = None ∧ _userMap w2 !! session_GetToken (demo_session 1 100 1) = Some 10 ∧
    ∀ buf len, SendPacketToUser_Operator (session_GetToken (demo_session 1 100 1)) buf len w2 = Fault UseAfterFree.
Proof.
  apply (second_auth_dangles demo_svr 10 (demo_session 1 100 1) 1 demo_conn (mkCS_P_AUTH 9) [] [] 0 demo_accepts).
  - exact demo_auth_wf.
  - reflexivity.
  - reflexivity.
  - reflexivity.
  - exact demo_stream.
  - reflexivity.
  - reflexivity.
  - vm_compute. discriminate.
Defined.

Lemma SendCharacterList_one_each_witness :
  let records := omap (λ it, if it.1 =? 100 then None else s ← sw_sessions demo_svr !! it.2; Some (GetDbData (_nub s)))
                   (std_items (_characterMap demo_zone)) in
  ∃ times, length times = length records ∧
    SendCharacterList_Operator 100 1 demo_svr =
      Ok (tt, set_sw_cmds (sw_cmds demo_svr ++ zip_with (record_command 100) records times) (ticked (length records) demo_svr)).
Proof.
  apply (SendCharacterList_one_each demo_svr 100 1 10 20 demo_zone).
  - reflexivity.
  - reflexivity.
  - reflexivity.
  - intros t q Hq. cbn [_characterMap demo_zone] in Hq.
    apply lookup_insert_Some in Hq as [[<- <-]|[_ Hq%lookup_singleton_Some]];
      [exists (demo_session 1 100 1)|destruct Hq as [<- <-]; exists (demo_session 2 101 2)];
      (split; [reflexivity|vm_compute; intuition discriminate]).
Defined.
