(* ===== verification/ClientLaws.v ===== *)
(** * The client's picture of the world
    The handlers of cli/user_session.cpp refine a specification in which the
    client knows its own character and one character per token. *)
From Stdlib Require Import String.
From S2P Require Import Prelude Buffer Wire Character Protocol Packet ObjectPool CommandQueue.
From S2P Require Import PacketQueue TimeSet Config System Connector Network SvrState Session Server Text Client.

(** ** The character pool never runs out below 2^62 characters *)
Record sized (m : ObjectMgrBase) : Prop := {
  sz_k : ∃ k, 0 ≤ k < 60 ∧ op_addBlockSize (om_pool m) = 100 * 2 ^ k ∧
    zlen (op_freeList (om_pool m)) + zlen (om_usedList m) = 100 * (2 ^ k - 1) }.

Lemma length_removelast {A} (l : list A) x : last l = Some x → zlen (removelast l) = zlen l - 1.
Proof.
  intros Hl. apply snoc_removelast in Hl. apply (f_equal zlen) in Hl.
  rewrite zlen_app in Hl. change (zlen [x]) with 1 in Hl. lia.
Qed.
Lemma last_is_Some' {A} (l : list A) : 0 < zlen l → ∃ x, last l = Some x.
Proof. intros. destruct (last l) eqn:E; [eauto|]. apply last_None in E. subst. unfold zlen in *. cbn in *. lia. Qed.

Lemma om_alloc m :
  om_inv m → sized m → zlen (om_usedList m) < 2 ^ 62 →
  ∃ x m', ObjectMgrBase_GetFreeObject m = Ok (x, m') ∧ sized m'.
Proof.
  intros Hinv [(k & Hk & Hb & Hn)] Hu.
  unfold ObjectMgrBase_GetFreeObject, GetFreeObjectPtr.
  destruct (op_freeList (om_pool m)) as [|y l] eqn:Ef.
  - rewrite zlen_nil in Hn.
    assert (2 ^ k < 2 ^ 56) as Hk2.
    { change (2 ^ 62) with (64 * 2 ^ 56) in Hu. lia. }
    assert (k < 56) as Hk3 by (apply (Z.pow_lt_mono_r_iff 2); lia).
    assert (0 < 2 ^ k) by (apply Z.pow_pos_nonneg; lia).
    unfold ObjectPool_AddAlloc, allocate. rewrite Ef. cbn [op_freeList app fst snd].
    assert (zlen (iota (st_next (op_store (om_pool m))) (op_addBlockSize (om_pool m))) = 100 * 2 ^ k) as Hio.
    { unfold zlen. rewrite length_iota, Hb. lia. }
    destruct (last_is_Some' (iota (st_next (op_store (om_pool m))) (op_addBlockSize (om_pool m)))) as [x Hx];
      [rewrite Hio; lia|].
    rewrite Hx. cbn [mbind outcome_bind]. eexists _, _. split; [done|]. split. exists (k + 1).
    cbn [om_pool om_usedList op_addBlockSize op_freeList]. rewrite (length_removelast _ _ Hx), Hio, zlen_app, Hb. change (zlen [x]) with 1.
    rewrite Z.pow_add_r by lia. change (2 ^ 1) with 2. split_and!; try lia.
    rewrite (wrapu_small 64); [lia|]. split; [lia|]. change (2 ^ 64) with (256 * 2 ^ 56). lia.
  - rewrite Ef. destruct (last_is_Some' (y :: l)) as [x Hx].
    { rewrite zlen_cons. pose proof (zlen_nonneg l). lia. }
    rewrite Hx. cbn [mbind outcome_bind]. eexists _, _. split; [done|]. split. exists k.
    cbn [om_pool om_usedList op_addBlockSize op_freeList]. rewrite (length_removelast _ _ Hx), zlen_app. change (zlen [x]) with 1.
    split_and!; try lia; done.
Qed.

(** ** The specification *)
Record view := mkView { v_player : Character; v_others : gmap Z Character }.

(** Change what is known of a token, learning of it first if need be. *)
Definition see (t : Z) (f : Character → Character) (v : view) : view :=
  if GetToken (v_player v) =? t then mkView (f (v_player v)) (v_others v)
  else mkView (v_player v) (<[t := f (default (SetToken Character_new t) (v_others v !! t))]> (v_others v)).
Definition hear (m : s2c) (v : view) : view :=
  match m with
  | S_AUTH_RESULT p => mkView (SetToken (SetId (v_player v) (sc_auth_id p)) (sc_auth_token p)) (v_others v)
  | S_ENTER p => see (sc_enter_token p) (λ c, SetPos2 c (sc_enter_x p) (sc_enter_y p)) v
  | S_ENTER_CHARACTER_LIST p =>
      foldl (λ v d, see (db_token d) (λ c, SetPos1 c (db_pos d)) v) v (sub (sc_list_data p) 0 (sc_list_count p))
  | S_LEAVE p =>
      if GetToken (v_player v) =? sc_leave_token p then v
      else mkView (v_player v) (delete (sc_leave_token p) (v_others v))
  | S_MOVE p =>
      if GetToken (v_player v) =? sc_move_token p
      then mkView (SetPos2 (v_player v) (sc_move_x p) (sc_move_y p)) (v_others v)
      else mkView (v_player v) (alter (λ c, SetPos2 c (sc_move_x p) (sc_move_y p)) (sc_move_token p) (v_others v))
  | S_INTERACTION _ | S_HEARTBEAT _ | S_ECHO _ => v
  end.

(** ** The relation *)
Record client_ok (w : CliWorld) (v : view) : Prop := {
  co_inv : om_inv (cw_cmgr w);
  co_sized : sized (cw_cmgr w);
  co_player : cw_chars w !! _playerCharacter w = Some (v_player v);
  co_player_used : _playerCharacter w ∈ om_usedList (cw_cmgr w);
  co_others t : (cm_characterMap w !! t ≫= λ p, cw_chars w !! p) = v_others v !! t;
  co_used t p : cm_characterMap w !! t = Some p →
    p ∈ om_usedList (cw_cmgr w) ∧ p ≠ _playerCharacter w ∧ is_Some (cw_chars w !! p);
  co_inj t t' p : cm_characterMap w !! t = Some p → cm_characterMap w !! t' = Some p → t = t' }.

Section ClientLaws.
Context `{OSLaws}.
Implicit Types (w : CliWorld) (v : view).

Lemma ch_get_ok p c w : cw_chars w !! p = Some c → ch_get p w = Ok (c, w).
Proof. unfold ch_get. by intros ->. Qed.
Lemma ch_mod_ok p f c w :
  cw_chars w !! p = Some c → ch_mod p f w = Ok (tt, set_cw_chars (<[p := f c]> (cw_chars w)) w).
Proof. unfold ch_mod. by intros ->. Qed.

Lemma is_player_ok w v t :
  client_ok w v → IsPlayerCharacter_token t w = Ok (GetToken (v_player v) =? t, w).
Proof.
  intros Hok. unfold IsPlayerCharacter_token, GetPlayerCharacter.
  erewrite st_bind_ok by reflexivity. cbv beta. erewrite st_bind_ok by (apply ch_get_ok, Hok). done.
Qed.
Lemma GetCharacter_ok w v t :
  client_ok w v → GetCharacter t w =
    Ok (if GetToken (v_player v) =? t then Some (_playerCharacter w) else cm_characterMap w !! t, w).
Proof.
  intros Hok. unfold GetCharacter, GetPlayerCharacter. erewrite st_bind_ok by reflexivity. cbv beta.
  erewrite st_bind_ok by (apply ch_get_ok, Hok). cbv beta. by destruct (_ =? _).
Qed.

(** Writing to the player's character, or to another one. *)
Lemma mod_player w v f :
  client_ok w v →
  ∃ w', ch_mod (_playerCharacter w) f w = Ok (tt, w') ∧ client_ok w' (mkView (f (v_player v)) (v_others v)) ∧
    _playerCharacter w' = _playerCharacter w ∧ cw_cmgr w' = cw_cmgr w ∧ cw_net w' = cw_net w ∧ cw_sessions w' = cw_sessions w.
Proof.
  intros [Hi Hsz Hp Hpu Ho Hu Hj]. eexists. split; [by apply ch_mod_ok|]. split; [|done]. split; try done.
  - apply lookup_insert_eq.
  - intros t. rewrite <-Ho. cbn [cm_characterMap cw_chars set_cw_chars].
    destruct (cm_characterMap w !! t) as [q|] eqn:Hq; [|done]. cbn [mbind option_bind].
    destruct (Hu t q Hq) as (_ & Hne & _). by rewrite lookup_insert_ne.
  - intros t p Ht. destruct (Hu t p Ht) as (? & Hne & ?). split_and!; [done..|].
    cbn [cw_chars set_cw_chars]. by rewrite lookup_insert_ne.
Qed.
Lemma mod_other w v t p c f :
  client_ok w v → cm_characterMap w !! t = Some p → v_others v !! t = Some c →
  ∃ w', ch_mod p f w = Ok (tt, w') ∧ client_ok w' (mkView (v_player v) (<[t := f c]> (v_others v))) ∧
    cw_chars w' !! p = Some (f c) ∧ cw_cmgr w' = cw_cmgr w ∧ cw_net w' = cw_net w ∧ cw_sessions w' = cw_sessions w.
Proof.
  intros [Hi Hsz Hp Hpu Ho Hu Hj] Ht Hc.
  assert (cw_chars w !! p = Some c) as Hpc by (rewrite <-Hc, <-Ho, Ht; done).
  destruct (Hu t p Ht) as (_ & Hne & _).
  eexists. split; [by apply ch_mod_ok|]. split; [|split_and!; [apply lookup_insert_eq|done..]]. split; try done.
  - cbn [cw_chars set_cw_chars _playerCharacter]. by rewrite lookup_insert_ne.
  - intros t'. cbn [cm_characterMap cw_chars set_cw_chars v_others]. destruct (decide (t' = t)) as [->|Hne'].
    + rewrite Ht, lookup_insert_eq. cbn [mbind option_bind]. by rewrite lookup_insert_eq.
    + rewrite lookup_insert_ne by done. rewrite <-Ho.
      destruct (cm_characterMap w !! t') as [q|] eqn:Hq; [|done]. cbn [mbind option_bind].
      rewrite lookup_insert_ne; [done|]. intros ->. apply Hne'. by apply (Hj _ _ q).
  - intros t' p' Ht'. destruct (Hu t' p' Ht') as (? & ? & [c' Hc']). split_and!; [done..|].
    cbn [cw_chars set_cw_chars]. destruct (decide (p' = p)) as [->|]; [rewrite lookup_insert_eq; eauto|].
    rewrite lookup_insert_ne by done. eauto.
Qed.

(** [EnterCharacter] of another token: it is known afterwards. *)
Lemma EnterCharacter_ok w v t :
  client_ok w v → zlen (om_usedList (cw_cmgr w)) < 2 ^ 62 → GetToken (v_player v) ≠ t →
  ∃ w' p c, cli_EnterCharacter t w = Ok (Some p, w') ∧ c = default (SetToken Character_new t) (v_others v !! t) ∧
    client_ok w' (mkView (v_player v) (<[t := c]> (v_others v))) ∧ cm_characterMap w' !! t = Some p ∧
    zlen (om_usedList (cw_cmgr w')) ≤ zlen (om_usedList (cw_cmgr w)) + 1 ∧
    cw_net w' = cw_net w ∧ cw_sessions w' = cw_sessions w.
Proof.
  intros Hok Hroom Hne. unfold cli_EnterCharacter.
  erewrite st_bind_ok by (by apply GetCharacter_ok). cbv beta. rewrite (proj2 (Z.eqb_neq _ _)) by done.
  pose proof Hok as [Hi Hsz Hp Hpu Ho Hu Hj]. pose proof (Ho t) as Hot.
  destruct (cm_characterMap w !! t) as [p|] eqn:Ht.
  - destruct (Hu t p Ht) as (_ & _ & [c Hc]). cbn [mbind option_bind] in Hot. rewrite Hc in Hot.
    exists w, p, c. rewrite <-Hot. cbn [default]. rewrite insert_id by done.
    split_and!; first [done | by destruct v | lia].
  - destruct (om_alloc _ Hi Hsz Hroom) as (x & m' & Eg & Hsz').
    destruct (om_acquire _ _ _ Hi Eg) as (Hfresh & Hused & Hi').
    erewrite st_bind_ok by (unfold character_GetFreeObject; rewrite Eg; reflexivity). cbv beta.
    erewrite st_bind_ok by (apply ch_mod_ok, lookup_insert_eq). cbv beta.
    erewrite st_bind_ok by reflexivity. cbv beta.
    cbn [cw_chars set_cw_chars set_cw_cmgr cm_characterMap]. rewrite insert_insert_eq.
    eexists _, x, (SetToken Character_new t). split; [reflexivity|]. rewrite <-Hot. cbn [mbind option_bind default].
    split; [done|].
    cbn [set_characterMap cw_chars set_cw_chars set_cw_cmgr cm_characterMap cw_cmgr cw_net cw_sessions _playerCharacter].
    assert (std_insert t x (cm_characterMap w) = <[t := x]> (cm_characterMap w)) as Hins by (unfold std_insert; by rewrite Ht).
    rewrite Hins, Hused, lookup_insert_eq, zlen_app. change (zlen [x]) with 1.
    assert (_playerCharacter w ≠ x) as Hpx by (intros E; by rewrite E in Hpu).
    split; [|split_and!; first [done|lia]].
    split; cbn [set_characterMap cw_chars set_cw_chars set_cw_cmgr cm_characterMap cw_cmgr _playerCharacter v_player v_others];
      rewrite ?Hused; try done.
    + by rewrite lookup_insert_ne.
    + set_solver.
    + intros t'. destruct (decide (t' = t)) as [->|Hne'].
      * rewrite !lookup_insert_eq. cbn [mbind option_bind]. by rewrite lookup_insert_eq.
      * rewrite !(lookup_insert_ne _ t t') by done. rewrite <-Ho.
        destruct (cm_characterMap w !! t') as [q|] eqn:Hq; [|done]. cbn [mbind option_bind].
        rewrite lookup_insert_ne; [done|]. intros ->. apply Hfresh. by destruct (Hu _ _ Hq).
    + intros t' p' Ht'. destruct (decide (t' = t)) as [->|Hne'].
      * rewrite lookup_insert_eq in Ht'. injection Ht' as <-. split; [set_solver|]. split; [done|].
        rewrite lookup_insert_eq. eauto.
      * rewrite lookup_insert_ne in Ht' by done. destruct (Hu _ _ Ht') as (? & ? & ?). split; [set_solver|].
        split; [done|]. rewrite lookup_insert_ne; [done|]. by intros ->.
    + intros t1 t2 q H1 H2. apply lookup_insert_Some in H1, H2.
      destruct H1 as [[<- <-]|[_ H1]], H2 as [[<- E]|[_ H2]]; try done.
      * destruct (Hu _ _ H2). done.
      * subst. by destruct (Hu _ _ H1).
      * by apply (Hj _ _ q).
Qed.

(** What a handler that only changes the picture does. *)
Record heard (w w' : CliWorld) (v : view) (n : Z) : Prop := {
  hd_view : client_ok w' v;
  hd_used : zlen (om_usedList (cw_cmgr w')) ≤ zlen (om_usedList (cw_cmgr w)) + n;
  hd_net : cw_net w' = cw_net w;
  hd_sessions : cw_sessions w' = cw_sessions w }.

Lemma heard_same w v n : client_ok w v → 0 ≤ n → heard w w v n.
Proof. intros. split; [done|lia|done..]. Qed.

Lemma see_self v t f : GetToken (v_player v) = t → see t f v = mkView (f (v_player v)) (v_others v).
Proof. intros E. unfold see. by rewrite (proj2 (Z.eqb_eq _ _)). Qed.
Lemma see_other v t f : GetToken (v_player v) ≠ t →
  see t f v = mkView (v_player v) (<[t := f (default (SetToken Character_new t) (v_others v !! t))]> (v_others v)).
Proof. intros E. unfold see. by rewrite (proj2 (Z.eqb_neq _ _)). Qed.

(** [EnterCharacter] and a change of the character it returns. *)
Lemma enter_and_change w v t f :
  client_ok w v → zlen (om_usedList (cw_cmgr w)) < 2 ^ 62 →
  ∃ w1 p w2 c, cli_EnterCharacter t w = Ok (Some p, w1) ∧ ch_mod p f w1 = Ok (tt, w2) ∧
    heard w w2 (see t f v) 1 ∧ cw_chars w2 !! p = Some c.
Proof.
  intros Hok Hroom. destruct (decide (GetToken (v_player v) = t)) as [Et|Hne].
  - rewrite see_self by done.
    destruct (mod_player w v f Hok) as (w2 & E & Hok' & Hpl & Hm & Hn & Hs).
    exists w, (_playerCharacter w), w2, (f (v_player v)). split_and!; [|done| |].
    + unfold cli_EnterCharacter. erewrite st_bind_ok by (by apply GetCharacter_ok). cbv beta.
      by rewrite (proj2 (Z.eqb_eq _ _)).
    + split; [done|rewrite Hm; lia|done..].
    + rewrite <-Hpl. apply Hok'.
  - rewrite see_other by done.
    destruct (EnterCharacter_ok w v t Hok Hroom Hne) as (w1 & p & c & E1 & -> & Hok1 & Hmap & Hused & Hn1 & Hs1).
    set (c := default _ _) in *.
    destruct (mod_other w1 _ t p c f Hok1 Hmap) as (w2 & E2 & Hok2 & Hc2 & Hm2 & Hn2 & Hs2).
    { apply lookup_insert_eq. }
    cbn [v_player v_others] in Hok2. rewrite insert_insert_eq in Hok2.
    exists w1, p, w2, (f c). split_and!; [done|done| |done].
    split; [done|rewrite Hm2; lia|congruence..].
Qed.

Lemma S2C_Enter_ok self p w v :
  client_ok w v → zlen (om_usedList (cw_cmgr w)) < 2 ^ 62 →
  ∃ w', S2C_Enter self p w = Ok (true, w') ∧ heard w w' (hear (S_ENTER p) v) 1.
Proof.
  intros Hok Hroom.
  destruct (enter_and_change w v (sc_enter_token p) (λ c, SetPos2 c (sc_enter_x p) (sc_enter_y p)) Hok Hroom)
    as (w1 & q & w2 & c & E1 & E2 & Hh & Hc).
  exists w2. split; [|exact Hh]. unfold S2C_Enter.
  erewrite st_bind_ok by (by apply is_player_ok). cbv beta.
  assert ((if GetToken (v_player v) =? sc_enter_token p then p ← GetPlayerCharacter; mret (Some p)
    else cli_EnterCharacter (sc_enter_token p)) w = Ok (Some q, w1)) as E.
  { destruct (Z.eqb_spec (GetToken (v_player v)) (sc_enter_token p)) as [Et|]; [|exact E1].
    rewrite <-E1. unfold cli_EnterCharacter. erewrite (st_bind_ok (GetCharacter _)) by (by apply GetCharacter_ok).
    cbv beta. by rewrite (proj2 (Z.eqb_eq _ _)). }
  rewrite (st_bind_ok _ _ _ _ _ E). cbv iota. rewrite (st_bind_ok _ _ _ _ _ E2).
  erewrite st_bind_ok by (by apply ch_get_ok). done.
Qed.

Lemma EnterCharacter_loop_ok data k : ∀ idx w v,
  client_ok w v → 0 ≤ idx → idx + Z.of_nat k ≤ zlen data →
  zlen (om_usedList (cw_cmgr w)) + Z.of_nat k < 2 ^ 62 →
  ∃ w', EnterCharacter_loop data idx k w = Ok (tt, w') ∧
    heard w w' (foldl (λ v d, see (db_token d) (λ c, SetPos1 c (db_pos d)) v) v (sub data idx (Z.of_nat k))) (Z.of_nat k).
Proof.
  induction k as [|k IH]; intros idx w v Hok Hi Hl Hroom.
  { exists w. split; [done|]. rewrite sub_nil. by apply heard_same. }
  destruct (get_is_Some data idx) as [d Hd]; [lia|].
  replace (Z.of_nat (S k)) with (1 + Z.of_nat k) in * by lia.
  rewrite (sub_cons_get data idx (Z.of_nat k) d) by (lia || done). cbn [foldl EnterCharacter_loop].
  erewrite st_bind_ok by (unfold st_lift; rewrite (aget_ok _ _ d) by done; reflexivity). cbv beta.
  destruct (enter_and_change w v (db_token d) (λ c, SetPos1 c (db_pos d)) Hok) as (w1 & q & w2 & c & E1 & E2 & Hh & _);
    [lia|].
  rewrite (st_bind_ok _ _ _ _ _ E1). cbn [deref]. rewrite (st_bind_ok _ _ _ _ _ E2).
  destruct Hh as [Hok2 Hu2 Hn2 Hs2].
  destruct (IH (idx + 1) w2 _ Hok2) as (w3 & E3 & [Hok3 Hu3 Hn3 Hs3]); [lia..|].
  exists w3. split; [done|]. split; [done|lia|congruence..].
Qed.

Lemma S2C_EnterCharacter_ok self p w v :
  s2c_wf (S_ENTER_CHARACTER_LIST p) → client_ok w v → zlen (om_usedList (cw_cmgr w)) + 20 < 2 ^ 62 →
  ∃ w', S2C_EnterCharacter self p w = Ok (true, w') ∧ heard w w' (hear (S_ENTER_CHARACTER_LIST p) v) 20.
Proof.
  intros (Hc & Hl & _) Hok Hroom. unfold MAX_SEND_COUNT_CHARACTER_DB_DATA in *.
  destruct (EnterCharacter_loop_ok (sc_list_data p) (Z.to_nat (sc_list_count p)) 0 w v Hok) as (w' & E & [? ? ? ?]);
    [lia..|].
  rewrite Z2Nat.id in * by lia. exists w'. unfold S2C_EnterCharacter. rewrite (st_bind_ok _ _ _ _ _ E).
  split; [done|]. split; [done|lia|done..].
Qed.

Lemma S2C_Leave_ok self p w v :
  client_ok w v → ∃ w', S2C_Leave self p w = Ok (true, w') ∧ heard w w' (hear (S_LEAVE p) v) 0.
Proof.
  intros Hok. unfold S2C_Leave. erewrite st_bind_ok by (by apply GetCharacter_ok). cbv beta. cbn [hear].
  destruct (Z.eqb_spec (GetToken (v_player v)) (sc_leave_token p)) as [Et|Hne].
  - unfold IsPlayerCharacter, GetPlayerCharacter.
    erewrite st_bind_ok by (by erewrite st_bind_ok by reflexivity). cbv beta. rewrite bool_decide_true by done.
    exists w. split; [done|]. by apply heard_same.
  - pose proof Hok as [Hi Hsz Hp Hpu Ho Hu Hj]. pose proof (Ho (sc_leave_token p)) as Hot.
    destruct (cm_characterMap w !! sc_leave_token p) as [q|] eqn:Hq.
    + destruct (Hu _ _ Hq) as (_ & Hqp & _). unfold IsPlayerCharacter, GetPlayerCharacter.
      erewrite st_bind_ok by (by erewrite st_bind_ok by reflexivity). cbv beta. rewrite bool_decide_false by congruence.
      eexists. split; [reflexivity|]. split; [|cbn; lia|done..]. split; try done.
      * intros t. cbn [cm_characterMap set_characterMap cw_chars v_others].
        destruct (decide (t = sc_leave_token p)) as [->|Ht]; [by rewrite !lookup_delete_eq|].
        by rewrite !lookup_delete_ne by done.
      * intros t x Hx. cbn [cm_characterMap set_characterMap] in Hx.
        apply lookup_delete_Some in Hx as [_ Hx]. by apply Hu in Hx.
      * intros t t' x Hx Hx'. cbn [cm_characterMap set_characterMap] in Hx, Hx'. apply lookup_delete_Some in Hx as [_ Hx], Hx' as [_ Hx']. by apply (Hj _ _ x).
    + exists w. split; [done|]. rewrite delete_id by done. apply heard_same; [by destruct v|done].
Qed.

Lemma S2C_Move_ok self p w v :
  client_ok w v → ∃ w', S2C_Move self p w = Ok (true, w') ∧ heard w w' (hear (S_MOVE p) v) 0.
Proof.
  intros Hok. unfold S2C_Move. erewrite st_bind_ok by (by apply GetCharacter_ok). cbv beta. cbn [hear].
  destruct (Z.eqb_spec (GetToken (v_player v)) (sc_move_token p)) as [Et|Hne].
  - erewrite st_bind_ok by (apply ch_get_ok, Hok). cbv beta.
    destruct (mod_player w v (λ ch, SetPos2 ch (sc_move_x p) (sc_move_y p)) Hok) as (w2 & E & Hok' & _ & Hm & Hn & Hs).
    rewrite (st_bind_ok _ _ _ _ _ E). exists w2. split; [done|]. split; [done|rewrite Hm; lia|done..].
  - pose proof Hok as [Hi Hsz Hp Hpu Ho Hu Hj]. pose proof (Ho (sc_move_token p)) as Hot.
    destruct (cm_characterMap w !! sc_move_token p) as [q|] eqn:Hq; cbn [mbind option_bind] in Hot.
    + destruct (Hu _ _ Hq) as (_ & _ & [c Hc]). rewrite Hc in Hot.
      erewrite st_bind_ok by (by apply ch_get_ok). cbv beta.
      destruct (mod_other w v _ q c (λ ch, SetPos2 ch (sc_move_x p) (sc_move_y p)) Hok Hq) as (w2 & E & Hok' & _ & Hm & Hn & Hs);
        [done|].
      rewrite (st_bind_ok _ _ _ _ _ E). exists w2. split; [done|]. split; [|rewrite Hm; lia|done..].
      assert (alter (λ c, SetPos2 c (sc_move_x p) (sc_move_y p)) (sc_move_token p) (v_others v) =
              <[sc_move_token p := SetPos2 c (sc_move_x p) (sc_move_y p)]> (v_others v)) as ->; [|done].
      apply map_eq. intros t. destruct (decide (t = sc_move_token p)) as [->|Ht].
      * by rewrite lookup_alter_eq, lookup_insert_eq, <-Hot.
      * by rewrite lookup_alter_ne, lookup_insert_ne by done.
    + exists w. split; [done|].
      assert (alter (λ c, SetPos2 c (sc_move_x p) (sc_move_y p)) (sc_move_token p) (v_others v) = v_others v) as ->.
      { apply map_eq. intros t. destruct (decide (t = sc_move_token p)) as [->|Ht].
        - by rewrite lookup_alter_eq, <-Hot.
        - by rewrite lookup_alter_ne. }
      apply heard_same; [by destruct v|done].
Qed.

Lemma S2C_Interaction_ok self p w v :
  client_ok w v → S2C_Interaction self p w = Ok (true, w).
Proof.
  intros Hok. unfold S2C_Interaction. erewrite st_bind_ok by (by apply GetCharacter_ok). cbv beta.
  destruct (if _ =? _ then _ else _); [|done].
  erewrite st_bind_ok by (by apply GetCharacter_ok). cbv beta.
  by destruct (negb _ && _).
Qed.
End ClientLaws.

(** ** From bytes to the picture *)
Definition s2c_handle `{OS} (self : Z) (m : s2c) : cli bool :=
  match m with
  | S_AUTH_RESULT p => S2C_AuthResult self p
  | S_ENTER p => S2C_Enter self p
  | S_ENTER_CHARACTER_LIST p => S2C_EnterCharacter self p
  | S_LEAVE p => S2C_Leave self p
  | S_MOVE p => S2C_Move self p
  | S_INTERACTION p => S2C_Interaction self p
  | S_HEARTBEAT p => S2C_Heartbeat self p
  | S_ECHO p => S2C_Echo self p
  end.

Section CliMessages.
Context `{OSLaws}.
Implicit Types (w : CliWorld) (v : view).

Definition cli_slot {P} `{Wire P} (t : PacketTypeS2C) (fresh : P) (f : Z → P → cli bool) :
    option (PacketFunctorBase (Z * CliWorld)) :=
  Some (PacketFunctor_Execute os_fresh (PacketTypeS2C_value t) fresh (as_handler f)).
Definition s2c_table : PacketHandler (Z * CliWorld) :=
  [None; cli_slot S2C_auth_result (mkSC_P_AUTH_RESULT 0 0) S2C_AuthResult;
   cli_slot S2C_enter (mkSC_P_ENTER 0 0 0) S2C_Enter;
   cli_slot S2C_enter_character SC_P_ENTER_CHARACTER_LIST_default S2C_EnterCharacter;
   cli_slot S2C_leave (mkSC_P_LEAVE 0) S2C_Leave; cli_slot S2C_move (mkSC_P_MOVE 0 0 0) S2C_Move;
   cli_slot S2C_interaction (mkSC_P_INTERACTION 0 0 0) S2C_Interaction;
   cli_slot S2C_heartbeat mkSC_P_HEARTBEAT S2C_Heartbeat; cli_slot S2C_echo SC_P_ECHO_default S2C_Echo].
Lemma cli_RegisterPacketHandlers_ok : cli_RegisterPacketHandlers = Ok s2c_table.
Proof. reflexivity. Qed.

Lemma s2c_table_runs self w m data len :
  s2c_wf m → 0 ≤ len ≤ zlen data → sub data 0 len = s2c_payload m → len ≤ MAX_PACKET_BUFFER_SIZE →
  ∃ f, get s2c_table (s2c_type m) = Some (Some f) ∧
    f (self, w) data len = ('(b, w') ← s2c_handle self m w; Ok ((self, w'), b)).
Proof.
  intros Hwf Hl Hd Hm. pose proof (s2c_type_range m) as Ht.
  destruct m as [p|p|p|p|p|p|p|p]; (eexists; split; [reflexivity|]).
  - exact (functor_runs (PacketTypeS2C_value S2C_auth_result) S2C_AuthResult p self w data len Ht Hwf Hl Hd Hm).
  - exact (functor_runs (PacketTypeS2C_value S2C_enter) S2C_Enter p self w data len Ht Hwf Hl Hd Hm).
  - exact (functor_runs (PacketTypeS2C_value S2C_enter_character) S2C_EnterCharacter p self w data len Ht Hwf Hl Hd Hm).
  - exact (functor_runs (PacketTypeS2C_value S2C_leave) S2C_Leave p self w data len Ht Hwf Hl Hd Hm).
  - exact (functor_runs (PacketTypeS2C_value S2C_move) S2C_Move p self w data len Ht Hwf Hl Hd Hm).
  - exact (functor_runs (PacketTypeS2C_value S2C_interaction) S2C_Interaction p self w data len Ht Hwf Hl Hd Hm).
  - exact (functor_runs (PacketTypeS2C_value S2C_heartbeat) S2C_Heartbeat p self w data len Ht Hwf Hl Hd Hm).
  - exact (functor_runs (PacketTypeS2C_value S2C_echo) S2C_Echo p self w data len Ht Hwf Hl Hd Hm).
Qed.

Lemma cli_MessageProcess_ok self m more w :
  s2c_wf m →
  cli_MessageProcess self (message_head (s2c_payload m) ++ s2c_payload m ++ more) (zlen (s2c_payload m) + 20) w =
    ('(b, w') ← s2c_handle self m w; Ok (if (b : bool) then 1 else 0, w')).
Proof.
  intros Hwf. pose proof (s2c_encode_size m Hwf). pose proof (zlen_nonneg (s2c_encode m)).
  pose proof (zlen_s2c_payload m). unfold cli_MessageProcess, sizeof_PacketHead.
  rewrite (wrapu_small 64) by (split; lia). destruct (Z.ltb_spec (zlen (s2c_payload m) + 20) 8); [lia|].
  destruct (s2c_table_runs self w m (s2c_payload m) (zlen (s2c_payload m)) Hwf) as (f & Hf & _);
    [lia|apply sub_all|unfold MAX_PACKET_BUFFER_SIZE; lia|].
  pose proof (execute_message_ok cli_RegisterPacketHandlers s2c_table self (s2c_type m) (s2c_encode m) more
    (s2c_handle self m) f w cli_RegisterPacketHandlers_ok (s2c_type_range m)) as E.
  cbn zeta in E. fold (s2c_payload m) in E. rewrite E; [done|by destruct m|lia|done|].
  intros data len Hl Hd Hm. destruct (s2c_table_runs self w m data len Hwf Hl Hd Hm) as (f' & Hf' & E').
  assert (f' = f) as -> by congruence. exact E'.
Qed.

(** Messages that only change the picture; an echo must be terminated. *)
Definition world_message (m : s2c) : Prop :=
  match m with S_HEARTBEAT _ => False | S_ECHO p => 0 ∈ sc_echo_data p | _ => True end.
(** The frame of a message is processed and the handler accepts it. *)
Definition accepted self (m : s2c) : cli unit :=
  r ← cli_MessageProcess self (frame (s2c_payload m) 0 0) (zlen (s2c_payload m) + 20);
  if r =? 1 then mret tt else st_lift (Fault InvalidParameter).
(** The session has the token of the player's character. *)
Definition tied (self : Z) w v : Prop :=
  ∃ s, cw_sessions w !! self = Some s ∧ cs_token s = GetToken (v_player v).

Lemma see_token t f v : (∀ c, GetToken (f c) = GetToken c) → GetToken (v_player (see t f v)) = GetToken (v_player v).
Proof. intros Hf. unfold see. destruct (_ =? _); [apply Hf|done]. Qed.
Lemma hear_token m v : (∀ p, m ≠ S_AUTH_RESULT p) → GetToken (v_player (hear m v)) = GetToken (v_player v).
Proof.
  intros Hm. destruct m as [p|p|p|p|p|p|p|p]; cbn [hear]; try done.
  - by destruct (Hm p).
  - by apply see_token.
  - generalize (sub (sc_list_data p) 0 (sc_list_count p)). intros l. revert v.
    induction l as [|d l IH]; intros v; cbn [foldl]; [done|]. rewrite IH. by apply see_token.
  - by destruct (_ =? _).
  - by destruct (_ =? _).
Qed.

Lemma s2c_handle_ok self m w v :
  client_ok w v → tied self w v → s2c_wf m → world_message m → zlen (om_usedList (cw_cmgr w)) + 20 < 2 ^ 62 →
  ∃ w', s2c_handle self m w = Ok (true, w') ∧ client_ok w' (hear m v) ∧ tied self w' (hear m v) ∧
    zlen (om_usedList (cw_cmgr w')) ≤ zlen (om_usedList (cw_cmgr w)) + 20 ∧ cw_net w' = cw_net w.
Proof.
  intros Hok (s & Hs & Ht) Hwf Hm Hroom.
  assert (∀ n, 0 ≤ n ≤ 20 → (∀ p, m ≠ S_AUTH_RESULT p) →
    (∃ w', s2c_handle self m w = Ok (true, w') ∧ heard w w' (hear m v) n) →
    ∃ w', s2c_handle self m w = Ok (true, w') ∧ client_ok w' (hear m v) ∧ tied self w' (hear m v) ∧
      zlen (om_usedList (cw_cmgr w')) ≤ zlen (om_usedList (cw_cmgr w)) + 20 ∧ cw_net w' = cw_net w) as Hgen.
  { intros n Hn Hna (w' & E & [Hv Hu Hnet Hse]). exists w'. split_and!; try done; [|lia].
    exists s. rewrite hear_token by done. split; [congruence|done]. }
  destruct m as [p|p|p|p|p|p|p|p]; cbn [s2c_handle] in *.
  - clear Hgen. set (w1 := set_cw_sessions (<[self := cli_SetToken (sc_auth_token p) s]> (cw_sessions w)) w).
    assert (client_ok w1 v) as Hok1 by (destruct Hok; by split).
    destruct (mod_player w1 v (λ c, SetId c (sc_auth_id p)) Hok1) as (w2 & E2 & Hok2 & Hp2 & Hm2 & Hn2 & Hs2).
    destruct (mod_player w2 _ (λ c, SetToken c (sc_auth_token p)) Hok2) as (w3 & E3 & Hok3 & Hp3 & Hm3 & Hn3 & Hs3).
    exists w3. unfold S2C_AuthResult, GetPlayerCharacter.
    erewrite st_bind_ok by (unfold cs_mod; rewrite Hs; reflexivity). cbv beta. fold w1.
    erewrite st_bind_ok by reflexivity. cbv beta. rewrite (st_bind_ok _ _ _ _ _ E2), <-Hp2, (st_bind_ok _ _ _ _ _ E3).
    split_and!; [done|exact Hok3| |rewrite Hm3, Hm2; cbn; lia|rewrite Hn3, Hn2; done].
    exists (cli_SetToken (sc_auth_token p) s). rewrite Hs3, Hs2. split; [apply lookup_insert_eq|done].
  - apply (Hgen 1); [lia|done|]. apply S2C_Enter_ok; [done|lia].
  - apply (Hgen 20); [lia|done|]. by apply S2C_EnterCharacter_ok.
  - apply (Hgen 0); [lia|done|]. by apply S2C_Leave_ok.
  - apply (Hgen 0); [lia|done|]. by apply S2C_Move_ok.
  - apply (Hgen 0); [lia|done|]. exists w. split; [by apply (S2C_Interaction_ok _ _ _ v)|by apply heard_same].
  - done.
  - apply (Hgen 0); [lia|done|]. exists w. split; [|by apply heard_same].
    unfold S2C_Echo, print_c_string. cbn in Hm. by rewrite bool_decide_true.
Qed.
End CliMessages.

(** the client's picture refines its specification.  Whatever well-formed
    world messages the server sends, processing their frames one after the
    other never faults, is accepted every time, touches neither the network nor
    another session, and leaves the client with exactly the picture the
    specification computes from the messages: its own character, and one
    character for every other token it has been told of and not told to forget.
    The session's token stays the token of the player's character. *)
Theorem client_view_refines `{OSLaws} self ms : ∀ w v,
  client_ok w v → tied self w v → Forall s2c_wf ms → Forall world_message ms →
  zlen (om_usedList (cw_cmgr w)) + 20 * zlen ms < 2 ^ 62 →
  ∃ w', st_each (accepted self) ms w = Ok (tt, w') ∧
    client_ok w' (foldl (λ v m, hear m v) v ms) ∧ tied self w' (foldl (λ v m, hear m v) v ms) ∧ cw_net w' = cw_net w.
Proof.
  induction ms as [|m ms IH]; intros w v Hok Ht Hwf Hwm Hroom; [by exists w|].
  rewrite Forall_cons in Hwf, Hwm. destruct Hwf as [Hwf1 Hwf], Hwm as [Hwm1 Hwm].
  rewrite zlen_cons in Hroom. pose proof (zlen_nonneg ms).
  destruct (s2c_handle_ok self m w v Hok Ht Hwf1 Hwm1) as (w1 & E & Hok1 & Ht1 & Hu1 & Hn1); [lia|].
  destruct (IH w1 (hear m v) Hok1 Ht1 Hwf Hwm) as (w2 & E2 & Hok2 & Ht2 & Hn2); [lia|].
  exists w2. cbn [st_each foldl].
  assert (accepted self m w = Ok (tt, w1)) as ->.
  { unfold accepted, frame. fold (message_head (s2c_payload m)).
    erewrite st_bind_ok by (rewrite cli_MessageProcess_ok by done; rewrite E; reflexivity). done. }
  rewrite E2. split_and!; [done|done|done|congruence].
Qed.

(** The picture of a new client: a character without a token, nobody else. *)
Lemma CharacterMgr_init_ok w st :
  cw_cmgr w = ObjectMgrBase_init st → cm_characterMap w = ∅ →
  ∃ w', CharacterMgr_init w = Ok (tt, w') ∧ client_ok w' (mkView Character_new ∅) ∧
    cw_sessions w' = cw_sessions w ∧ zlen (om_usedList (cw_cmgr w')) = 1 ∧ cw_net w' = cw_net w.
Proof.
  intros Hm Hc. pose proof (om_inv_init st) as Hi. rewrite <-Hm in Hi.
  assert (om_usedList (cw_cmgr w) = []) as Hu by (by rewrite Hm).
  destruct (om_alloc _ Hi) as (x & m' & Eg & Hsz').
  { split. exists 0. rewrite Hm. by split_and!. }
  { by rewrite Hu. }
  destruct (om_acquire _ _ _ Hi Eg) as (_ & Hused & Hi'). rewrite Hu in Hused. cbn [app] in Hused.
  unfold CharacterMgr_init.
  erewrite st_bind_ok by (unfold character_GetFreeObject; rewrite Eg; reflexivity). cbv beta.
  eexists. split; [reflexivity|]. split; [|split; [done|split; [cbn; by rewrite Hused|done]]].
  split; cbn [set_playerCharacter set_cw_chars set_cw_cmgr cw_cmgr cw_chars cm_characterMap _playerCharacter v_player v_others];
    rewrite ?Hc, ?Hused; try done.
  - apply lookup_insert_eq.
  - set_solver.
Qed.

Definition demo_cli : CliWorld :=
  mkCliWorld demo_net ∅ (ObjectMgrBase_init Store_init) ∅ 0 {[ 7 := CliSession_new 0 ]}
    (mkObjectPoolMgrBase [7] [] [7] 1 (mkStore 8 [])) [].
(** Signed in as 100, entered, told of 101, which moves. *)
Definition demo_messages : list s2c :=
  [S_AUTH_RESULT (mkSC_P_AUTH_RESULT 9 100); S_ENTER (mkSC_P_ENTER 100 5 6);
   S_ENTER (mkSC_P_ENTER 101 1 2); S_MOVE (mkSC_P_MOVE 101 3 4)].
Lemma client_view_refines_witness :
  ∃ w0 w', CharacterMgr_init demo_cli = Ok (tt, w0) ∧ st_each (accepted 7) demo_messages w0 = Ok (tt, w') ∧
    client_ok w' (foldl (λ v m, hear m v) (mkView Character_new ∅) demo_messages) ∧
    tied 7 w' (foldl (λ v m, hear m v) (mkView Character_new ∅) demo_messages) ∧ cw_net w' = cw_net w0.
Proof.
  destruct (CharacterMgr_init_ok demo_cli Store_init eq_refl eq_refl) as (w0 & E & Hok & Hs & Hu & _).
  destruct (client_view_refines 7 demo_messages w0 (mkView Character_new ∅) Hok) as (w' & Hw').
  - exists (CliSession_new 0). rewrite Hs. split; reflexivity.
  - repeat constructor; vm_compute; intuition discriminate.
  - repeat constructor.
  - rewrite Hu. reflexivity.
  - exists w0, w'. split; [exact E|exact Hw'].
Defined.

(** ** The command line *)
Lemma words_blank delimiter s : Forall (λ c, is_delim delimiter c = true) s → words delimiter [] s = [].
Proof. induction 1 as [|c s Hc _ IH]; [done|]. cbn [words]. by rewrite Hc. Qed.

Lemma CommandThread_tokens `{OS} cc cfg line l w tokens :
  Forall (λ c, c ≠ 0) line → 0 < zlen line < 1024 → words (str " ") [] line = tokens →
  CommandThread_step cc cfg line l w =
    (t ← st_lift (aget tokens 0);
     if matches t (str "/connect") then l' ← do_connect cc l; mret (Some l')
     else if matches t (str "/disconnect") then
       match l_pConnector l with
       | Some c => _ ← cli_Disconnect (Some c); mret (Some (mkCmdLocals None (l_pSession l)))
       | None => mret (Some l)
       end
     else if matches t (str "/auth") then
       match l_pSession l with Some s => _ ← ReqAuth s; mret (Some l) | None => mret (Some l) end
     else if matches t (str "/enter") then deref (l_pSession l) (λ s, _ ← ReqEnter s; mret (Some l))
     else if matches t (str "/leave") then mret (Some l)
     else if matches t (str "/move") then _ ← do_move l; mret (Some l)
     else if matches t (str "/send") then
       match l_pSession l with Some s => _ ← ReqEcho s; mret (Some l) | None => mret (Some l) end
     else if matches t (str "/sendLoop") then
       loopCount ← (if 2 <=? zlen tokens then a ← st_lift (aget tokens 1); mret (atoi a) else mret 5);
       _ ← echo_loop (Z.to_nat (if 1 >? loopCount then 1 else loopCount)) (l_pSession l);
       mret (Some l)
     else if matches t (str "/exit") then _ ← cli_App_Stop cfg; mret None
     else _ ← cli_add TestCommand; _ ← cli_add DynamicCommand; mret (Some l)) w.
Proof.
  intros Hn Hl Hw. unfold CommandThread_step, gets_s.
  rewrite (proj2 (Z.leb_gt _ _)) by lia. rewrite c_string_id by done.
  erewrite st_bind_ok by reflexivity. cbv beta. rewrite (proj2 (Z.leb_gt _ _)) by lia.
  pose proof (Tokenize_loop_ok (str " ") (S (length line)) [] line []) as E. cbn zeta in E.
  cbn [app] in E. change (zlen []) with 0 in E. rewrite Hw in E.
  erewrite st_bind_ok by (unfold st_lift, TokenizeA; rewrite E by (change npos with (2 ^ 64 - 1); lia); reflexivity).
  reflexivity.
Qed.

(** three inputs that end the client.  A line of blanks has no first token
    to compare; /enter and /move use the session whether or not there is one;
    a line of 1024 characters or more is an invalid parameter of gets_s. *)
Theorem CommandThread_faults `{OS} cc cfg l w k :
  (0 < k < 1024)%nat → l_pSession l = None → is_Some (cw_chars w !! _playerCharacter w) →
  CommandThread_step cc cfg (replicate k 32) l w = Fault OutOfBounds ∧
  CommandThread_step cc cfg (str "/enter") l w = Fault NullDeref ∧
  CommandThread_step cc cfg (str "/move") l w = Fault NullDeref ∧
  CommandThread_step cc cfg (replicate 1024 65) l w = Fault InvalidParameter.
Proof.
  intros Hk Hs [c Hc]. split_and!.
  - rewrite (CommandThread_tokens cc cfg (replicate k 32) l w []);
      [done|by apply Forall_replicate|rewrite zlen_replicate; lia|].
    apply words_blank, Forall_replicate. done.
  - rewrite (CommandThread_tokens cc cfg (str "/enter") l w [str "/enter"]);
      [|repeat constructor; done|split; reflexivity|reflexivity].
    erewrite st_bind_ok by reflexivity. cbv beta.
    change (matches (str "/enter") (str "/connect")) with false. change (matches (str "/enter") (str "/disconnect")) with false.
    change (matches (str "/enter") (str "/auth")) with false. change (matches (str "/enter") (str "/enter")) with true.
    cbv iota. by rewrite Hs.
  - rewrite (CommandThread_tokens cc cfg (str "/move") l w [str "/move"]);
      [|repeat constructor; done|split; reflexivity|reflexivity].
    erewrite st_bind_ok by reflexivity. cbv beta.
    change (matches (str "/move") (str "/connect")) with false. change (matches (str "/move") (str "/disconnect")) with false.
    change (matches (str "/move") (str "/auth")) with false. change (matches (str "/move") (str "/enter")) with false.
    change (matches (str "/move") (str "/leave")) with false. change (matches (str "/move") (str "/move")) with true.
    cbv iota. apply st_bind_fault. unfold do_move, GetPlayerCharacter. erewrite st_bind_ok by reflexivity. cbv beta.
    erewrite st_bind_ok by (by apply ch_get_ok). cbv beta. destruct (GetPos c) as [x y]. cbv beta iota.
    unfold random_step. do 2 erewrite st_bind_ok by (do 2 erewrite st_bind_ok by reflexivity; reflexivity).
    by rewrite Hs.
  - reflexivity.
Qed.
Definition demo_client : CliWorld := set_cw_chars {[ 0 := Character_new ]} demo_cli.
Definition demo_config : ClientConfig := mkClientConfig 1 [] [] (mkServerInfo 0 [] [] 0).
Definition demo_network_config : NetworkConfig :=
  mkNetworkConfig 0 [] 0 false false 0 (mkServerInfo 0 [] [] 0) (mkServerInfo 0 [] [] 0) (mkServerInfo 0 [] [] 0) (mkServerInfo 0 [] [] 0).
Lemma CommandThread_faults_witness :
  CommandThread_step demo_config demo_network_config (replicate 3 32) (mkCmdLocals None None) demo_client = Fault OutOfBounds ∧
  CommandThread_step demo_config demo_network_config (str "/enter") (mkCmdLocals None None) demo_client = Fault NullDeref ∧
  CommandThread_step demo_config demo_network_config (str "/move") (mkCmdLocals None None) demo_client = Fault NullDeref ∧
  CommandThread_step demo_config demo_network_config (replicate 1024 65) (mkCmdLocals None None) demo_client = Fault InvalidParameter.
Proof.
  apply (CommandThread_faults demo_config demo_network_config (mkCmdLocals None None) demo_client 3); [lia|reflexivity|].
  by exists Character_new.
Defined.
