(* ===== verification/Reach.v ===== *)
(** * The server as a transition system
    The threads of svr/process.cpp and _framework/network.cpp as one step
    relation: an iteration of the process thread, of the update thread, of a
    worker or of the accept thread, and the kernel writing into the buffer of
    a posted receive.  Iterations are atomic (see Locks for what the locks
    order).  Every state reached from the start satisfies SvrInv's invariant,
    and in such a state no packet and no update meets a destroyed object. *)
From S2P Require Import Prelude Buffer Wire Character Protocol Packet ObjectPool CommandQueue.
From S2P Require Import PacketQueue TimeSet Config System Connector Network NetFrame SvrState Session Server.
From S2P Require Import SvrFrame ServerLaws SessionLaws SvrInv ThreadLaws.

Section Steps.
Context `{OS}.

Inductive svr_step (w : SvrWorld) : SvrWorld → Prop :=
| step_process prev r w' : ProcessThread_step prev w = Ok (r, w') → svr_step w w'
| step_update t t' w' : UpdateThread_step t w = Ok (t', w') → svr_step w w'
| step_worker e n : WorkerThread_step e (sw_net w) = Ok (tt, n) → svr_step w (set_sw_net n w)
| step_accept l n : AcceptThread_step l (sw_net w) = Ok (tt, n) → svr_step w (set_sw_net n w)
| step_kernel c d n : conn_mod c (fill d) (sw_net w) = Ok (tt, n) → svr_step w (set_sw_net n w).

(** The server when its threads start: whatever the network has prepared, no
    session, no zone, no command. *)
Definition svr_boot (n : NetWorld) (sessions zones : Store) (serial : Z) : SvrWorld :=
  mkSvrWorld n ∅ 0 (ObjectMgrBase_init sessions) [] ∅ 0 ∅ (ObjectMgrBase_init zones) ∅ [] serial.

Definition svr_inv (w : SvrWorld) : Prop := inv_at [] None w.

Lemma svr_boot_inv n ss zs serial : links n = ∅ → svr_inv (svr_boot n ss zs serial).
Proof.
  intros Hl. split; cbn; try done.
  - apply om_inv_init.
  - intros p. rewrite lookup_empty. split; [by intros []|]. intros Hp. by apply not_elem_of_nil in Hp.
  - exists []. split; [apply om_inv_init|]. intros p. rewrite lookup_empty.
    split; [by intros []|]. intros Hp. by apply not_elem_of_nil in Hp.
  - intros c p. by rewrite Hl, lookup_empty.
Qed.

Lemma UpdateThread_step_keeps t : keeps any_fault svr_inv (UpdateThread_step t).
Proof.
  unfold UpdateThread_step. destruct t as [t1 t2].
  apply keeps_bind; [apply keeps_inv; eauto with keeps|]. intros now.
  apply keeps_bind.
  - destruct (t1 <? now); [|eauto with keeps]. apply keeps_bind; [|eauto with keeps].
    eapply hoare_weaken; [|apply UserSessionMgr_DoUpdate_ok]. done.
  - intros t. apply keeps_bind; [apply Tick_keeps|eauto with keeps].
Qed.
Lemma keeps_run {A} (m : svr A) w a w' : keeps any_fault svr_inv m → svr_inv w → m w = Ok (a, w') → svr_inv w'.
Proof. intros Hm Hi E. specialize (Hm w Hi). by rewrite E in Hm. Qed.

Lemma svr_step_inv w w' : svr_inv w → svr_step w w' → svr_inv w'.
Proof.
  intros Hi []; [eapply keeps_run; [apply ProcessThread_step_keeps|..]; eauto
    |eapply keeps_run; [apply UpdateThread_step_keeps|..]; eauto|..]; (apply inv_net; [done|]).
  - by eapply links_WorkerThread_step.
  - by eapply links_AcceptThread_step.
  - eapply (links_of_quiet (conn_mod c (fill d))); [by apply quiet_conn_mod|done].
Qed.

(** ** No packet meets a destroyed object *)
Definition packets_same (w w' : SvrWorld) : Prop := nw_packets (sw_net w') = nw_packets (sw_net w).
#[export] Instance packets_same_pre : PreOrder packets_same.
Proof. split; [done|]. unfold packets_same. congruence. Qed.
Lemma packets_of_quiet {A} (m : svr A) : respects svr_quiet m → respects packets_same m.
Proof. apply respects_weaken. by intros w w' []. Qed.
Lemma packets_for_connector c b n : respects packets_same (for_connector c b n).
Proof.
  assert (∀ p, respects packets_same (_ ← MessageProcess p b n; mret tt)) as Hm.
  { intros p. apply respects_bind; [apply _|apply packets_of_quiet, quiet_MessageProcess|intros; apply respects_ret; apply _]. }
  unfold for_connector. apply respects_bind; [apply _|apply packets_of_quiet; eauto with respects|]. intros k.
  destruct (GetParam k); [apply Hm|]. apply respects_bind; [apply _| |intros p].
  { intros w p w' E. unfold session_GetFreeObject in E. repeat case_match; by simplify_eq/=. }
  apply respects_bind; [apply _| |intros _].
  { intros w u w' E. unfold on_net, st_zoom, conn_mod, conn_get, conn_set, mbind, st_bind in E.
    repeat case_match; by simplify_eq/=. }
  apply respects_bind; [apply _|apply packets_of_quiet; eauto with respects|intros _; apply Hm].
Qed.
Lemma live_Disconnect p : keeps no_dangling (live p) (Network_Disconnect (Some p)).
Proof. unfold Network_Disconnect. keeps_tac. Qed.

(** The connector of the previous packet exists: connectors are not destroyed. *)
Definition prev_live (prev : option Z) (w : SvrWorld) : Prop := ∀ p, prev = Some p → live p (sw_net w).

Lemma Disconnect_safe prev w :
  svr_inv w → prev_live prev w →
  match svr_Disconnect prev w with
  | Ok (_, w') => svr_inv w' ∧ svr_quiet w w'
  | Fault f => no_dangling f
  end.
Proof.
  intros Hi Hp. unfold svr_Disconnect, mbind, st_bind, on_net, st_zoom.
  assert (match Network_Disconnect prev (sw_net w) with Ok _ => True | Fault f => no_dangling f end) as Hs.
  { destruct prev as [p|]; [|done]. pose proof (live_Disconnect p _ (Hp p eq_refl)) as E. by destruct (Network_Disconnect _ _) as [[]|]. }
  destruct (Network_Disconnect prev (sw_net w)) as [[b n]|] eqn:E; [|done].
  apply quiet_Disconnect in E as Hq. split; [|exact Hq]. apply inv_net; [done|apply Hq].
Qed.

Lemma ProcessThread_step_safe prev w x c bytes l :
  svr_inv w → prev_live prev w → front w x c bytes l → live c (sw_net w) →
  ProcessThread_step prev w ≠ Fault UseAfterFree.
Proof.
  intros Hi Hprev Hf Hc. destruct (packet_of_cell _ _ _ _ (fr_packet _ _ _ _ _ Hf)) as (pk & more & Hpk & Hpc & Hn & Hb).
  unfold ProcessThread_step. rewrite (st_bind_ok _ _ _ _ _ (pop_front _ _ _ _ _ Hf)). cbv iota.
  set (w1 := popped l w).
  assert (svr_inv w1) as Hi1 by (apply inv_net; [done|by split]).
  rewrite (st_bind_ok _ _ w1 pk w1).
  2:{ change w1 with (set_sw_net (sw_net w1) w1) at 2. apply on_net_ok. unfold load_packet.
      change (nw_packets (sw_net w1)) with (nw_packets (sw_net w)). by rewrite Hpk. }
  cbv beta zeta. unfold mbind at 1, st_bind at 1, st_lift.
  assert (faults no_dangling (tail_valid (_pBuffer (ps_base pk)))) as Ht by (unfold tail_valid; keeps_tac).
  destruct (tail_valid (_pBuffer (ps_base pk))) as [ok|f]; [|intros [= ->]; done].
  unfold mbind at 1, st_bind at 1.
  assert (match (if negb ok then svr_Disconnect prev else mret tt) w1 with
          | Ok (_, w2) => svr_inv w2 ∧ svr_quiet w1 w2 | Fault f => no_dangling f end) as Hd.
  { destruct ok; [by split|]. by apply Disconnect_safe. }
  destruct ((if negb ok then svr_Disconnect prev else mret tt) w1) as [[u w2]|f]; [|intros [= ->]; done].
  destruct Hd as [Hi2 [Hl2 _ Hp2]]. rewrite Hpc.
  assert (live c (sw_net w2)) as Hc2 by (by eapply live_kept).
  pose proof (for_connector_ok c (_pBuffer (ps_base pk)) (i32 (_nDataSize (ps_base pk))) w2 (conj Hi2 Hc2)) as Hm.
  pose proof (packets_for_connector c (_pBuffer (ps_base pk)) (i32 (_nDataSize (ps_base pk))) w2) as Hpk3.
  destruct Hc2 as [k Hk].
  assert (on_net (conn_get c) w2 = Ok (k, w2)) as Ek by (rewrite (on_net_ok _ _ _ _ (conn_get_ok _ _ _ Hk)); by destruct w2).
  unfold for_connector in Hm, Hpk3. rewrite (st_bind_ok _ _ _ _ _ Ek) in Hm, Hpk3. rewrite (st_bind_ok _ _ _ _ _ Ek).
  unfold mbind at 1, st_bind at 1.
  match type of Hm with match ?m with _ => _ end => destruct m as [[u3 w3]|f] end.
  - specialize (Hpk3 u3 w3 eq_refl). unfold packets_same in Hpk3. unfold mbind, st_bind, on_net, st_zoom, release_packet, ReleasePacketStruct.
    rewrite Hpk3, Hp2. change (nw_packets (sw_net w1)) with (nw_packets (sw_net w)). by rewrite Hpk.
  - by intros [= ->].
Qed.
End Steps.

(** C7: the invariant of the server.  Whatever connections, completions,
    packets and times the environment produces, every state the threads reach
    from the start satisfies it: the pool of sessions and the map of live
    sessions agree and no address is handed out twice, the same for zones,
    every zone of the zone map is alive and has the id it is found under, every
    queued command carries a buffer that may be sent, a connector's session is
    alive and points back to it, every session has a live connector, and the
    release list is empty between two updates. *)
Theorem server_invariant `{OS} n ss zs serial w :
  links n = ∅ → rtc svr_step (svr_boot n ss zs serial) w → svr_inv w.
Proof.
  intros Hl Hr. apply (svr_boot_inv _ ss zs serial) in Hl. induction Hr as [|w w1 w2 Hs _ IH]; [done|].
  apply IH. by eapply svr_step_inv.
Qed.

(** C8: no client can make the server touch a destroyed object through its
    connection.  In every reachable state, whatever the bytes of the packet at
    the head of the queue, processing it never accesses a destroyed session,
    connector or packet, and neither does the update that releases sessions,
    at any time: no session is destroyed twice. *)
Theorem no_dangling_access `{OS} n ss zs serial w :
  links n = ∅ → rtc svr_step (svr_boot n ss zs serial) w →
  (∀ prev x c bytes l, prev_live prev w → front w x c bytes l → live c (sw_net w) →
    ProcessThread_step prev w ≠ Fault UseAfterFree) ∧
  (∀ now, UserSessionMgr_DoUpdate now w ≠ Fault UseAfterFree).
Proof.
  intros Hl Hr. assert (svr_inv w) as Hi.
  { apply (svr_boot_inv _ ss zs serial) in Hl. induction Hr as [|w w1 w2 Hs _ IH]; [done|]. apply IH. by eapply svr_step_inv. }
  split; [intros; by eapply ProcessThread_step_safe|]. intros now E.
  pose proof (UserSessionMgr_DoUpdate_ok now w Hi) as Hu. by rewrite E in Hu.
Qed.

(** A server that has accepted connector 1 and received two packets from it:
    it has no session before the first, and one after it. *)
Definition demo_auth : list Z := frame (c2s_payload (C_AUTH (mkCS_P_AUTH 7))) 0 9.
Definition demo_move_bytes : list Z := frame (c2s_payload demo_move) 0 9.
Definition demo_start : NetWorld :=
  set_nw_packets (mkPacketHeap {[ 5 := demo_packet demo_auth; 6 := demo_packet demo_move_bytes ]} 7)
    (set_nw_recvq (with_items PacketDataQueue_init 0 [5; 6]) demo_world).
Definition demo_boot : SvrWorld := svr_boot demo_start (mkStore 100 []) (mkStore 500 []) 0.
Definition demo_reached : SvrWorld :=
  match ProcessThread_step None demo_boot with Ok (_, w) => w | Fault _ => demo_boot end.
Lemma demo_reaches : rtc svr_step demo_boot demo_reached.
Proof.
  apply rtc_once. unfold demo_reached. destruct (ProcessThread_step None demo_boot) as [[r w]|f] eqn:E.
  - by eapply step_process.
  - exfalso. assert (is_ok (ProcessThread_step None demo_boot) = true) as Hok by (vm_compute; reflexivity).
    by rewrite E in Hok.
Qed.
Lemma demo_reached_front : front demo_reached 6 1 demo_move_bytes [].
Proof. split; [split|..]; vm_compute; reflexivity. Qed.

Lemma server_invariant_witness : om_usedList (sw_smgr demo_reached) = [199] ∧ svr_inv demo_reached.
Proof.
  split; [vm_compute; reflexivity|].
  apply (server_invariant demo_start (mkStore 100 []) (mkStore 500 []) 0 demo_reached); [vm_compute; reflexivity|exact demo_reaches].
Defined.
Lemma no_dangling_access_witness :
  ProcessThread_step (Some 1) demo_reached ≠ Fault UseAfterFree ∧
  UserSessionMgr_DoUpdate 100 demo_reached ≠ Fault UseAfterFree.
Proof.
  destruct (no_dangling_access demo_start (mkStore 100 []) (mkStore 500 []) 0 demo_reached) as [Hp Hu];
    [vm_compute; reflexivity|exact demo_reaches|].
  split; [|apply Hu]. apply (Hp (Some 1) 6 1 demo_move_bytes []).
  - intros p [= <-]. apply (bool_decide_unpack _). vm_compute. done.
  - exact demo_reached_front.
  - apply (bool_decide_unpack _). vm_compute. done.
Defined.
