(* ===== verification/EndToEnd.v ===== *)
(** * From the client's call to the server's handler
    The whole path of a message: cli/user_session.cpp, _framework/network.cpp
    and _framework/connector.cpp on both sides, svr/process.cpp and
    svr/user_session.cpp.  The two programs are joined by the bytes the
    client's kernel has sent and the server's kernel delivers. *)
From S2P Require Import Prelude Buffer Wire Character Protocol Packet ObjectPool CommandQueue.
From S2P Require Import PacketQueue TimeSet Config System Connector Network NetFrame Duplex SvrState Session Server.
From S2P Require Import SvrFrame Client ServerLaws ThreadLaws SessionLaws.

(** ** The client's side *)

(** The client's thread sends a message; its worker sees [k] bytes sent. *)
Inductive talk_event := Say (m : c2s) | Sent (k : Z).
Definition said_messages (es : list talk_event) : list c2s :=
  omap (λ e, match e with Say m => Some m | Sent _ => None end) es.

Section Talk.
Context `{OSLaws} (self c : Z).
Implicit Types (w : CliWorld).

(** A completion that cannot happen is skipped. *)
Definition talk_step (ws : CliWorld * list Z) (e : talk_event) : outcome (CliWorld * list Z) :=
  let '(w, sent) := ws in
  match e with
  | Say m => '(_, w') ← cli_SendPacket self m w; Ok (w', sent)
  | Sent k =>
      match send_exec c (cw_net w, sent) (Ev_Sent k) with
      | Some r => '(n, sent') ← r; Ok (set_cw_net n w, sent')
      | None => Ok (w, sent)
      end
  end.
Definition talk (ws : CliWorld * list Z) (es : list talk_event) : outcome (CliWorld * list Z) :=
  fold_outcome talk_step ws es.

(** The frame of a message, at whatever time it was sent. *)
Definition is_frame (m : c2s) (f : list Z) : Prop := framed (c2s_payload m) f.

Lemma cli_SendPacket_delivers w s m sent said budget :
  sends_accepted → c2s_wf m → cw_sessions w !! self = Some s → cs_pConnector s = Some c →
  send_inv c (cw_net w, sent) said budget → budget < 2 ^ 31 - 1 →
  ∃ f n, cli_SendPacket self m w = Ok (RC_succ, set_cw_net n w) ∧ is_frame m f ∧
    send_inv c (n, sent) (said ++ f) (budget + 1).
Proof.
  intros Ha Hm Hs Hc Hinv Hbud. pose proof (c2s_encode_size m Hm). pose proof (zlen_nonneg (c2s_encode m)).
  set (now := os_call (nw_trace (cw_net w)) sys_time32). exists (frame (c2s_payload m) 0 now).
  unfold cli_SendPacket.
  set (n1 := set_nw_trace (nw_trace (cw_net w) ++ [sys_time32]) (cw_net w)).
  rewrite (st_bind_ok _ _ _ now (set_cw_net n1 w)) by reflexivity.
  assert (make_c2s_buffer m now = Ok (splice (replicate (Z.to_nat MAX_PACKET_BUFFER_SIZE) 0) 0
    (frame (c2s_payload m) 0 now), zlen (c2s_encode m) + 24)) as E.
  { unfold make_c2s_buffer. rewrite (make_buffer_of_ok _ _ (c2s_encode m)); [done|apply c2s_type_range|lia|].
    intros s1 q Hs1 Hq. destruct (c2s_send s1 q m Hm Hs1 Hq) as (s2 & E2 & ?). eauto. }
  assert (zlen (replicate (Z.to_nat MAX_PACKET_BUFFER_SIZE) 0) = MAX_PACKET_BUFFER_SIZE) as Hz
    by (rewrite zlen_replicate; unfold MAX_PACKET_BUFFER_SIZE; lia).
  revert Hz E. generalize (replicate (Z.to_nat MAX_PACKET_BUFFER_SIZE) 0). intros zs Hz E.
  pose proof (zlen_frame (c2s_payload m) 0 now) as Hf. rewrite zlen_c2s_payload in Hf.
  erewrite st_bind_ok by (unfold st_lift; by rewrite E). cbv beta iota.
  erewrite st_bind_ok by (unfold cs_get; cbn [cw_sessions set_cw_net]; by rewrite Hs). cbv beta.
  rewrite Hc. cbn [deref]. unfold cli_net, st_zoom. cbn [cw_net set_cw_net]. unfold Connector_AddSendData.
  unfold MAX_PACKET_BUFFER_SIZE in *.
  rewrite (wraps_small 32) by (try split; lia).
  destruct (Write_ok c Ha n1 sent said budget (splice zs 0 (frame (c2s_payload m) 0 now)) (zlen (c2s_encode m) + 24))
    as (n & EW & Hn); [|done|unfold event_ok, MAX_PACKET_BUFFER_SIZE; rewrite zlen_splice by lia; lia|].
  { apply (send_inv_frame c (cw_net w)); [done| |exact Hinv].
    cbn [n1 nw_trace set_nw_trace]. rewrite sends_app. apply app_nil_r. }
  exists n. split; [by rewrite EW|]. split; [by exists now|].
  rewrite sub_splice_prefix in Hn by lia. exact Hn.
Qed.

(** A thread that sends its messages while completions come in. *)
Lemma talk_ok s es : ∀ w sent said budget,
  sends_accepted → Forall c2s_wf (said_messages es) → cw_sessions w !! self = Some s → cs_pConnector s = Some c →
  send_inv c (cw_net w, sent) said budget → budget + zlen es < 2 ^ 31 →
  ∃ w' sent' fs, talk (w, sent) es = Ok (w', sent') ∧ Forall2 is_frame (said_messages es) fs ∧
    send_inv c (cw_net w', sent') (said ++ mjoin fs) (budget + zlen es).
Proof.
  induction es as [|e es IH]; intros w sent said budget Ha Hwf Hs Hc Hinv Hbud.
  { exists w, sent, []. cbn. rewrite app_nil_r, Z.add_0_r. by split_and!. }
  rewrite zlen_cons in Hbud |- *. pose proof (zlen_nonneg es). destruct e as [m|k].
  - apply Forall_cons in Hwf as [Hm Hwf].
    destruct (cli_SendPacket_delivers w s m sent said budget Ha Hm Hs Hc Hinv) as (f & n & E & Hf & Hn); [lia|].
    destruct (IH (set_cw_net n w) sent (said ++ f) (budget + 1) Ha Hwf Hs Hc Hn) as (w' & sent' & fs & E' & Hfs & Hn'); [lia|].
    exists w', sent', (f :: fs). split; [|split; [by constructor|]].
    + unfold talk. cbn [fold_outcome talk_step]. rewrite E. exact E'.
    + cbn [mjoin list_join]. rewrite <-app_assoc in Hn'. by replace (budget + (1 + zlen es)) with (budget + 1 + zlen es) by lia.
  - pose proof (send_exec_ok c Ha (cw_net w, sent) (Ev_Sent k) said budget Hinv) as He.
    unfold talk. cbn [fold_outcome talk_step].
    destruct (send_exec c (cw_net w, sent) (Ev_Sent k)) as [r|].
    + destruct He as ([n sent1] & -> & Hn); [unfold zlen in *; lia|done|]. cbn [written fmap list_fmap mjoin list_join] in Hn.
      rewrite !app_nil_r in Hn. cbn [mbind outcome_bind].
      destruct (IH (set_cw_net n w) sent1 said (budget + 1) Ha Hwf Hs Hc Hn) as (w' & sent' & fs & E' & Hfs & Hn'); [lia|].
      exists w', sent', fs. by replace (budget + (1 + zlen es)) with (budget + 1 + zlen es) by lia.
    + cbn [mbind outcome_bind].
      destruct (IH w sent said (budget + 1) Ha Hwf Hs Hc) as (w' & sent' & fs & E' & Hfs & Hn'); [|lia|].
      { destruct Hinv as [(k0 & out & q & ?)]. split. exists k0, out, q. destruct_and!. split_and!; try done. lia. }
      exists w', sent', fs. by replace (budget + (1 + zlen es)) with (budget + 1 + zlen es) by lia.
Qed.
End Talk.

(** ** The bytes in between *)

Lemma c2s_fits m : c2s_wf m → fits (c2s_payload m).
Proof. intros Hm. pose proof (c2s_encode_size m Hm). unfold fits. rewrite zlen_c2s_payload. lia. Qed.

(** Chunks cut from the stream that complete a frame each queue its first
    frames, in order. *)
Lemma feed_all_frames ds : ∀ ms fs q gs rest,
  Forall c2s_wf ms → Forall2 is_frame ms fs → q ++ mjoin ds `prefix_of` mjoin fs →
  feed_all q ds = Some (gs, rest) → gs = take (length ds) fs ∧ (length ds ≤ length fs)%nat.
Proof.
  induction ds as [|d ds IH]; intros ms fs q gs rest Hms Hfs [more Hmore] E; cbn [feed_all] in E.
  { injection E as <- <-. split; [done|cbn; lia]. }
  destruct (feed q d) as [[f r]|] eqn:Ef; [|done]. cbn [mbind option_bind] in E.
  destruct (feed_all r ds) as [[gs1 rest1]|] eqn:E1; [|done]. injection E as <- <-.
  change (mjoin (d :: ds)) with (d ++ mjoin ds) in Hmore. rewrite app_assoc, <-app_assoc in Hmore.
  destruct (feed_framed (c2s_payload <$> ms) fs q d (mjoin ds ++ more) f r) as (fs' & -> & Hr); [| |done|done|].
  { apply Forall_fmap. eapply Forall_impl; [done|]. apply c2s_fits. }
  { by apply Forall2_fmap_l. }
  inversion Hfs as [|m ? ms' ? Hf Hfs']; subst. apply Forall_cons in Hms as [_ Hms].
  destruct (IH ms' fs' r gs1 rest1 Hms Hfs') as [-> Hlen]; [|done|].
  { exists more. by rewrite <-Hr, app_assoc. }
  split; [done|cbn; lia].
Qed.

(** ** The server's side *)

(** [k] iterations of the process thread, as long as it does not block. *)
Fixpoint ProcessThread_run `{OS} (k : nat) (pConnector : option Z) : svr unit :=
  match k with
  | O => st_skip
  | S k =>
      r ← ProcessThread_step pConnector;
      match r with Some c => ProcessThread_run k c | None => st_skip end
  end.
(** What an iteration is to do with the packet [x] that holds [m]: take it off
    the queue, run the handler, free it. *)
Definition handle_one `{OS} (p : Z) (xm : Z * c2s) : svr unit :=
  _ ← on_net pop_packet; _ ← c2s_handle p xm.2; on_net (release_packet xm.1).

(** The packets [xs] at the head of the queue hold the messages [ms] for the
    session [p] of connector [c]. *)
Record waiting (w : SvrWorld) (c p : Z) (xs : list Z) (ms : list c2s) (l : list Z) : Prop := {
  wt_phases : five_phases (nw_recvq (sw_net w));
  wt_items : items (nw_recvq (sw_net w)) 0 = xs ++ l;
  wt_packets : Forall2 (λ x m, ∃ f, is_frame m f ∧ packet_of (nw_packets (sw_net w)) x = Some (Some c, f)) xs ms;
  wt_distinct : NoDup xs;
  wt_link : links (sw_net w) !! c = Some p }.

Section Handling.
Context `{OSLaws}.
Implicit Types (w : SvrWorld).

Lemma release_inv x w u (w' : NetWorld) :
  release_packet x (sw_net w) = Ok (u, w') →
  links w' = links (sw_net w) ∧ nw_recvq w' = nw_recvq (sw_net w) ∧
  ∀ y, y ≠ x → packet_of (nw_packets w') y = packet_of (nw_packets (sw_net w)) y.
Proof.
  unfold release_packet, ReleasePacketStruct. case_match; [|done].
  intros [= <- <-]. split_and!; try done. intros y Hy. unfold packet_of.
  repeat case_match; simplify_eq/=; try done. by rewrite lookup_delete_ne.
Qed.

(** Handling the first packet leaves the others waiting. *)
Lemma waiting_step w c p x xs m ms l u w' :
  waiting w c p (x :: xs) (m :: ms) l → handle_one p (x, m) w = Ok (u, w') → waiting w' c p xs ms l.
Proof.
  intros [Hq Hi Hp Hnd Hl] E. apply Forall2_cons in Hp as [(f & Hf & Hx) Hp]. apply NoDup_cons in Hnd as [Hni Hnd].
  assert (front w x c f (xs ++ l)) as Hfront by (by split).
  unfold handle_one in E. rewrite (st_bind_ok _ _ _ _ _ (pop_front _ _ _ _ _ Hfront)) in E. cbn [fst snd] in E.
  apply st_bind_inv in E as (b & w1 & E1 & E). apply quiet_handle in E1 as [[Hl1 _] Hq1 Hp1].
  unfold on_net, st_zoom in E. destruct (release_packet x (sw_net w1)) as [[u2 n]|] eqn:E2; [|done].
  injection E as _ <-. destruct (release_inv x w1 _ _ E2) as (Hl2 & Hq2 & Hp2).
  destruct (with_items_spec (nw_recvq (sw_net w)) 0 (xs ++ l) Hq) as (Hq' & Hi' & _); [lia|].
  split; cbn [sw_net set_sw_net].
  - rewrite Hq2, Hq1. exact Hq'.
  - rewrite Hq2, Hq1. exact Hi'.
  - rewrite Forall2_lookup in Hp |- *. intros i. specialize (Hp i).
    destruct (xs !! i) as [y|] eqn:Hy; [|inversion Hp; constructor].
    inversion Hp as [? m' (f' & Hf' & Hpk) Hm'|]; subst. constructor. exists f'. split; [done|].
    rewrite Hp2, Hp1; [done|]. intros ->. apply Hni. by eapply list_elem_of_lookup_2.
  - done.
  - rewrite Hl2, Hl1. exact Hl.
Qed.

Lemma ProcessThread_run_ok c p l xs : ∀ ms w prev,
  Forall c2s_wf ms → waiting w c p xs ms l →
  ProcessThread_run (length xs) prev w = st_each (handle_one p) (zip xs ms) w.
Proof.
  induction xs as [|x xs IH]; intros ms w prev Hms Hw; [by destruct ms|].
  pose proof Hw as [Hq Hi Hp Hnd Hl]. destruct ms as [|m ms]; [by inversion Hp|].
  apply Forall2_cons in Hp as [(f & Hf & Hx) Hp]. apply Forall_cons in Hms as [Hm Hms].
  destruct (links_inv _ _ _ Hl) as (k & Hk & Hpk). destruct Hf as [now ->].
  assert (front w x c (frame (c2s_payload m) 0 now) (xs ++ l)) as Hfront by (by split).
  cbn [length ProcessThread_run zip zip_with st_each].
  unfold mbind at 1, st_bind at 1. rewrite (ProcessThread_frame_ok prev w x c (xs ++ l) k p m 0 now Hm Hfront Hk Hpk).
  destruct (handle_one p (x, m) w) as [[u w1]|fl] eqn:E.
  - pose proof (waiting_step _ _ _ _ _ _ _ _ _ _ Hw E) as Hw1.
    unfold handle_one in E. rewrite (st_bind_ok _ _ _ _ _ (pop_front _ _ _ _ _ Hfront)) in E. cbn [fst snd] in E.
    apply st_bind_inv in E as (b & w2 & E1 & E2).
    rewrite (st_bind_ok _ _ _ _ _ E1), (st_bind_ok _ _ _ _ _ E2). apply IH; done.
  - unfold handle_one in E. rewrite (st_bind_ok _ _ _ _ _ (pop_front _ _ _ _ _ Hfront)) in E. cbn [fst snd] in E.
    unfold mbind, st_bind in E |- *. destruct (c2s_handle p m _) as [[b w2]|]; [|congruence].
    destruct (on_net (release_packet x) w2) as [[]|]; [done|congruence].
Qed.

(** What was received is waiting. *)
Lemma received_waiting w c p ms gs rest n :
  open_conn c n rest → packets_old n →
  arrived n = (λ f, Some (Some c, f)) <$> gs → Forall2 is_frame ms gs →
  links (sw_net w) !! c = Some p → links n = links (sw_net w) →
  waiting (set_sw_net n w) c p (items (nw_recvq n) 0) ms [].
Proof.
  intros [_ Hq] [_ Hnd] Har Hms Hl Hln. split; cbn [sw_net set_sw_net]; [done|by rewrite app_nil_r| |done|by rewrite Hln].
  unfold arrived in Har. clear -Har Hms. revert ms gs Hms Har.
  induction (items (nw_recvq n) 0) as [|x xs IH]; intros ms gs Hms Har.
  - destruct gs; [|done]. inversion Hms. constructor.
  - destruct gs as [|g gs]; [done|]. injection Har as Hx Har. inversion Hms; subst. constructor; [by exists g|]. by eapply IH.
Qed.

Lemma links_receive_chunks p ds : respects links_kept (st_each (receive_chunk p) ds).
Proof. apply respects_each; [apply _|]. intros d _. apply links_receive_chunk. Qed.

(** The server's half: chunks of the stream, in which each completes a frame. *)
Lemma delivered_ok w c p ms fs ds gs rest prev :
  recvs_accepted → Forall c2s_wf ms → Forall2 is_frame ms fs →
  open_conn c (sw_net w) [] → items (nw_recvq (sw_net w)) 0 = [] → links (sw_net w) !! c = Some p →
  Forall chunk_ok ds → mjoin ds `prefix_of` mjoin fs → feed_all [] ds = Some (gs, rest) →
  ∃ n, st_each (receive_chunk c) ds (sw_net w) = Ok (tt, n) ∧
    length (items (nw_recvq n) 0) = length ds ∧ (length ds ≤ length ms)%nat ∧
    ProcessThread_run (length ds) prev (set_sw_net n w) =
      st_each (handle_one p) (zip (items (nw_recvq n) 0) (take (length ds) ms)) (set_sw_net n w) ∧
    waiting (set_sw_net n w) c p (items (nw_recvq n) 0) (take (length ds) ms) [] ∧ open_conn c n rest.
Proof.
  intros Ha Hms Hfs Ho Hi Hl Hds Hpre Hf.
  destruct (receive_run_ok c ds [] (sw_net w) gs rest Ha Hds Ho) as (n & E & Ho' & Hold' & Har); [|done|].
  { unfold packets_old. rewrite Hi. split; constructor. }
  destruct (feed_all_frames ds ms fs [] gs rest Hms Hfs) as [Hgs Hlen]; [done|done|].
  pose proof (links_receive_chunks c ds _ _ _ E) as [Hln _].
  unfold arrived in Har at 2. rewrite Hi in Har. cbn [fmap list_fmap app] in Har.
  pose proof (Forall2_length _ _ _ Hfs) as Hlm.
  assert (waiting (set_sw_net n w) c p (items (nw_recvq n) 0) (take (length ds) ms) []) as Hw.
  { apply (received_waiting w c p _ gs rest); try done. rewrite Hgs. by apply Forall2_take. }
  assert (length (items (nw_recvq n) 0) = length ds) as Hx.
  { rewrite (Forall2_length _ _ _ (wt_packets _ _ _ _ _ _ Hw)), length_take. lia. }
  exists n. split_and!; [done|done|lia| |done|done]. rewrite <-Hx at 1.
  apply (ProcessThread_run_ok c p []); [by apply Forall_take|done].
Qed.
End Handling.

(** C6: every message the client sends is handled once, in order.  The client
    sends messages while completions of any sizes come in.  Then no call
    faults, what its kernel has sent is a prefix of the messages' frames, and
    whatever chunks of that prefix the server's kernel delivers to an idle
    connection with an empty queue: as long as each chunk completes a frame,
    each is queued as one packet, and that many iterations of the process
    thread run exactly the handlers of the first messages, in the order they
    were sent, each for the session of the connection, and free the packets. *)
Theorem messages_handled (OC : OS) (LC : @OSLaws OC) (OSrv : OS) (LS : @OSLaws OSrv)
    self c w s k es :
  @sends_accepted OC → Forall c2s_wf (said_messages es) →
  cw_sessions w !! self = Some s → cs_pConnector s = Some c →
  nw_conns (cw_net w) !! c = Some k → send_state k None [] → _socket k ≠ INVALID_SOCKET → zlen es < 2 ^ 31 →
  ∃ w' sent, @talk OC self c (w, []) es = Ok (w', sent) ∧
    ∀ sw c' p ds gs rest prev,
      @recvs_accepted OSrv → open_conn c' (sw_net sw) [] → items (nw_recvq (sw_net sw)) 0 = [] →
      links (sw_net sw) !! c' = Some p →
      Forall chunk_ok ds → mjoin ds `prefix_of` sent → feed_all [] ds = Some (gs, rest) →
      ∃ n, st_each (@receive_chunk OSrv c') ds (sw_net sw) = Ok (tt, n) ∧
        length (items (nw_recvq n) 0) = length ds ∧ (length ds ≤ length (said_messages es))%nat ∧
        @ProcessThread_run OSrv (length ds) prev (set_sw_net n sw) =
          st_each (@handle_one OSrv p) (zip (items (nw_recvq n) 0) (take (length ds) (said_messages es))) (set_sw_net n sw).
Proof.
  intros Ha Hms Hs Hc Hk Hst Hso Hlen.
  destruct (@talk_ok OC LC self c s es w [] [] 0 Ha Hms Hs Hc) as (w' & sent & fs & E & Hfs & Hinv); [|lia|].
  { split. exists k, None, []. by split_and!. }
  apply send_inv_prefix in Hinv. exists w', sent. split; [exact E|].
  intros sw c' p ds gs rest prev Hr Ho Hi Hl Hds Hpre Hf.
  destruct (delivered_ok sw c' p _ fs ds gs rest prev Hr Hms Hfs Ho Hi Hl Hds) as (n & ? & ? & ? & ? & _); [by etrans|done|].
  by exists n.
Qed.

(** A client on connector 1 of [demo_world] moves and leaves; the first frame
    is sent in two parts, the second is still outstanding. *)
Definition demo_talker : CliWorld :=
  mkCliWorld demo_world ∅ (ObjectMgrBase_init Store_init) ∅ 0 {[ 4 := mkCliSession 0 (Some 1) 0 ]}
    (ObjectPoolMgrBase_init 1 Store_init) [].
Definition demo_talk : list talk_event :=
  [Say demo_move; Sent 20; Say (C_HEARTBEAT mkCS_P_HEARTBEAT); Sent 12].
Definition demo_served_conn : SvrWorld :=
  set_sw_net (set_nw_conns {[ 1 := demo_owned; 2 := demo_other ]} demo_net) demo_svr.
Definition demo_bytes : list Z := frame (c2s_payload demo_move) 0 0.
Lemma demo_served_open : open_conn 1 (sw_net demo_served_conn) [].
Proof.
  split; [|split; reflexivity]. exists demo_owned. split; [reflexivity|]. split; [|discriminate].
  destruct (recv_state_new 1). by split.
Qed.
Lemma messages_handled_witness :
  ∃ w' sent n, talk 4 1 (demo_talker, []) demo_talk = Ok (w', sent) ∧
    st_each (receive_chunk 1) [demo_bytes] (sw_net demo_served_conn) = Ok (tt, n) ∧
    ProcessThread_run 1 None (set_sw_net n demo_served_conn) =
      st_each (handle_one 10) (zip (items (nw_recvq n) 0) [demo_move]) (set_sw_net n demo_served_conn).
Proof.
  destruct (messages_handled demo_os demo_os_laws demo_os demo_os_laws 4 1 demo_talker (mkCliSession 0 (Some 1) 0)
    (set_socket 50 (Connector_new 1)) demo_talk) as (w' & sent & E & Hsrv).
  - exact demo_accepts.
  - repeat constructor; vm_compute; intuition discriminate.
  - reflexivity.
  - reflexivity.
  - reflexivity.
  - apply send_state_socket, send_state_new.
  - discriminate.
  - reflexivity.
  - destruct (Hsrv demo_served_conn 1 10 [demo_bytes] [demo_bytes] [] None) as (n & E1 & _ & _ & E2).
    + exact demo_recvs.
    + exact demo_served_open.
    + reflexivity.
    + reflexivity.
    + repeat constructor; apply (bool_decide_unpack _); vm_compute; done.
    + assert (snd <$> talk 4 1 (demo_talker, []) demo_talk = Ok demo_bytes) as Es by (vm_compute; reflexivity).
      rewrite E in Es. injection Es as ->. by eexists [].
    + vm_compute. reflexivity.
    + exists w', sent, n. split; [exact E|]. split; [exact E1|exact E2].
Defined.
