(* ===== verification/ClientConn.v ===== *)
(** * A client on its connection
    Everything that happens to a signed-on client of src/project_pl_cpp_20/cli
    between its connection and its end: the command thread sends messages, the
    worker threads see completions of sends and receives, the process thread
    handles what was received and answers heartbeats.  Whatever the order, the
    client refines an automaton over messages: a picture of the world, the
    messages to come, those queued, those said. *)
From S2P Require Import Prelude Buffer Wire Character Protocol Packet ObjectPool CommandQueue.
From S2P Require Import PacketQueue TimeSet Config System Connector Network NetFrame Duplex SvrState Session Server.
From S2P Require Import SvrFrame Text Client ServerLaws ThreadLaws SessionLaws ClientLaws EndToEnd.

(** ** What the handlers leave alone *)

(** The connector a session writes to. *)
Definition session_conn (w : CliWorld) (self : Z) : option Z := s ← cw_sessions w !! self; cs_pConnector s.
(** The handlers neither receive nor give a session another connector. *)
Record calm (w w' : CliWorld) : Prop := {
  cm_deaf : conns_rel same_receiver (cw_net w) (cw_net w');
  cm_quiet : quiet (cw_net w) (cw_net w');
  cm_conn p : session_conn w' p = session_conn w p }.
#[export] Instance calm_pre : PreOrder calm.
Proof.
  split; [by split|]. intros w1 w2 w3 [D1 Q1 C1] [D2 Q2 C2]. split; [by etrans|by etrans|].
  intros p. by rewrite C2.
Qed.
Lemma calm_same w w' : cw_net w' = cw_net w → cw_sessions w' = cw_sessions w → calm w w'.
Proof. intros Hn Hs. split; rewrite ?Hn; try done. intros p. unfold session_conn. by rewrite Hs. Qed.

Section Calm.
Context `{OS}.

Lemma calm_run {A} (m : cli A) :
  (∀ w a w', m w = Ok (a, w') → cw_net w' = cw_net w ∧ cw_sessions w' = cw_sessions w) → respects calm m.
Proof. intros Hm w a w' E. destruct (Hm w a w' E). by apply calm_same. Qed.
Lemma calm_cli_net {A} (m : net A) :
  respects (conns_rel same_receiver) m → respects quiet m → respects calm (cli_net m).
Proof.
  intros Hd Hq w a w' E. unfold cli_net, st_zoom in E. destruct (m (cw_net w)) as [[b n]|] eqn:Em; [|done].
  injection E as <- <-. split; [by eapply Hd|by eapply Hq|done].
Qed.
Lemma calm_sys x : respects calm (cli_net (sys x)).
Proof. apply calm_cli_net; eauto with respects. Qed.
Lemma calm_AddSendData c d n : respects calm (cli_net (Connector_AddSendData c d n)).
Proof. apply calm_cli_net; [apply deaf_Write|apply quiet_AddSendData]. Qed.
Lemma calm_cs_get p : respects calm (cs_get p).
Proof. apply calm_run. intros w a w'. unfold cs_get. case_match; [|done]. by intros [= _ <-]. Qed.
Lemma calm_cs_mod p f : (∀ s, cs_pConnector (f s) = cs_pConnector s) → respects calm (cs_mod p f).
Proof.
  intros Hf w a w'. unfold cs_mod. destruct (cw_sessions w !! p) as [s|] eqn:Hs; [|done]. intros [= _ <-].
  split; [done..|]. intros q. unfold session_conn. cbn [cw_sessions set_cw_sessions].
  destruct (decide (q = p)) as [->|Hq]; [|by rewrite lookup_insert_ne].
  rewrite lookup_insert_eq, Hs. cbn. by rewrite Hf.
Qed.
Lemma calm_SetToken p t : respects calm (cs_mod p (cli_SetToken t)).
Proof. by apply calm_cs_mod. Qed.
Lemma calm_ch_get p : respects calm (ch_get p).
Proof. apply calm_run. intros w a w'. unfold ch_get. case_match; [|done]. by intros [= _ <-]. Qed.
Lemma calm_ch_mod p f : respects calm (ch_mod p f).
Proof. apply calm_run. intros w a w'. unfold ch_mod. case_match; [|done]. by intros [= _ <-]. Qed.
Lemma calm_modify f : (∀ w, cw_net (f w) = cw_net w ∧ cw_sessions (f w) = cw_sessions w) → respects calm (st_modify f).
Proof. intros Hf. apply calm_run. intros w a w' [= _ <-]. apply Hf. Qed.
Lemma calm_GetFreeObject : respects calm character_GetFreeObject.
Proof. apply calm_run. intros w a w'. unfold character_GetFreeObject. repeat case_match; try done. by intros [= _ <-]. Qed.
Lemma calm_deref {A} p (k : Z → cli A) : (∀ a, respects calm (k a)) → respects calm (deref p k).
Proof. intros Hk. destruct p; cbn [deref]; [apply Hk|]. by intros w a w'. Qed.
Hint Resolve calm_sys calm_AddSendData calm_cs_get calm_SetToken calm_ch_get calm_ch_mod calm_GetFreeObject : respects.
Hint Extern 2 (respects calm (st_modify _)) => apply calm_modify; done : respects.
Hint Extern 2 (respects calm (deref _ _)) => apply calm_deref; intros ? : respects.

Lemma calm_SendPacket self m : respects calm (cli_SendPacket self m).
Proof. unfold cli_SendPacket. respects_tac. Qed.
Lemma calm_GetCharacter t : respects calm (GetCharacter t).
Proof. unfold GetCharacter, GetPlayerCharacter. respects_tac. Qed.
Hint Resolve calm_SendPacket calm_GetCharacter : respects.
Lemma calm_EnterCharacter t : respects calm (cli_EnterCharacter t).
Proof. unfold cli_EnterCharacter. respects_tac. Qed.
Hint Resolve calm_EnterCharacter : respects.
Lemma calm_loop data k : ∀ idx, respects calm (EnterCharacter_loop data idx k).
Proof. induction k as [|k IH]; intros idx; cbn [EnterCharacter_loop]; respects_tac. Qed.
Hint Resolve calm_loop : respects.
Lemma calm_handle self m : respects calm (s2c_handle self m).
Proof.
  destruct m; cbn [s2c_handle]; unfold S2C_AuthResult, S2C_Enter, S2C_EnterCharacter, S2C_Leave, S2C_Move,
    S2C_Interaction, S2C_Heartbeat, S2C_Echo, IsPlayerCharacter_token, IsPlayerCharacter, GetPlayerCharacter,
    cli_LeaveCharacter; respects_tac.
Qed.
End Calm.

(** ** The machine *)

(** The command thread says, a worker sees a completion, the process thread
    makes an iteration. *)
Inductive cli_event := Cli_Say (m : c2s) | Cli_Sent (k : Z) | Cli_Receive (d : list Z) | Cli_Process.
(** The client, the bytes its kernel has sent on the connection, and the local
    variable of the process thread. *)
Record cli_conn := mkCliConn { cc_world : CliWorld; cc_sent : list Z; cc_last : option Z }.
Definition cli_chunks (es : list cli_event) : list (list Z) :=
  omap (λ e, match e with Cli_Receive d => Some d | _ => None end) es.

Section Machine.
Context `{OS} (self c : Z).

Definition cli_step (s : cli_conn) (e : cli_event) : outcome cli_conn :=
  let w := cc_world s in
  match e with
  | Cli_Say m => '(_, w') ← cli_SendPacket self m w; Ok (mkCliConn w' (cc_sent s) (cc_last s))
  | Cli_Sent k =>
      match send_exec c (cw_net w, cc_sent s) (Ev_Sent k) with
      | Some r => '(n, sent) ← r; Ok (mkCliConn (set_cw_net n w) sent (cc_last s))
      | None => Ok s
      end
  | Cli_Receive d => '(_, n) ← receive_chunk c d (cw_net w); Ok (mkCliConn (set_cw_net n w) (cc_sent s) (cc_last s))
  | Cli_Process => '(r, w') ← cli_ProcessThread_step (cc_last s) w; Ok (mkCliConn w' (cc_sent s) (default (cc_last s) r))
  end.
Definition cli_run (s : cli_conn) (es : list cli_event) : outcome cli_conn := fold_outcome cli_step s es.
End Machine.

(** ** The specification *)
Record cli_spec := mkCliSpec { sp_view : view; sp_coming : list s2c; sp_queued : list s2c; sp_said : list c2s }.
(** What the client answers by itself. *)
Definition replies (m : s2c) : list c2s := match m with S_HEARTBEAT _ => [C_HEARTBEAT mkCS_P_HEARTBEAT] | _ => [] end.
Definition spec_step (a : cli_spec) (e : cli_event) : cli_spec :=
  match e with
  | Cli_Say m => mkCliSpec (sp_view a) (sp_coming a) (sp_queued a) (sp_said a ++ [m])
  | Cli_Sent _ => a
  | Cli_Receive _ =>
      match sp_coming a with
      | m :: ms => mkCliSpec (sp_view a) ms (sp_queued a ++ [m]) (sp_said a)
      | [] => a
      end
  | Cli_Process =>
      match sp_queued a with
      | m :: ms => mkCliSpec (hear m (sp_view a)) (sp_coming a) ms (sp_said a ++ replies m)
      | [] => a
      end
  end.
Definition spec_run (a : cli_spec) (es : list cli_event) : cli_spec := foldl spec_step a es.
(** An echo must be terminated. *)
Definition client_message (m : s2c) : Prop := match m with S_ECHO p => 0 ∈ sc_echo_data p | _ => True end.
Definition says_wf (e : cli_event) : Prop := match e with Cli_Say m => c2s_wf m | _ => True end.

Lemma s2c_fits m : s2c_wf m → fits (s2c_payload m).
Proof. intros Hm. pose proof (s2c_encode_size m Hm). unfold fits. rewrite zlen_s2c_payload. lia. Qed.
Lemma client_ok_net w n v : client_ok w v → client_ok (set_cw_net n w) v.
Proof. intros []. by split. Qed.
Lemma client_ok_cmds w l v : client_ok w v → client_ok (set_cw_cmds l w) v.
Proof. intros []. by split. Qed.

Section Refinement.
Context `{OSLaws} (self c : Z).
Implicit Types (w : CliWorld) (a : cli_spec).

(** A stream: what is written is the frames of what was said; [q] received
    but not cut, and [more] still to be received, are the frames to come. *)
Record refines (s : cli_conn) a (q more : list Z) (budget : Z) : Prop := {
  cf_view : client_ok (cc_world s) (sp_view a);
  cf_tied : tied self (cc_world s) (sp_view a);
  cf_conn : session_conn (cc_world s) self = Some c;
  cf_link : links (cw_net (cc_world s)) !! c = Some self;
  cf_said : ∃ fs, Forall2 is_frame (sp_said a) fs ∧
    link_inv c (cw_net (cc_world s), cc_sent s) (mjoin fs) q budget;
  cf_queued : ∃ gs, Forall2 framed (s2c_payload <$> sp_queued a) gs ∧
    arrived (cw_net (cc_world s)) = (λ f, Some (Some c, f)) <$> gs;
  cf_coming : ∃ gs, Forall2 framed (s2c_payload <$> sp_coming a) gs ∧ q ++ more = mjoin gs;
  cf_wf : Forall (λ m, s2c_wf m ∧ client_message m) (sp_queued a ++ sp_coming a);
  cf_room : zlen (om_usedList (cw_cmgr (cc_world s))) + 20 * zlen (sp_queued a ++ sp_coming a) < 2 ^ 62 }.

Hypothesis Hsends : sends_accepted.
Hypothesis Hrecvs : recvs_accepted.

Lemma session_conn_inv w : session_conn w self = Some c → ∃ s, cw_sessions w !! self = Some s ∧ cs_pConnector s = Some c.
Proof. unfold session_conn. destruct (cw_sessions w !! self) as [s|]; [|done]. cbn. eauto. Qed.

(** Sending keeps the receive side as it is. *)
Lemma calm_link w w' sent sent' said said' q b b' :
  calm w w' → link_inv c (cw_net w, sent) said q b → send_inv c (cw_net w', sent') said' b' →
  link_inv c (cw_net w', sent') said' q b' ∧ arrived (cw_net w') = arrived (cw_net w).
Proof.
  intros [Hd Hq _] [_ Ho Hp] Hs. destruct (open_kept c (cw_net w) (cw_net w') q Hd Hq) as (Ho' & Ha & Hp'); [|done|].
  { intros k. by apply (send_inv_open c (cw_net w') sent' said' b'). }
  split; [|done]. split; [done|done|by apply Hp'].
Qed.
Lemma tied_calm w n v : tied self w v → tied self (set_cw_net n w) v.
Proof. done. Qed.

Lemma refines_say s a q more budget m :
  refines s a q more budget → c2s_wf m → budget < 2 ^ 31 - 1 →
  ∃ s', cli_step self c s (Cli_Say m) = Ok s' ∧ refines s' (spec_step a (Cli_Say m)) q more (budget + 1).
Proof.
  intros [Hv Ht Hc Hl (fs & Hfs & Hi) (gs & Hgs & Ha) Hcm Hwf Hr] Hm Hb.
  destruct (session_conn_inv _ Hc) as (ss & Hss & Hsc).
  destruct (cli_SendPacket_delivers self c (cc_world s) ss m (cc_sent s) _ budget Hsends Hm Hss Hsc (li_send _ _ _ _ _ Hi) Hb)
    as (f & n & E & Hf & Hn).
  pose proof (calm_SendPacket _ _ _ _ _ E) as Hcalm.
  destruct (calm_link _ _ _ _ _ _ _ _ _ Hcalm Hi Hn) as [Hi' Ha'].
  eexists. split; [unfold cli_step; rewrite E; reflexivity|]. cbn [spec_step].
  split; cbn [cc_world cc_sent sp_view sp_coming sp_queued sp_said]; try done.
  - by apply client_ok_net.
  - by rewrite (lk_links _ _ (qt_links _ _ (cm_quiet _ _ Hcalm))).
  - exists (fs ++ [f]). split; [apply Forall2_app; [done|by constructor]|].
    rewrite join_app. cbn [mjoin list_join]. by rewrite app_nil_r.
  - exists gs. by rewrite Ha'.
Qed.

Lemma refines_more s a q more b b' : refines s a q more b → b ≤ b' → refines s a q more b'.
Proof.
  intros [Hv Ht Hc Hl (fs & Hfs & [Hs Ho Hp]) Hq Hcm Hwf Hr] Hb. split; try done.
  exists fs. split; [done|]. split; [by eapply send_inv_more|done..].
Qed.

Lemma refines_sent s a q more budget k :
  refines s a q more budget → budget < 2 ^ 31 - 1 →
  ∃ s', cli_step self c s (Cli_Sent k) = Ok s' ∧ refines s' (spec_step a (Cli_Sent k)) q more (budget + 1).
Proof.
  intros Hre Hb. pose proof Hre as [Hv Ht Hc Hl (fs & Hfs & Hi) (gs & Hgs & Ha) Hcm Hwf Hr]. cbn [cli_step spec_step].
  pose proof (send_exec_ok c Hsends _ (Ev_Sent k) _ budget (li_send _ _ _ _ _ Hi) Hb I) as He.
  destruct (send_exec c _ (Ev_Sent k)) as [r|] eqn:E.
  - destruct He as ([n sent'] & -> & Hn). rewrite app_nil_r in Hn.
    destruct (send_exec_frame c _ _ _ E) as [Hd Hq]. cbn [fst] in Hd, Hq.
    assert (calm (cc_world s) (set_cw_net n (cc_world s))) as Hcalm by (by split).
    destruct (calm_link _ (set_cw_net n (cc_world s)) _ sent' _ _ _ _ _ Hcalm Hi Hn) as [Hi' Ha'].
    eexists. split; [reflexivity|]. split; cbn [cc_world cc_sent]; try done.
    + by apply client_ok_net.
    + change (links n !! c = Some self). by rewrite (lk_links _ _ (qt_links _ _ Hq)).
    + by exists fs.
    + exists gs. by rewrite Ha'.
  - exists s. split; [done|]. eapply refines_more; [done|lia].
Qed.

Lemma refines_receive s a q more budget d f rest :
  refines s a q (d ++ more) budget → chunk_ok d → feed q d = Some (f, rest) →
  ∃ s', cli_step self c s (Cli_Receive d) = Ok s' ∧ refines s' (spec_step a (Cli_Receive d)) rest more budget.
Proof.
  intros [Hv Ht Hc Hl (fs & Hfs & Hi) (gs & Hgs & Ha) (hs & Hhs & Hmore) Hwf Hr] Hd Hf. cbn [cli_step spec_step].
  destruct (link_receive c Hrecvs _ _ d _ q budget f rest Hi Hd Hf) as (n & E & Hi' & Ha' & Hln).
  rewrite E. eexists. split; [reflexivity|]. rewrite app_assoc in Hmore.
  assert (Forall fits (s2c_payload <$> sp_coming a)) as Hfit.
  { apply Forall_app in Hwf as [_ Hwf]. apply Forall_fmap. eapply Forall_impl; [exact Hwf|]. intros m [Hm _]. by apply s2c_fits. }
  destruct (feed_framed _ _ _ _ _ _ _ Hfit Hhs Hmore Hf) as (hs' & -> & Hrest).
  destruct (sp_coming a) as [|m ms] eqn:Hcm; [inversion Hhs|]. cbn [fmap list_fmap] in Hhs. apply Forall2_cons in Hhs as [Hm Hhs].
  split; cbn [cc_world cc_sent sp_view sp_coming sp_queued sp_said]; try done.
  - by apply client_ok_net.
  - change (links n !! c = Some self). by rewrite (lk_links _ _ Hln).
  - by exists fs.
  - exists (gs ++ [f]). split; [rewrite fmap_app; apply Forall2_app; [done|by constructor]|].
    change (cw_net (set_cw_net n (cc_world s))) with n. by rewrite Ha', Ha, fmap_app.
  - by exists hs'.
  - by rewrite <-app_assoc.
  - by rewrite <-app_assoc.
Qed.

(** ** An iteration of the process thread *)

(** The two directions do not depend on the queue of received packets. *)
Lemma link_inv_queue n n' sent said q b :
  link_inv c (n, sent) said q b → nw_conns n' = nw_conns n → nw_trace n' = nw_trace n →
  five_phases (nw_recvq n') → packets_old n' → link_inv c (n', sent) said q b.
Proof.
  intros [Hs [Ho _] _] Hc Ht H5 Hp. split; [|split; cbn [fst] in *; by rewrite ?Hc|done].
  eapply send_inv_frame; [by rewrite Hc|by rewrite Ht|exact Hs].
Qed.

(** Handlers answer a heartbeat and otherwise only change the picture. *)
Lemma s2c_handle_conn w v m sent said q b :
  client_ok w v → tied self w v → s2c_wf m → client_message m →
  zlen (om_usedList (cw_cmgr w)) + 20 < 2 ^ 62 → session_conn w self = Some c →
  link_inv c (cw_net w, sent) said q b → b < 2 ^ 31 - 1 →
  ∃ w' fs, s2c_handle self m w = Ok (true, w') ∧ client_ok w' (hear m v) ∧ tied self w' (hear m v) ∧
    zlen (om_usedList (cw_cmgr w')) ≤ zlen (om_usedList (cw_cmgr w)) + 20 ∧
    Forall2 is_frame (replies m) fs ∧ link_inv c (cw_net w', sent) (said ++ mjoin fs) q (b + 1) ∧
    arrived (cw_net w') = arrived (cw_net w).
Proof.
  intros Hv Ht Hm Hcm Hr Hc Hi Hb. 
  assert (m = S_HEARTBEAT mkSC_P_HEARTBEAT ∨ world_message m ∧ replies m = []) as [->|[Hw Hnr]].
  { destruct m as [| | | | | |[]|]; by auto. }
  - destruct (session_conn_inv _ Hc) as (ss & Hss & Hsc).
    destruct (cli_SendPacket_delivers self c w ss (C_HEARTBEAT mkCS_P_HEARTBEAT) sent said b Hsends I Hss Hsc
      (li_send _ _ _ _ _ Hi) Hb) as (f & n & E & Hf & Hn).
    destruct (calm_link w _ _ _ _ _ _ _ _ (calm_SendPacket _ _ _ _ _ E) Hi Hn) as [Hi' Ha'].
    exists (set_cw_net n w), [f]. cbn [s2c_handle hear replies]. unfold S2C_Heartbeat.
    rewrite (st_bind_ok _ _ _ _ _ E). change (mjoin [f]) with (f ++ []). rewrite app_nil_r.
    split_and!; [done|by apply client_ok_net|done|cbn; lia|by constructor|done|done].
  - destruct (s2c_handle_ok self m w v Hv Ht Hm Hw Hr) as (w' & E & Hv' & Ht' & Hu & Hn).
    exists w', []. rewrite Hn, Hnr. split_and!; try done.
    change (mjoin []) with (@nil Z). rewrite app_nil_r. destruct Hi. split; [eapply send_inv_more; [done|lia]|done..].
Qed.

(** The client with the first packet taken off its queue. *)
Definition cli_popped (l : list Z) w : CliWorld :=
  set_cw_net (set_nw_recvq (with_items (nw_recvq (cw_net w)) 0 l) (cw_net w)) w.

Lemma cli_process_front prev w x l m f w1 :
  s2c_wf m → framed (s2c_payload m) f → five_phases (nw_recvq (cw_net w)) → items (nw_recvq (cw_net w)) 0 = x :: l →
  packet_of (nw_packets (cw_net w)) x = Some (Some c, f) → links (cw_net w) !! c = Some self →
  s2c_handle self m (cli_popped l w) = Ok (true, w1) → nw_packets (cw_net w1) = nw_packets (cw_net w) →
  cli_ProcessThread_step prev w = Ok (Some (Some c), set_cw_cmds [] (set_cw_net
    (set_nw_packets (mkPacketHeap (delete x (ph_cells (nw_packets (cw_net w)))) (ph_next (nw_packets (cw_net w)))) (cw_net w1)) w1)).
Proof.
  intros Hm [now ->] H5 Hi Hpk Hl E Hp1. pose proof (s2c_encode_size m Hm). pose proof (zlen_nonneg (s2c_encode m)).
  pose proof (zlen_s2c_payload m) as Hlen.
  destruct (packet_of_cell _ _ _ _ Hpk) as (pk & more & Hcell & Hc & Hn & Hbuf).
  destruct (links_inv _ _ _ Hl) as (k & Hk & Hpar).
  unfold cli_ProcessThread_step.
  erewrite st_bind_ok by (unfold cli_net, st_zoom; rewrite (pop_packet_front _ _ _ H5 Hi); reflexivity). cbv beta iota.
  change (set_cw_net _ w) with (cli_popped l w). rewrite (st_bind_ok _ _ _ pk (cli_popped l w)).
  2:{ unfold cli_net, st_zoom, load_packet. cbn [cli_popped cw_net set_cw_net nw_packets set_nw_recvq]. by rewrite Hcell. }
  cbv beta. rewrite Hbuf, Hc, Hn.
  assert (tail_valid (frame (s2c_payload m) 0 now ++ more) = Ok true) as ->.
  { unfold frame. fold (message_head (s2c_payload m)). rewrite tail_valid_message by (rewrite ?zlen_repr_PacketTail; lia).
    unfold repr_PacketTail. rewrite sub_app_here by (by rewrite zlen_le_enc). by rewrite le_dec_enc. }
  erewrite st_bind_ok by reflexivity. cbv beta. cbn [negb]. erewrite st_bind_ok by reflexivity. cbv beta iota.
  rewrite (st_bind_ok _ _ _ k (cli_popped l w)).
  2:{ unfold cli_net, st_zoom. by rewrite (conn_get_ok c k) by exact Hk. }
  cbv beta. unfold GetParam. rewrite Hpar. rewrite zlen_frame, (wraps_small 32) by (try split; lia).
  rewrite (st_bind_ok _ _ _ tt w1).
  2:{ unfold frame. fold (message_head (s2c_payload m)). rewrite <-!app_assoc. unfold mbind, st_bind.
      rewrite cli_MessageProcess_ok by done. by rewrite E. }
  cbv beta. erewrite st_bind_ok.
  2:{ unfold cli_net, st_zoom, release_packet, ReleasePacketStruct. rewrite Hp1, Hcell. reflexivity. }
  reflexivity.
Qed.

Lemma packet_of_other h x y :
  y ≠ x → packet_of (mkPacketHeap (delete x (ph_cells h)) (ph_next h)) y = packet_of h y.
Proof. intros Hy. unfold packet_of. cbn [ph_cells]. by rewrite lookup_delete_ne. Qed.

Lemma refines_idle s a q more budget :
  refines s a q more budget → sp_queued a = [] →
  ∃ s', cli_step self c s Cli_Process = Ok s' ∧ refines s' (spec_step a Cli_Process) q more budget.
Proof.
  intros [Hv Ht Hc Hl (fs & Hfs & Hi) (gs & Hgs & Ha) Hcm Hwf Hr] Hq. rewrite Hq in Hgs. inversion Hgs; subst gs.
  assert (items (nw_recvq (cw_net (cc_world s))) 0 = []) as Hit by (by apply fmap_nil_inv in Ha).
  destruct (pop_packet_empty _ (oc_queue _ _ _ (li_open _ _ _ _ _ Hi)) Hit) as (r & pq & E & Hrr & H5 & Hit').
  cbn [fst] in E. cbn [cli_step spec_step]. rewrite Hq.
  assert (cli_ProcessThread_step (cc_last s) (cc_world s) =
    Ok (match r with Some _ => Some (cc_last s) | None => None end, set_cw_net (set_nw_recvq pq (cw_net (cc_world s))) (cc_world s))) as ->.
  { unfold cli_ProcessThread_step. erewrite st_bind_ok by (unfold cli_net, st_zoom; rewrite E; reflexivity).
    by destruct Hrr as [-> | ->]. }
  cbn [mbind outcome_bind]. eexists. split; [reflexivity|].
  split; cbn [cc_world cc_sent]; try done.
  - by apply client_ok_net.
  - exists fs. split; [done|].
    apply (link_inv_queue _ (set_nw_recvq pq (cw_net (cc_world s))) _ _ _ _ Hi); try done.
    unfold packets_old. cbn [nw_recvq set_nw_recvq]. rewrite Hit'. split; constructor.
  - exists []. rewrite Hq. split; [constructor|]. unfold arrived. cbn [cw_net set_cw_net nw_recvq set_nw_recvq]. by rewrite Hit'.
Qed.

Lemma refines_process s a q more budget m ms :
  refines s a q more budget → sp_queued a = m :: ms → budget < 2 ^ 31 - 1 →
  ∃ s', cli_step self c s Cli_Process = Ok s' ∧ refines s' (spec_step a Cli_Process) q more (budget + 1).
Proof.
  intros [Hv Ht Hc Hl (fs & Hfs & Hi) (gs & Hgs & Ha) Hcm Hwf Hr] Hq Hb. rewrite Hq in *.
  apply Forall_cons in Hwf as [[Hm Hcl] Hwf]. cbn [app] in Hr. rewrite zlen_cons in Hr.
  pose proof (zlen_nonneg (ms ++ sp_coming a)).
  set (w := cc_world s) in *. set (n := cw_net w) in *. pose proof (li_open _ _ _ _ _ Hi) as [_ H5].
  pose proof (li_old _ _ _ _ _ Hi) as Hold. cbn [fst] in H5, Hold.
  apply Forall2_cons_inv_l in Hgs as (f & gs' & Hf & Hgs & ->).
  unfold arrived in Ha. destruct (items (nw_recvq n) 0) as [|x l] eqn:Hit; [done|]. injection Ha as Hx Ha.
  destruct Hold as [Hlt Hnd]. rewrite Hit in Hlt, Hnd. apply Forall_cons in Hlt as [_ Hlt]. apply NoDup_cons in Hnd as [Hni Hnd].
  destruct (with_items_spec (nw_recvq n) 0 l H5) as (H5' & Hi' & _); [lia|].
  set (w0 := cli_popped l w). assert (link_inv c (cw_net w0, cc_sent s) (mjoin fs) q budget) as Hi0.
  { apply (link_inv_queue _ _ _ _ _ _ Hi); [done|done|done|].
    unfold packets_old. change (nw_recvq (cw_net w0)) with (with_items (nw_recvq n) 0 l). rewrite Hi'. by split. }
  destruct (s2c_handle_conn w0 _ m (cc_sent s) (mjoin fs) q budget (client_ok_net w _ _ Hv) Ht Hm Hcl) as
    (w1 & fs1 & E & Hv1 & Ht1 & Hu1 & Hfs1 & Hi1 & Ha1); [|done|done|done|].
  { change (cw_cmgr w0) with (cw_cmgr w). lia. }
  destruct (calm_handle self m _ _ _ E) as [_ [Hlk Hqq Hpp] Hcc].
  pose proof (cli_process_front (cc_last s) w x l m f w1 Hm Hf H5 Hit Hx Hl E Hpp) as E2.
  cbn [cli_step spec_step]. fold w. rewrite E2, Hq. cbn [mbind outcome_bind].
  eexists. split; [reflexivity|].
  set (h := mkPacketHeap _ _). set (n1 := set_nw_packets h (cw_net w1)).
  assert (items (nw_recvq n1) 0 = l) as Hitn by (cbn [n1 nw_recvq set_nw_packets]; rewrite Hqq; exact Hi').
  split; cbn [cc_world cc_sent sp_view sp_coming sp_queued sp_said default].
  - by apply client_ok_cmds, client_ok_net.
  - exact Ht1.
  - change (session_conn w1 self = Some c). rewrite Hcc. exact Hc.
  - change (links (cw_net w1) !! c = Some self). rewrite (lk_links _ _ Hlk). exact Hl.
  - exists (fs ++ fs1). split; [by apply Forall2_app|]. rewrite join_app.
    apply (link_inv_queue (cw_net w1) n1 _ _ _ _ Hi1); [done|done|cbn [n1 nw_recvq set_nw_packets]; by rewrite Hqq|].
    unfold packets_old. rewrite Hitn. by split.
  - exists gs'. split; [done|]. change (arrived n1 = (λ f, Some (Some c, f)) <$> gs'). etrans; [|exact Ha].
    unfold arrived. rewrite Hitn. apply list_fmap_ext. intros i y Hy. cbn [n1 nw_packets set_nw_packets].
    apply packet_of_other. intros ->. apply Hni. by eapply list_elem_of_lookup_2.
  - done.
  - done.
  - change (zlen (om_usedList (cw_cmgr w1)) + 20 * zlen (ms ++ sp_coming a) < 2 ^ 62).
    change (cw_cmgr w0) with (cw_cmgr w) in Hu1. lia.
Qed.

(** Every event, then every run. *)
Lemma refines_run es : ∀ s a q fs rest budget more,
  refines s a q (mjoin (cli_chunks es) ++ more) budget →
  Forall says_wf es → Forall chunk_ok (cli_chunks es) → feed_all q (cli_chunks es) = Some (fs, rest) →
  budget + zlen es < 2 ^ 31 →
  ∃ s', cli_run self c s es = Ok s' ∧ refines s' (spec_run a es) rest more (budget + zlen es).
Proof.
  unfold cli_run, spec_run. induction es as [|e es IH]; intros s a q fs rest budget more Hre Hsay Hd Hf Hb.
  { injection Hf as <- <-. exists s. cbn. by rewrite Z.add_0_r. }
  rewrite zlen_cons in Hb |- *. pose proof (zlen_nonneg es). apply Forall_cons in Hsay as [He Hsay].
  replace (budget + (1 + zlen es)) with (budget + 1 + zlen es) by lia. cbn [fold_outcome foldl].
  assert (∀ q' more', refines s a q' more' budget → (∀ d, e ≠ Cli_Receive d) →
    ∃ s1, cli_step self c s e = Ok s1 ∧ refines s1 (spec_step a e) q' more' (budget + 1)) as Hstep.
  { intros q' more' Hre' Hne. destruct e as [m|k|d|]; [| |by destruct (Hne d)|].
    - apply refines_say; [done|done|lia].
    - apply refines_sent; [done|lia].
    - destruct (sp_queued a) as [|m ms] eqn:Hq.
      + destruct (refines_idle s a q' more' budget Hre' Hq) as (s1 & ? & ?). exists s1. split; [done|].
        eapply refines_more; [done|lia].
      + apply (refines_process s a q' more' budget m ms); [done|done|lia]. }
  destruct e as [m|k|d|].
  1,2,4: destruct (Hstep _ _ Hre) as (s1 & -> & Hre1); [done|]; eapply IH; [exact Hre1|done|done|done|lia].
  apply Forall_cons in Hd as [Hd1 Hd]. change (cli_chunks (Cli_Receive d :: es)) with (d :: cli_chunks es) in *.
  cbn [feed_all] in Hf. destruct (feed q d) as [[f r]|] eqn:Ef; [|done]. cbn [mbind option_bind] in Hf.
  destruct (feed_all r _) as [[fs1 r1]|] eqn:E1; [|done]. injection Hf as <- <-.
  change (mjoin (d :: cli_chunks es)) with (d ++ mjoin (cli_chunks es)) in Hre. rewrite <-app_assoc in Hre.
  destruct (refines_receive s a q _ budget d f r Hre Hd1 Ef) as (s1 & -> & Hre1).
  eapply IH; [eapply refines_more; [exact Hre1|lia]|done|done|exact E1|lia].
Qed.
End Refinement.

(** What the specification has heard is the beginning of the stream. *)
Lemma spec_stream es : ∀ a heard v ms,
  heard ++ sp_queued a ++ sp_coming a = ms → sp_view a = foldl (λ v m, hear m v) v heard →
  ∃ heard', heard' ++ sp_queued (spec_run a es) ++ sp_coming (spec_run a es) = ms ∧
    sp_view (spec_run a es) = foldl (λ v m, hear m v) v heard'.
Proof.
  induction es as [|e es IH]; intros a heard v ms Hms Hv; [by exists heard|]. unfold spec_run. cbn [foldl].
  destruct e as [m|k|d|]; cbn [spec_step]; try (by apply (IH _ heard)).
  - destruct (sp_coming a) as [|m l] eqn:Hc; [apply (IH _ heard); [by rewrite Hc|done]|].
    apply (IH _ heard); [|done]. cbn [sp_queued sp_coming]. by rewrite <-(app_assoc (sp_queued a)).
  - destruct (sp_queued a) as [|m l] eqn:Hq; [apply (IH _ heard); [by rewrite Hq|done]|].
    apply (IH _ (heard ++ [m])); cbn [sp_queued sp_coming sp_view]; [by rewrite <-app_assoc|].
    rewrite foldl_snoc. by rewrite <-Hv.
Qed.

(** A client as [/connect] leaves it, before anything is sent or received. *)
Record connected `{OS} (self c : Z) (w : CliWorld) (v : view) : Prop := {
  cn_view : client_ok w v;
  cn_tied : tied self w v;
  cn_conn : session_conn w self = Some c;
  cn_connector : ∃ k, nw_conns (cw_net w) !! c = Some k ∧ _param k = Some self ∧ _socket k ≠ INVALID_SOCKET ∧
    send_state k None [] ∧ recv_state k [];
  cn_queue : five_phases (nw_recvq (cw_net w)) ∧ items (nw_recvq (cw_net w)) 0 = [] }.

Lemma connected_refines `{OSLaws} self c w v ms gs more last :
  connected self c w v → Forall (λ m, s2c_wf m ∧ client_message m) ms →
  zlen (om_usedList (cw_cmgr w)) + 20 * zlen ms < 2 ^ 62 → Forall2 framed (s2c_payload <$> ms) gs → more = mjoin gs →
  refines self c (mkCliConn w [] last) (mkCliSpec v ms [] []) [] more 0.
Proof.
  intros [Hv Ht Hc (k & Hk & Hp & Hs & Hss & Hrs) [H5 Hit]] Hwf Hr Hgs ->.
  split; cbn [cc_world cc_sent sp_view sp_coming sp_queued sp_said app]; try done.
  - by rewrite (links_lookup _ _ _ Hk).
  - exists []. split; [constructor|]. split; cbn [fst snd].
    + split. exists k, None, []. by split_and!.
    + split; [by exists k|done].
    + unfold packets_old. rewrite Hit. split; constructor.
  - exists []. split; [constructor|]. unfold arrived. by rewrite Hit.
  - by exists gs.
Qed.

Lemma client_connection_ok `{OSLaws} self c w v last ms gs es fs rest :
  sends_accepted → recvs_accepted → connected self c w v →
  Forall (λ m, s2c_wf m ∧ client_message m) ms → zlen (om_usedList (cw_cmgr w)) + 20 * zlen ms < 2 ^ 62 →
  Forall2 framed (s2c_payload <$> ms) gs → mjoin (cli_chunks es) `prefix_of` mjoin gs →
  Forall says_wf es → Forall chunk_ok (cli_chunks es) → feed_all [] (cli_chunks es) = Some (fs, rest) → zlen es < 2 ^ 31 →
  ∃ s' heard out, let a := spec_run (mkCliSpec v ms [] []) es in
    cli_run self c (mkCliConn w [] last) es = Ok s' ∧
    heard ++ sp_queued a ++ sp_coming a = ms ∧ sp_view a = foldl (λ v m, hear m v) v heard ∧
    client_ok (cc_world s') (sp_view a) ∧ tied self (cc_world s') (sp_view a) ∧
    Forall2 is_frame (sp_said a) out ∧ cc_sent s' `prefix_of` mjoin out.
Proof.
  intros Hsn Hrc Hcn Hms Hroom Hgs [more Hmore] Hsay Hd Hf Hlen.
  destruct (refines_run self c Hsn Hrc es _ _ [] fs rest 0 more
    (connected_refines self c w v ms gs _ last Hcn Hms Hroom Hgs (eq_sym Hmore)) Hsay Hd Hf) as (s' & E & Hre); [lia|].
  destruct (spec_stream es (mkCliSpec v ms [] []) [] v ms) as (heard & Hh & Hv); [done..|].
  destruct Hre as [Hv' Ht' _ _ (out & Hout & Hi) _ _ _ _].
  exists s', heard, out. cbn zeta. split_and!; try done. eapply send_inv_prefix. apply Hi.
Qed.

(** C4: a client on its connection, in any order of events.  A client that has
    just connected sends messages, sees completions of sends of any sizes,
    receives the frames of the server's messages [ms] in chunks that each
    complete a frame, and runs its process thread, in any interleaving.  Then
    nothing faults, and it is where the automaton says: the messages it has
    handled are the first of [ms], its picture is what they tell, the rest of
    those received wait in its queue, and what its kernel has sent is a prefix
    of the frames of what it has said: its own messages and one heartbeat for
    every heartbeat handled, in the order of the events. *)
Theorem client_connection `{OSLaws} self c w v last ms gs es fs rest :
  sends_accepted → recvs_accepted → connected self c w v →
  Forall (λ m, s2c_wf m ∧ client_message m) ms → zlen (om_usedList (cw_cmgr w)) + 20 * zlen ms < 2 ^ 62 →
  Forall2 framed (s2c_payload <$> ms) gs → mjoin (cli_chunks es) `prefix_of` mjoin gs →
  Forall says_wf es → Forall chunk_ok (cli_chunks es) → feed_all [] (cli_chunks es) = Some (fs, rest) → zlen es < 2 ^ 31 →
  ∃ s' heard out, let a := spec_run (mkCliSpec v ms [] []) es in
    cli_run self c (mkCliConn w [] last) es = Ok s' ∧
    heard ++ sp_queued a ++ sp_coming a = ms ∧ sp_view a = foldl (λ v m, hear m v) v heard ∧
    client_ok (cc_world s') (sp_view a) ∧ tied self (cc_world s') (sp_view a) ∧
    Forall2 is_frame (sp_said a) out ∧ cc_sent s' `prefix_of` mjoin out.
Proof. apply client_connection_ok. Qed.

(** Session 7 on connector 1; the player's character is made first. *)
Definition demo_linked : CliWorld :=
  mkCliWorld (set_nw_conns {[ 1 := set_param (Some 7) (set_socket 50 (Connector_new 1)) ]} demo_net) ∅
    (ObjectMgrBase_init Store_init) ∅ 0 {[ 7 := mkCliSession 0 (Some 1) 0 ]}
    (mkObjectPoolMgrBase [7] [] [7] 1 (mkStore 8 [])) [].
Lemma demo_connected :
  ∃ w0, CharacterMgr_init demo_linked = Ok (tt, w0) ∧ connected 7 1 w0 (mkView Character_new ∅) ∧
    zlen (om_usedList (cw_cmgr w0)) = 1.
Proof.
  destruct (CharacterMgr_init_ok demo_linked Store_init eq_refl eq_refl) as (w0 & E & Hok & Hs & Hu & Hn).
  exists w0. split; [done|]. split; [|done]. split; rewrite ?Hn; try done.
  - exists (mkCliSession 0 (Some 1) 0). rewrite Hs. split; reflexivity.
  - unfold session_conn. rewrite Hs. reflexivity.
  - exists (set_param (Some 7) (set_socket 50 (Connector_new 1))). split_and!; try done.
    eapply recv_state_same; [|apply (recv_state_new 1)]. by split.
Qed.
(** It signs in and is told of itself; a heartbeat comes while a move is being
    sent, and is answered. *)
Definition demo_heard : list s2c :=
  [S_AUTH_RESULT (mkSC_P_AUTH_RESULT 9 100); S_HEARTBEAT mkSC_P_HEARTBEAT; S_ENTER (mkSC_P_ENTER 100 5 6)].
Definition demo_frames : list (list Z) := (λ m, frame (s2c_payload m) 0 0) <$> demo_heard.
Definition demo_life : list cli_event :=
  Cli_Say (C_AUTH (mkCS_P_AUTH 3)) :: (Cli_Receive <$> take 2 demo_frames) ++
    [Cli_Process; Cli_Say demo_move; Cli_Sent 9; Cli_Process; Cli_Process].
Lemma client_connection_witness :
  ∃ w0 s' heard out, let a := spec_run (mkCliSpec (mkView Character_new ∅) demo_heard [] []) demo_life in
    CharacterMgr_init demo_linked = Ok (tt, w0) ∧
    cli_run 7 1 (mkCliConn w0 [] None) demo_life = Ok s' ∧
    heard ++ sp_queued a ++ sp_coming a = demo_heard ∧
    sp_view a = foldl (λ v m, hear m v) (mkView Character_new ∅) heard ∧
    client_ok (cc_world s') (sp_view a) ∧ tied 7 (cc_world s') (sp_view a) ∧
    Forall2 is_frame (sp_said a) out ∧ cc_sent s' `prefix_of` mjoin out.
Proof.
  destruct demo_connected as (w0 & E & Hcn & Hu).
  destruct (client_connection 7 1 w0 (mkView Character_new ∅) None demo_heard demo_frames demo_life (take 2 demo_frames) [])
    as (s' & heard & out & H).
  - exact demo_accepts.
  - exact demo_recvs.
  - exact Hcn.
  - repeat constructor; vm_compute; intuition discriminate.
  - rewrite Hu. reflexivity.
  - repeat constructor; by exists 0.
  - exists (mjoin (drop 2 demo_frames)). vm_compute. reflexivity.
  - repeat constructor; vm_compute; intuition discriminate.
  - repeat constructor; apply (bool_decide_unpack _); vm_compute; done.
  - vm_compute. reflexivity.
  - reflexivity.
  - exists w0, s', heard, out. split; [exact E|exact H].
Defined.
