(* ===== verification/Broadcast.v ===== *)
(** * From one client to all the others
    The whole way of a move: a client of src/project_pl_cpp_20/cli says it, the
    server of svr handles it and tells the zone, and every client of the zone
    has it in its picture.  The three programs meet in the bytes their kernels
    have sent and received. *)
From S2P Require Import Prelude Buffer Wire Character Protocol Packet ObjectPool CommandQueue.
From S2P Require Import PacketQueue TimeSet Config System Connector Network NetFrame Duplex SvrState Session Server.
From S2P Require Import SvrFrame Text Client ServerLaws ThreadLaws SessionLaws ClientLaws EndToEnd ClientConn.

(** ** A zone and what its members have been told *)

(** [told c]: the messages written to connector [c] so far; [sent c]: the
    bytes the kernel has sent of their frames. *)
Record zone_told `{OS} (w : SvrWorld) (items : list (Z * Z)) (conn : Z → Z) (sent : Z → list Z)
    (told : Z → list s2c) (budget : Z) : Prop := {
  zt_served : ∃ fr : Z → list (list Z),
    (∀ c, Forall2 framed (s2c_payload <$> told c) (fr c)) ∧
    zone_served w items conn sent (λ c, mjoin (fr c)) budget }.

Section Told.
Context `{OSLaws}.
Implicit Types (w : SvrWorld).

(** A network that has the same connectors and has sent the same. *)
Lemma served_net w n items conn sent said budget :
  (∀ it, it ∈ items → nw_conns n !! conn it.2 = nw_conns (sw_net w) !! conn it.2) →
  (∀ it, it ∈ items → sends (conn it.2) (nw_trace n) = sends (conn it.2) (nw_trace (sw_net w))) →
  zone_served w items conn sent said budget → zone_served (set_sw_net n w) items conn sent said budget.
Proof.
  intros Hc Ht [Hm Hst Hnd]. split; [| |done].
  - eapply Forall_impl; [exact Hm|]. intros it [? ?]. by split.
  - rewrite Forall_forall in *. intros it Hit. eapply send_inv_frame; [by apply Hc|by apply Ht|by apply Hst].
Qed.

(** Receiving from one connector keeps what the others, and itself, were sent. *)
Lemma served_receive w c d n rest u items conn sent said budget :
  receive_chunk c d (sw_net w) = Ok (u, n) → open_conn c n rest →
  zone_served w items conn sent said budget → zone_served (set_sw_net n w) items conn sent said budget.
Proof.
  intros E Ho [Hm Hst Hnd]. split; [| |done].
  - eapply Forall_impl; [exact Hm|]. intros it [? ?]. by split.
  - eapply Forall_impl; [exact Hst|]. intros it. cbn [sw_net set_sw_net].
    destruct (decide (conn it.2 = c)) as [->|Hne].
    + apply sent_kept; [by eapply mute_receive_chunk|by eapply unsent_receive_chunk|].
      intros k. by apply (open_conn_socket c n rest).
    + destruct (only_receive_chunk c d _ _ _ E (conn it.2) Hne). by apply send_inv_frame.
Qed.

(** ** The server's turn *)

(** A chunk arrives on connector [c], the process thread makes an iteration,
    the update thread two. *)
Definition server_turn (c : Z) (d : list Z) (prev : option Z) : svr unit :=
  _ ← on_net (receive_chunk c d);
  _ ← ProcessThread_run 1 prev;
  _ ← svr_Tick;
  svr_Tick.

(** A handler that leaves the packets alone, and the packet freed. *)
Lemma handle_one_ok w c u x m b w1 :
  waiting w c u [x] [m] [] → c2s_handle u m (popped [] w) = Ok (b, w1) →
  nw_packets (sw_net w1) = nw_packets (sw_net w) →
  ∃ n, handle_one u (x, m) w = Ok (tt, set_sw_net n w1) ∧ nw_conns n = nw_conns (sw_net w1) ∧ nw_trace n = nw_trace (sw_net w1).
Proof.
  intros Hw E Hpk. destruct Hw as [Hq Hi Hp Hnd Hl]. apply Forall2_cons in Hp as [(f & Hf & Hx) _].
  assert (front w x c f []) as Hfront by (by split).
  unfold handle_one. rewrite (st_bind_ok _ _ _ _ _ (pop_front _ _ _ _ _ Hfront)). cbn [fst snd].
  rewrite (st_bind_ok _ _ _ _ _ E). destruct (packet_of_cell _ _ _ _ Hx) as (pk & more & Hcell & _).
  unfold on_net, st_zoom, release_packet, ReleasePacketStruct. rewrite Hpk, Hcell. eexists. by split.
Qed.
(** The handler of a move, and the packet freed. *)
Lemma handle_move_ok w c u x us p :
  waiting w c u [x] [C_MOVE p] [] → sw_sessions w !! u = Some us → wire_wf p → in_s 64 (session_GetToken us) →
  ∃ now n, handle_one u (x, C_MOVE p) w = Ok (tt, set_sw_net n (broadcasting (GetZoneId (_nub us))
      (S_MOVE (mkSC_P_MOVE (session_GetToken us) (cs_move_x p) (cs_move_y p))) now
      (set_sw_sessions (<[u := set_nub (SetPos2 (_nub us) (cs_move_x p) (cs_move_y p)) us]> (sw_sessions w)) w))) ∧
    nw_conns n = nw_conns (sw_net w) ∧ ∀ c, sends c (nw_trace n) = sends c (nw_trace (sw_net w)).
Proof.
  intros Hw Hs Hp Ht. destruct (C2S_Move_ok u p us (popped [] w) Hs Hp Ht) as (now & E).
  destruct (handle_one_ok _ _ _ _ _ _ _ Hw E) as (n & E1 & Hc & Htr); [done|].
  exists now, n. split; [exact E1|]. split; [exact Hc|]. intros c'. rewrite Htr. unfold broadcasting.
  cbn [sw_net popped set_sw_cmds set_sw_sessions set_sw_net nw_trace set_nw_trace set_nw_recvq].
  rewrite sends_app. apply app_nil_r.
Qed.

(** A broadcast that waits, and the two passes that tell everybody in the zone. *)
Lemma broadcast_told w zone zp z m now conn sent told budget :
  sends_accepted → s2c_wf m →
  sw_cmds w = [SendBroadcastToAllUser zone (frame_buffer m now) (zlen (s2c_payload m) + 20)] →
  _zoneMap w !! zone = Some zp → sw_zones w !! zp = Some z →
  zone_told w (std_items (_characterMap z)) conn sent told budget → budget < 2 ^ 31 - 1 →
  ∃ n, (_ ← svr_Tick; svr_Tick) w = Ok (tt, set_sw_net n (set_sw_cmds [] w)) ∧
    zone_told (set_sw_net n (set_sw_cmds [] w)) (std_items (_characterMap z)) conn sent (λ c, told c ++ [m]) (budget + 1).
Proof.
  intros Ha Hm Hcmds Hzp Hz [(fr & Hfr & Hserved)] Hbud. destruct (frame_buffer_ok m now Hm) as [Hb Hsub].
  destruct (broadcast_ok Ha w zone zp z conn sent (λ c, mjoin (fr c)) budget
    (frame_buffer m now) (zlen (s2c_payload m) + 20)) as (n & E & Hn & _); [done..|].
  exists n. split; [done|]. split. exists (λ c, fr c ++ [frame (s2c_payload m) 0 now]). split.
  - intros c0. rewrite fmap_app. apply Forall2_app; [apply Hfr|]. constructor; [by exists now|constructor].
  - destruct Hserved as [Hmb _ Hnd]. split; [| |done].
    + eapply Forall_impl; [exact Hmb|]. intros it [? ?]. by split.
    + rewrite Hsub in Hn. eapply Forall_impl; [exact Hn|]. intros it Hit. cbn [sw_net set_sw_net].
      rewrite join_app. change (mjoin [?x]) with (x ++ []). by rewrite app_nil_r.
Qed.

(** The token and the new place, to everybody in the zone. *)
Lemma move_told w c u us p f d g rest prev zp z conn sent told budget :
  sends_accepted → recvs_accepted → wire_wf p → in_s 64 (session_GetToken us) →
  open_conn c (sw_net w) [] → items (nw_recvq (sw_net w)) 0 = [] → links (sw_net w) !! c = Some u →
  chunk_ok d → is_frame (C_MOVE p) f → d `prefix_of` f → feed [] d = Some (g, rest) →
  sw_cmds w = [] → sw_sessions w !! u = Some us →
  _zoneMap w !! GetZoneId (_nub us) = Some zp → sw_zones w !! zp = Some z →
  zone_told w (std_items (_characterMap z)) conn sent told budget → budget < 2 ^ 31 - 1 →
  let m := S_MOVE (mkSC_P_MOVE (session_GetToken us) (cs_move_x p) (cs_move_y p)) in
  ∃ w', server_turn c d prev w = Ok (tt, w') ∧
    sw_sessions w' = <[u := set_nub (SetPos2 (_nub us) (cs_move_x p) (cs_move_y p)) us]> (sw_sessions w) ∧
    zone_told w' (std_items (_characterMap z)) conn sent (λ c, told c ++ [m]) (budget + 1).
Proof.
  intros Ha Hr Hp Ht Ho Hi Hl Hd Hf Hpre Hfeed Hcmds Hus Hzp Hz [(fr & Hfr & Hserved)] Hbud m.
  destruct (delivered_ok w c u [C_MOVE p] [f] [d] [g] rest prev Hr) as (n & E1 & Hlen & _ & E2 & Hw & Ho1);
    [by apply Forall_singleton|by constructor|done..|by apply Forall_singleton| |by cbn [feed_all]; rewrite Hfeed|].
  { change (d ++ [] `prefix_of` f ++ []). by rewrite !app_nil_r. }
  cbn [length take] in *. destruct (items (nw_recvq n) 0) as [|x [|]]; try done.
  cbn [st_each] in E1. destruct (receive_chunk c d (sw_net w)) as [[u1 n1]|] eqn:E1'; [|done]. injection E1 as ->. rename E1' into E1.
  set (w1 := set_sw_net n w) in *.
  assert (zone_served w1 (std_items (_characterMap z)) conn sent (λ c, mjoin (fr c)) budget) as Hs1
    by (by eapply served_receive).
  destruct (handle_move_ok w1 c u x us p Hw Hus Hp Ht) as (now & n2 & E3 & Hc2 & Ht2). fold m in E3.
  set (ws := set_sw_sessions _ w1) in E3. set (w2 := set_sw_net n2 _) in E3.
  assert (s2c_wf m) as Hm by (destruct Hp; by split_and!).
  destruct (broadcast_told w2 (GetZoneId (_nub us)) zp z m now conn sent told budget) as (n3 & E4 & Hn); try done.
  { unfold w2, broadcasting. cbn [sw_cmds set_sw_cmds set_sw_net ws set_sw_sessions w1]. by rewrite Hcmds. }
  { split. exists fr. split; [done|]. apply (served_net (broadcasting (GetZoneId (_nub us)) m now ws)).
    - intros it _. by rewrite Hc2.
    - intros it _. rewrite Ht2. unfold broadcasting. cbn [sw_net set_sw_cmds set_sw_net nw_trace set_nw_trace].
      by rewrite sends_app, app_nil_r.
    - by apply broadcasting_served, move_served. }
  exists (set_sw_net n3 (set_sw_cmds [] w2)). split_and!; [|done|done].
  unfold server_turn. rewrite (st_bind_ok _ _ _ u1 w1) by (by apply on_net_ok).
  cbn [zip zip_with st_each] in E2. rewrite (st_bind_ok _ _ _ tt w2); [exact E4|]. by rewrite E2, E3.
Qed.

(** ** The members' streams *)

(** The server's kernel completes a send of [k] bytes on connector [c]. *)
Definition svr_sent (s : SvrWorld * (Z → list Z)) (ck : Z * Z) : outcome (SvrWorld * (Z → list Z)) :=
  let '(w, sent) := s in
  match send_exec ck.1 (sw_net w, sent ck.1) (Ev_Sent ck.2) with
  | Some r => '(n, b) ← r; Ok (set_sw_net n w, λ c, if decide (c = ck.1) then b else sent c)
  | None => Ok s
  end.

Lemma told_more w items conn sent told b b' :
  zone_told w items conn sent told b → b ≤ b' → zone_told w items conn sent told b'.
Proof.
  intros [(fr & Hfr & [Hm Hst Hnd])] Hb. split. exists fr. split; [done|]. split; [done| |done].
  eapply Forall_impl; [exact Hst|]. intros it Hit. by apply (send_inv_more _ _ _ b).
Qed.

Lemma svr_sent_ok w items conn sent told budget ck :
  sends_accepted → zone_told w items conn sent told budget → budget < 2 ^ 31 - 1 →
  ck.1 ∈ (λ it, conn it.2) <$> items →
  ∃ w' sent', svr_sent (w, sent) ck = Ok (w', sent') ∧ zone_told w' items conn sent' told (budget + 1) ∧
    sw_sessions w' = sw_sessions w.
Proof.
  intros Ha Hz Hb Hin. destruct ck as [c k]. cbn [fst snd] in *. unfold svr_sent. cbn [fst snd].
  pose proof Hz as [(fr & Hfr & [Hm Hst Hnd])].
  apply list_elem_of_fmap in Hin as (it & -> & Hit). rewrite Forall_forall in Hst.
  pose proof (send_exec_ok (conn it.2) Ha _ (Ev_Sent k) _ budget (Hst it Hit) Hb I) as He.
  destruct (send_exec _ _ _) as [r|] eqn:E.
  2:{ exists w, sent. split_and!; [done|eapply told_more; [done|lia]|done]. }
  destruct He as ([n b] & -> & Hn). rewrite app_nil_r in Hn. eexists _, _. split; [reflexivity|]. split; [|done].
  split. exists fr. split; [done|]. split; [|rewrite Forall_forall|done].
  - eapply Forall_impl; [exact Hm|]. intros j [? ?]. by split.
  - intros j Hj. cbn [sw_net set_sw_net]. destruct (decide (conn j.2 = conn it.2)) as [->|Hne]; [done|].
    assert (same_elsewhere (conn it.2) (sw_net w) n) as Hse.
    { cbn [send_exec] in E. repeat case_match; try done. 
      destruct (DoSend _ _ _) as [[x n']|] eqn:E2; [|done]. injection E as ->. by eapply only_DoSend. }
    destruct (Hse _ Hne). eapply send_inv_frame; [done|done|]. eapply send_inv_more; [by apply Hst|lia].
Qed.

Lemma svr_sent_run cks : ∀ w items conn sent told budget,
  sends_accepted → zone_told w items conn sent told budget → budget + zlen cks < 2 ^ 31 →
  Forall (λ ck, ck.1 ∈ (λ it, conn it.2) <$> items) cks →
  ∃ w' sent', fold_outcome svr_sent (w, sent) cks = Ok (w', sent') ∧
    zone_told w' items conn sent' told (budget + zlen cks) ∧ sw_sessions w' = sw_sessions w.
Proof.
  induction cks as [|ck cks IH]; intros w items conn sent told budget Ha Hz Hb Hin.
  { exists w, sent. cbn. by rewrite Z.add_0_r. }
  rewrite zlen_cons in Hb |- *. pose proof (zlen_nonneg cks). apply Forall_cons in Hin as [Hck Hin].
  destruct (svr_sent_ok w items conn sent told budget ck Ha Hz) as (w1 & sent1 & E1 & Hz1 & Hs1); [lia|done|].
  destruct (IH w1 items conn sent1 told (budget + 1) Ha Hz1) as (w2 & sent2 & E2 & Hz2 & Hs2); [lia|done|].
  exists w2, sent2. cbn [fold_outcome]. rewrite E1. split_and!; [exact E2| |congruence].
  by replace (budget + (1 + zlen cks)) with (budget + 1 + zlen cks) by lia.
Qed.
End Told.

(** What a client shows for a token. *)
Definition character_of (token : Z) (v : view) : option Character :=
  if GetToken (v_player v) =? token then Some (v_player v) else v_others v !! token.
Lemma character_of_move p v :
  character_of (sc_move_token p) (hear (S_MOVE p) v) =
    (λ ch, SetPos2 ch (sc_move_x p) (sc_move_y p)) <$> character_of (sc_move_token p) v.
Proof.
  unfold character_of. cbn [hear]. destruct (Z.eqb_spec (GetToken (v_player v)) (sc_move_token p)) as [E|Hne]; cbn [v_player v_others].
  - change (GetToken (SetPos2 (v_player v) _ _)) with (GetToken (v_player v)). by rewrite (proj2 (Z.eqb_eq _ _)).
  - rewrite (proj2 (Z.eqb_neq _ _)) by done. by rewrite lookup_alter_eq.
Qed.
Lemma character_of_move_other p v t :
  t ≠ sc_move_token p → character_of t (hear (S_MOVE p) v) = character_of t v.
Proof.
  intros Ht. unfold character_of. cbn [hear].
  destruct (Z.eqb_spec (GetToken (v_player v)) (sc_move_token p)) as [E|Hne]; cbn [v_player v_others].
  - change (GetToken (SetPos2 (v_player v) _ _)) with (GetToken (v_player v)).
    by rewrite (proj2 (Z.eqb_neq (GetToken (v_player v)) t)) by congruence.
  - destruct (_ =? _); [done|]. by rewrite lookup_alter_ne.
Qed.

(** A client's half, for whatever its connection was told. *)
Lemma member_hears (OSrv : OS) (LS : @OSLaws OSrv) w items conn sent told budget it (OM : OS) (LM : @OSLaws OM) self c cw v last es fs rest :
  @zone_told OSrv w items conn sent told budget → it ∈ items →
  @sends_accepted OM → @recvs_accepted OM → @connected OM self c cw v →
  Forall (λ m, s2c_wf m ∧ client_message m) (told (conn it.2)) →
  zlen (om_usedList (cw_cmgr cw)) + 20 * zlen (told (conn it.2)) < 2 ^ 62 →
  mjoin (cli_chunks es) `prefix_of` sent (conn it.2) →
  Forall says_wf es → Forall chunk_ok (cli_chunks es) → feed_all [] (cli_chunks es) = Some (fs, rest) → zlen es < 2 ^ 31 →
  ∃ s' heard, let a := spec_run (mkCliSpec v (told (conn it.2)) [] []) es in
    @cli_run OM self c (mkCliConn cw [] last) es = Ok s' ∧
    heard ++ sp_queued a ++ sp_coming a = told (conn it.2) ∧ sp_view a = foldl (λ v m, hear m v) v heard ∧
    client_ok (cc_world s') (sp_view a).
Proof.
  intros [(fr & Hfr & [_ Hst _])] Hit Hs Hr Hcn Hms Hroom Hpre Hsay Hd Hf Hlen.
  rewrite Forall_forall in Hst. pose proof (send_inv_prefix _ _ _ _ _ (Hst it Hit)) as Hsent.
  destruct (@client_connection_ok OM LM self c cw v last (told (conn it.2)) (fr (conn it.2)) es fs rest Hs Hr Hcn Hms Hroom (Hfr _))
    as (s' & heard & out & ? & ? & ? & ? & _); [by etrans|done..|].
  by exists s', heard.
Qed.

(** A client that says one message: what has been sent is a prefix of its frame. *)
Lemma one_said (OC : OS) (LC : @OSLaws OC) self c cw cs k es m :
  @sends_accepted OC → c2s_wf m → said_messages es = [m] →
  cw_sessions cw !! self = Some cs → cs_pConnector cs = Some c →
  nw_conns (cw_net cw) !! c = Some k → send_state k None [] → _socket k ≠ INVALID_SOCKET → zlen es < 2 ^ 31 →
  ∃ cw' out f, @talk OC self c (cw, []) es = Ok (cw', out) ∧ is_frame m f ∧ out `prefix_of` f.
Proof.
  intros Ha Hm Hsaid Hs Hc Hk Hst Hso Hlen.
  destruct (@talk_ok OC LC self c cs es cw [] [] 0 Ha) as (cw' & out & fs & E & Hfs & Hinv); [|done|done| |lia|].
  { rewrite Hsaid. by apply Forall_singleton. }
  { split. exists k, None, []. by split_and!. }
  rewrite Hsaid in Hfs. apply Forall2_cons_inv_l in Hfs as (f & fs' & Hf & Hfs & ->). inversion Hfs; subst fs'.
  apply send_inv_prefix in Hinv. change (out `prefix_of` f ++ []) in Hinv. rewrite app_nil_r in Hinv. by exists cw', out, f.
Qed.


(** Both members of the demo server have been told that 100 entered; then session
    10 moves, and session 11, on connector 2, is told. *)
Definition demo_say : list talk_event := [Say demo_move; Sent 20; Sent 12].
Definition demo_welcome : s2c := S_ENTER (mkSC_P_ENTER 100 5 6).
Definition demo_welcoming : SvrWorld :=
  set_sw_cmds [SendBroadcastToAllUser 1 (frame_buffer demo_welcome 0) (zlen (s2c_payload demo_welcome) + 20)] demo_served_conn.
Definition demo_welcomed_net : NetWorld :=
  match (_ ← svr_Tick; svr_Tick) demo_welcoming with Ok (_, w) => sw_net w | Fault _ => demo_net end.
Definition demo_welcomed : SvrWorld := set_sw_net demo_welcomed_net (set_sw_cmds [] demo_welcoming).
Definition demo_told_frames : list (list Z) :=
  (λ m, frame (s2c_payload m) 0 0) <$> [demo_welcome; S_MOVE (mkSC_P_MOVE 100 3 4)].
Definition demo_completions : list (Z * Z) := [(1, 7); (2, 30); (2, 10); (2, 15); (2, 25)].
Definition demo_hearing : list cli_event := (Cli_Receive <$> demo_told_frames) ++ [Cli_Process; Cli_Process].
Lemma demo_zone_told : zone_told demo_served_conn [(100, 10); (101, 11)] (λ p, p - 9) (λ _, []) (λ _, []) 0.
Proof.
  split. exists (λ _, []). split; [by constructor|]. destruct demo_served as [Hm _ Hnd]. split; [| |exact Hnd].
  - eapply Forall_impl; [exact Hm|]. intros it [? ?]. by split.
  - repeat constructor.
    + exists demo_owned, None, []. by split_and!.
    + exists demo_other, None, []. by split_and!.
Qed.
Lemma demo_welcomed_told :
  zone_told demo_welcomed (std_items {[ 100 := 10; 101 := 11 ]}) (λ p, p - 9) (λ _, []) (λ _, [demo_welcome]) 1.
Proof.
  destruct (broadcast_told demo_welcoming 1 20 (mkZone 1 {[ 100 := 10; 101 := 11 ]}) demo_welcome 0 (λ p, p - 9) (λ _, []) (λ _, []) 0)
    as (n & E & Hn); [exact demo_accepts|vm_compute; intuition discriminate|reflexivity|reflexivity|reflexivity| |reflexivity|].
  { rewrite demo_items. destruct demo_zone_told as [(fr & Hfr & [Hm Hst Hnd])]. split. exists fr. split; [done|].
    split; [|done|done]. eapply Forall_impl; [exact Hm|]. intros it [? ?]. by split. }
  unfold demo_welcomed, demo_welcomed_net. rewrite E. exact Hn.
Qed.
Lemma demo_welcomed_open : open_conn 1 (sw_net demo_welcomed) [].
Proof.
  split; [|split; vm_compute; reflexivity]. exists (default demo_owned (nw_conns demo_welcomed_net !! 1)).
  split; [vm_compute; reflexivity|]. split; [|vm_compute; discriminate].
  apply (recv_state_same demo_owned); [split; vm_compute; reflexivity|]. destruct (recv_state_new 1). by split.
Qed.

(** ** Everything told arrives *)

(** An echo text is bytes. *)
Definition byte_message (m : s2c) : Prop := match m with S_ECHO p => Forall is_byte (sc_echo_data p) | _ => True end.
Lemma encode_data_bytes ds : Forall is_byte (encode_data ds).
Proof.
  induction ds as [|d ds IH]; [constructor|]. rewrite encode_data_cons. apply Forall_app. split; [|done].
  destruct d. cbn. repeat (apply Forall_app; split); apply le_enc_bytes.
Qed.
Lemma s2c_payload_bytes m : byte_message m → Forall is_byte (s2c_payload m).
Proof.
  intros Hm. unfold s2c_payload. apply Forall_app. split; [apply le_enc_bytes|].
  destruct m as [[]|[]|[]|[]|[]|[]|[]|[]]; cbn in *;
    repeat (apply Forall_app; split); try apply le_enc_bytes; try apply encode_data_bytes; try constructor.
  by apply sub_Forall.
Qed.
Lemma framed_chunk m f : s2c_wf m → byte_message m → framed (s2c_payload m) f → chunk_ok f.
Proof.
  intros Hm Hb [now ->]. pose proof (s2c_encode_size m Hm). pose proof (zlen_nonneg (s2c_encode m)).
  pose proof (zlen_s2c_payload m). unfold chunk_ok. rewrite zlen_frame. unfold MAX_PACKET_BUFFER_SIZE. split; [lia|].
  pose proof (s2c_payload_bytes m Hb) as Hp. revert Hp. generalize (s2c_payload m). intros payload Hp.
  unfold frame, repr_PacketHead, repr_PacketTail. repeat (apply Forall_app; split); done || apply le_enc_bytes.
Qed.

(** A frame received and handled at once. *)
Definition at_once (fs : list (list Z)) : list cli_event := fs ≫= λ f, [Cli_Receive f; Cli_Process].
Lemma at_once_chunks fs : cli_chunks (at_once fs) = fs.
Proof. induction fs as [|f fs IH]; [done|]. unfold cli_chunks, at_once in *. cbn. by rewrite IH. Qed.
Lemma at_once_spec fs : ∀ ms v said, length fs = length ms →
  ∃ said', spec_run (mkCliSpec v ms [] said) (at_once fs) = mkCliSpec (foldl (λ v m, hear m v) v ms) [] [] said'.
Proof.
  induction fs as [|f fs IH]; intros [|m ms] v said Hl; try done; [by exists said|].
  apply (IH ms (hear m v) (said ++ replies m)). by injection Hl.
Qed.

(** What a member was told is all sent, and makes its picture. *)
Lemma told_arrives_ok (OSrv : OS) (LS : @OSLaws OSrv) (OM : OS) (LM : @OSLaws OM)
    w items conn sent told budget it amount self c cw v last :
  @sends_accepted OSrv → @zone_told OSrv w items conn sent told budget → it ∈ items →
  @sends_accepted OM → @recvs_accepted OM → @connected OM self c cw v →
  Forall (λ m, s2c_wf m ∧ client_message m ∧ byte_message m) (told (conn it.2)) →
  zlen (om_usedList (cw_cmgr cw)) + 20 * zlen (told (conn it.2)) < 2 ^ 62 → 2 * zlen (told (conn it.2)) < 2 ^ 31 →
  ∃ fr n, Forall2 framed (s2c_payload <$> told (conn it.2)) fr ∧
    @drain OSrv (conn it.2) amount (length (mjoin fr)) (sw_net w, sent (conn it.2)) = Ok (n, mjoin fr) ∧
    outstanding (conn it.2) n = None ∧
    ∃ s', @cli_run OM self c (mkCliConn cw [] last) (at_once fr) = Ok s' ∧
      client_ok (cc_world s') (foldl (λ v m, hear m v) v (told (conn it.2))).
Proof.
  intros Ha [(fr & Hfr & [_ Hst _])] Hit Hsm Hrm Hcn Hms Hroom Hlen. specialize (Hfr (conn it.2)).
  rewrite Forall_forall in Hst. specialize (Hst it Hit). set (p := conn it.2) in *.
  destruct (@drain_ok OSrv p amount Ha (length (mjoin (fr p))) (sw_net w) (sent p) (mjoin (fr p)) budget Hst)
    as (n & E & Ho & _). { pose proof (zlen_nonneg (sent p)). unfold zlen in *. lia. }
  exists (fr p), n. split_and!; [done|exact E|exact Ho|].
  pose proof (Forall2_length _ _ _ Hfr) as Hl. rewrite length_fmap in Hl.
  destruct (at_once_spec (fr p) (told p) v [] (eq_sym Hl)) as (said' & Espec).
  destruct (@client_connection_ok OM LM self c cw v last (told p) (fr p) (at_once (fr p)) (fr p) [] Hsm Hrm Hcn)
    as (s' & heard & out & E' & _ & _ & Hok & _); try done.
  - eapply Forall_impl; [exact Hms|]. intros m (? & ? & _). done.
  - by rewrite at_once_chunks.
  - apply Forall_forall. intros e He. apply list_elem_of_bind in He as (f & He & _). set_solver.
  - rewrite at_once_chunks. clear -Hfr Hms. revert Hfr. generalize (fr p).
    induction Hms as [|m ms (Hm & _ & Hb) Hms IH]; intros fs Hfs; inversion Hfs; subst; constructor; [by eapply framed_chunk|by apply IH].
  - rewrite at_once_chunks. apply (feed_frames (s2c_payload <$> told p)); [|done]. apply Forall_fmap.
    eapply Forall_impl; [exact Hms|]. intros m (Hm & _). cbn. rewrite zlen_s2c_payload.
    pose proof (s2c_encode_size m Hm). unfold MAX_PACKET_BUFFER_SIZE. lia.
  - assert (length (at_once (fr p)) = 2 * length (fr p))%nat as E2.
    { clear. unfold at_once. induction (fr p) as [|f fs IH]; [done|]. cbn in *. rewrite IH. lia. }
    unfold zlen in *. lia.
  - exists s'. split; [exact E'|]. by rewrite Espec in Hok.
Qed.

(** everything told arrives.  Whatever a member of the zone has been told:
    whatever amounts its connection's sends complete by, after at most as many
    completions as there are unsent bytes its frames have all been sent and
    nothing is outstanding, and a member that receives them one by one and
    handles each ends with the picture everything it was told makes. *)
Theorem told_arrives (OSrv : OS) (LS : @OSLaws OSrv) (OM : OS) (LM : @OSLaws OM)
    w items conn sent told budget it amount self c cw v last :
  @sends_accepted OSrv → @zone_told OSrv w items conn sent told budget → it ∈ items →
  @sends_accepted OM → @recvs_accepted OM → @connected OM self c cw v →
  Forall (λ m, s2c_wf m ∧ client_message m ∧ byte_message m) (told (conn it.2)) →
  zlen (om_usedList (cw_cmgr cw)) + 20 * zlen (told (conn it.2)) < 2 ^ 62 → 2 * zlen (told (conn it.2)) < 2 ^ 31 →
  ∃ fr n, Forall2 framed (s2c_payload <$> told (conn it.2)) fr ∧
    @drain OSrv (conn it.2) amount (length (mjoin fr)) (sw_net w, sent (conn it.2)) = Ok (n, mjoin fr) ∧
    outstanding (conn it.2) n = None ∧
    ∃ s', @cli_run OM self c (mkCliConn cw [] last) (at_once fr) = Ok s' ∧
      client_ok (cc_world s') (foldl (λ v m, hear m v) v (told (conn it.2))).
Proof. apply told_arrives_ok; apply _. Qed.

(** The server has told session 11 of the move; three bytes are sent at a time. *)
Lemma told_arrives_witness :
  ∃ w0 sw1 fr n s',
    CharacterMgr_init demo_linked = Ok (tt, w0) ∧ server_turn 1 demo_bytes None demo_served_conn = Ok (tt, sw1) ∧
    drain 2 (λ _, 3) (length (mjoin fr)) (sw_net sw1, []) = Ok (n, mjoin fr) ∧ outstanding 2 n = None ∧
    cli_run 7 1 (mkCliConn w0 [] None) (at_once fr) = Ok s' ∧
    client_ok (cc_world s') (hear (S_MOVE (mkSC_P_MOVE 100 3 4)) (mkView Character_new ∅)).
Proof.
  destruct demo_connected as (w0 & E0 & Hcn & Hu).
  destruct (move_told demo_served_conn 1 10 (demo_session 1 100 1) (mkCS_P_MOVE 3 4) demo_bytes demo_bytes demo_bytes [] None 20
    (mkZone 1 {[ 100 := 10; 101 := 11 ]}) (λ p, p - 9) (λ _, []) (λ _, []) 0 demo_accepts demo_recvs demo_move_wf)
    as (sw1 & E1 & _ & Ht).
  - split; [discriminate|reflexivity].
  - exact demo_served_open.
  - reflexivity.
  - reflexivity.
  - apply (bool_decide_unpack _); vm_compute; done.
  - by exists 0.
  - done.
  - vm_compute. reflexivity.
  - reflexivity.
  - reflexivity.
  - reflexivity.
  - reflexivity.
  - rewrite demo_items. exact demo_zone_told.
  - reflexivity.
  - destruct (told_arrives demo_os demo_os_laws demo_os demo_os_laws sw1 (std_items (_characterMap (mkZone 1 {[ 100 := 10; 101 := 11 ]})))
      (λ p, p - 9) (λ _, []) (λ _, [S_MOVE (mkSC_P_MOVE 100 3 4)]) (0 + 1) (101, 11) (λ _, 3) 7 1 w0 (mkView Character_new ∅) None)
      as (fr & n & Hfr & E2 & Ho & s' & E3 & Hok).
    + exact demo_accepts.
    + exact Ht.
    + rewrite demo_items. apply (bool_decide_unpack _). vm_compute. done.
    + exact demo_accepts.
    + exact demo_recvs.
    + exact Hcn.
    + repeat constructor; vm_compute; intuition discriminate.
    + rewrite Hu. reflexivity.
    + reflexivity.
    + exists w0, sw1, fr, n, s'. split_and!; [exact E0|exact E1|exact E2|exact Ho|exact E3|exact Hok].
Defined.
