(* ===== verification/Entry.v ===== *)
(** * Entering a zone
    The whole way of an entry: a client of src/project_pl_cpp_20/cli says it,
    three passes of the command queue of svr make the character a member of the
    zone, tell the zone and send the newcomer the list of the others, and every
    client of the zone has the newcomer in its picture, the newcomer everyone. *)
From S2P Require Import Prelude Buffer Wire Character Protocol Packet ObjectPool CommandQueue.
From S2P Require Import PacketQueue TimeSet Config System Connector Network NetFrame Duplex SvrState Session Server.
From S2P Require Import SvrFrame Text Client ServerLaws ThreadLaws SessionLaws CommandLaws ClientLaws EndToEnd ClientConn.
From S2P Require Import Broadcast.

(** ** Telling one member after the other *)

(** What connector [c] was told after the messages of [ts], each of them for
    the connector beside it. *)
Definition tells (ts : list (Z * s2c)) (c : Z) : list s2c := snd <$> filter (λ t, t.1 = c) ts.
Lemma tells_app ts ts' c : tells (ts ++ ts') c = tells ts c ++ tells ts' c.
Proof. unfold tells. by rewrite filter_app, fmap_app. Qed.
Lemma tells_none ts c : c ∉ ts.*1 → tells ts c = [].
Proof.
  induction ts as [|[c' m] ts IH]; [done|]. cbn. intros Hc. apply not_elem_of_cons in Hc as [Hne Hc].
  unfold tells. cbn. rewrite decide_False by congruence. by apply IH.
Qed.
Lemma tells_each {A} (f : A → Z) m l x : NoDup (f <$> l) → x ∈ l → tells ((λ y, (f y, m)) <$> l) (f x) = [m].
Proof.
  intros Hnd Hx. apply list_elem_of_split in Hx as (l1 & l2 & ->).
  rewrite fmap_app, fmap_cons in Hnd. rewrite fmap_app, fmap_cons. apply NoDup_app in Hnd as (_ & H1 & Hnd). apply NoDup_cons in Hnd as [H2 _].
  rewrite tells_app, tells_none; cbn [app].
  - unfold tells. cbn. rewrite decide_True by done. cbn. f_equal.
    apply (tells_none ((λ y, (f y, m)) <$> l2)). by rewrite <-list_fmap_compose.
  - rewrite <-list_fmap_compose. intros Hin. apply (H1 (f x)); [done|]. apply list_elem_of_here.
Qed.
Lemma tells_same c ms c' : tells (pair c <$> ms) c' = if decide (c' = c) then ms else [].
Proof.
  unfold tells. case_decide as E.
  - subst. induction ms as [|m ms IH]; [done|]. cbn. rewrite decide_True by done. cbn. f_equal. exact IH.
  - induction ms as [|m ms IH]; [done|]. cbn. rewrite decide_False by congruence. exact IH.
Qed.

Section Telling.
Context `{OSLaws}.
Implicit Types (w : SvrWorld).
Hypothesis Haccept : sends_accepted.

Lemma told_ext w items conn sent told told' budget :
  (∀ c, told c = told' c) → zone_told w items conn sent told budget → zone_told w items conn sent told' budget.
Proof. intros E [(fr & Hfr & Hs)]. split. exists fr. split; [|done]. intros c. by rewrite <-E. Qed.

(** The command [cmd] sends the frame of [t.2] to the member behind [t.1]. *)
Definition addressed (items : list (Z * Z)) (conn : Z → Z) (cmd : command) (t : Z * s2c) : Prop :=
  ∃ it buf len now, it ∈ items ∧ t.1 = conn it.2 ∧ cmd = SendPacketToUser it.1 buf len ∧
    buffer_ok buf len ∧ sub buf 0 len = frame (s2c_payload t.2) 0 now.

Lemma tell_one w items conn sent told budget cmd t :
  zone_told w items conn sent told budget → budget < 2 ^ 31 - 1 → addressed items conn cmd t →
  ∃ n, Operator_adds cmd w = Ok (set_sw_net n w, []) ∧
    zone_told (set_sw_net n w) items conn sent (λ c, told c ++ tells [t] c) (budget + 1).
Proof.
  intros [(fr & Hfr & [Hm Hst Hnd])] Hbud (it & buf & len & now & Hit & Et & -> & Hb & Hsub). destruct t as [tc m]. cbn [fst snd] in *. subst tc.
  rewrite Forall_forall in Hm, Hst. destruct (Hm it Hit) as [(s & Hs & Ht & Hc) Hu].
  destruct (SendPacket_raw_delivers Haccept (set_sw_cmds [] w) it.2 s (conn it.2) (sent (conn it.2)) (mjoin (fr (conn it.2))) budget buf len
    Hs Hc (Hst it Hit) Hbud Hb) as (n & E & Hn & Hoth).
  exists n. split.
  { unfold Operator_adds. cbn [Operator]. unfold SendPacketToUser_Operator, GetUserSession.
    erewrite st_bind_ok by (by erewrite st_bind_ok by reflexivity). cbn [_userMap set_sw_cmds]. rewrite Hu.
    by erewrite st_bind_ok by exact E. }
  split. exists (λ c, fr c ++ if decide (c = conn it.2) then [frame (s2c_payload m) 0 now] else []). split.
  { intros c. rewrite fmap_app. apply Forall2_app; [apply Hfr|]. unfold tells. case_decide as Ec; subst.
    - cbn. rewrite decide_True by done. constructor; [by exists now|constructor].
    - cbn. rewrite decide_False by congruence. constructor. }
  split; rewrite ?Forall_forall.
  - intros j Hj. destruct (Hm j Hj). by split.
  - intros j Hj. cbn [sw_net set_sw_net]. rewrite join_app. case_decide as Ec.
    + rewrite Ec. change (mjoin [?x]) with (x ++ []). rewrite app_nil_r, <-Hsub. exact Hn.
    + cbn. rewrite app_nil_r. destruct (Hoth _ Ec). eapply send_inv_frame; [done|done|].
      apply (send_inv_more _ _ _ budget); [by apply Hst|lia].
  - done.
Qed.

Lemma tell_all items conn sent cmds : ∀ ts w told budget,
  zone_told w items conn sent told budget → budget + zlen ts < 2 ^ 31 → Forall2 (addressed items conn) cmds ts →
  ∃ n, fire_list Operator_adds w cmds = Ok (set_sw_net n w, []) ∧
    zone_told (set_sw_net n w) items conn sent (λ c, told c ++ tells ts c) (budget + zlen ts).
Proof.
  induction cmds as [|cmd cmds IH]; intros ts w told budget Hz Hb Hc; inversion Hc as [|? t ? ts' Ht Hts]; subst.
  { exists (sw_net w). replace (set_sw_net (sw_net w) w) with w by (by destruct w). split; [done|].
    rewrite Z.add_0_r. eapply told_ext; [|exact Hz]. intros c. by rewrite app_nil_r. }
  rewrite zlen_cons in Hb |- *. pose proof (zlen_nonneg ts').
  destruct (tell_one w items conn sent told budget cmd t Hz) as (n1 & E1 & Hz1); [lia|done|].
  destruct (IH ts' (set_sw_net n1 w) _ (budget + 1) Hz1) as (n2 & E2 & Hz2); [lia|done|].
  exists n2. cbn [fire_list]. rewrite E1. cbn [mbind outcome_bind]. rewrite E2. cbn [mbind outcome_bind]. split; [done|].
  replace (budget + (1 + zlen ts')) with (budget + 1 + zlen ts') by lia.
  eapply told_ext; [|exact Hz2]. intros c. cbn beta. rewrite <-app_assoc, <-tells_app. done.
Qed.
End Telling.

(** ** The zone map *)

(** The members of a zone, none as long as nobody has entered it; the zone's
    object is there, or the pool of zones gives one. *)
Definition zone_members (w : SvrWorld) (zone : Z) : gmap Z Z :=
  match _zoneMap w !! zone ≫= λ zp, sw_zones w !! zp with Some z => _characterMap z | None => ∅ end.
Definition zone_ready (w : SvrWorld) (zone : Z) : Prop :=
  match _zoneMap w !! zone with
  | Some zp => is_Some (sw_zones w !! zp)
  | None => ∃ r, GetFreeObjectPtr (om_pool (sw_zmgr w)) = Ok r
  end.

(** All but the zone. *)
Record zones_only (zone : Z) (w w' : SvrWorld) : Prop := {
  zo_other z : z ≠ zone → _zoneMap w' !! z = _zoneMap w !! z;
  zo_net : sw_net w' = sw_net w;
  zo_sessions : sw_sessions w' = sw_sessions w;
  zo_user : _userMap w' = _userMap w;
  zo_cmds : sw_cmds w' = sw_cmds w }.

Lemma OnRegist_ok w zp z u us :
  sw_zones w !! zp = Some z → sw_sessions w !! u = Some us →
  OnRegistCharacter zp u w = Ok (tt, set_sw_zones
    (<[zp := mkZone (z_id z) (std_insert (session_GetToken us) u (_characterMap z))]> (sw_zones w)) w).
Proof.
  intros Hz Hu. unfold OnRegistCharacter. erewrite st_bind_ok by (by apply zone_get_ok). cbv beta.
  erewrite st_bind_ok by (by apply character_get_ok). cbv beta. by apply zone_set_ok with z.
Qed.

Lemma ZoneEnter_ok w zone u us :
  zone_ready w zone → sw_sessions w !! u = Some us →
  ∃ w' zp z, ZoneMgr_EnterCharacter zone u w = Ok (tt, w') ∧ zones_only zone w w' ∧
    _zoneMap w' !! zone = Some zp ∧ sw_zones w' !! zp = Some z ∧
    _characterMap z = std_insert (session_GetToken us) u (zone_members w zone).
Proof.
  intros Hr Hu. unfold ZoneMgr_EnterCharacter, zone_ready, zone_members in *.
  erewrite st_bind_ok by reflexivity. cbv beta. destruct (_zoneMap w !! zone) as [zp|] eqn:Ez.
  - destruct Hr as [z Hz]. cbn [mbind option_bind]. rewrite Hz.
    eexists _, zp, _. split; [by apply OnRegist_ok|]. split; [done|]. split; [done|].
    split; [apply lookup_insert_eq|done].
  - destruct Hr as [[zp pool] Hp]. cbn [mbind option_bind].
    erewrite st_bind_ok by (unfold zone_alloc; rewrite Hp; reflexivity). cbv beta.
    erewrite st_bind_ok by (apply zone_get_ok, lookup_insert_eq). cbv beta.
    erewrite st_bind_ok by (eapply zone_set_ok, lookup_insert_eq). cbv beta.
    erewrite st_bind_ok by reflexivity. cbv beta.
    eexists _, zp, _. split; [apply OnRegist_ok; [apply lookup_insert_eq|exact Hu]|].
    split; [split; try done; intros z Hz; cbn; by rewrite std_insert_lookup, decide_False|].
    split; [|split; [apply lookup_insert_eq|done]].
    cbn. rewrite std_insert_lookup, decide_True by done. by rewrite Ez.
Qed.

(** ** The three passes of the command queue *)
Section Ticks.
Context `{OSLaws}.
Implicit Types (w : SvrWorld).

Lemma told_same w w' items conn sent told budget :
  sw_sessions w' = sw_sessions w → _userMap w' = _userMap w → nw_conns (sw_net w') = nw_conns (sw_net w) →
  (∀ c, sends c (nw_trace (sw_net w')) = sends c (nw_trace (sw_net w))) →
  zone_told w items conn sent told budget → zone_told w' items conn sent told budget.
Proof.
  intros Hs Hu Hc Ht [(fr & Hfr & [Hm Hst Hnd])]. split. exists fr. split; [done|]. split; [| |done].
  - eapply Forall_impl; [exact Hm|]. intros it [Hmb Hum]. split; [by rewrite Hs|by rewrite Hu].
  - eapply Forall_impl; [exact Hst|]. intros it. apply send_inv_frame; [by rewrite Hc|done].
Qed.

(** The records of a zone's other members. *)
Definition others_of w (token : Z) (items : list (Z * Z)) : list CharacterDbData :=
  omap (λ it, if it.1 =? token then None else s ← sw_sessions w !! it.2; Some (GetDbData (_nub s))) items.
Definition newcomer (token x y : Z) : s2c := S_ENTER (mkSC_P_ENTER token x y).

(** A broadcast to a zone, known or not: a copy for each of its members. *)
Definition zone_live w (zone : Z) : Prop :=
  match _zoneMap w !! zone with Some zp => is_Some (sw_zones w !! zp) | None => True end.
Definition copies (items : list (Z * Z)) (m : s2c) (now : Z) : list command :=
  (λ it, user_copy it.1 (frame_buffer m now) (zlen (s2c_payload m) + 20)) <$> items.
Definition broadcast (zone : Z) (m : s2c) (now : Z) : command :=
  SendBroadcastToAllUser zone (frame_buffer m now) (zlen (s2c_payload m) + 20).
Lemma broadcast_adds w zone m now :
  s2c_wf m → zone_live w zone →
  (∀ it, it ∈ std_items (zone_members w zone) → ∃ s, sw_sessions w !! it.2 = Some s ∧ session_GetToken s = it.1) →
  Operator_adds (broadcast zone m now) w = Ok (w, copies (std_items (zone_members w zone)) m now).
Proof.
  intros Hm Hl Hall. destruct (frame_buffer_ok m now Hm) as [Hb _]. unfold zone_live, zone_members in *.
  unfold Operator_adds, broadcast. cbn [Operator]. unfold SendBroadcastToAllUser_Operator, GetZone.
  erewrite st_bind_ok by (by erewrite st_bind_ok by reflexivity). cbn [_zoneMap set_sw_cmds].
  destruct (_zoneMap w !! zone) as [zp|]; [|by destruct w]. destruct Hl as [z Hz]. cbn [mbind option_bind] in *. rewrite Hz in *.
  rewrite (PacketBroadcast_ok _ _ z) by first [done | apply Forall_forall; intros it Hit; destruct (Hall it Hit) as (s & ? & ?); eauto].
  by destruct w.
Qed.

(** [EnterCharacter] makes a member and adds two commands; all but the zone and
    the clock's trace is kept. *)
Record zone_joined (zone token u : Z) w w' : Prop := {
  zj_sessions : sw_sessions w' = sw_sessions w;
  zj_user : _userMap w' = _userMap w;
  zj_conns : nw_conns (sw_net w') = nw_conns (sw_net w);
  zj_sends c : sends c (nw_trace (sw_net w')) = sends c (nw_trace (sw_net w));
  zj_other z : z ≠ zone → _zoneMap w' !! z = _zoneMap w !! z;
  zj_zone : ∃ zp z, _zoneMap w' !! zone = Some zp ∧ sw_zones w' !! zp = Some z ∧
    _characterMap z = std_insert token u (zone_members w zone) }.
Lemma enter_adds w token zone x y u us :
  _userMap w !! token = Some u →
  sw_sessions w !! u = Some us → session_GetToken us = token → s2c_wf (newcomer token x y) → zone_ready w zone →
  ∃ now w', Operator_adds (EnterCharacter token zone x y) w =
      Ok (w', [broadcast zone (newcomer token x y) now; SendCharacterList token zone]) ∧
    sw_cmds w' = sw_cmds w ∧ zone_joined zone token u w w'.
Proof.
  intros Hu Hs Ht Hm Hr.
  destruct (ZoneEnter_ok (set_sw_cmds [] w) zone u us) as (w1 & zp & z & E & [Ho Hn Hs1 Hu1 Hc1] & Hzp & Hz & Hz'); [exact Hr|exact Hs|].
  destruct (build_packet_ok (newcomer token x y) w1 Hm) as (now & w2 & E2 & ->).
  eexists now, _. split.
  { unfold Operator_adds. cbn [Operator].
    unfold EnterCharacter_Operator, GetUserSession. erewrite st_bind_ok by (by erewrite st_bind_ok by reflexivity).
    cbn [_userMap set_sw_cmds]. rewrite Hu. rewrite (st_bind_ok _ _ _ _ _ E).
    erewrite st_bind_ok by (unfold new_SendBroadcastToAllUser; erewrite st_bind_ok by exact E2; reflexivity).
    erewrite st_bind_ok by reflexivity. cbn. rewrite Hc1. reflexivity. }
  cbn [sw_cmds sw_sessions _userMap sw_net set_sw_cmds set_sw_net nw_conns nw_trace set_nw_trace] in *.
  split; [done|]. split; cbn [sw_cmds sw_sessions _userMap sw_net set_sw_cmds set_sw_net nw_conns nw_trace set_nw_trace]; try done.
  - by rewrite Hn.
  - intros c. by rewrite sends_app, app_nil_r, Hn.
  - exists zp, z. split_and!; [done|done|]. rewrite Hz', Ht. reflexivity.
Qed.

(** What the members are told: all of the newcomer, the newcomer of the rest. *)
Definition entry_tells (items : list (Z * Z)) (conn : Z → Z) (token x y u : Z) (others : list CharacterDbData) : list (Z * s2c) :=
  ((λ it, (conn it.2, newcomer token x y)) <$> items) ++ (pair (conn u) <$> (one_record <$> others)).

Lemma copies_addressed items conn m now its :
  s2c_wf m → (∀ it, it ∈ its → it ∈ items) →
  Forall2 (addressed items conn) (copies its m now) ((λ it, (conn it.2, m)) <$> its).
Proof.
  intros Hm Hin. destruct (frame_buffer_ok m now Hm) as [Hb Hsub].
  induction its as [|it its IH]; constructor; [|apply IH; set_solver].
  destruct (user_copy_eq it.1 (frame_buffer m now) (zlen (s2c_payload m) + 20) Hb) as (buf & _ & -> & Hb' & Hsub').
  exists it, buf, (zlen (s2c_payload m) + 20), now. rewrite Hsub', Hsub. split_and!; try done. apply Hin. set_solver.
Qed.
Lemma records_addressed items conn token u recs : ∀ times,
  (token, u) ∈ items → Forall wire_wf recs → length times = length recs →
  Forall2 (addressed items conn) (zip_with (record_command token) recs times) (pair (conn u) <$> (one_record <$> recs)).
Proof.
  induction recs as [|d recs IH]; intros [|t times] Hin Hr Hl; try done. apply Forall_cons in Hr as [Hd Hr].
  constructor; [|by apply IH; [..|injection Hl]].
  destruct (frame_buffer_ok (one_record d) t (one_record_wf d Hd)) as [Hb Hsub].
  by exists (token, u), (frame_buffer (one_record d) t), (zlen (s2c_payload (one_record d)) + 20), t.
Qed.

(** [SendCharacterList] adds a packet for every record. *)
Lemma list_adds w token zone zp z u :
  _userMap w !! token = Some u → _zoneMap w !! zone = Some zp → sw_zones w !! zp = Some z →
  (∀ it, it ∈ std_items (_characterMap z) → ∃ s, sw_sessions w !! it.2 = Some s ∧ wire_wf (GetDbData (_nub s))) →
  let others := others_of w token (std_items (_characterMap z)) in
  ∃ times, length times = length others ∧
    Operator_adds (SendCharacterList token zone) w =
      Ok (ticked (length others) w, zip_with (record_command token) others times).
Proof.
  intros Hu Hzp Hz Hall others.
  destruct (SendCharacterList_one_each (set_sw_cmds [] w) token zone u zp z Hu Hzp Hz) as (times & Hl & E).
  { intros t q Hq%elem_of_std_items. by apply (Hall _ Hq). }
  exists times. split; [exact Hl|]. unfold Operator_adds. cbn [Operator]. rewrite E. by destruct w.
Qed.

Lemma others_wf w token items :
  Forall (λ it, ∀ s, sw_sessions w !! it.2 = Some s → wire_wf (GetDbData (_nub s))) items → Forall wire_wf (others_of w token items).
Proof.
  intros Hwf. apply Forall_forall. intros d Hin. apply list_elem_of_omap in Hin as (it & Hin & Hd).
  rewrite Forall_forall in Hwf. destruct (it.1 =? token); [done|].
  destruct (sw_sessions w !! it.2) as [s|] eqn:Hs; [|done]. injection Hd as <-. by apply (Hwf it).
Qed.
Lemma sends_times c k : sends c (replicate k sys_time32) = [].
Proof. by induction k. Qed.
Lemma others_length w token items : zlen (others_of w token items) ≤ zlen items.
Proof.
  induction items as [|it items IH]; [done|]. unfold others_of in *. cbn [omap list_omap].
  repeat case_match; rewrite ?zlen_cons; lia.
Qed.
Lemma zlen_entry_tells items conn token x y u others :
  zlen (entry_tells items conn token x y u others) = zlen items + zlen others.
Proof. unfold entry_tells, zlen. rewrite length_app, !length_fmap. lia. Qed.

(** A pass, from what its commands do. *)
Lemma tick_run w w' new : fire_list Operator_adds (set_sw_cmds [] w) (sw_cmds w) = Ok (w', new) → svr_Tick w = Ok (tt, set_sw_cmds new w').
Proof. unfold svr_Tick. by intros ->. Qed.

(** Broadcasts to one zone. *)
Definition zone_tells (items : list (Z * Z)) (conn : Z → Z) (ms : list (s2c * Z)) : list (Z * s2c) :=
  ms ≫= λ mn, (λ it, (conn it.2, mn.1)) <$> items.
Lemma broadcasts_add w zone ms :
  Forall (λ mn, s2c_wf mn.1) ms → zone_live w zone →
  (∀ it, it ∈ std_items (zone_members w zone) → ∃ s, sw_sessions w !! it.2 = Some s ∧ session_GetToken s = it.1) →
  fire_list Operator_adds w ((λ mn, broadcast zone mn.1 mn.2) <$> ms) =
    Ok (w, ms ≫= λ mn, copies (std_items (zone_members w zone)) mn.1 mn.2).
Proof.
  intros Hms Hl Hall. induction Hms as [|[m now] ms Hm Hms IH]; [done|].
  rewrite fmap_cons. cbn [fire_list fst snd]. rewrite broadcast_adds by done. cbn [mbind outcome_bind]. by rewrite IH.
Qed.
Lemma broadcasts_addressed items conn its ms :
  Forall (λ mn, s2c_wf mn.1) ms → (∀ it, it ∈ its → it ∈ items) →
  Forall2 (addressed items conn) (ms ≫= λ mn, copies its mn.1 mn.2) (zone_tells its conn ms).
Proof.
  intros Hms Hin. induction Hms as [|[m now] ms Hm Hms IH]; [constructor|].
  cbn. apply Forall2_app; [by apply copies_addressed|exact IH].
Qed.
Lemma zlen_zone_tells items conn ms : zlen (zone_tells items conn ms) = zlen ms * zlen items.
Proof.
  induction ms as [|mn ms IH]; [done|]. unfold zone_tells in *. cbn. rewrite zlen_app, IH, zlen_cons.
  unfold zlen at 1. rewrite length_fmap. fold (zlen items). lia.
Qed.

(** The first two passes, with broadcasts to the zone behind the entry: they
    are delivered by the second, when the entry has only been copied. *)
Lemma enter_ticks2 w token zone x y u us ms people conn sent told budget :
  sends_accepted → sw_cmds w = EnterCharacter token zone x y :: ((λ mn, broadcast zone mn.1 mn.2) <$> ms) →
  Forall (λ mn, s2c_wf mn.1) ms → _userMap w !! token = Some u →
  sw_sessions w !! u = Some us → session_GetToken us = token → s2c_wf (newcomer token x y) → zone_ready w zone →
  let map := std_insert token u (zone_members w zone) in
  let others := others_of w token (std_items map) in
  zone_told w people conn sent told budget → (∀ it, it ∈ std_items map → it ∈ people) →
  Forall (λ it, ∀ s, sw_sessions w !! it.2 = Some s → wire_wf (GetDbData (_nub s))) people →
  budget + zlen ms * zlen (std_items map) < 2 ^ 31 →
  ∃ now times w2, (_ ← svr_Tick; svr_Tick) w = Ok (tt, w2) ∧ length times = length others ∧
    sw_cmds w2 = copies (std_items map) (newcomer token x y) now ++ zip_with (record_command token) others times ∧
    sw_sessions w2 = sw_sessions w ∧ zone_members w2 zone = map ∧ zone_ready w2 zone ∧
    (∀ z, z ≠ zone → _zoneMap w2 !! z = _zoneMap w !! z) ∧
    zone_told w2 people conn sent (λ c, told c ++ tells (zone_tells (std_items map) conn ms) c)
      (budget + zlen ms * zlen (std_items map)).
Proof.
  intros Ha Hcmds Hms Hu Hs Ht Hm Hr map others Htold Hpeople Hwf Hbud.
  destruct (enter_adds (set_sw_cmds [] w) token zone x y u us Hu Hs Ht Hm Hr)
    as (now & w1 & E1 & Hc1 & [Hs1 Hu1 Hn1 Ht1 Ho (zp & z & Hzp & Hz & Hmap)]).
  change (zone_members (set_sw_cmds [] w) zone) with (zone_members w zone) in Hmap. fold map in Hmap.
  cbn [sw_sessions _userMap sw_net _zoneMap set_sw_cmds] in Hs1, Hu1, Hn1, Ht1, Ho.
  assert (∀ w', _zoneMap w' = _zoneMap w1 → sw_zones w' = sw_zones w1 → zone_members w' zone = map ∧ zone_ready w' zone) as Hzone.
  { intros w' E E'. unfold zone_members, zone_ready. rewrite E, E', Hzp. cbn [mbind option_bind]. rewrite Hz. split; [done|by exists z]. }
  assert (∀ it, it ∈ std_items map → ∃ s, sw_sessions w !! it.2 = Some s ∧ session_GetToken s = it.1 ∧ wire_wf (GetDbData (_nub s))) as Hall.
  { destruct Htold as [(fr & _ & [Hmb _ _])]. rewrite Forall_forall in Hmb, Hwf. intros it Hit.
    destruct (Hmb it (Hpeople it Hit)) as [(s & Hs' & ? & _) _]. exists s. split_and!; [done|done|].
    by apply (Hwf it (Hpeople it Hit)). }
  assert (∀ w', sw_sessions w' = sw_sessions w → _zoneMap w' = _zoneMap w1 → sw_zones w' = sw_zones w1 →
    zone_live w' zone ∧ ∀ it, it ∈ std_items (zone_members w' zone) → ∃ s, sw_sessions w' !! it.2 = Some s ∧ session_GetToken s = it.1) as Hlive.
  { intros w' E Em Ez. destruct (Hzone w' Em Ez) as [-> Hr']. split.
    - unfold zone_ready, zone_live in *. by destruct (_zoneMap w' !! zone).
    - intros it Hit. rewrite E. destruct (Hall it Hit) as (s & ? & ? & _). by exists s. }
  (* the first pass *)
  set (rest := ms ≫= λ mn, copies (std_items map) mn.1 mn.2).
  assert (svr_Tick w = Ok (tt, set_sw_cmds ([broadcast zone (newcomer token x y) now; SendCharacterList token zone] ++ rest) w1)) as E2.
  { apply tick_run. rewrite Hcmds. cbn [fire_list]. rewrite E1. cbn [mbind outcome_bind].
    destruct (Hlive w1 Hs1 eq_refl eq_refl) as [Hl Hm1]. rewrite (broadcasts_add w1 zone ms Hms Hl Hm1).
    by rewrite (proj1 (Hzone w1 eq_refl eq_refl)). }
  set (w1' := set_sw_cmds _ w1) in E2.
  (* the second pass *)
  destruct (list_adds (set_sw_cmds [] w1') token zone zp z u) as (times & Hl & E3); [cbn; by rewrite Hu1|done|done| |].
  { rewrite Hmap. intros it Hit. cbn. rewrite Hs1. destruct (Hall it Hit) as (s & ? & _ & ?). by exists s. }
  rewrite Hmap in Hl, E3. assert (others_of (set_sw_cmds [] w1') token (std_items map) = others) as Eo
    by (unfold others, others_of; cbn; by rewrite Hs1). rewrite Eo in Hl, E3.
  destruct (tell_all Ha people conn sent rest (zone_tells (std_items map) conn ms)
    (ticked (length others) (set_sw_cmds [] w1')) told budget) as (n & E4 & Hz4).
  { apply (told_same w); [exact Hs1|exact Hu1|exact Hn1| |exact Htold]. intros c. rewrite <-Ht1.
    cbn [ticked sw_net set_sw_cmds set_sw_net nw_trace set_nw_trace w1']. by rewrite sends_app, sends_times, app_nil_r. }
  { by rewrite zlen_zone_tells. }
  { by apply broadcasts_addressed. }
  rewrite zlen_zone_tells in Hz4. set (w2 := set_sw_net n _) in *.
  exists now, times, (set_sw_cmds (copies (std_items map) (newcomer token x y) now ++ zip_with (record_command token) others times) w2).
  split_and!; try done.
  - rewrite (st_bind_ok _ _ _ _ _ E2). apply tick_run. cbn [w1' sw_cmds set_sw_cmds app fire_list].
    destruct (Hlive (set_sw_cmds [] w1') Hs1 eq_refl eq_refl) as [Hl' Hm'].
    rewrite (broadcast_adds (set_sw_cmds [] w1') zone _ now Hm Hl' Hm'). cbn [mbind outcome_bind].
    rewrite E3. cbn [mbind outcome_bind]. rewrite E4. cbn [mbind outcome_bind].
    rewrite (proj1 (Hzone (set_sw_cmds [] w1') eq_refl eq_refl)). by rewrite app_nil_r.
  - by apply Hzone.
  - by apply Hzone.
  - by apply (told_same w2).
Qed.

(** All three; [people] are all whose streams are followed. *)
Lemma enter_ticks_behind w token zone x y u us ms people conn sent told budget :
  sends_accepted → sw_cmds w = EnterCharacter token zone x y :: ((λ mn, broadcast zone mn.1 mn.2) <$> ms) →
  Forall (λ mn, s2c_wf mn.1) ms → _userMap w !! token = Some u →
  sw_sessions w !! u = Some us → session_GetToken us = token → s2c_wf (newcomer token x y) → zone_ready w zone →
  let map := std_insert token u (zone_members w zone) in
  let others := others_of w token (std_items map) in
  let before c := told c ++ tells (zone_tells (std_items map) conn ms) c in
  zone_told w people conn sent told budget → (∀ it, it ∈ std_items map → it ∈ people) →
  Forall (λ it, ∀ s, sw_sessions w !! it.2 = Some s → wire_wf (GetDbData (_nub s))) people →
  budget + (zlen ms + 2) * zlen (std_items map) < 2 ^ 31 →
  ∃ w', (_ ← (_ ← svr_Tick; svr_Tick); svr_Tick) w = Ok (tt, w') ∧ sw_sessions w' = sw_sessions w ∧
    zone_members w' zone = map ∧ zone_ready w' zone ∧ (∀ z, z ≠ zone → _zoneMap w' !! z = _zoneMap w !! z) ∧ sw_cmds w' = [] ∧
    zone_told w' people conn sent (λ c, before c ++ tells (entry_tells (std_items map) conn token x y u others) c)
      (budget + (zlen ms + 2) * zlen (std_items map)).
Proof.
  intros Ha Hcmds Hms Hu Hs Ht Hm Hr map others before Htold Hpeople Hwf Hbud.
  pose proof (others_length w token (std_items map)) as Hlo. fold others in Hlo.
  pose proof (zlen_nonneg (std_items map)). pose proof (zlen_nonneg ms).
  destruct (enter_ticks2 w token zone x y u us ms people conn sent told budget Ha Hcmds Hms Hu Hs Ht Hm Hr Htold Hpeople Hwf)
    as (now & times & w2 & E & Hl & Hc2 & Hs2 & Hz2 & Hr2 & Ho2 & Ht2); [fold map; nia|].
  fold map in Hc2, Hz2, Ht2. fold others in Hl, Hc2. fold before in Ht2.
  assert (map !! token = Some u) as Hin.
  { destruct Htold as [(fr & _ & [Hmb _ _])]. rewrite Forall_forall in Hmb.
    assert (map !! token = Some (default u (zone_members w zone !! token))) as Hin
      by (unfold map; rewrite std_insert_lookup; by rewrite decide_True).
    destruct (Hmb _ (Hpeople _ (proj2 (elem_of_std_items _ _ _) Hin))) as [_ Hum]. cbn [fst snd] in Hum. congruence. }
  destruct (tell_all Ha people conn sent (sw_cmds w2) (entry_tells (std_items map) conn token x y u others)
    (set_sw_cmds [] w2) before (budget + zlen ms * zlen (std_items map))) as (n & E3 & Hz3).
  - by apply (told_same w2).
  - rewrite zlen_entry_tells. nia.
  - rewrite Hc2. apply Forall2_app; [by apply copies_addressed|]. apply records_addressed; [| |done].
    + by apply Hpeople, elem_of_std_items.
    + apply others_wf. rewrite Forall_forall in Hwf |- *. intros it Hit. by apply (Hwf it (Hpeople it Hit)).
  - exists (set_sw_net n (set_sw_cmds [] w2)). split_and!; try done.
    + rewrite (st_bind_ok _ _ _ _ _ E). exact (tick_run w2 (set_sw_net n (set_sw_cmds [] w2)) [] E3).
    + eapply told_more; [exact Hz3|]. rewrite zlen_entry_tells. nia.
Qed.
(** With nothing behind it. *)
Lemma enter_ticks w token zone x y u us people conn sent told budget :
  sends_accepted → sw_cmds w = [EnterCharacter token zone x y] → _userMap w !! token = Some u →
  sw_sessions w !! u = Some us → session_GetToken us = token → s2c_wf (newcomer token x y) → zone_ready w zone →
  let map := std_insert token u (zone_members w zone) in
  let others := others_of w token (std_items map) in
  zone_told w people conn sent told budget → (∀ it, it ∈ std_items map → it ∈ people) →
  Forall (λ it, ∀ s, sw_sessions w !! it.2 = Some s → wire_wf (GetDbData (_nub s))) people →
  budget + 2 * zlen (std_items map) < 2 ^ 31 →
  ∃ w', (_ ← (_ ← svr_Tick; svr_Tick); svr_Tick) w = Ok (tt, w') ∧ sw_sessions w' = sw_sessions w ∧
    zone_members w' zone = map ∧ zone_ready w' zone ∧ (∀ z, z ≠ zone → _zoneMap w' !! z = _zoneMap w !! z) ∧ sw_cmds w' = [] ∧
    zone_told w' people conn sent (λ c, told c ++ tells (entry_tells (std_items map) conn token x y u others) c)
      (budget + 2 * zlen (std_items map)).
Proof.
  intros Ha Hcmds Hu Hs Ht Hm Hr map others Htold Hpeople Hwf Hbud.
  destruct (enter_ticks_behind w token zone x y u us [] people conn sent told budget Ha Hcmds (Forall_nil_2 _) Hu Hs Ht Hm Hr
    Htold Hpeople Hwf Hbud) as (w' & E & ? & ? & ? & ? & ? & Hz). exists w'. split_and!; [done..|].
  eapply told_ext; [|exact Hz]. intros c. cbn. by rewrite app_nil_r.
Qed.
End Ticks.

(** ** The server's turn *)
Section Turn.
Context `{OSLaws}.
Implicit Types (w : SvrWorld).

Definition entry_turn (c : Z) (d : list Z) (prev : option Z) : svr unit := _ ← server_turn c d prev; svr_Tick.
Definition placed (us : UserSession) (x y : Z) : UserSession := set_nub (SetPos3 (_nub us) 1 x y) us.

(** The zone is 1 and the place two random numbers below a thousand. *)
Lemma C2S_Enter_ok w u p us :
  sw_sessions w !! u = Some us →
  ∃ x y, (-1000 < x < 1000 ∧ -1000 < y < 1000) ∧
    C2S_Enter u p w = Ok (true, set_sw_cmds (sw_cmds w ++ [EnterCharacter (session_GetToken us) 1 x y])
      (set_sw_sessions (<[u := placed us x y]> (sw_sessions w))
        (set_sw_net (set_nw_trace ((nw_trace (sw_net w) ++ [sys_rand]) ++ [sys_rand]) (sw_net w)) w))).
Proof.
  intros Hs. set (r1 := os_call (nw_trace (sw_net w)) sys_rand).
  set (r2 := os_call (nw_trace (sw_net w) ++ [sys_rand]) sys_rand). exists (Z.rem r1 1000), (Z.rem r2 1000).
  pose proof (Z.rem_bound_abs r1 1000). pose proof (Z.rem_bound_abs r2 1000). split; [lia|].
  unfold C2S_Enter. erewrite st_bind_ok by (apply on_net_ok, sys_ok). cbv beta.
  erewrite st_bind_ok by (apply on_net_ok, sys_ok). cbv beta.
  erewrite st_bind_ok by (by apply us_get_ok). cbv beta.
  erewrite st_bind_ok by (by apply us_mod_ok). cbv beta. reflexivity.
Qed.


Lemma small_place us x y :
  in_s 64 (session_GetToken us) → -1000 < x < 1000 ∧ -1000 < y < 1000 →
  s2c_wf (newcomer (session_GetToken us) x y) ∧ wire_wf (GetDbData (_nub (placed us x y))).
Proof.
  intros Ht [Hx Hy]. assert (in_s 32 x ∧ in_s 32 y) as [? ?] by (split; split; lia).
  split; [by split_and!|]. split; [exact Ht|]. split; [split; vm_compute; intuition discriminate|by split].
Qed.

Lemma handle_enter_ok w c u x us p :
  waiting w c u [x] [C_ENTER p] [] → sw_cmds w = [] → sw_sessions w !! u = Some us →
  ∃ rx ry n, (-1000 < rx < 1000 ∧ -1000 < ry < 1000) ∧
    handle_one u (x, C_ENTER p) w = Ok (tt, set_sw_net n (set_sw_cmds [EnterCharacter (session_GetToken us) 1 rx ry]
      (set_sw_sessions (<[u := placed us rx ry]> (sw_sessions w)) w))) ∧
    nw_conns n = nw_conns (sw_net w) ∧ ∀ c, sends c (nw_trace n) = sends c (nw_trace (sw_net w)).
Proof.
  intros Hw Hc Hs. destruct (C2S_Enter_ok (popped [] w) u p us Hs) as (rx & ry & Hr & E).
  destruct (handle_one_ok _ _ _ _ _ _ _ Hw E) as (n & E1 & Hcn & Htr); [done|].
  exists rx, ry, n. split; [done|]. split; [|split; [exact Hcn|]].
  - rewrite E1. cbn [popped sw_cmds set_sw_net]. by rewrite Hc.
  - intros c'. rewrite Htr. cbn [sw_net popped set_sw_cmds set_sw_sessions set_sw_net nw_trace set_nw_trace set_nw_recvq].
    by rewrite !sends_app, !app_nil_r.
Qed.

Lemma resession_told w u s s' items conn sent told budget :
  sw_sessions w !! u = Some s → session_GetToken s' = session_GetToken s → us_pConnector s' = us_pConnector s →
  zone_told w items conn sent told budget →
  zone_told (set_sw_sessions (<[u := s']> (sw_sessions w)) w) items conn sent told budget.
Proof. intros Hs Ht Hc [(fr & Hfr & Hz)]. split. exists fr. split; [done|]. by apply (resession_served _ _ s). Qed.

(** An entry, from the chunk that completes the frame to everybody's stream. *)
Lemma enter_told w c u us p f d g rest prev conn sent told budget :
  sends_accepted → recvs_accepted → wire_wf p → in_s 64 (session_GetToken us) →
  open_conn c (sw_net w) [] → items (nw_recvq (sw_net w)) 0 = [] → links (sw_net w) !! c = Some u →
  chunk_ok d → is_frame (C_ENTER p) f → d `prefix_of` f → feed [] d = Some (g, rest) →
  sw_cmds w = [] → sw_sessions w !! u = Some us → _userMap w !! session_GetToken us = Some u → zone_ready w 1 →
  let token := session_GetToken us in
  let map := std_insert token u (zone_members w 1) in
  zone_told w (std_items map) conn sent told budget →
  Forall (λ it, ∀ s, sw_sessions w !! it.2 = Some s → wire_wf (GetDbData (_nub s))) (std_items map) →
  budget + 2 * zlen (std_items map) < 2 ^ 31 →
  ∃ x y w', entry_turn c d prev w = Ok (tt, w') ∧ s2c_wf (newcomer token x y) ∧
    sw_sessions w' = <[u := placed us x y]> (sw_sessions w) ∧ zone_members w' 1 = map ∧ sw_cmds w' = [] ∧
    Forall wire_wf (others_of w' token (std_items map)) ∧
    zone_told w' (std_items map) conn sent
      (λ c, told c ++ tells (entry_tells (std_items map) conn token x y u (others_of w' token (std_items map))) c)
      (budget + 2 * zlen (std_items map)).
Proof.
  intros Ha Hr Hp Ht Ho Hi Hl Hd Hf Hpre Hfeed Hcmds Hus Hum Hready token map Htold Hwf Hbud.
  destruct (delivered_ok w c u [C_ENTER p] [f] [d] [g] rest prev Hr) as (n & E1 & Hlen & _ & E2 & Hw & Ho1);
    [by apply Forall_singleton|by constructor|done..|by apply Forall_singleton| |by cbn [feed_all]; rewrite Hfeed|].
  { change (d ++ [] `prefix_of` f ++ []). by rewrite !app_nil_r. }
  cbn [length take] in *. destruct (items (nw_recvq n) 0) as [|q [|]]; try done.
  cbn [st_each] in E1. destruct (receive_chunk c d (sw_net w)) as [[u1 n1]|] eqn:E1'; [|done]. injection E1 as ->. rename E1' into E1.
  set (w1 := set_sw_net n w) in *.
  assert (zone_told w1 (std_items map) conn sent told budget) as Ht1.
  { destruct Htold as [(fr & Hfr & Hz)]. split. exists fr. split; [done|]. by eapply served_receive. }
  destruct (handle_enter_ok w1 c u q us p Hw Hcmds Hus) as (x & y & n2 & Hxy & E3 & Hc2 & Ht2). fold token in E3.
  set (ws := set_sw_sessions _ w1) in E3. set (w2 := set_sw_net n2 _) in E3.
  assert (s2c_wf (newcomer token x y) ∧ wire_wf (GetDbData (_nub (placed us x y)))) as [Hm Hpl] by by apply small_place.
  assert (Forall (λ it, ∀ s, sw_sessions w2 !! it.2 = Some s → wire_wf (GetDbData (_nub s))) (std_items map)) as Hwf2.
  { rewrite Forall_forall in Hwf |- *. intros it Hit s Hs.
    cbn in Hs. apply lookup_insert_Some in Hs as [[_ <-]|[_ Hs]]; [done|]. by apply (Hwf it). }
  destruct (enter_ticks w2 token 1 x y u (placed us x y) (std_items map) conn sent told budget Ha)
    as (w3 & E4 & Hs3 & Hz3 & _ & _ & Hc3 & Ht3); try done.
  { apply lookup_insert_eq. }
  { apply (told_same ws); try done. by apply (resession_told _ _ us). }
  change (zone_members w2 1) with (zone_members w 1) in *. fold map in Hz3, Ht3.
  apply st_bind_inv in E4 as (u2 & w4 & E4 & E5).
  exists x, y, w3. split_and!; try done.
  - unfold entry_turn. rewrite (st_bind_ok _ _ _ u2 w4); [exact E5|]. unfold server_turn.
    rewrite (st_bind_ok _ _ _ u1 w1) by (by apply on_net_ok).
    cbn [zip zip_with st_each] in E2. rewrite (st_bind_ok _ _ _ tt w2); [exact E4|]. by rewrite E2, E3.
  - apply others_wf. by rewrite Hs3.
  - assert (others_of w3 token (std_items map) = others_of w2 token (std_items map)) as -> by (unfold others_of; by rewrite Hs3).
    done.
Qed.
End Turn.

(** ** The picture *)
Lemma character_of_see t f v :
  (∀ ch, GetToken (f ch) = GetToken ch) →
  character_of t (see t f v) = Some (f (default (SetToken Character_new t) (character_of t v))).
Proof.
  intros Hf. unfold character_of, see. destruct (Z.eqb_spec (GetToken (v_player v)) t) as [E|Hne]; cbn [v_player v_others].
  - by rewrite Hf, (proj2 (Z.eqb_eq _ _)).
  - rewrite (proj2 (Z.eqb_neq _ _)) by done. by rewrite lookup_insert_eq.
Qed.
Lemma character_of_see_other t t' f v :
  (∀ ch, GetToken (f ch) = GetToken ch) → t' ≠ t → character_of t' (see t f v) = character_of t' v.
Proof.
  intros Hf Hne. unfold character_of, see.
  destruct (Z.eqb_spec (GetToken (v_player v)) t) as [E|_]; cbn [v_player v_others]; [|by rewrite lookup_insert_ne].
  rewrite Hf. by rewrite (proj2 (Z.eqb_neq _ t')) by congruence.
Qed.
Lemma hear_record d v : hear (one_record d) v = see (db_token d) (λ ch, SetPos1 ch (db_pos d)) v.
Proof. reflexivity. Qed.

(** The records that a newcomer hears. *)
Lemma hear_records recs : ∀ v, NoDup (db_token <$> recs) →
  let v' := foldl (λ v m, hear m v) v (one_record <$> recs) in
  (∀ d, d ∈ recs → ∃ ch, character_of (db_token d) v' = Some ch ∧ ch_pos ch = db_pos d) ∧
  ∀ t, t ∉ db_token <$> recs → character_of t v' = character_of t v.
Proof.
  induction recs as [|d recs IH]; intros v Hnd v'; [split; [set_solver|done]|].
  cbn [fmap list_fmap] in Hnd. apply NoDup_cons in Hnd as [Hni Hnd].
  destruct (IH (hear (one_record d) v) Hnd) as [H1 H2]. split.
  - intros d' [->|Hd']%elem_of_cons; [|by apply H1]. eexists.
    change v' with (foldl (λ v m, hear m v) (hear (one_record d) v) (one_record <$> recs)). rewrite (H2 _ Hni).
    by rewrite hear_record, character_of_see.
  - intros t [Hne Ht]%not_elem_of_cons. change v' with (foldl (λ v m, hear m v) (hear (one_record d) v) (one_record <$> recs)).
    by rewrite (H2 _ Ht), hear_record, character_of_see_other.
Qed.

(** The list holds every other member once. *)
Lemma others_tokens w token items conn sent said budget `{OS} :
  zone_served w items conn sent said budget → NoDup items.*1 →
  NoDup (db_token <$> others_of w token items) ∧
  (∀ t, t ∈ db_token <$> others_of w token items → t ≠ token ∧ t ∈ items.*1) ∧
  ∀ it, it ∈ items → it.1 ≠ token → ∃ s, sw_sessions w !! it.2 = Some s ∧ db_token (GetDbData (_nub s)) = it.1 ∧
    GetDbData (_nub s) ∈ others_of w token items.
Proof.
  intros [Hm _ _]. clear -Hm. unfold others_of.
  induction Hm as [|it items [(s & Hs & Ht & _) _] Hm IH]; intros Hnd; [split_and!; [constructor|set_solver..]|].
  cbn [fmap list_fmap] in Hnd. apply NoDup_cons in Hnd as [Hni Hnd]. destruct (IH Hnd) as (H1 & H2 & H3). clear IH.
  cbn [omap list_omap]. destruct (Z.eqb_spec it.1 token) as [E|Hne].
  - split_and!; [done| |].
    + intros t Hin. destruct (H2 t Hin). set_solver.
    + intros j [->|Hj]%elem_of_cons Hjt; [done|by apply H3].
  - rewrite Hs. cbn [mbind option_bind]. set (d := GetDbData (_nub s)).
    assert (db_token d = it.1) as Hd by exact Ht. rewrite fmap_cons, Hd. split_and!.
    + apply NoDup_cons. split; [|done]. intros Hin. by apply Hni, (H2 _ Hin).
    + intros t [->|Hin]%elem_of_cons; [split; [done|set_solver]|]. destruct (H2 t Hin). set_solver.
    + intros j [->|Hj]%elem_of_cons Hjt; [exists s; split_and!; [done|done|set_solver]|].
      destruct (H3 j Hj Hjt) as (s' & ? & ? & ?). exists s'. split_and!; [done|done|set_solver].
Qed.

(** What one member is told: the newcomer, and to the newcomer itself the list. *)
Definition news (members : list (Z * Z)) (conn : Z → Z) (token x y u : Z) (others : list CharacterDbData) (c : Z) : list s2c :=
  tells (entry_tells members conn token x y u others) c.
Lemma conn_inj (conn : Z → Z) (l : list (Z * Z)) a b :
  NoDup ((λ it, conn it.2) <$> l) → a ∈ l → b ∈ l → conn a.2 = conn b.2 → a = b.
Proof.
  intros Hnd [i Hi]%list_elem_of_lookup [j Hj]%list_elem_of_lookup E.
  assert (i = j) as ->; [|congruence]. apply (NoDup_lookup _ i j (conn a.2) Hnd).
  - by rewrite list_lookup_fmap, Hi.
  - by rewrite list_lookup_fmap, Hj, E.
Qed.
Lemma news_ok members conn token x y u others it :
  NoDup ((λ it, conn it.2) <$> members) → NoDup members.*1 → (token, u) ∈ members → it ∈ members →
  news members conn token x y u others (conn it.2) =
    newcomer token x y :: (if decide (it.1 = token) then one_record <$> others else []).
Proof.
  intros Hnd Hnd1 Hu Hit. unfold news, entry_tells. rewrite tells_app.
  rewrite (tells_each (λ it : Z * Z, conn it.2) (newcomer token x y) members it Hnd Hit). rewrite tells_same. cbn [app]. f_equal.
  destruct (decide (conn it.2 = conn u)) as [E|Hne].
  - rewrite (conn_inj conn members it (token, u) Hnd Hit Hu E). by rewrite decide_True.
  - rewrite decide_False; [done|]. intros E. apply Hne. f_equal. clear Hne Hnd.
    apply list_elem_of_lookup in Hu as [i Hi], Hit as [j Hj].
    assert (i = j) as ->; [|rewrite Hi in Hj; by injection Hj as <-]. apply (NoDup_lookup _ i j token Hnd1).
    + by rewrite list_lookup_fmap, Hi.
    + rewrite list_lookup_fmap, Hj. cbn. by rewrite E.
Qed.

(** A part of those that are served. *)
Lemma served_sub `{OS} w people conn sent said budget items :
  zone_served w people conn sent said budget → (∀ it, it ∈ items → it ∈ people) → NoDup items →
  zone_served w items conn sent said budget.
Proof.
  intros [Hm Hst Hnd] Hin Hi. rewrite Forall_forall in Hm, Hst. split; rewrite ?Forall_forall; [auto..|].
  apply NoDup_fmap_2_strong; [|done]. intros a b Ha Hb. apply (conn_inj conn people); auto.
Qed.

(** The picture of a member that has heard all of it. *)
Lemma news_seen `{OS} w members conn sent said budget token x y u it v :
  zone_served w members conn sent said budget → NoDup members.*1 → (token, u) ∈ members → it ∈ members →
  let v' := foldl (λ v m, hear m v) v (news members conn token x y u (others_of w token members) (conn it.2)) in
  (∃ ch, character_of token v' = Some ch ∧ GetPos ch = (x, y)) ∧
  (it.1 ≠ token → ∀ t, t ≠ token → character_of t v' = character_of t v) ∧
  (it.1 = token → ∀ t, t ∉ members.*1 → character_of t v' = character_of t v) ∧
  (it.1 = token → ∀ other, other ∈ members → other.1 ≠ token → ∃ s ch,
    sw_sessions w !! other.2 = Some s ∧ character_of other.1 v' = Some ch ∧ ch_pos ch = ch_pos (_nub s)).
Proof.
  intros Hz Hnd Hu Hit v'. pose proof (zs_distinct _ _ _ _ _ _ Hz) as Hndc.
  destruct (others_tokens w token members _ _ _ _ Hz Hnd) as (Hrec & Hin & Hall).
  set (others := others_of w token members) in *.
  set (v1 := hear (newcomer token x y) v).
  set (rest := if decide (it.1 = token) then one_record <$> others else []).
  assert (v' = foldl (λ v m, hear m v) v1 rest) as -> by (unfold v'; by rewrite news_ok).
  assert (∃ ch, character_of token v1 = Some ch ∧ GetPos ch = (x, y)) as H1.
  { eexists. split; [apply (character_of_see token (λ ch, SetPos2 ch x y)); done|done]. }
  assert (∀ t, t ≠ token → character_of t v1 = character_of t v) as H2.
  { intros t Ht. by apply (character_of_see_other token t (λ ch, SetPos2 ch x y)). }
  unfold rest. case_decide as E; [|by split_and!; [exact H1|intros _; exact H2|done|done]].
  destruct (hear_records others v1 Hrec) as [H3 H4]. split_and!; [|done| |].
  - rewrite H4; [exact H1|]. intros Ht. by destruct (Hin _ Ht).
  - intros _ t Ht. rewrite H4 by (intros Ht'; by destruct (Hin _ Ht')). apply H2. intros ->. apply Ht.
    apply list_elem_of_fmap. by exists (token, u).
  - intros _ other Ho Hne. destruct (Hall other Ho Hne) as (s & Hs & Hd & Hi).
    destruct (H3 _ Hi) as (ch & Hch & Hpos). exists s, ch. rewrite <-Hd. done.
Qed.

Lemma news_fits members conn token x y u others it :
  NoDup ((λ it, conn it.2) <$> members) → NoDup members.*1 → (token, u) ∈ members → it ∈ members →
  s2c_wf (newcomer token x y) → Forall wire_wf others →
  Forall (λ m, s2c_wf m ∧ client_message m) (news members conn token x y u others (conn it.2)) ∧
  zlen (news members conn token x y u others (conn it.2)) ≤ 1 + zlen others.
Proof.
  intros Hnd Hnd1 Hu Hit Hm Ho. rewrite news_ok by done. pose proof (zlen_nonneg others). split.
  - constructor; [by split|]. case_decide; [|constructor]. apply Forall_fmap. eapply Forall_impl; [exact Ho|].
    intros d Hd. split; [by apply one_record_wf|done].
  - rewrite zlen_cons. case_decide; [|unfold zlen; cbn; lia]. unfold zlen. rewrite length_fmap. lia.
Qed.


(** Session 11 is alone in zone 1 when session 10 enters it; the newcomer, on
    connector 1, hears of itself and of session 11. *)
Definition demo_enter : CS_P_ENTER := mkCS_P_ENTER 100.
Definition demo_say_enter : list talk_event := [Say (C_ENTER demo_enter); Sent 20; Sent 12].
Definition demo_enter_bytes : list Z := frame (c2s_payload (C_ENTER demo_enter)) 0 0.
Definition demo_lobby : SvrWorld := set_sw_zones {[ 20 := mkZone 1 {[ 101 := 11 ]} ]} demo_served_conn.
Definition demo_news : list (list Z) :=
  [frame (s2c_payload (newcomer 100 0 0)) 0 0; frame (s2c_payload (one_record (GetDbData (_nub (demo_session 2 101 2))))) 0 0].
Definition demo_news_sent : list (Z * Z) := [(1, 7); (1, 33); (2, 30); (1, 48); (2, 10)].
Lemma demo_lobby_items : std_items (std_insert 100 10 (zone_members demo_lobby 1)) = [(100, 10); (101, 11)].
Proof. vm_compute. reflexivity. Qed.
Lemma demo_lobby_told :
  zone_told demo_lobby (std_items (std_insert 100 10 (zone_members demo_lobby 1))) (λ p, p - 9) (λ _, []) (λ _, []) 0.
Proof. rewrite demo_lobby_items. by apply (told_same demo_served_conn); [..|apply demo_zone_told]. Qed.
