(* ===== verification/Game.v ===== *)
(** * The game: every client shows the zone as the server has it
    The messages of a game (enter, leave, move, interaction, echo, heartbeat)
    handled one after the other by svr/user_session.cpp, the passes of the
    command queue of svr/process.cpp behind each, and what the clients of
    src/project_pl_cpp_20/cli make of everything they are told; and what
    becomes of it when two messages share a pass, or someone returns. *)
From S2P Require Import Prelude Buffer Wire Character Protocol Packet ObjectPool CommandQueue.
From S2P Require Import PacketQueue TimeSet Config System Connector Network NetFrame Duplex SvrState Session Server.
From S2P Require Import SvrFrame Text Client ServerLaws ThreadLaws SessionLaws CommandLaws ClientLaws EndToEnd ClientConn.
From S2P Require Import Broadcast Entry.

(** Everybody is told more, and not too much. *)
Definition grows (k : Z) (told told' : Z → list s2c) : Prop :=
  ∀ c, told c `prefix_of` told' c ∧ zlen (told' c) ≤ zlen (told c) + k.
Lemma grows_tells told ts k : zlen ts ≤ k → grows k told (λ c, told c ++ tells ts c).
Proof.
  intros Hk c. split; [by eexists|]. rewrite zlen_app. assert (zlen (tells ts c) ≤ zlen ts); [|lia].
  unfold tells, zlen. rewrite length_fmap. apply inj_le, length_filter.
Qed.
Lemma grows_same k told : 0 ≤ k → grows k told told.
Proof. intros Hk c. split; [done|lia]. Qed.
Lemma grows_trans j k told1 told2 told3 : grows j told1 told2 → grows k told2 told3 → grows (j + k) told1 told3.
Proof. intros H1 H2 c. destruct (H1 c), (H2 c). split; [by etrans|lia]. Qed.

(** ** Passes of the command queue *)
Section Passes.
Context `{OSLaws}.
Implicit Types (w : SvrWorld).
Hypothesis Haccept : sends_accepted.

Definition passes : svr unit := _ ← (_ ← svr_Tick; svr_Tick); svr_Tick.

Lemma idle_tick w : sw_cmds w = [] → svr_Tick w = Ok (tt, w).
Proof. intros E. unfold svr_Tick. rewrite E. cbn. destruct w. cbn in E. by subst. Qed.

Lemma members_sessions w people conn sent told budget zone :
  zone_told w people conn sent told budget → (∀ it, it ∈ std_items (zone_members w zone) → it ∈ people) →
  ∀ it, it ∈ std_items (zone_members w zone) → ∃ s, sw_sessions w !! it.2 = Some s ∧ session_GetToken s = it.1.
Proof.
  intros [(fr & _ & [Hm _ _])] Hin it Hit. rewrite Forall_forall in Hm.
  destruct (Hm it (Hin it Hit)) as [(s & ? & ? & _) _]. by exists s.
Qed.

(** Two passes tell the members of a zone. *)
Lemma broadcast_passes w zone m now people conn sent told budget :
  sw_cmds w = [broadcast zone m now] → s2c_wf m → zone_live w zone →
  zone_told w people conn sent told budget → (∀ it, it ∈ std_items (zone_members w zone) → it ∈ people) →
  budget + zlen (std_items (zone_members w zone)) < 2 ^ 31 →
  ∃ n, let w' := set_sw_net n (set_sw_cmds [] w) in (_ ← svr_Tick; svr_Tick) w = Ok (tt, w') ∧
    zone_told w' people conn sent
      (λ c, told c ++ tells ((λ it, (conn it.2, m)) <$> std_items (zone_members w zone)) c)
      (budget + zlen (std_items (zone_members w zone))).
Proof.
  intros Hcmds Hm Hl Ht Hin Hb.
  assert (svr_Tick w = Ok (tt, set_sw_cmds (copies (std_items (zone_members w zone)) m now) w)) as E1.
  { unfold svr_Tick. rewrite Hcmds. cbn [fire_list].
    rewrite (broadcast_adds (set_sw_cmds [] w) zone m now Hm Hl) by exact (members_sessions w people conn sent told budget zone Ht Hin).
    cbn [mbind outcome_bind]. by rewrite app_nil_r. }
  destruct (tell_all Haccept people conn sent (copies (std_items (zone_members w zone)) m now)
    ((λ it, (conn it.2, m)) <$> std_items (zone_members w zone)) (set_sw_cmds [] w) told budget) as (n & E2 & Hz).
  - by apply (told_same w).
  - unfold zlen in *. by rewrite length_fmap.
  - by apply copies_addressed.
  - exists n. rewrite (st_bind_ok _ _ _ _ _ E1). split.
    + unfold svr_Tick. cbn [sw_cmds set_sw_cmds].
      change (set_sw_cmds [] (set_sw_cmds (copies _ m now) w)) with (set_sw_cmds [] w). by rewrite E2.
    + unfold zlen in *. by rewrite length_fmap in Hz.
Qed.

(** The pass of a departure: out of the zone, and its broadcast is added. *)
Lemma leave_tick w token zone u us :
  sw_cmds w = [LeaveCharacter token zone] → _userMap w !! token = Some u → sw_sessions w !! u = Some us →
  in_s 64 token → zone_live w zone →
  ∃ now w', svr_Tick w = Ok (tt, w') ∧ sw_cmds w' = [broadcast zone (S_LEAVE (mkSC_P_LEAVE token)) now] ∧
    sw_sessions w' = <[u := set_nub (ResetPos (_nub us)) us]> (sw_sessions w) ∧ _userMap w' = _userMap w ∧
    nw_conns (sw_net w') = nw_conns (sw_net w) ∧ (∀ c, sends c (nw_trace (sw_net w')) = sends c (nw_trace (sw_net w))) ∧
    _zoneMap w' = _zoneMap w ∧ (∀ z, zone_live w z → zone_live w' z) ∧ (∀ z, zone_ready w z → zone_ready w' z) ∧
    zone_members w' zone = delete token (zone_members w zone) ∧
    (_zoneMap w !! zone = None → sw_zones w' = sw_zones w).
Proof.
  intros Hcmds Hu Hs Ht Hl. set (ws := set_sw_sessions (<[u := set_nub (ResetPos (_nub us)) us]> (sw_sessions w)) (set_sw_cmds [] (set_sw_cmds [] w))).
  assert (∃ zs, ZoneMgr_LeaveCharacter zone token ws = Ok (tt, set_sw_zones zs ws) ∧
    (∀ p, is_Some (sw_zones w !! p) → is_Some (zs !! p)) ∧
    zone_members (set_sw_zones zs ws) zone = delete token (zone_members w zone) ∧
    (_zoneMap w !! zone = None → zs = sw_zones w)) as (zs & E & Hzs & Hmem & Hno).
  { unfold ZoneMgr_LeaveCharacter, zone_live, zone_members in *. erewrite st_bind_ok by reflexivity.
    cbn [ws _zoneMap set_sw_sessions set_sw_cmds set_sw_zones sw_zones].
    destruct (_zoneMap w !! zone) as [zp|]; cbn [mbind option_bind].
    - destruct Hl as [z Hz]. rewrite Hz.
      exists (<[zp := mkZone (z_id z) (delete token (_characterMap z))]> (sw_zones w)). split_and!; [| | |done].
      + unfold OnUnregistCharacter_token. erewrite st_bind_ok by (by apply zone_get_ok). cbv beta. exact (zone_set_ok zp z _ ws Hz).
      + intros p Hp. apply lookup_insert_is_Some'. by right.
      + by rewrite lookup_insert_eq.
    - exists (sw_zones w). rewrite delete_empty. split_and!; [by destruct w|done..]. }
  destruct (build_packet_ok (S_LEAVE (mkSC_P_LEAVE token)) (set_sw_zones zs ws) Ht) as (now & w2 & E2 & ->).
  eexists now, _. split.
  { unfold svr_Tick. rewrite Hcmds. cbn [fire_list]. unfold Operator_adds. cbn [Operator].
    unfold LeaveCharacter_Operator, GetUserSession. erewrite st_bind_ok by (by erewrite st_bind_ok by reflexivity).
    cbn [_userMap set_sw_cmds]. rewrite Hu. erewrite st_bind_ok by (by apply us_mod_ok). cbv beta.
    change (set_sw_sessions _ _) with ws. rewrite (st_bind_ok _ _ _ _ _ E).
    erewrite st_bind_ok by (unfold new_SendBroadcastToAllUser; erewrite st_bind_ok by exact E2; reflexivity).
    reflexivity. }
  cbn [sw_cmds sw_sessions _userMap sw_net set_sw_cmds set_sw_net set_sw_zones set_sw_sessions ws nw_conns nw_trace set_nw_trace _zoneMap sw_zones].
  split_and!; try done.
  - intros c. by rewrite sends_app, app_nil_r.
  - intros z. unfold zone_live. cbn [_zoneMap sw_zones set_sw_cmds set_sw_net set_sw_zones ws set_sw_sessions].
    destruct (_zoneMap w !! z); [apply Hzs|done].
  - intros z. unfold zone_ready. cbn [_zoneMap sw_zones sw_zmgr set_sw_cmds set_sw_net set_sw_zones ws set_sw_sessions].
    destruct (_zoneMap w !! z); [apply Hzs|done].
Qed.
End Passes.

(** ** The game between two messages *)

(** What connector [c] shows after everything it was told; [v] is what it
    showed before. *)
Definition picture (v : Z → view) (told : Z → list s2c) (c : Z) : view := foldl (λ v m, hear m v) (v c) (told c).

(** A character is shown where its session has it. *)
Definition shown (w : SvrWorld) (t q : Z) (vw : view) : Prop :=
  ∃ s ch, sw_sessions w !! q = Some s ∧ character_of t vw = Some ch ∧ GetPos ch = GetPos (_nub s).

(** [people] are the signed-in sessions by token; the members of zone 1 are
    some of them, the others are in the lobby, which is no zone; no command is
    waiting, and every member shows every member. *)
Record game `{OS} (w : SvrWorld) (people : list (Z * Z)) (conn : Z → Z) (sent : Z → list Z)
    (told : Z → list s2c) (budget : Z) (v : Z → view) : Prop := {
  gm_told : zone_told w people conn sent told budget;
  gm_idle : sw_cmds w = [];
  gm_tokens : NoDup people.*1;
  gm_zone : zone_ready w 1;
  gm_lobby : _zoneMap w !! 0 = None;
  gm_members t q : zone_members w 1 !! t = Some q → (t, q) ∈ people;
  gm_place it s : it ∈ people → sw_sessions w !! it.2 = Some s →
    wire_wf (GetDbData (_nub s)) ∧ GetZoneId (_nub s) = if zone_members w 1 !! it.1 then 1 else 0;
  gm_words it : it ∈ people → Forall (λ m, s2c_wf m ∧ client_message m ∧ byte_message m) (told (conn it.2));
  gm_agree it t q : it ∈ people → zone_members w 1 !! it.1 = Some it.2 → zone_members w 1 !! t = Some q →
    shown w t q (picture v told (conn it.2)) }.

Section GameLaws.
Context `{OSLaws}.
Implicit Types (w : SvrWorld).

Lemma people_session w people conn sent told budget v it :
  game w people conn sent told budget v → it ∈ people →
  ∃ s, sw_sessions w !! it.2 = Some s ∧ session_GetToken s = it.1 ∧ us_pConnector s = Some (conn it.2) ∧ _userMap w !! it.1 = Some it.2.
Proof.
  intros Hg Hit. destruct (gm_told _ _ _ _ _ _ _ Hg) as [(fr & _ & [Hm _ _])]. rewrite Forall_forall in Hm.
  destruct (Hm it Hit) as [(s & ? & ? & ?) ?]. by exists s.
Qed.
Lemma people_conn w people conn sent told budget v :
  game w people conn sent told budget v → NoDup ((λ it, conn it.2) <$> people).
Proof. intros Hg. destruct (gm_told _ _ _ _ _ _ _ Hg) as [(fr & _ & [_ _ Hnd])]. exact Hnd. Qed.
Lemma people_same w people conn sent told budget v a b :
  game w people conn sent told budget v → a ∈ people → b ∈ people → a.2 = b.2 → a = b.
Proof. intros Hg Ha Hb E. apply (conn_inj conn people a b (people_conn _ _ _ _ _ _ _ Hg) Ha Hb). by rewrite E. Qed.

Lemma people_token w people conn sent told budget v t p q :
  game w people conn sent told budget v → (t, p) ∈ people → (t, q) ∈ people → p = q.
Proof.
  intros Hg [i Hi]%list_elem_of_lookup [k Hk]%list_elem_of_lookup.
  assert (i = k) as ->; [|congruence].
  apply (NoDup_lookup _ i k t (gm_tokens _ _ _ _ _ _ _ Hg)); by rewrite list_lookup_fmap, ?Hi, ?Hk.
Qed.

(** A member's zone counts the people in it. *)
Lemma items_NoDup (m : gmap Z Z) : NoDup (std_items m).
Proof. eapply NoDup_fmap_1, std_items_NoDup. Qed.
Lemma members_fit (people : list (Z * Z)) (m : gmap Z Z) :
  (∀ it, it ∈ std_items m → it ∈ people) → zlen (std_items m) ≤ zlen people.
Proof.
  intros Hin. unfold zlen. apply inj_le, submseteq_length, NoDup_submseteq; [apply items_NoDup|exact Hin].
Qed.

(** What one of the people is told when all of [items] are told the same. *)
Lemma member_tells (people items : list (Z * Z)) (conn : Z → Z) m it :
  NoDup ((λ it, conn it.2) <$> people) → (∀ j, j ∈ items → j ∈ people) → NoDup items → it ∈ people →
  tells ((λ it, (conn it.2, m)) <$> items) (conn it.2) = if decide (it ∈ items) then [m] else [].
Proof.
  intros Hnd Hin Hi Hit. case_decide as E.
  - apply (tells_each (λ it : Z * Z, conn it.2) m items it); [|done].
    apply NoDup_fmap_2_strong; [|done]. intros a b Ha Hb. apply (conn_inj conn people); auto.
  - apply tells_none. intros Hc. rewrite <-list_fmap_compose in Hc. apply list_elem_of_fmap in Hc as (j & Ej & Hj).
    cbn in Ej. apply E. by rewrite (conn_inj conn people it j Hnd Hit (Hin j Hj) Ej).
Qed.

(** The zone of a session, and its members. *)
Lemma zone_of_people w people conn sent told budget v it s :
  game w people conn sent told budget v → it ∈ people → sw_sessions w !! it.2 = Some s →
  zone_live w (GetZoneId (_nub s)) ∧
  zone_members w (GetZoneId (_nub s)) = (if zone_members w 1 !! it.1 then zone_members w 1 else ∅) ∧
  ∀ j, j ∈ std_items (zone_members w (GetZoneId (_nub s))) → j ∈ people.
Proof.
  intros Hg Hit Hs. destruct (gm_place _ _ _ _ _ _ _ Hg it s Hit Hs) as [_ ->].
  assert (zone_members w 0 = ∅) as H0' by (unfold zone_members; by rewrite (gm_lobby _ _ _ _ _ _ _ Hg)).
  destruct (zone_members w 1 !! it.1) as [q|].
  - split; [|split; [done|]].
    + unfold zone_live. pose proof (gm_zone _ _ _ _ _ _ _ Hg) as Hr. unfold zone_ready in Hr. by destruct (_zoneMap w !! 1).
    + intros [t p] Hj%elem_of_std_items. by eapply gm_members.
  - rewrite H0'. split; [|split; [done|]].
    + unfold zone_live. by rewrite (gm_lobby _ _ _ _ _ _ _ Hg).
    + intros [t p] Hj%elem_of_std_items. done.
Qed.

Lemma picture_told v told told' c more : told' c = told c ++ more →
  picture v told' c = foldl (λ v m, hear m v) (picture v told c) more.
Proof. intros E. unfold picture. by rewrite E, foldl_app. Qed.

(** ** What a message does to a picture *)
Lemma shown_same w w' t q vw vw' :
  sw_sessions w' !! q = sw_sessions w !! q → character_of t vw' = character_of t vw → shown w t q vw → shown w' t q vw'.
Proof. intros Hs Hc (s & ch & ? & ? & ?). exists s, ch. by rewrite Hs, Hc. Qed.

(** A message that says of the token [t], known to be at [a], that it is at
    [b], and nothing of anybody else. *)
Definition says_of (m : s2c) (t : Z) (a b : Z * Z) : Prop :=
  (∀ vw ch, character_of t vw = Some ch → GetPos ch = a → ∃ ch', character_of t (hear m vw) = Some ch' ∧ GetPos ch' = b) ∧
  ∀ vw t', t' ≠ t → character_of t' (hear m vw) = character_of t' vw.
Lemma says_silent m t a : (∀ vw, hear m vw = vw) → says_of m t a a.
Proof. intros Hm. split; intros vw ch ?; rewrite Hm; [|done]. intros Ha. by exists ch. Qed.
Lemma says_move t x y a : says_of (S_MOVE (mkSC_P_MOVE t x y)) t a (x, y).
Proof.
  split; intros vw.
  - intros ch Hc _. rewrite (character_of_move (mkSC_P_MOVE t x y)). cbn [sc_move_token]. rewrite Hc. by eexists.
  - intros t' Ht. by apply character_of_move_other.
Qed.

(** A handler that changes its session to [us'] and broadcasts [m]: the members
    of the session's zone are told. *)
Lemma said_passes w people conn sent told budget v it us us' m now :
  sends_accepted → game w people conn sent told budget v → it ∈ people → sw_sessions w !! it.2 = Some us →
  session_GetToken us' = session_GetToken us → us_pConnector us' = us_pConnector us → s2c_wf m →
  budget + 2 * zlen people < 2 ^ 31 →
  let items := std_items (zone_members w (GetZoneId (_nub us))) in
  let w1 := broadcasting (GetZoneId (_nub us)) m now (set_sw_sessions (<[it.2 := us']> (sw_sessions w)) w) in
  ∃ n told', let w' := set_sw_net n (set_sw_cmds [] w1) in passes w1 = Ok (tt, w') ∧ grows (2 * zlen people) told told' ∧
    zone_told w' people conn sent told' (budget + 2 * zlen people) ∧
    ∀ j, j ∈ people → told' (conn j.2) = told (conn j.2) ++ if decide (j ∈ items) then [m] else [].
Proof.
  intros Ha Hg Hit Hs Htk Hcn Hm Hb items w1. set (zone := GetZoneId (_nub us)) in *.
  destruct (zone_of_people _ _ _ _ _ _ _ it us Hg Hit Hs) as (Hlive & _ & Hin). fold zone in Hlive, Hin.
  pose proof (members_fit people _ Hin) as Hfit. fold items in Hfit. pose proof (zlen_nonneg people).
  destruct (broadcast_passes Ha w1 zone m now people conn sent told budget) as (n & E1 & Ht1); try done.
  { unfold w1, broadcasting. cbn [sw_cmds set_sw_cmds set_sw_net set_sw_sessions]. by rewrite (gm_idle _ _ _ _ _ _ _ Hg). }
  { apply (told_same (set_sw_sessions (<[it.2 := us']> (sw_sessions w)) w)); [done..| |].
    - intros c. unfold w1, broadcasting. cbn [sw_net set_sw_cmds set_sw_net nw_trace set_nw_trace].
      by rewrite sends_app, app_nil_r.
    - apply (resession_told _ _ us); [done..|]. by apply (gm_told _ _ _ _ _ _ _ Hg). }
  { change (zone_members w1 zone) with (zone_members w zone). fold items. lia. }
  change (zone_members w1 zone) with (zone_members w zone) in *. fold items in E1, Ht1.
  eexists n, (λ c, told c ++ tells ((λ it, (conn it.2, m)) <$> items) c).
  split_and!; [|apply grows_tells; unfold zlen in *; rewrite length_fmap; lia|eapply told_more; [exact Ht1|lia]|].
  - unfold passes. rewrite (st_bind_ok _ _ _ _ _ E1). by apply idle_tick.
  - intros j Hj. cbv beta. f_equal. apply (member_tells people); [by eapply people_conn|done|apply items_NoDup|done].
Qed.

(** The game goes on, when [m] says of the character where it is now. *)
Lemma said_ok w people conn sent told budget v it us us' m now :
  sends_accepted → game w people conn sent told budget v → it ∈ people → sw_sessions w !! it.2 = Some us →
  session_GetToken us' = session_GetToken us → us_pConnector us' = us_pConnector us →
  GetZoneId (_nub us') = GetZoneId (_nub us) → wire_wf (GetDbData (_nub us')) →
  s2c_wf m ∧ client_message m ∧ byte_message m → says_of m it.1 (GetPos (_nub us)) (GetPos (_nub us')) →
  budget + 2 * zlen people < 2 ^ 31 →
  ∃ w' told', passes (broadcasting (GetZoneId (_nub us)) m now (set_sw_sessions (<[it.2 := us']> (sw_sessions w)) w)) = Ok (tt, w') ∧
    grows (2 * zlen people) told told' ∧ game w' people conn sent told' (budget + 2 * zlen people) v.
Proof.
  intros Ha Hg Hit Hs Htk Hcn Hzn Hwf Hm [Hsay Hother] Hb. pose proof Hg as [_ Hidle Hnd Hzone Hlobby Hmem Hplace Hwords Hagree].
  destruct (said_passes w people conn sent told budget v it us us' m now Ha Hg Hit Hs Htk Hcn (proj1 Hm) Hb)
    as (n & told' & E & Hpre & Ht & Etold).
  destruct (zone_of_people _ _ _ _ _ _ _ it us Hg Hit Hs) as (_ & Hzm & _).
  set (w1 := broadcasting _ m now _) in *. set (w2 := set_sw_net n _) in *.
  exists w2, told'. split_and!; [done|done|]. split; try done.
  - intros j s Hj Hsj. change (zone_members w2 1) with (zone_members w 1). cbn in Hsj.
    apply lookup_insert_Some in Hsj as [[E' <-]|[_ Hsj]]; [|by apply Hplace].
    split; [done|]. rewrite <-(people_same _ _ _ _ _ _ _ it j Hg Hit Hj E'), Hzn. by apply Hplace.
  - intros j Hj. rewrite Etold by done. apply Forall_app. split; [by apply Hwords|].
    case_decide; [by apply Forall_singleton|done].
  - change (zone_members w2 1) with (zone_members w 1). intros j t q Hj Hjm Hq.
    rewrite (picture_told v told told' (conn j.2) _ (Etold j Hj)).
    pose proof (Hagree j t q Hj Hjm Hq) as (s & ch & Hsq & Hch & Hpos).
    destruct (decide (t = it.1)) as [->|Hne].
    + assert (q = it.2) as -> by (apply (people_token _ _ _ _ _ _ _ it.1 _ _ Hg (Hmem _ _ Hq)); by destruct it).
      rewrite Hs in Hsq. injection Hsq as <-.
      rewrite decide_True by (rewrite Hzm, Hq; destruct j; by apply elem_of_std_items).
      destruct (Hsay _ ch Hch Hpos) as (ch' & ? & ?). exists us', ch'. split_and!; [apply lookup_insert_eq|done|done].
    + assert (q ≠ it.2) as Hq2.
      { intros E'. pose proof (people_same _ _ _ _ _ _ _ (t, q) it Hg (Hmem _ _ Hq) Hit E') as <-. done. }
      exists s, ch. split_and!; [cbn; by rewrite lookup_insert_ne| |done].
      rewrite <-Hch. case_decide; [|done]. by apply Hother.
Qed.

(** Messages of which the zone hears nothing. *)
Lemma unheard_ok w people conn sent told budget v it us us' :
  game w people conn sent told budget v → it ∈ people → sw_sessions w !! it.2 = Some us →
  us_pConnector us' = us_pConnector us → _nub us' = _nub us →
  let w' := set_sw_sessions (<[it.2 := us']> (sw_sessions w)) w in
  passes w' = Ok (tt, w') ∧ game w' people conn sent told (budget + 2 * zlen people) v.
Proof.
  intros Hg Hit Hs Hcn Hnub w'. pose proof Hg as [Htold Hidle Hnd Hzone Hlobby Hmem Hplace Hwords Hagree].
  pose proof (zlen_nonneg people).
  assert (∀ q s, sw_sessions w !! q = Some s → ∃ s', sw_sessions w' !! q = Some s' ∧ _nub s' = _nub s) as Hsame.
  { intros q s Hq. cbn. destruct (decide (q = it.2)) as [->|Hne].
    - rewrite lookup_insert_eq. exists us'. split; [done|congruence].
    - rewrite lookup_insert_ne by done. by exists s. }
  split. { unfold passes. rewrite (st_bind_ok _ _ _ tt w'); [by apply idle_tick|]. rewrite (st_bind_ok _ _ _ tt w'); by apply idle_tick. }
  split; try done.
  - apply (told_more _ _ _ _ _ budget); [|lia]. apply (resession_told _ _ us); [done| |done|done]. unfold session_GetToken. by rewrite Hnub.
  - intros j s Hj Hsj. change (zone_members w' 1) with (zone_members w 1). cbn in Hsj.
    apply lookup_insert_Some in Hsj as [[E <-]|[_ Hsj]]; [|by apply Hplace]. rewrite Hnub. apply Hplace; [done|]. by rewrite <-E.
  - change (zone_members w' 1) with (zone_members w 1). intros j t q Hj Hjm Hq.
    destruct (Hagree j t q Hj Hjm Hq) as (s & ch & Hsq & Hch & Hpos).
    destruct (Hsame q s Hsq) as (s' & ? & Hn). exists s', ch. by rewrite Hn.
Qed.

(** ** An entry *)

(** The newcomer's place in the map of members, whether it was there or not. *)
Lemma entered w people conn sent told budget v it t q :
  game w people conn sent told budget v → it ∈ people →
  std_insert it.1 it.2 (zone_members w 1) !! t = Some q ↔ (t, q) = it ∨ zone_members w 1 !! t = Some q.
Proof.
  intros Hg Hit. rewrite std_insert_lookup. pose proof (gm_members _ _ _ _ _ _ _ Hg) as Hmem.
  assert (∀ p, zone_members w 1 !! it.1 = Some p → p = it.2) as Hold.
  { intros p Hp. apply (people_token _ _ _ _ _ _ _ it.1 _ _ Hg (Hmem _ _ Hp)). by destruct it. }
  case_decide as E; subst.
  - split.
    + intros [= <-]. left. destruct (zone_members w 1 !! it.1) as [p|] eqn:Ep; cbn; [rewrite (Hold p eq_refl)|]; by destruct it.
    + intros [E|Hq]; [|by rewrite Hq]. apply (f_equal snd) in E. cbn in E. subst q.
      destruct (zone_members w 1 !! it.1) as [p|] eqn:Ep; [cbn; f_equal; by apply Hold|done].
  - split; [by right|]. intros [E'|Hq]; [|done]. by rewrite <-E' in E.
Qed.

(** Who is no member of the zone is told nothing of an entry. *)
Lemma news_none people conn members token x y u others j :
  NoDup ((λ it, conn it.2) <$> people) → (∀ i, i ∈ members → i ∈ people) → (token, u) ∈ members →
  j ∈ people → j ∉ members → news members conn token x y u others (conn j.2) = [].
Proof.
  intros Hnd Hin Hu Hj Hno. apply tells_none. unfold entry_tells. rewrite fmap_app. intros [Hc|Hc]%elem_of_app.
  - rewrite <-list_fmap_compose in Hc. apply list_elem_of_fmap in Hc as (i & Ei & Hi). cbn in Ei.
    apply Hno. by rewrite (conn_inj conn people j i Hnd Hj (Hin i Hi) Ei).
  - rewrite <-list_fmap_compose in Hc. apply list_elem_of_fmap in Hc as (m & Em & _). cbn in Em.
    apply Hno. by rewrite (conn_inj conn people j (token, u) Hnd Hj (Hin _ Hu) Em).
Qed.

Lemma newcomer_bytes x y token u members conn others c :
  Forall (λ m, byte_message m) (news members conn token x y u others c).
Proof.
  unfold news, entry_tells. rewrite tells_app. apply Forall_app. split; unfold tells; apply Forall_fmap, Forall_forall;
    intros t [_ Ht]%list_elem_of_filter; apply list_elem_of_fmap in Ht as (i & -> & Hi); [done|].
  apply list_elem_of_fmap in Hi as (d & -> & _). done.
Qed.

(** What [C2S_Enter] leaves behind. *)
Definition entering (it : Z * Z) (us : UserSession) (x y : Z) (n : NetWorld) w : SvrWorld :=
  set_sw_cmds [EnterCharacter it.1 1 x y]
    (set_sw_sessions (<[it.2 := placed us x y]> (sw_sessions w)) (set_sw_net n w)).

Lemma entry_passes w people conn sent told budget v it us x y n0 :
  sends_accepted → game w people conn sent told budget v → it ∈ people → sw_sessions w !! it.2 = Some us →
  -1000 < x < 1000 ∧ -1000 < y < 1000 → nw_conns n0 = nw_conns (sw_net w) →
  (∀ c, sends c (nw_trace n0) = sends c (nw_trace (sw_net w))) → budget + 2 * zlen people < 2 ^ 31 →
  let w1 := entering it us x y n0 w in
  let members := std_items (std_insert it.1 it.2 (zone_members w 1)) in
  let others := others_of w1 it.1 members in
  ∃ w', passes w1 = Ok (tt, w') ∧ sw_sessions w' = sw_sessions w1 ∧ sw_cmds w' = [] ∧
    zone_members w' 1 = std_insert it.1 it.2 (zone_members w 1) ∧ zone_ready w' 1 ∧ _zoneMap w' !! 0 = None ∧
    s2c_wf (newcomer it.1 x y) ∧ Forall wire_wf others ∧ (∀ j, j ∈ members → j ∈ people) ∧ it ∈ members ∧
    zone_told w' people conn sent (λ c, told c ++ news members conn it.1 x y it.2 others c) (budget + 2 * zlen people).
Proof.
  intros Ha Hg Hit Hs Hxy Hn0 Ht0 Hb w1 members others.
  destruct (people_session _ _ _ _ _ _ _ it Hg Hit) as (s0 & Hs0 & Htk & _ & Hum). rewrite Hs in Hs0. injection Hs0 as <-.
  pose proof Hg as [Htold Hidle Hnd Hzone Hlobby Hmem Hplace _ _]. destruct (Hplace it us Hit Hs) as [Hwf0 _].
  assert (in_s 64 it.1) as Hin64 by (rewrite <-Htk; by destruct Hwf0).
  destruct (small_place us x y) as [Hm Hpl]; [by rewrite Htk|done|]. rewrite Htk in Hm.
  assert (∀ j, j ∈ members → j ∈ people) as Hin.
  { intros [t q] [E|Hq]%elem_of_std_items%(entered _ _ _ _ _ _ _ it _ _ Hg Hit); [by rewrite E|by apply Hmem]. }
  assert (it ∈ members) as Hitm.
  { destruct it as [t q]. apply elem_of_std_items. apply (entered _ _ _ _ _ _ _ (t, q) _ _ Hg Hit). by left. }
  assert (Forall (λ i, ∀ s, sw_sessions w1 !! i.2 = Some s → wire_wf (GetDbData (_nub s))) people) as Hwf1.
  { apply Forall_forall. intros j Hj s Hsj. cbn in Hsj. apply lookup_insert_Some in Hsj as [[_ <-]|[_ Hsj]]; [done|].
    by apply (Hplace j). }
  pose proof (members_fit people _ Hin) as Hfit. fold members in Hfit.
  destruct (enter_ticks w1 it.1 1 x y it.2 (placed us x y) people conn sent told budget Ha)
    as (w' & E & Hs' & Hz' & Hr' & Ho' & Hc' & Ht'); try done.
  - apply lookup_insert_eq.
  - apply (told_same (set_sw_sessions (<[it.2 := placed us x y]> (sw_sessions w)) w)); [done..|].
    by apply (resession_told _ _ us).
  - change (zone_members w1 1) with (zone_members w 1). fold members. lia.
  - change (zone_members w1 1) with (zone_members w 1) in *. fold members others in Ht'. fold members in Hz'.
    exists w'. split_and!; try done.
    + by rewrite Ho'.
    + apply others_wf. rewrite Forall_forall in Hwf1 |- *. intros j Hj. apply (Hwf1 j), Hin, Hj.
    + eapply told_more; [exact Ht'|lia].
Qed.

(** The game goes on with the newcomer. *)
Lemma entered_ok w people conn sent told budget v it us x y n0 :
  sends_accepted → game w people conn sent told budget v → it ∈ people → sw_sessions w !! it.2 = Some us →
  -1000 < x < 1000 ∧ -1000 < y < 1000 → nw_conns n0 = nw_conns (sw_net w) →
  (∀ c, sends c (nw_trace n0) = sends c (nw_trace (sw_net w))) → budget + 2 * zlen people < 2 ^ 31 →
  ∃ w' told', passes (entering it us x y n0 w) = Ok (tt, w') ∧
    grows (2 * zlen people) told told' ∧ game w' people conn sent told' (budget + 2 * zlen people) v ∧
    zone_members w' 1 = std_insert it.1 it.2 (zone_members w 1) ∧
    ∀ t, zone_members w' 1 !! t = None →
      character_of t (picture v told' (conn it.2)) = character_of t (picture v told (conn it.2)).
Proof.
  intros Ha Hg Hit Hs Hxy Hn0 Ht0 Hb.
  destruct (entry_passes w people conn sent told budget v it us x y n0 Ha Hg Hit Hs Hxy Hn0 Ht0 Hb)
    as (w' & E & Hs' & Hc' & Hz' & Hr' & Ho' & Hm & Hwf & Hin & Hitm & Ht').
  set (members := std_items (std_insert it.1 it.2 (zone_members w 1))) in *. set (others := others_of _ it.1 members) in *.
  pose proof Hg as [Htold Hidle Hnd Hzone Hlobby Hmem Hplace Hwords Hagree].
  pose proof (people_conn _ _ _ _ _ _ _ Hg) as Hndc. pose proof Ht' as [(fr & _ & Hserved)].
  pose proof (served_sub _ _ _ _ _ _ members Hserved Hin (items_NoDup _)) as Hsm.
  pose proof (zs_distinct _ _ _ _ _ _ Hsm) as Hndm. pose proof (std_items_NoDup (std_insert it.1 it.2 (zone_members w 1))) as Hnd1. fold members in Hnd1.
  assert ((it.1, it.2) ∈ members) as Hitm' by (by destruct it).
  set (told' := λ c, told c ++ news members conn it.1 x y it.2 others c) in *.
  assert (others_of w' it.1 members = others) as Eo by (unfold others, others_of; by rewrite Hs').
  exists w', told'. split_and!; [done| | |done|].
  { apply grows_tells. rewrite zlen_entry_tells. pose proof (others_length (entering it us x y n0 w) it.1 members) as Hol.
    pose proof (members_fit people _ Hin) as Hfit. fold others members in Hol, Hfit. lia. }
  2:{ intros t Hno. rewrite (picture_told v told told' (conn it.2) _ eq_refl), <-Eo.
    destruct (news_seen w' members conn _ _ _ it.1 x y it.2 it (picture v told (conn it.2)) Hsm Hnd1 Hitm' Hitm) as (_ & _ & H3 & _).
    apply H3; [done|]. intros Hi. apply list_elem_of_fmap in Hi as ([t0 q0] & -> & Hi%elem_of_std_items). cbn [fst] in Hno. by rewrite Hz', Hi in Hno. }
  split; try done.
  - rewrite Hz'. intros t q [E'|Hq]%(entered _ _ _ _ _ _ _ it _ _ Hg Hit); [by rewrite E'|by apply Hmem].
  - rewrite Hz', Hs'. intros j s Hj Hsj. cbn in Hsj. rewrite std_insert_lookup.
    apply lookup_insert_Some in Hsj as [[E' <-]|[Hne Hsj]].
    + assert (it = j) as <- by (by eapply people_same). rewrite decide_True by done. split; [|done].
      destruct (people_session _ _ _ _ _ _ _ it Hg Hit) as (s0 & Hs0 & Htk & _). rewrite Hs in Hs0. injection Hs0 as <-.
      apply small_place; [rewrite Htk|done]. apply Hm.
    + rewrite decide_False; [by apply Hplace|]. intros E'. apply Hne. destruct it, j. cbn in *. subst. by eapply people_token.
  - intros j Hj. unfold told'. apply Forall_app. split; [by apply Hwords|].
    destruct (decide (j ∈ members)) as [Hjm|Hjm]; [|by rewrite (news_none people)].
    destruct (news_fits members conn it.1 x y it.2 others j Hndm Hnd1 Hitm' Hjm Hm Hwf) as [Hf _].
    pose proof (newcomer_bytes x y it.1 it.2 members conn others (conn j.2)) as Hbytes.
    rewrite Forall_forall in Hf, Hbytes |- *. intros m Hmm. destruct (Hf m Hmm). split_and!; [done..|by apply Hbytes].
  - rewrite Hz'. intros j t q Hj Hjm Hq.
    assert (j ∈ members) as Hjm' by (destruct j; by apply elem_of_std_items).
    rewrite (picture_told v told told' (conn j.2) _ eq_refl).
    destruct (news_seen w' members conn _ _ _ it.1 x y it.2 j (picture v told (conn j.2)) Hsm Hnd1 Hitm' Hjm') as (H1 & H2 & _ & H4).
    rewrite Eo in H1, H2, H4. destruct (decide (t = it.1)) as [->|Hne].
    + assert (q = it.2) as ->.
      { apply (entered _ _ _ _ _ _ _ it _ _ Hg Hit) in Hq as [E'|Hq]; [by rewrite <-E'|].
        apply (people_token _ _ _ _ _ _ _ it.1 _ _ Hg (Hmem _ _ Hq)). by destruct it. }
      destruct H1 as (ch & Hch & Hpos). exists (placed us x y), ch. rewrite Hs'. split_and!; [apply lookup_insert_eq|exact Hch|exact Hpos].
    + assert ((t, q) ∈ members) as Hqm by (by apply elem_of_std_items).
      destruct (decide (j.1 = it.1)) as [Ej|Hj1].
      * destruct (H4 Ej (t, q) Hqm Hne) as (s & ch & Hsq & Hch & Hpos). exists s, ch. split_and!; [exact Hsq|exact Hch|].
        unfold GetPos. by rewrite Hpos.
      * apply (entered _ _ _ _ _ _ _ it _ _ Hg Hit) in Hq as [E'|Hq]; [by rewrite <-E' in Hne|].
        apply (entered _ _ _ _ _ _ _ it _ _ Hg Hit) in Hjm as [E'|Hjm]; [by rewrite <-E' in Hj1|].
        apply (shown_same w _ _ _ (picture v told (conn j.2))); [|by apply H2|by apply Hagree].
        rewrite Hs'. cbn. rewrite lookup_insert_ne; [done|]. intros E'.
        pose proof (people_same _ _ _ _ _ _ _ it (t, q) Hg Hit (Hmem _ _ Hq) E') as E2. by rewrite E2 in Hne.
Qed.

(** ** A departure *)
Lemma character_of_leave_other t t' vw :
  t' ≠ t → character_of t' (hear (S_LEAVE (mkSC_P_LEAVE t)) vw) = character_of t' vw.
Proof.
  intros Ht. unfold character_of. cbn [hear sc_leave_token].
  destruct (GetToken (v_player vw) =? t); [done|]. cbn [v_player v_others]. by rewrite lookup_delete_ne.
Qed.

(** What [C2S_LEAVE] leaves behind, and the three passes. *)
Definition leaving (it : Z * Z) (us : UserSession) w : SvrWorld :=
  set_sw_cmds [LeaveCharacter it.1 (GetZoneId (_nub us))] w.
Lemma leave_passes w people conn sent told budget v it us :
  sends_accepted → game w people conn sent told budget v → it ∈ people → sw_sessions w !! it.2 = Some us →
  budget + 2 * zlen people < 2 ^ 31 →
  let m := S_LEAVE (mkSC_P_LEAVE it.1) in
  ∃ w' told' (items : list (Z * Z)), passes (leaving it us w) = Ok (tt, w') ∧ grows (2 * zlen people) told told' ∧
    sw_sessions w' = <[it.2 := set_nub (ResetPos (_nub us)) us]> (sw_sessions w) ∧ sw_cmds w' = [] ∧
    zone_members w' 1 = delete it.1 (zone_members w 1) ∧ zone_ready w' 1 ∧ _zoneMap w' !! 0 = None ∧ s2c_wf m ∧
    zone_told w' people conn sent told' (budget + 2 * zlen people) ∧
    (∀ j, j ∈ people → told' (conn j.2) = told (conn j.2) ++ if decide (j ∈ items) then [m] else []) ∧
    ∀ j, j ∈ items → zone_members w' 1 !! j.1 = Some j.2.
Proof.
  intros Ha Hg Hit Hs Hb m.
  destruct (people_session _ _ _ _ _ _ _ it Hg Hit) as (s0 & Hs0 & Htk & _ & Hum). rewrite Hs in Hs0. injection Hs0 as <-.
  pose proof Hg as [Htold Hidle Hnd Hzone Hlobby Hmem Hplace _ _]. destruct (Hplace it us Hit Hs) as [[Hin64 _] Hzn].
  destruct (zone_of_people _ _ _ _ _ _ _ it us Hg Hit Hs) as (Hlive & Hzm & Hin). pose proof (zlen_nonneg people).
  assert (in_s 64 it.1) as H64 by (rewrite <-Htk; exact Hin64).
  set (zone := GetZoneId (_nub us)) in *.
  destruct (leave_tick (leaving it us w) it.1 zone it.2 us eq_refl Hum Hs H64 Hlive)
    as (now & w2 & E2 & Hc2 & Hs2 & Hu2 & Hn2 & Ht2 & Hmap2 & Hlive2 & Hready2 & Hmem2 & Hsame2). fold m in Hc2.
  change (zone_members (leaving it us w) zone) with (zone_members w zone) in Hmem2.
  assert (∀ j, j ∈ std_items (zone_members w2 zone) → j ∈ people) as Hin2.
  { intros [t q] Hj%elem_of_std_items. rewrite Hmem2 in Hj. apply lookup_delete_Some in Hj as [_ Hj].
    by apply Hin, elem_of_std_items. }
  pose proof (members_fit people _ Hin2) as Hfit.
  destruct (broadcast_passes Ha w2 zone m now people conn sent told budget Hc2) as (n & E3 & Ht3);
    [exact H64|by apply Hlive2| |done|lia|].
  { apply (told_same (set_sw_sessions (<[it.2 := set_nub (ResetPos (_nub us)) us]> (sw_sessions w)) w)); [done..|].
    by apply (resession_told _ _ us). }
  apply st_bind_inv in E3 as ([] & w3 & E3 & E4). set (w4 := set_sw_net n (set_sw_cmds [] w2)) in *.
  set (items := std_items (zone_members w2 zone)) in *.
  assert (zone_members w4 1 = delete it.1 (zone_members w 1)) as Hm1.
  { change (zone_members w4 1) with (zone_members w2 1). destruct (zone_members w 1 !! it.1) as [q|] eqn:Eq.
    - assert (zone = 1) as Ez by exact Hzn. rewrite Ez in Hmem2. exact Hmem2.
    - assert (zone = 0) as Ez by exact Hzn. rewrite Ez in Hsame2.
      rewrite delete_id by done. unfold zone_members. by rewrite Hmap2, Hsame2. }
  exists w4, (λ c, told c ++ tells ((λ it, (conn it.2, m)) <$> items) c), items. split_and!; try done.
  - unfold passes. rewrite (st_bind_ok _ _ _ tt w3); [exact E4|]. by rewrite (st_bind_ok _ _ _ _ _ E2).
  - apply grows_tells. unfold zlen in *. rewrite length_fmap. lia.
  - exact (Hready2 1 Hzone).
  - change (_zoneMap w4) with (_zoneMap w2). by rewrite Hmap2.
  - eapply told_more; [exact Ht3|lia].
  - intros j Hj. cbv beta. f_equal. apply (member_tells people); [by eapply people_conn|done|apply items_NoDup|done].
  - intros [t q] Hj%elem_of_std_items. rewrite Hm1. rewrite Hmem2, Hzm in Hj.
    destruct (zone_members w 1 !! it.1); [exact Hj|]. by rewrite delete_empty in Hj.
Qed.

Lemma left_ok w people conn sent told budget v it us :
  sends_accepted → game w people conn sent told budget v → it ∈ people → sw_sessions w !! it.2 = Some us →
  budget + 2 * zlen people < 2 ^ 31 →
  ∃ w' told', passes (leaving it us w) = Ok (tt, w') ∧
    grows (2 * zlen people) told told' ∧ game w' people conn sent told' (budget + 2 * zlen people) v ∧
    zone_members w' 1 = delete it.1 (zone_members w 1) ∧
    ∀ j, j ∈ people → zone_members w' 1 !! j.1 = None → told' (conn j.2) = told (conn j.2).
Proof.
  intros Ha Hg Hit Hs Hb.
  destruct (leave_passes w people conn sent told budget v it us Ha Hg Hit Hs Hb)
    as (w' & told' & items & E & Hpre & Hs' & Hc' & Hm' & Hr' & Ho' & Hm & Ht' & Etold & Hitems).
  pose proof Hg as [Htold Hidle Hnd Hzone Hlobby Hmem Hplace Hwords Hagree].
  exists w', told'. split_and!; [done|done| |done|].
  2:{ intros j Hj Hno. rewrite Etold by done. rewrite decide_False, app_nil_r; [done|]. intros Hi. apply Hitems in Hi. by rewrite Hno in Hi. }
  split; try done.
  - intros t q Hq. rewrite Hm' in Hq. apply lookup_delete_Some in Hq as [_ Hq]. by apply Hmem.
  - intros j s Hj Hsj. rewrite Hs' in Hsj. rewrite Hm'. apply lookup_insert_Some in Hsj as [[E' <-]|[Hne Hsj]].
    + assert (it = j) as <- by (by eapply people_same). rewrite lookup_delete_eq. split; [|done].
      destruct (Hplace it us Hit Hs) as [[H64 _] _]. split; [exact H64|vm_compute; intuition discriminate].
    + rewrite lookup_delete_ne; [by apply Hplace|]. intros E'. apply Hne. destruct it, j. cbn in *. subst. by eapply people_token.
  - intros j Hj. rewrite Etold by done. apply Forall_app. split; [by apply Hwords|]. case_decide; [|done].
    by apply Forall_singleton.
  - rewrite Hm'. intros j t q Hj [Hj1 Hjm]%lookup_delete_Some [Hne Hq]%lookup_delete_Some.
    apply (shown_same w _ _ _ (picture v told (conn j.2))); [| |by apply Hagree].
    + rewrite Hs', lookup_insert_ne; [done|]. intros E'.
      pose proof (people_same _ _ _ _ _ _ _ it (t, q) Hg Hit (Hmem _ _ Hq) E') as E2. by rewrite E2 in Hne.
    + rewrite (picture_told v told told' (conn j.2) _ (Etold j Hj)). case_decide; [|done]. by apply character_of_leave_other.
Qed.

(** ** A message and the passes behind it *)

(** A frame of the session's client is processed, and three passes run. *)
Definition turn (uf : Z * list Z) : svr unit := _ ← MessageProcess uf.1 uf.2 (zlen uf.2); passes.

(** The messages of the game: all but signing in; the text of an echo is
    bytes with a terminating zero. *)
Definition game_message (m : c2s) : Prop :=
  c2s_wf m ∧ match m with
             | C_AUTH _ => False
             | C_ECHO p => 0 ∈ cs_echo_data p ∧ Forall is_byte (cs_echo_data p)
             | _ => True
             end.

Lemma C2S_Interaction_ok u p s w :
  sw_sessions w !! u = Some s → wire_wf p → in_s 64 (session_GetToken s) →
  ∃ now, C2S_Interaction u p w = Ok (true, broadcasting (GetZoneId (_nub s))
      (S_INTERACTION (mkSC_P_INTERACTION (session_GetToken s) (cs_int_targetToken p) (cs_int_type p))) now w) ∧
    s2c_wf (S_INTERACTION (mkSC_P_INTERACTION (session_GetToken s) (cs_int_targetToken p) (cs_int_type p))).
Proof.
  intros Hs Hp Ht. unfold C2S_Interaction. erewrite st_bind_ok by (by apply us_get_ok). cbv beta.
  assert (s2c_wf (S_INTERACTION (mkSC_P_INTERACTION (session_GetToken s) (cs_int_targetToken p) (cs_int_type p)))) as Hm
    by (destruct Hp; by split_and!).
  destruct (add_broadcast_ok (GetZoneId (_nub s)) _ w Hm) as (now & E). by exists now.
Qed.
Lemma echo_copy size data :
  echo_wf size data → memcpy_s (sc_echo_data SC_P_ECHO_default) MAX_ECHO_DATA_LENGTH data size = Ok data.
Proof.
  intros Hwf. pose proof (echo_splice _ _ Hwf) as Hsp. destruct Hwf as ((? & ?) & Hd & Hl). unfold MAX_ECHO_DATA_LENGTH in *.
  unfold memcpy_s. change (sc_echo_data SC_P_ECHO_default) with echo_zeros. rewrite wrapu_small by (split; lia).
  destruct (Z.eqb_spec size 0) as [->|]; [rewrite Hd; by rewrite sub_nil|].
  destruct (Z.ltb_spec 32 size); [lia|]. rewrite peek_ok by lia. cbn [mbind outcome_bind].
  rewrite poke_ok by (rewrite ?zlen_sub by lia; change (zlen echo_zeros) with 32; lia). by rewrite Hsp.
Qed.
Lemma C2S_Echo_ok u p s w :
  sw_sessions w !! u = Some s → wire_wf p → in_s 64 (session_GetToken s) → 0 ∈ cs_echo_data p →
  ∃ now, C2S_Echo u p w = Ok (true, broadcasting (GetZoneId (_nub s))
      (S_ECHO (mkSC_P_ECHO (session_GetToken s) (cs_echo_size p) (cs_echo_data p))) now w) ∧
    s2c_wf (S_ECHO (mkSC_P_ECHO (session_GetToken s) (cs_echo_size p) (cs_echo_data p))).
Proof.
  intros Hs Hp Ht H0'. unfold C2S_Echo. erewrite st_bind_ok by (by apply us_get_ok). cbv beta.
  erewrite st_bind_ok by (unfold print_c_string; rewrite bool_decide_true by done; reflexivity). cbv beta.
  assert (s2c_wf (S_ECHO (mkSC_P_ECHO (session_GetToken s) (cs_echo_size p) (cs_echo_data p)))) as Hm by (by split).
  destruct (add_broadcast_ok (GetZoneId (_nub s)) _ w Hm) as (now & E). exists now. split; [|done]. rewrite <-E.
  erewrite st_bind_ok; [reflexivity|]. unfold st_lift, SC_P_ECHO_SetData. rewrite (echo_copy _ _ Hp).
  cbn [mbind outcome_bind]. rewrite Z.min_r by apply Hp. reflexivity.
Qed.

Lemma C2S_Heartbeat_ok u p s w :
  sw_sessions w !! u = Some s →
  C2S_Heartbeat u p w = Ok (true, set_sw_sessions (<[u := (DecHeartbeat s).1]> (sw_sessions w)) w).
Proof. intros Hs. unfold C2S_Heartbeat, us_run, us_get, us_set, mbind, st_bind. by rewrite Hs; cbn; rewrite Hs. Qed.

(** Something said that moves nobody. *)
Lemma spoken_ok w people conn sent told budget v it us m now :
  sends_accepted → game w people conn sent told budget v → it ∈ people → sw_sessions w !! it.2 = Some us →
  s2c_wf m ∧ client_message m ∧ byte_message m → (∀ vw, hear m vw = vw) → budget + 2 * zlen people < 2 ^ 31 →
  ∃ w' told', passes (broadcasting (GetZoneId (_nub us)) m now w) = Ok (tt, w') ∧
    grows (2 * zlen people) told told' ∧ game w' people conn sent told' (budget + 2 * zlen people) v.
Proof.
  intros Ha Hg Hit Hs Hm Hsil Hb. destruct (gm_place _ _ _ _ _ _ _ Hg it us Hit Hs) as [Hwf _].
  destruct (said_ok w people conn sent told budget v it us us m now Ha Hg Hit Hs eq_refl eq_refl eq_refl Hwf Hm (says_silent _ _ _ Hsil) Hb)
    as (w' & told' & E & ?). rewrite insert_id in E by done. exists w', told'. split; [|done]. rewrite <-E. by destruct w.
Qed.

Lemma process_frame u m f w b w1 :
  c2s_wf m → is_frame m f → c2s_handle u m w = Ok (b, w1) → MessageProcess u f (zlen f) w = Ok (b, w1).
Proof. intros Hm [now ->] <-. rewrite zlen_frame. by apply MessageProcess_ok. Qed.

(** A turn is its handler and the passes. *)
Lemma turn_run u m f w b w1 :
  c2s_wf m → is_frame m f → c2s_handle u m w = Ok (b, w1) → turn (u, f) w = passes w1.
Proof.
  intros Hm Hf E. unfold turn. cbn [fst snd]. by rewrite (st_bind_ok _ _ _ _ _ (process_frame u m f w b w1 Hm Hf E)).
Qed.

Lemma turn_enter w people conn sent told budget v it p f :
  sends_accepted → game w people conn sent told budget v → it ∈ people → wire_wf p → is_frame (C_ENTER p) f →
  budget + 2 * zlen people < 2 ^ 31 →
  ∃ w' told', turn (it.2, f) w = Ok (tt, w') ∧
    grows (2 * zlen people) told told' ∧ game w' people conn sent told' (budget + 2 * zlen people) v ∧
    zone_members w' 1 = std_insert it.1 it.2 (zone_members w 1) ∧
    ∀ t, zone_members w' 1 !! t = None →
      character_of t (picture v told' (conn it.2)) = character_of t (picture v told (conn it.2)).
Proof.
  intros Ha Hg Hit Hm Hf Hb. destruct (people_session _ _ _ _ _ _ _ it Hg Hit) as (us & Hs & Htk & _ & _).
  destruct (C2S_Enter_ok w it.2 p us Hs) as (x & y & Hxy & E). rewrite (turn_run it.2 (C_ENTER p) f w _ _ Hm Hf E), Htk.
  rewrite (gm_idle _ _ _ _ _ _ _ Hg). apply (entered_ok w people conn sent told budget v it us x y); try done.
  intros c. cbn [nw_trace set_nw_trace]. by rewrite !sends_app, !app_nil_r.
Qed.
Lemma turn_leave w people conn sent told budget v it p f :
  sends_accepted → game w people conn sent told budget v → it ∈ people → wire_wf p → is_frame (C_LEAVE p) f →
  budget + 2 * zlen people < 2 ^ 31 →
  ∃ w' told', turn (it.2, f) w = Ok (tt, w') ∧
    grows (2 * zlen people) told told' ∧ game w' people conn sent told' (budget + 2 * zlen people) v ∧
    zone_members w' 1 = delete it.1 (zone_members w 1) ∧
    ∀ j, j ∈ people → zone_members w' 1 !! j.1 = None → told' (conn j.2) = told (conn j.2).
Proof.
  intros Ha Hg Hit Hm Hf Hb. destruct (people_session _ _ _ _ _ _ _ it Hg Hit) as (us & Hs & Htk & _ & _).
  rewrite (turn_run it.2 (C_LEAVE p) f w true (leaving it us w) Hm Hf); [by apply left_ok|].
  cbn [c2s_handle]. unfold C2S_LEAVE. erewrite st_bind_ok by (by apply us_get_ok). cbv beta.
  change (GetToken (_nub us)) with (session_GetToken us). rewrite Htk. unfold leaving.
  erewrite st_bind_ok by apply add_command_ok. by rewrite (gm_idle _ _ _ _ _ _ _ Hg).
Qed.

Lemma turn_ok w people conn sent told budget v it m f :
  sends_accepted → game w people conn sent told budget v → it ∈ people → game_message m → is_frame m f →
  budget + 2 * zlen people < 2 ^ 31 →
  ∃ w' told', turn (it.2, f) w = Ok (tt, w') ∧
    grows (2 * zlen people) told told' ∧ game w' people conn sent told' (budget + 2 * zlen people) v.
Proof.
  intros Ha Hg Hit [Hm Hgm] Hf Hb.
  destruct (people_session _ _ _ _ _ _ _ it Hg Hit) as (us & Hs & Htk & _ & _).
  destruct (gm_place _ _ _ _ _ _ _ Hg it us Hit Hs) as [Hwf _]. pose proof Hwf as [H64 Hpos].
  destruct m as [p|p|p|p|p|p|p]; [done|..].
  - destruct (turn_enter w people conn sent told budget v it p f Ha Hg Hit Hm Hf Hb) as (w' & told' & ? & ? & ? & _). by exists w', told'.
  - destruct (turn_leave w people conn sent told budget v it p f Ha Hg Hit Hm Hf Hb) as (w' & told' & ? & ? & ? & _). by exists w', told'.
  - destruct (C2S_Move_ok it.2 p us w Hs Hm H64) as (t & E). rewrite (turn_run _ _ f _ _ _ Hm Hf E), Htk.
    apply (said_ok w people conn sent told budget v it us); try done.
    + split; [exact H64|]. destruct Hpos as (? & ? & ?), Hm as [? ?]. by split_and!.
    + destruct Hm. rewrite <-Htk. by split_and!.
    + apply says_move.
  - destruct (C2S_Interaction_ok it.2 p us w Hs Hm H64) as (t & E & Hwm). rewrite (turn_run _ (C_INTERACTION p) f _ _ _ Hm Hf E).
    by apply (spoken_ok w people conn sent told budget v it us).
  - rewrite (turn_run _ (C_HEARTBEAT p) f _ _ _ Hm Hf (C2S_Heartbeat_ok it.2 p us w Hs)).
    destruct (unheard_ok w people conn sent told budget v it us (DecHeartbeat us).1 Hg Hit Hs) as [E Hg']; [done..|].
    eexists _, told. split_and!; [exact E|apply grows_same; pose proof (zlen_nonneg people); lia|exact Hg'].
  - destruct Hgm as [H0' Hby]. destruct (C2S_Echo_ok it.2 p us w Hs Hm H64 H0') as (t & E & Hwm).
    rewrite (turn_run _ (C_ECHO p) f _ _ _ Hm Hf E). by apply (spoken_ok w people conn sent told budget v it us).
Qed.
End GameLaws.

(** A whole game: turns one after the other. *)
Lemma turns_ok `{OSLaws} people conn sent v said : ∀ frames w told budget,
  sends_accepted → game w people conn sent told budget v →
  Forall (λ um, um.1 ∈ people.*2 ∧ game_message um.2) said → Forall2 (λ um f, is_frame um.2 f) said frames →
  budget + 2 * zlen people * zlen said < 2 ^ 31 →
  ∃ w' told', st_each turn (zip said.*1 frames) w = Ok (tt, w') ∧
    grows (2 * zlen people * zlen said) told told' ∧ game w' people conn sent told' (budget + 2 * zlen people * zlen said) v.
Proof.
  induction said as [|[u m] said IH]; intros frames w told budget Ha Hg Hs Hf Hb.
  { exists w, told. rewrite Z.mul_0_r, Z.add_0_r. split_and!; [done|by apply grows_same|done]. }
  apply Forall2_cons_inv_l in Hf as (f & fs & Hf & Hfs & ->). apply Forall_cons in Hs as [[Hu Hm] Hs]. cbn [fst snd] in *.
  apply list_elem_of_fmap in Hu as (it & -> & Hit). rewrite zlen_cons in Hb |- *.
  pose proof (zlen_nonneg people). pose proof (zlen_nonneg said).
  destruct (turn_ok w people conn sent told budget v it m f Ha Hg Hit Hm Hf) as (w1 & told1 & E1 & Hp1 & Hg1); [nia|].
  destruct (IH fs w1 told1 (budget + 2 * zlen people) Ha Hg1 Hs Hfs) as (w2 & told2 & E2 & Hp2 & Hg2); [nia|].
  exists w2, told2. split_and!.
  - cbn [fmap list_fmap fst zip zip_with st_each]. rewrite E1. exact E2.
  - replace (2 * zlen people * (1 + zlen said)) with (2 * zlen people + 2 * zlen people * zlen said) by lia. by eapply grows_trans.
  - by replace (budget + 2 * zlen people * (1 + zlen said)) with (budget + 2 * zlen people + 2 * zlen people * zlen said) by lia.
Qed.

(** C1: every client shows the zone as the server has it.  Signed-in clients say
    what they like of the game: they enter, leave, move, interact, chat and
    answer heartbeats, in any order, a message being processed after the three
    passes of the one before it.  No turn faults, and after the last: whatever
    amounts the sends to a member of zone 1 complete by, after at most as many
    completions as there are unsent bytes everything it was told has been sent,
    and its machine, receiving and handling the frames one by one, ends with a
    picture in which every member stands where the server has it. *)
Theorem zone_agrees (OSrv : OS) (LS : @OSLaws OSrv) (OM : OS) (LM : @OSLaws OM) w people conn sent told budget v said frames :
  @sends_accepted OSrv → @game OSrv w people conn sent told budget v →
  Forall (λ um, um.1 ∈ people.*2 ∧ game_message um.2) said → Forall2 (λ um f, is_frame um.2 f) said frames →
  budget + 2 * zlen people * zlen said < 2 ^ 31 →
  ∃ w' told', st_each (@turn OSrv) (zip said.*1 frames) w = Ok (tt, w') ∧ grows (2 * zlen people * zlen said) told told' ∧
    ∀ t q amount self c cw last, let p := conn q in
      zone_members w' 1 !! t = Some q →
      @sends_accepted OM → @recvs_accepted OM → @connected OM self c cw (v p) →
      zlen (om_usedList (cw_cmgr cw)) + 20 * (zlen (told p) + 2 * zlen people * zlen said) < 2 ^ 62 →
      2 * (zlen (told p) + 2 * zlen people * zlen said) < 2 ^ 31 →
      ∃ fr n s' vw, Forall2 framed (s2c_payload <$> told' p) fr ∧
        @drain OSrv p amount (length (mjoin fr)) (sw_net w', sent p) = Ok (n, mjoin fr) ∧ outstanding p n = None ∧
        @cli_run OM self c (mkCliConn cw [] last) (at_once fr) = Ok s' ∧ client_ok (cc_world s') vw ∧
        ∀ t' q', zone_members w' 1 !! t' = Some q' → shown w' t' q' vw.
Proof.
  intros Ha Hg Hs Hf Hb.
  destruct (@turns_ok OSrv LS people conn sent v said frames w told budget Ha Hg Hs Hf Hb) as (w' & told' & E & Hpre & Hg').
  exists w', told'. split_and!; [done|done|]. intros t q amount self c cw last p Hq Hsm Hrm Hcn Hroom Hlen.
  pose proof (gm_members _ _ _ _ _ _ _ Hg' t q Hq) as Hit. destruct (Hpre p) as [_ Hmore].
  destruct (told_arrives_ok OSrv LS OM LM w' people conn sent told' _ (t, q) amount self c cw (v p) last Ha
    (gm_told _ _ _ _ _ _ _ Hg') Hit Hsm Hrm Hcn (gm_words _ _ _ _ _ _ _ Hg' (t, q) Hit))
    as (fr & n & Hfr & Ed & Ho & s' & Ec & Hok); [cbn [snd]; fold p; lia..|].
  eexists fr, n, s', _. split_and!; [exact Hfr|exact Ed|exact Ho|exact Ec|exact Hok|].
  intros t' q' Hq'. exact (gm_agree _ _ _ _ _ _ _ Hg' (t, q) t' q' Hit Hq Hq').
Qed.

(** ** Two messages in one pass *)
Section Overtaking.
Context `{OSLaws}.
Implicit Types (w : SvrWorld).

(** Both handlers have run: the entry and the broadcast are queued, and the
    session has moved on. *)
Definition moved_on (it : Z * Z) (us : UserSession) (x y : Z) (q : CS_P_MOVE) : UserSession :=
  set_nub (SetPos2 (_nub (placed us x y)) (cs_move_x q) (cs_move_y q)) (placed us x y).
Lemma enter_and_move w people conn sent told budget v it us p q fe fm :
  game w people conn sent told budget v → it ∈ people → sw_sessions w !! it.2 = Some us →
  wire_wf p → wire_wf q → is_frame (C_ENTER p) fe → is_frame (C_MOVE q) fm →
  let m := S_MOVE (mkSC_P_MOVE it.1 (cs_move_x q) (cs_move_y q)) in
  ∃ x y now n w1, (-1000 < x < 1000 ∧ -1000 < y < 1000) ∧
    (_ ← MessageProcess it.2 fe (zlen fe); turn (it.2, fm)) w = passes w1 ∧
    w1 = set_sw_cmds (EnterCharacter it.1 1 x y :: ((λ mn, broadcast 1 mn.1 mn.2) <$> [(m, now)]))
      (set_sw_sessions (<[it.2 := moved_on it us x y q]> (sw_sessions w)) (set_sw_net n w)) ∧
    nw_conns n = nw_conns (sw_net w) ∧ (∀ c, sends c (nw_trace n) = sends c (nw_trace (sw_net w))) ∧
    s2c_wf m ∧ s2c_wf (newcomer it.1 x y) ∧ wire_wf (GetDbData (_nub (moved_on it us x y q))).
Proof.
  intros Hg Hit Hs Hp Hq Hfe Hfm m.
  destruct (people_session _ _ _ _ _ _ _ it Hg Hit) as (s0 & Hs0 & Htk & _). rewrite Hs in Hs0. injection Hs0 as <-.
  destruct (gm_place _ _ _ _ _ _ _ Hg it us Hit Hs) as [[H64 _] _]. change (in_s 64 (session_GetToken us)) in H64.
  destruct (C2S_Enter_ok w it.2 p us Hs) as (x & y & Hxy & E1). rewrite (gm_idle _ _ _ _ _ _ _ Hg), Htk in E1. cbn [app] in E1.
  set (w1 := set_sw_cmds _ _) in E1. destruct (small_place us x y H64 Hxy) as [Hnc [_ Hpl]]. rewrite Htk in Hnc.
  destruct (C2S_Move_ok it.2 q (placed us x y) w1) as (now & E2); [apply lookup_insert_eq|exact Hq|exact H64|].
  change (session_GetToken (placed us x y)) with (session_GetToken us) in E2. rewrite Htk in E2. fold m in E2.
  eexists x, y, now, _, _. split; [done|]. split; [|split; [|split_and!]].
  - rewrite (st_bind_ok _ _ _ _ _ (process_frame it.2 (C_ENTER p) fe w _ _ Hp Hfe E1)). unfold turn. cbn [fst snd].
    by rewrite (st_bind_ok _ _ _ _ _ (process_frame it.2 (C_MOVE q) fm w1 _ _ Hq Hfm E2)).
  - unfold broadcasting, w1. cbn [set_sw_sessions sw_sessions set_sw_cmds set_sw_net sw_cmds sw_net app fmap list_fmap fst snd].
    rewrite insert_insert_eq. reflexivity.
  - done.
  - intros c. cbn [nw_trace set_nw_trace]. by rewrite !sends_app, !app_nil_r.
  - destruct Hq. split_and!; [by rewrite <-Htk|done..].
  - done.
  - split; [exact H64|]. destruct Hq, Hpl as (? & _). by split_and!.
Qed.
(** What a member is told when a broadcast waits behind an entry. *)
Lemma overtaken_seen w members conn sent said budget told v token uid x y m now j us :
  zone_served w members conn sent said budget → NoDup members.*1 → (token, uid) ∈ members → j ∈ members →
  sw_sessions w !! uid = Some us →
  let told' c := (told c ++ tells (zone_tells members conn [(m, now)]) c) ++
    news members conn token x y uid (others_of w token members) c in
  (∃ list, told' (conn j.2) = told (conn j.2) ++ [m; newcomer token x y] ++ list ∧ (j.1 ≠ token → list = [])) ∧
  (∃ ch, character_of token (picture v told' (conn j.2)) = Some ch ∧ GetPos ch = (x, y)) ∧
  (GetPos (_nub us) ≠ (x, y) → ¬ shown w token uid (picture v told' (conn j.2))).
Proof.
  intros Hz Hnd Hu Hj Hs told'. pose proof (zs_distinct _ _ _ _ _ _ Hz) as Hndc.
  assert (∃ ch, character_of token (picture v told' (conn j.2)) = Some ch ∧ GetPos ch = (x, y)) as Hpos.
  { unfold picture, told'. rewrite foldl_app. by apply (news_seen w members conn sent said budget token x y uid j). }
  split; [|split; [exact Hpos|]].
  - exists (if decide (j.1 = token) then one_record <$> others_of w token members else []).
    split; [|by intros Hne; rewrite decide_False]. unfold told'. rewrite (news_ok members conn) by done.
    rewrite <-app_assoc. f_equal. unfold zone_tells. cbn [mbind list_bind fst]. rewrite app_nil_r.
    by rewrite (tells_each (λ it : Z * Z, conn it.2) m members j Hndc Hj).
  - intros Hne (s & ch & Hs' & Hch & E). destruct Hpos as (ch' & Hch' & Hp). rewrite Hs in Hs'. injection Hs' as <-.
    rewrite Hch in Hch'. injection Hch' as <-. congruence.
Qed.
End Overtaking.

(** C20: a move overtakes the entry before it.  A client says [C_ENTER] and then
    [C_MOVE], and both frames are processed before the next pass of the command
    queue.  The entry takes three passes to be told and the move two, so that
    every member, the mover itself among them, is told the move first and the
    entry at once behind it (the mover the list of the characters behind that).
    The server has the character where it moved to; everybody's picture shows
    it at the place [(x, y)] it entered, which is inside the square of 1000 around
    the origin, so that no picture agrees with the server unless the move was to
    that very place. *)
Theorem move_overtakes_enter `{OSLaws} w people conn sent told budget v it p q fe fm :
  sends_accepted → game w people conn sent told budget v → it ∈ people →
  wire_wf p → wire_wf q → is_frame (C_ENTER p) fe → is_frame (C_MOVE q) fm →
  budget + 3 * zlen people < 2 ^ 31 →
  ∃ w' told' s x y, (_ ← MessageProcess it.2 fe (zlen fe); turn (it.2, fm)) w = Ok (tt, w') ∧
    (∀ c, told c `prefix_of` told' c) ∧ zone_told w' people conn sent told' (budget + 3 * zlen people) ∧ sw_cmds w' = [] ∧
    zone_members w' 1 !! it.1 = Some it.2 ∧
    sw_sessions w' !! it.2 = Some s ∧ GetPos (_nub s) = (cs_move_x q, cs_move_y q) ∧
    (-1000 < x < 1000 ∧ -1000 < y < 1000) ∧
    ∀ t u, zone_members w' 1 !! t = Some u →
      (∃ list, told' (conn u) =
         told (conn u) ++ [S_MOVE (mkSC_P_MOVE it.1 (cs_move_x q) (cs_move_y q)); S_ENTER (mkSC_P_ENTER it.1 x y)] ++ list ∧
         (t ≠ it.1 → list = [])) ∧
      (∃ ch, character_of it.1 (picture v told' (conn u)) = Some ch ∧ GetPos ch = (x, y)) ∧
      ((cs_move_x q, cs_move_y q) ≠ (x, y) → ¬ shown w' it.1 it.2 (picture v told' (conn u))).
Proof.
  intros Ha Hg Hit Hp Hq Hfe Hfm Hb. pose proof Hg as [Htold Hidle Hnd Hzone Hlobby Hmem Hplace _ _].
  destruct (people_session _ _ _ _ _ _ _ it Hg Hit) as (us & Hs & Htk & _ & Hum).
  destruct (enter_and_move w people conn sent told budget v it us p q fe fm Hg Hit Hs Hp Hq Hfe Hfm)
    as (x & y & now & n & w1 & Hxy & E & -> & Hn & Ht & Hm & Hnc & Hpl).
  set (us' := moved_on it us x y q) in *. set (w1 := set_sw_cmds _ _) in *.
  set (map := std_insert it.1 it.2 (zone_members w 1)). set (m := S_MOVE _) in *.
  assert (∀ j, j ∈ std_items map → j ∈ people) as Hin.
  { intros [t u] [E'|Hu]%elem_of_std_items%(entered _ _ _ _ _ _ _ it _ _ Hg Hit); [by rewrite E'|by apply Hmem]. }
  pose proof (members_fit people map Hin) as Hfit.
  destruct (enter_ticks_behind w1 it.1 1 x y it.2 us' [(m, now)] people conn sent told budget Ha eq_refl)
    as (w2 & E2 & Hs2 & Hz2 & _ & _ & Hc2 & Ht2); try done.
  { by apply Forall_singleton. }
  { apply lookup_insert_eq. }
  { apply (told_same (set_sw_sessions (<[it.2 := us']> (sw_sessions w)) w)); [done..|]. by apply (resession_told _ _ us). }
  { apply Forall_forall. intros j Hj s Hsj. cbn in Hsj. apply lookup_insert_Some in Hsj as [[_ <-]|[_ Hsj]]; [done|]. by apply (Hplace j). }
  { change (zone_members w1 1) with (zone_members w 1). fold map. unfold zlen at 1. cbn [length]. lia. }
  change (zone_members w1 1) with (zone_members w 1) in Hz2, Ht2. fold map in Hz2, Ht2.
  pose proof Ht2 as [(fr & _ & Hserved)].
  pose proof (served_sub _ _ _ _ _ _ _ Hserved Hin (items_NoDup _)) as Hsm.
  assert (it ∈ std_items map) as Hitm.
  { destruct it as [t u]. apply elem_of_std_items. apply (entered _ _ _ _ _ _ _ (t, u) _ _ Hg Hit). by left. }
  assert (others_of w2 it.1 (std_items map) = others_of w1 it.1 (std_items map)) as Eo by (unfold others_of; by rewrite Hs2).
  eexists w2, _, us', x, y. split_and!.
  - rewrite E. exact E2.
  - intros c. rewrite <-app_assoc. by eexists.
  - eapply told_more; [exact Ht2|]. unfold zlen at 1. cbn [length]. lia.
  - done.
  - rewrite Hz2. apply elem_of_std_items. by destruct it.
  - rewrite Hs2. apply lookup_insert_eq.
  - done.
  - apply Hxy.
  - apply Hxy.
  - apply Hxy.
  - apply Hxy.
  - rewrite Hz2, <-Eo. intros t u Hu. apply elem_of_std_items in Hu.
    assert (sw_sessions w2 !! it.2 = Some us') as Hs3 by (rewrite Hs2; apply lookup_insert_eq).
    exact (overtaken_seen w2 (std_items map) conn _ _ _ told v it.1 it.2 x y m now (t, u) us' Hsm (std_items_NoDup _)
      ltac:(by destruct it) Hu Hs3).
Qed.

(** a ghost.  Of two members one leaves the zone, then the other, and the first
    comes back.  Who is outside is told of nobody's departure, the list of the
    characters only adds, and so the first shows the other for good, although
    it is no member any more. *)
Theorem ghost_stays `{OSLaws} w people conn sent told budget v a b pa pb pe fa fb fe :
  sends_accepted → game w people conn sent told budget v →
  zone_members w 1 !! a.1 = Some a.2 → zone_members w 1 !! b.1 = Some b.2 → a.1 ≠ b.1 →
  wire_wf pa → is_frame (C_LEAVE pa) fa → wire_wf pb → is_frame (C_LEAVE pb) fb → wire_wf pe → is_frame (C_ENTER pe) fe →
  budget + 6 * zlen people < 2 ^ 31 →
  ∃ w' told', st_each turn [(a.2, fa); (b.2, fb); (a.2, fe)] w = Ok (tt, w') ∧
    game w' people conn sent told' (budget + 6 * zlen people) v ∧
    zone_members w' 1 !! a.1 = Some a.2 ∧ zone_members w' 1 !! b.1 = None ∧
    ∃ ch, character_of b.1 (picture v told' (conn a.2)) = Some ch.
Proof.
  intros Ha Hg Hma Hmb Hne Hpa Hfa Hpb Hfb Hpe Hfe Hb. pose proof (zlen_nonneg people).
  assert (a ∈ people) as Hia by (destruct a; by eapply gm_members).
  assert (b ∈ people) as Hib by (destruct b; by eapply gm_members).
  destruct (gm_agree _ _ _ _ _ _ _ Hg a b.1 b.2 Hia Hma Hmb) as (_ & ch & _ & Hch & _).
  destruct (turn_leave w people conn sent told budget v a pa fa Ha Hg Hia Hpa Hfa) as (w1 & told1 & E1 & _ & Hg1 & Hm1 & Ht1); [lia|].
  destruct (turn_leave w1 people conn sent told1 _ v b pb fb Ha Hg1 Hib Hpb Hfb) as (w2 & told2 & E2 & _ & Hg2 & Hm2 & Ht2); [lia|].
  destruct (turn_enter w2 people conn sent told2 _ v a pe fe Ha Hg2 Hia Hpe Hfe) as (w3 & told3 & E3 & _ & Hg3 & Hm3 & Ht3); [lia|].
  assert (zone_members w3 1 !! b.1 = None) as Hb3.
  { rewrite Hm3, std_insert_lookup, decide_False by done. by rewrite Hm2, lookup_delete_eq. }
  assert (zone_members w1 1 !! a.1 = None) as Ha1 by (by rewrite Hm1, lookup_delete_eq).
  assert (zone_members w2 1 !! a.1 = None) as Ha2 by (by rewrite Hm2, lookup_delete_ne).
  exists w3, told3. split_and!; [|by replace (budget + 6 * zlen people) with (budget + 2 * zlen people + 2 * zlen people + 2 * zlen people) by lia| |done|].
  - cbn [st_each]. rewrite E1. by rewrite E2, E3.
  - rewrite Hm3, std_insert_lookup, decide_True by done. by rewrite Ha2.
  - exists ch. rewrite (Ht3 _ Hb3). unfold picture. rewrite (Ht2 a Hia Ha2), (Ht1 a Hia Ha1). exact Hch.
Qed.

(** ** Instances *)

(** Sessions 10 and 11 have signed in; the zone is there, and empty. *)
Definition demo_lobby_session (uid token c : Z) : UserSession :=
  set_nub (mkCharacter 7 token (mkPosition 0 0 0)) (demo_session uid token c).
Definition demo_hall : SvrWorld :=
  set_sw_sessions {[ 10 := demo_lobby_session 1 100 1; 11 := demo_lobby_session 2 101 2 ]}
    (set_sw_zones {[ 20 := mkZone 1 ∅ ]} demo_served_conn).
Definition demo_people : list (Z * Z) := [(100, 10); (101, 11)].
Lemma demo_game : game demo_hall demo_people (λ p, p - 9) (λ _, []) (λ _, []) 0 (λ _, mkView Character_new ∅).
Proof.
  assert (zone_members demo_hall 1 = ∅) as Hno by (vm_compute; reflexivity).
  split.
  - split. exists (λ _, []). split; [by constructor|]. destruct demo_served as [_ _ Hnd]. split; [| |exact Hnd].
    + repeat constructor; try reflexivity; eexists; split_and!; reflexivity.
    + repeat constructor; [exists demo_owned, None, []|exists demo_other, None, []]; by split_and!.
  - reflexivity.
  - apply (bool_decide_unpack _); vm_compute; done.
  - by exists (mkZone 1 ∅).
  - reflexivity.
  - rewrite Hno. done.
  - rewrite Hno. intros it s Hit Hs. repeat (apply elem_of_cons in Hit as [->|Hit]); [vm_compute in Hs; injection Hs as <-..|by apply elem_of_nil in Hit];
      (split; [vm_compute; intuition discriminate|done]).
  - done.
  - rewrite Hno. done.
Qed.

(** Both enter, and session 10 moves: the picture of session 11's client. *)
Definition demo_said : list (Z * c2s) :=
  [(10, C_ENTER demo_enter); (11, C_ENTER (mkCS_P_ENTER 101)); (10, C_MOVE (mkCS_P_MOVE 3 4))].
Definition demo_said_frames : list (list Z) := (λ um, frame (c2s_payload um.2) 0 0) <$> demo_said.
Lemma zone_agrees_witness :
  ∃ w0 sw told' fr n s' vw ch,
    CharacterMgr_init demo_linked = Ok (tt, w0) ∧
    st_each turn (zip demo_said.*1 demo_said_frames) demo_hall = Ok (tt, sw) ∧
    Forall2 framed (s2c_payload <$> told' 2) fr ∧ drain 2 (λ _, 3) (length (mjoin fr)) (sw_net sw, []) = Ok (n, mjoin fr) ∧
    cli_run 7 1 (mkCliConn w0 [] None) (at_once fr) = Ok s' ∧ client_ok (cc_world s') vw ∧
    character_of 100 vw = Some ch ∧ GetPos ch = (3, 4).
Proof.
  destruct demo_connected as (w0 & E0 & Hcn & Hu).
  destruct (zone_agrees demo_os demo_os_laws demo_os demo_os_laws demo_hall demo_people (λ p, p - 9) (λ _, []) (λ _, []) 0
    (λ _, mkView Character_new ∅) demo_said demo_said_frames demo_accepts demo_game) as (sw & told' & E & _ & Hmember).
  - repeat constructor; try (vm_compute; set_solver); vm_compute; intuition discriminate.
  - repeat constructor; by exists 0.
  - reflexivity.
  - assert ((λ r, (zone_members r.2 1, sw_sessions r.2 !! 10)) <$> st_each turn (zip demo_said.*1 demo_said_frames) demo_hall =
      Ok ({[ 100 := 10; 101 := 11 ]}, Some (set_nub (mkCharacter 7 100 (mkPosition 1 3 4)) (demo_session 1 100 1)))) as Ew
      by (vm_compute; reflexivity).
    rewrite E in Ew. injection Ew as Hz Hs.
    destruct (Hmember 101 11 (λ _, 3) 7 1 w0 None) as (fr & n & s' & vw & Hfr & Ed & _ & Ec & Hok & Hall).
    + rewrite Hz. reflexivity.
    + exact demo_accepts.
    + exact demo_recvs.
    + exact Hcn.
    + rewrite Hu. reflexivity.
    + reflexivity.
    + destruct (Hall 100 10) as (s & ch & Hs' & Hch & Hpos); [rewrite Hz; reflexivity|].
      rewrite Hs in Hs'. injection Hs' as <-.
      exists w0, sw, told', fr, n, s', vw, ch. split_and!; [exact E0|exact E|exact Hfr|exact Ed|exact Ec|exact Hok|exact Hch|exact Hpos].
Defined.

(** Session 10 enters and moves away at once. *)
Definition demo_far : CS_P_MOVE := mkCS_P_MOVE 2000 4.
Lemma move_overtakes_enter_witness :
  ∃ w' told' s x y list ch,
    (_ ← MessageProcess 10 demo_enter_bytes (zlen demo_enter_bytes); turn (10, frame (c2s_payload (C_MOVE demo_far)) 0 0)) demo_hall = Ok (tt, w') ∧
    sw_sessions w' !! 10 = Some s ∧ GetPos (_nub s) = (2000, 4) ∧
    told' 1 = [S_MOVE (mkSC_P_MOVE 100 2000 4); S_ENTER (mkSC_P_ENTER 100 x y)] ++ list ∧
    character_of 100 (picture (λ _, mkView Character_new ∅) told' 1) = Some ch ∧ GetPos ch = (x, y) ∧
    ¬ shown w' 100 10 (picture (λ _, mkView Character_new ∅) told' 1).
Proof.
  destruct (move_overtakes_enter demo_hall demo_people (λ p, p - 9) (λ _, []) (λ _, []) 0 (λ _, mkView Character_new ∅) (100, 10)
    demo_enter demo_far demo_enter_bytes (frame (c2s_payload (C_MOVE demo_far)) 0 0) demo_accepts demo_game)
    as (w' & told' & s & x & y & E & _ & _ & _ & Hz & Hs & Hpos & Hxy & Hall).
  - apply list_elem_of_here.
  - vm_compute; intuition discriminate.
  - vm_compute; intuition discriminate.
  - by exists 0.
  - by exists 0.
  - reflexivity.
  - destruct (Hall 100 10 Hz) as ((list & Ht & _) & (ch & Hch & Hp) & Hno).
    exists w', told', s, x, y, list, ch. split_and!; [exact E|exact Hs|exact Hpos|exact Ht|exact Hch|exact Hp|].
    apply Hno. intros [= Ex _]. cbn in Ex. lia.
Defined.

(** Both are in the zone; 10 leaves, 11 leaves, 10 comes back. *)
Definition demo_meeting : list (Z * c2s) := [(10, C_ENTER demo_enter); (11, C_ENTER (mkCS_P_ENTER 101))].
Lemma ghost_stays_witness :
  ∃ w told w' told',
    zone_members w 1 !! 101 = Some 11 ∧
    st_each turn [(10, frame (c2s_payload (C_LEAVE (mkCS_P_LEAVE 0))) 0 0); (11, frame (c2s_payload (C_LEAVE (mkCS_P_LEAVE 0))) 0 0);
      (10, demo_enter_bytes)] w = Ok (tt, w') ∧
    game w' demo_people (λ p, p - 9) (λ _, []) told' (8 + 12) (λ _, mkView Character_new ∅) ∧ grows 8 (λ _, []) told ∧
    zone_members w' 1 !! 101 = None ∧
    ∃ ch, character_of 101 (picture (λ _, mkView Character_new ∅) told' 1) = Some ch.
Proof.
  destruct (turns_ok demo_people (λ p, p - 9) (λ _, []) (λ _, mkView Character_new ∅) demo_meeting
    ((λ um, frame (c2s_payload um.2) 0 0) <$> demo_meeting) demo_hall (λ _, []) 0 demo_accepts demo_game) as (w & told & E & Hgr & Hg).
  - repeat constructor; try (vm_compute; set_solver); vm_compute; intuition discriminate.
  - repeat constructor; by exists 0.
  - reflexivity.
  - assert ((λ r, zone_members r.2 1) <$> st_each turn (zip demo_meeting.*1 ((λ um, frame (c2s_payload um.2) 0 0) <$> demo_meeting)) demo_hall =
      Ok {[ 100 := 10; 101 := 11 ]}) as Ew by (vm_compute; reflexivity).
    rewrite E in Ew. injection Ew as Hz.
    destruct (ghost_stays w demo_people (λ p, p - 9) (λ _, []) told 8 (λ _, mkView Character_new ∅) (100, 10) (101, 11)
      (mkCS_P_LEAVE 0) (mkCS_P_LEAVE 0) demo_enter (frame (c2s_payload (C_LEAVE (mkCS_P_LEAVE 0))) 0 0)
      (frame (c2s_payload (C_LEAVE (mkCS_P_LEAVE 0))) 0 0) demo_enter_bytes demo_accepts Hg)
      as (w' & told' & E' & Hg' & _ & Hno & ch & Hch).
    + rewrite Hz. reflexivity.
    + rewrite Hz. reflexivity.
    + discriminate.
    + vm_compute; intuition discriminate.
    + by exists 0.
    + vm_compute; intuition discriminate.
    + by exists 0.
    + vm_compute; intuition discriminate.
    + by exists 0.
    + reflexivity.
    + exists w, told, w', told'. split_and!; [by rewrite Hz|exact E'|exact Hg'|exact Hgr|exact Hno|by exists ch].
Defined.
