(* ===== verification/Locks.v ===== *)
(** * Locks: _lib/safe_lock.h, and the order in which the server takes them
    A [SafeLock] holds a shared_mutex, for reading or for writing, until the
    end of its block.  What a function does to the locks is the list of its
    acquisitions and releases; a state is what every thread holds and has
    still to do. *)
From S2P Require Import Prelude.

Inductive lock : Set :=
| L_UserSessionMgr | L_ZoneMgr | L_ConnectorMgr
| L_Session (p : Z) | L_Zone (p : Z) | L_CommandQueue | L_SendQueue (c : Z) | L_PacketQueue (phase : Z).
#[export] Instance lock_eq_dec : EqDecision lock.
Proof. solve_decision. Defined.

Inductive lock_op := Acq (l : lock) (readOnly : bool) | Rel (l : lock).
(** A block that begins with [SafeLock lock(l, readOnly)]. *)
Definition SafeLock (l : lock) (readOnly : bool) (body : list lock_op) : list lock_op :=
  Acq l readOnly :: body ++ [Rel l].
Definition guarded (l : lock) : list lock_op := SafeLock l false [].

(** ** The locks of the server's functions

    [prepared] tells whether [SendPrepare] gets as far as its lock, [beat]
    whether a heartbeat is sent, [inZone] whether the session is in a zone. *)
Definition locks_AddSendData (c : Z) (prepared : bool) : list lock_op :=
  guarded (L_SendQueue c) ++ (if prepared then guarded (L_SendQueue c) else []).
Definition locks_Add : list lock_op := guarded L_CommandQueue.
Definition locks_TryRelease (pooled : bool) : list lock_op := if pooled then guarded L_ConnectorMgr else [].
Definition locks_DoUpdate (p c : Z) (beat prepared : bool) : list lock_op :=
  SafeLock (L_Session p) false (if beat then locks_AddSendData c prepared else []).
Definition locks_Release (p : Z) (inZone : bool) : list lock_op :=
  (if inZone then SafeLock (L_Session p) false locks_Add else []) ++ locks_TryRelease true.

(** One entry of the manager's lists: session, connector, and the flags. *)
Record update_of := mkUpdateOf { uo_p : Z; uo_c : Z; uo_beat : bool; uo_prepared : bool }.
Definition locks_MgrDoUpdate (used : list update_of) (released : list (Z * bool)) : list lock_op :=
  SafeLock L_UserSessionMgr false
    (mjoin ((λ u, locks_DoUpdate (uo_p u) (uo_c u) (uo_beat u) (uo_prepared u)) <$> used)) ++
  guarded L_UserSessionMgr ++
  mjoin ((λ r, locks_Release r.1 r.2) <$> released) ++
  mjoin ((λ _, guarded L_UserSessionMgr ++ guarded L_UserSessionMgr) <$> released).
Definition locks_PacketBroadcast (zone : Z) (members : nat) : list lock_op :=
  SafeLock (L_Zone zone) false (mjoin (replicate members locks_Add)).

Definition locks_C2S_Auth (p c : Z) (prepared : bool) : list lock_op :=
  SafeLock (L_Session p) false (guarded L_UserSessionMgr ++ locks_AddSendData c prepared).

Inductive operation :=
| Op_Auth (p c : Z) (prepared : bool)
| Op_Handler (p : Z) (readOnly adds : bool)           (** the other packet handlers *)
| Op_NewSession                                       (** UserSessionMgr::GetFreeObject *)
| Op_Pop (phase : Z) | Op_Push (phase : Z)            (** the packet queue *)
| Op_Write (c : Z) (prepared : bool)
| Op_MgrDoUpdate (used : list update_of) (released : list (Z * bool))
| Op_Swap                                             (** CommandUnitQueue::SwapOpList *)
| Op_Broadcast (zone : Z) (members : nat)
| Op_SendToUser (c : Z) (prepared : bool)
| Op_Enter (zone : Z) | Op_Leave (zone : Z)
| Op_CharacterList (zone : Z) (packets : nat).

Definition locks_of (o : operation) : list lock_op :=
  match o with
  | Op_Auth p c prepared => locks_C2S_Auth p c prepared
  | Op_Handler p readOnly adds => SafeLock (L_Session p) readOnly (if adds then locks_Add else [])
  | Op_NewSession => guarded L_UserSessionMgr
  | Op_Pop phase | Op_Push phase => guarded (L_PacketQueue phase)
  | Op_Write c prepared => locks_AddSendData c prepared
  | Op_MgrDoUpdate used released => locks_MgrDoUpdate used released
  | Op_Swap => guarded L_CommandQueue
  | Op_Broadcast zone members => guarded L_ZoneMgr ++ locks_PacketBroadcast zone members
  | Op_SendToUser c prepared => guarded L_UserSessionMgr ++ locks_AddSendData c prepared
  | Op_Enter zone => guarded L_UserSessionMgr ++ SafeLock L_ZoneMgr false (guarded (L_Zone zone)) ++ locks_Add ++ locks_Add
  | Op_Leave zone => guarded L_UserSessionMgr ++ SafeLock L_ZoneMgr false (guarded (L_Zone zone)) ++ locks_Add
  | Op_CharacterList zone packets =>
      guarded L_UserSessionMgr ++ guarded L_ZoneMgr ++ guarded (L_Zone zone) ++ mjoin (replicate packets locks_Add)
  end.
Definition is_auth (o : operation) : bool := match o with Op_Auth _ _ _ => true | _ => false end.

(** ** Threads *)
Record lk_thread := mkThread { th_held : list (lock * bool); th_rest : list lock_op }.
Abbreviation lk_state := (list lk_thread).
Definition start (programs : list (list operation)) : lk_state :=
  (λ ops, mkThread [] (mjoin (locks_of <$> ops))) <$> programs.

(** A shared_mutex: many readers or one writer, whoever they are. *)
Definition compatible (l : lock) (readOnly : bool) (h : lock * bool) : bool :=
  negb (bool_decide (h.1 = l)) || (readOnly && h.2).
Definition available (s : lk_state) (l : lock) (readOnly : bool) : bool :=
  forallb (λ t, forallb (compatible l readOnly) (th_held t)) s.
Fixpoint drop_lock (l : lock) (held : list (lock * bool)) : list (lock * bool) :=
  match held with
  | [] => []
  | h :: held' => if bool_decide (h.1 = l) then held' else h :: drop_lock l held'
  end.
(** A step of thread [i], if it is not blocked. *)
Definition lk_exec (s : lk_state) (i : nat) : option lk_state :=
  t ← s !! i;
  match th_rest t with
  | [] => None
  | Acq l ro :: rest =>
      if available s l ro then Some (<[i := mkThread ((l, ro) :: th_held t) rest]> s) else None
  | Rel l :: rest => Some (<[i := mkThread (drop_lock l (th_held t)) rest]> s)
  end.
Fixpoint lk_run (s : lk_state) (sched : list nat) : option lk_state :=
  match sched with
  | [] => Some s
  | i :: sched' => s' ← lk_exec s i; lk_run s' sched'
  end.
Definition finished (s : lk_state) : Prop := Forall (λ t, th_rest t = []) s.

(** ** Programs that follow an order *)
Definition rank (l : lock) : Z :=
  match l with
  | L_UserSessionMgr => 0 | L_Session _ => 1 | L_ZoneMgr => 1 | L_Zone _ => 2
  | L_CommandQueue | L_SendQueue _ | L_PacketQueue _ | L_ConnectorMgr => 3
  end.
Definition below (r : Z) (held : list lock) : Prop := Forall (λ h, rank h < r) held.
Fixpoint ordered (held : list lock) (prog : list lock_op) : Prop :=
  match prog with
  | [] => held = []
  | Acq l _ :: prog' => below (rank l) held ∧ ordered (l :: held) prog'
  | Rel l :: prog' => match held with h :: held' => h = l ∧ ordered held' prog' | [] => False end
  end.
(** A piece of program that takes locks from rank [r] on and gives them back. *)
Definition nested (r : Z) (prog : list lock_op) : Prop :=
  ∀ held rest, below r held → ordered held rest → ordered held (prog ++ rest).

Create HintDb nested.
Lemma nested_nil r : nested r [].
Proof. by intros held rest. Qed.
Lemma nested_app r p q : nested r p → nested r q → nested r (p ++ q).
Proof. intros Hp Hq held rest Hh Hr. rewrite <-app_assoc. auto. Qed.
Lemma nested_SafeLock r l ro body : r ≤ rank l → nested (rank l + 1) body → nested r (SafeLock l ro body).
Proof.
  intros Hr Hb held rest Hh Hrest. unfold SafeLock. cbn [app ordered]. rewrite <-app_assoc.
  assert (below (rank l) held) as Hl by (eapply Forall_impl; [exact Hh|]; cbn; intros; lia).
  split; [done|]. apply Hb; [|by split].
  constructor; [lia|]. eapply Forall_impl; [exact Hl|]. cbn. intros; lia.
Qed.
Lemma nested_join r ps : Forall (nested r) ps → nested r (mjoin ps).
Proof. induction 1 as [|p ps Hp _ IH]; [apply nested_nil|]. by apply nested_app. Qed.
Lemma nested_if r (b : bool) p q : nested r p → nested r q → nested r (if b then p else q).
Proof. by destruct b. Qed.
Lemma nested_map {A} r (f : A → list lock_op) l : (∀ x, nested r (f x)) → nested r (mjoin (f <$> l)).
Proof. intros Hf. apply nested_join, Forall_fmap, Forall_true. intros x. apply Hf. Qed.
Lemma nested_replicate r k p : nested r p → nested r (mjoin (replicate k p)).
Proof. intros. by apply nested_join, Forall_replicate. Qed.
Ltac nested_tac :=
  repeat first
    [ apply nested_nil | apply nested_app | apply nested_if | apply nested_map; intros ? | apply nested_replicate
    | apply nested_SafeLock; [cbn [rank]; lia|cbn [rank]] ].

Lemma locks_of_nested o : is_auth o = false → nested 0 (locks_of o).
Proof.
  intros Ho. destruct o; try done; cbn [locks_of];
    unfold locks_MgrDoUpdate, locks_DoUpdate, locks_Release, locks_TryRelease, locks_PacketBroadcast,
      locks_AddSendData, locks_Add, guarded; nested_tac.
Qed.

(** ** Ordered programs do not deadlock *)
Definition th_ordered (t : lk_thread) : Prop := ordered (th_held t).*1 (th_rest t).

Lemma start_ordered programs :
  Forall (Forall (λ o, is_auth o = false)) programs → Forall th_ordered (start programs).
Proof.
  intros Hp. apply Forall_fmap. eapply Forall_impl; [exact Hp|]. intros ops Hops.
  unfold th_ordered, compose. cbn [th_held th_rest fmap list_fmap].
  rewrite <-(app_nil_r (mjoin _)). apply (nested_join 0); [|constructor|done].
  apply Forall_fmap. eapply Forall_impl; [exact Hops|]. intros o. apply locks_of_nested.
Qed.

Lemma exec_ordered s i s' : Forall th_ordered s → lk_exec s i = Some s' → Forall th_ordered s'.
Proof.
  intros Hs E. unfold lk_exec in E. destruct (s !! i) as [t|] eqn:Ht; cbn in E; [|done].
  assert (th_ordered t) as Ho by (rewrite Forall_lookup in Hs; by eapply Hs).
  unfold th_ordered in Ho. destruct (th_rest t) as [|[l ro|l] rest]; [done| |].
  - destruct (available s l ro); [|done]. injection E as <-.
    apply Forall_insert; [done|]. unfold th_ordered. cbn. by destruct Ho.
  - injection E as <-. apply Forall_insert; [done|]. unfold th_ordered. cbn [th_held th_rest].
    destruct (th_held t) as [|h held]; cbn [fmap list_fmap ordered] in Ho; [done|]. destruct Ho as [Hh Ho].
    cbn [drop_lock]. by rewrite bool_decide_true.
Qed.
Lemma run_ordered sched : ∀ s s', Forall th_ordered s → lk_run s sched = Some s' → Forall th_ordered s'.
Proof.
  induction sched as [|i sched IH]; intros s s' Hs E; [by injection E as ->|].
  cbn [lk_run] in E. destruct (lk_exec s i) as [s1|] eqn:E1; [|done]. cbn [mbind option_bind] in E.
  apply (IH s1); [by eapply exec_ordered|done].
Qed.

(** A blocked thread waits for a lock that a thread waiting for more holds. *)
Lemma not_available s l ro :
  available s l ro = false → ∃ j t, s !! j = Some t ∧ l ∈ (th_held t).*1.
Proof.
  intros Ha. unfold available in Ha. apply not_true_iff_false in Ha.
  destruct (decide (Exists (λ t, l ∈ (th_held t).*1) s)) as [Hex|Hno].
  - apply Exists_exists in Hex as (t & Hin & Hl). apply list_elem_of_lookup in Hin as [j Hj]. eauto.
  - exfalso. apply Ha, forallb_forall. intros t Hin. apply forallb_forall. intros h Hh.
    unfold compatible. rewrite bool_decide_false; [done|]. intros E. apply Hno, Exists_exists.
    exists t. apply list_elem_of_In in Hin, Hh. split; [done|]. apply list_elem_of_fmap. eauto.
Qed.

Lemma blocked_chain s : Forall th_ordered s → (∀ i, lk_exec s i = None) →
  ∀ k i t l ro rest, s !! i = Some t → th_rest t = Acq l ro :: rest → 3 - rank l < Z.of_nat k → False.
Proof.
  intros Hs Hstuck. induction k as [|k IH]; intros i t l ro rest Hi Hr Hk.
  { destruct l; cbn [rank] in Hk; lia. }
  pose proof (Hstuck i) as Hb. unfold lk_exec in Hb. rewrite Hi in Hb. cbn [mbind option_bind] in Hb. rewrite Hr in Hb.
  destruct (available s l ro) eqn:Ha; [done|]. destruct (not_available s l ro Ha) as (j & t' & Hj & Hl).
  assert (th_ordered t') as Ho by (rewrite Forall_lookup in Hs; by eapply Hs). unfold th_ordered in Ho.
  pose proof (Hstuck j) as Hb'. unfold lk_exec in Hb'. rewrite Hj in Hb'. cbn [mbind option_bind] in Hb'.
  destruct (th_rest t') as [|[l' ro'|l'] rest'] eqn:Hr'; cbn [ordered] in Ho.
  - rewrite Ho in Hl. by apply not_elem_of_nil in Hl.
  - destruct Ho as [Hbelow _]. unfold below in Hbelow. rewrite Forall_forall in Hbelow.
    pose proof (Hbelow _ Hl). apply (IH j t' l' ro' rest' Hj Hr'). lia.
  - done.
Qed.

Lemma ordered_progress s : Forall th_ordered s → ¬ finished s → ∃ i s', lk_exec s i = Some s'.
Proof.
  intros Hs Hf. destruct (decide (Exists (λ i, is_Some (lk_exec s i)) (seq 0 (length s)))) as [Hex|Hno].
  { apply Exists_exists in Hex as (i & _ & [s' E]). eauto. }
  exfalso. assert (∀ i, lk_exec s i = None) as Hstuck.
  { intros i. destruct (lk_exec s i) as [s'|] eqn:E; [|done]. exfalso. apply Hno, Exists_exists. exists i.
    rewrite E. split; [|eauto]. apply elem_of_seq. unfold lk_exec in E.
    destruct (s !! i) as [t|] eqn:Hi; [|done]. apply lookup_lt_Some in Hi. lia. }
  apply Hf, Forall_forall. intros t Hin. apply list_elem_of_lookup in Hin as [i Hi].
  destruct (th_rest t) as [|[l ro|l] rest] eqn:Hr; [done| |].
  - exfalso. apply (blocked_chain s Hs Hstuck (Z.to_nat (4 - rank l)) i t l ro rest Hi Hr).
    destruct l; cbn [rank]; lia.
  - specialize (Hstuck i). unfold lk_exec in Hstuck. rewrite Hi in Hstuck. cbn [mbind option_bind] in Hstuck.
    by rewrite Hr in Hstuck.
Qed.

(** C19: apart from [C2S_Auth], the server's locks are taken in one order.  Any
    number of threads that run any sequences of its operations, interleaved in
    any way, never deadlock: as long as one of them has something left to do,
    one of them can go on. *)
Theorem locks_progress programs sched s :
  Forall (Forall (λ o, is_auth o = false)) programs → lk_run (start programs) sched = Some s →
  ¬ finished s → ∃ i s', lk_exec s i = Some s'.
Proof. intros Hp Hr. by apply ordered_progress, (run_ordered sched (start programs)); [apply start_ordered|]. Qed.
(** A session's update without a heartbeat. *)
Definition quiet (p : Z) : update_of := mkUpdateOf p 0 false false.
Lemma locks_progress_witness :
  ∃ i s', lk_exec (start [[Op_MgrDoUpdate [quiet 10; quiet 11] [(12, true)]; Op_Swap; Op_Broadcast 20 2];
                          [Op_Pop 0; Op_Handler 10 false true]]) i = Some s'.
Proof.
  apply (locks_progress [[Op_MgrDoUpdate [quiet 10; quiet 11] [(12, true)]; Op_Swap; Op_Broadcast 20 2];
                          [Op_Pop 0; Op_Handler 10 false true]] []).
  - repeat constructor.
  - reflexivity.
  - intros Hf. inversion Hf as [|? ? H1 _]. discriminate H1.
Defined.

(** ** C2S_Auth and the update of the sessions *)
Definition deadlocked (s : lk_state) : Prop := ¬ finished s ∧ ∀ i, lk_exec s i = None.

Lemma run_acq s i sched held l ro rest :
  s !! i = Some (mkThread held (Acq l ro :: rest)) → available s l ro = true →
  lk_run s (i :: sched) = lk_run (<[i := mkThread ((l, ro) :: held) rest]> s) sched.
Proof. intros Hi Ha. cbn [lk_run]. unfold lk_exec. rewrite Hi. cbn. by rewrite Ha. Qed.
Lemma run_rel s i sched held l rest :
  s !! i = Some (mkThread held (Rel l :: rest)) →
  lk_run s (i :: sched) = lk_run (<[i := mkThread (drop_lock l held) rest]> s) sched.
Proof. intros Hi. cbn [lk_run]. unfold lk_exec. by rewrite Hi. Qed.

(** The update thread passes the sessions before the one that is locked. *)
Lemma pass_sessions pre p rest auth :
  Forall (λ q, q ≠ p) pre →
  lk_run [mkThread [(L_Session p, false)] auth;
      mkThread [(L_UserSessionMgr, false)]
        (mjoin ((λ u, locks_DoUpdate (uo_p u) (uo_c u) (uo_beat u) (uo_prepared u)) <$> (quiet <$> pre)) ++ rest)]
    (mjoin (replicate (length pre) [1%nat; 1%nat])) =
  Some [mkThread [(L_Session p, false)] auth; mkThread [(L_UserSessionMgr, false)] rest].
Proof.
  intros Hpre. induction Hpre as [|q pre Hq _ IH]; [done|].
  cbn [length replicate mjoin list_join fmap list_fmap]. cbn [app].
  set (tl := mjoin ((λ u, locks_DoUpdate (uo_p u) (uo_c u) (uo_beat u) (uo_prepared u)) <$> (quiet <$> pre))) in *.
  unfold locks_DoUpdate, quiet, SafeLock. cbn [uo_beat uo_p app].
  erewrite run_acq; [|reflexivity|].
  2:{ unfold available. cbn [forallb th_held]. unfold compatible. cbn [fst snd].
      by rewrite !bool_decide_false by congruence. }
  cbn [insert list_insert]. erewrite run_rel by reflexivity. cbn [insert list_insert drop_lock fst].
  rewrite bool_decide_true by done. exact IH.
Qed.

(** C32: [C2S_Auth] takes the lock of its session and then that of the manager;
    [UserSessionMgr::DoUpdate] holds the manager's lock while it takes the lock
    of every session in use.  Whenever the session that authenticates is one of
    them, wherever it is in the list, there is an interleaving after which
    neither thread can go on. *)
Theorem auth_update_deadlock p c prepared pre post released :
  Forall (λ q, q ≠ p) pre →
  ∃ sched s,
    lk_run (start [[Op_Auth p c prepared]; [Op_MgrDoUpdate ((quiet <$> pre) ++ quiet p :: post) released]]) sched = Some s ∧
    deadlocked s.
Proof.
  intros Hpre. eexists ([0%nat; 1%nat] ++ mjoin (replicate (length pre) [1%nat; 1%nat])), _.
  unfold start. cbn [fmap list_fmap locks_of mjoin list_join]. rewrite !app_nil_r.
  unfold locks_C2S_Auth, locks_MgrDoUpdate at 1, SafeLock at 1 2. cbn [app].
  erewrite run_acq by reflexivity. cbn [insert list_insert].
  erewrite run_acq by reflexivity. cbn [insert list_insert].
  rewrite fmap_app, join_app. cbn [fmap list_fmap mjoin list_join].
  rewrite <-!app_assoc.
  rewrite pass_sessions by done.
  split; [reflexivity|]. split.
  - intros Hf. inversion Hf as [|? ? H1 _]. discriminate H1.
  - intros [|[|i]]; [| |reflexivity]; unfold lk_exec; cbn [lookup list_lookup mbind option_bind th_rest th_held].
    + unfold guarded, SafeLock. cbn [app]. unfold available. cbn [forallb th_held]. unfold compatible. cbn [fst snd andb orb].
      rewrite (bool_decide_true (L_UserSessionMgr = L_UserSessionMgr)) by done. cbn [negb orb andb]. by rewrite andb_false_r.
    + unfold locks_DoUpdate, SafeLock. cbn [uo_p quiet app]. unfold available. cbn [forallb th_held]. unfold compatible.
      cbn [fst snd andb orb]. rewrite (bool_decide_true (L_Session p = L_Session p)) by done. done.
Qed.
Lemma auth_update_deadlock_witness :
  ∃ sched s,
    lk_run (start [[Op_Auth 11 2 true]; [Op_MgrDoUpdate ((quiet <$> [10]) ++ quiet 11 :: [quiet 12]) []]]) sched = Some s ∧
    deadlocked s.
Proof. apply (auth_update_deadlock 11 2 true [10] [quiet 12] []). repeat constructor. discriminate. Defined.
